(** * uapi-json: the Air response parser and the ticketing workflow

    A shallow embedding of [src/Services/Air/AirParser.js] (fare-calculation
    parsing, the passenger histogram, the uAPI error handlers, ticket and
    booking extraction) and of the ticketing retry workflow, together with
    the properties the design document states about them.

    Conventions of the embedding.
    - A JavaScript string is a [string]; each [ascii] stands for one UTF-16
      code unit in the range 0..255.
    - [undefined] is [None] of an [option]; an attribute that the XML layer
      delivers as text is a [string].
    - A function that may [throw] returns a [result]; a handler that always
      throws returns the thrown error itself.
    - A plain JavaScript object whose key order is observable is an
      association list in property-creation order ([jsobj]); [obj_keys]
      implements the enumeration order of [Object.keys]. An object that is
      only read by key is a [gmap]. Both hold own properties only: keys that
      name a property of [Object.prototype] are outside the model. *)

From Stdlib Require Import ZArith NArith Ascii String List Bool Lia.
From Stdlib Require Import Sorting.Permutation Sorting.Sorted.
From stdpp Require Import base option list gmap strings.

Local Open Scope string_scope.
Local Open Scope list_scope.
Local Open Scope nat_scope.

(** ** Results of functions that may throw *)

Inductive result (E A : Type) : Type :=
| Ok (a : A)
| Throw (e : E).
Arguments Ok {E A} a.
Arguments Throw {E A} e.

Definition rbind {E A B} (r : result E A) (k : A -> result E B) : result E B :=
  match r with
  | Ok a => k a
  | Throw e => Throw e
  end.

Notation "'do' x <- c1 ; c2" := (rbind c1 (fun x => c2))
  (at level 10, x name, c1 at level 100, c2 at level 200).

(** [Array.prototype.map] with a callback that may throw: the first throwing
    element aborts the whole map. *)
Fixpoint rmap {E A B} (f : A -> result E B) (l : list A) : result E (list B) :=
  match l with
  | [] => Ok []
  | x :: l' => do y <- f x; do ys <- rmap f l'; Ok (y :: ys)
  end.

(** ** Characters and the regular expressions of the parser *)

Module Re.

(** [\s] restricted to code units below 256: TAB, LF, VT, FF, CR, SPACE and
    NO-BREAK SPACE. *)
Definition is_space (c : ascii) : bool :=
  let n := nat_of_ascii c in
  ((9 <=? n) && (n <=? 13)) || (n =? 32) || (n =? 160).

(** [\d] *)
Definition is_digit (c : ascii) : bool :=
  let n := nat_of_ascii c in (48 <=? n) && (n <=? 57).

Definition is_upper (c : ascii) : bool :=
  let n := nat_of_ascii c in (65 <=? n) && (n <=? 90).

Definition is_lower (c : ascii) : bool :=
  let n := nat_of_ascii c in (97 <=? n) && (n <=? 122).

(** [[a-z]] under the [i] flag *)
Definition is_alpha (c : ascii) : bool := is_upper c || is_lower c.

(** [[A-Z0-9]] *)
Definition is_upper_alnum (c : ascii) : bool := is_upper c || is_digit c.

(** Canonicalisation of the [i] flag: below 256 only the ASCII letters have
    a case partner that a pattern of ASCII letters can match. *)
Definition fold_case (c : ascii) : ascii :=
  if is_lower c then ascii_of_nat (nat_of_ascii c - 32) else c.

Definition ascii_eqb_ci (a b : ascii) : bool :=
  Ascii.eqb (fold_case a) (fold_case b).

(** [s] starts with the literal [p]. *)
Fixpoint starts_with (p s : string) : bool :=
  match p, s with
  | EmptyString, _ => true
  | String a p', String b s' => Ascii.eqb a b && starts_with p' s'
  | String _ _, EmptyString => false
  end.

(** [s] starts with the literal [p], case-insensitively. *)
Fixpoint starts_with_ci (p s : string) : bool :=
  match p, s with
  | EmptyString, _ => true
  | String a p', String b s' => ascii_eqb_ci a b && starts_with_ci p' s'
  | String _ _, EmptyString => false
  end.

(** [/p/.test(s)] for a literal pattern [p]. *)
Fixpoint contains (p s : string) : bool :=
  starts_with p s ||
  match s with
  | EmptyString => false
  | String _ s' => contains p s'
  end.

(** [/p/i.test(s)] for a literal pattern [p]. *)
Fixpoint contains_ci (p s : string) : bool :=
  starts_with_ci p s ||
  match s with
  | EmptyString => false
  | String _ s' => contains_ci p s'
  end.

Fixpoint drop (n : nat) (s : string) : string :=
  match n, s with
  | O, _ => s
  | S n', String _ s' => drop n' s'
  | S _, EmptyString => EmptyString
  end.

(** The longest run of characters satisfying [p] at the head of [s], and
    what follows it. *)
Fixpoint span (p : ascii -> bool) (s : string) : string * string :=
  match s with
  | EmptyString => (EmptyString, EmptyString)
  | String c s' =>
      if p c then let '(a, b) := span p s' in (String c a, b)
      else (EmptyString, s)
  end.

Fixpoint all_chars (p : ascii -> bool) (s : string) : bool :=
  match s with
  | EmptyString => true
  | String c s' => p c && all_chars p s'
  end.

End Re.

(** ** parseFareCalculation *)

Module FareCalc.
Import Re.

(** [END($|\s)] matches at the head of [s]. *)
Definition end_marker_here (s : string) : bool :=
  match s with
  | String "E"%char (String "N"%char (String "D"%char r)) =>
      match r with
      | EmptyString => true
      | String c _ => is_space c
      end
  | _ => false
  end.

(** The longest [p], possibly empty, with [s = p ++ r] and the end marker at
    the head of [r]: the greedy group tries the rightmost marker first. *)
Fixpoint greedy_before_end (s : string) : option string :=
  match s with
  | EmptyString => None
  | String c s' =>
      match greedy_before_end s' with
      | Some p => Some (String c p)
      | None => if end_marker_here s then Some EmptyString else None
      end
  end.

(** [str.match(fareCalculationPattern)], reduced to its capture group:
    [/^([\s\S]+)END($|\s)/]. The group takes at least one character. *)
Definition fareCalculationPattern (str : string) : option string :=
  match str with
  | EmptyString => None
  | String c s' => option_map (String c) (greedy_before_end s')
  end.

(** [\d{2}[a-z]{3}\d{2}\s+] at the head of [s]; returns what follows. *)
Definition date_prefix (s : string) : option string :=
  match s with
  | String d1 (String d2 (String l1 (String l2 (String l3
      (String d3 (String d4 (String w r))))))) =>
      if is_digit d1 && is_digit d2 && is_alpha l1 && is_alpha l2
         && is_alpha l3 && is_digit d3 && is_digit d4 && is_space w
      then Some (snd (span is_space r))
      else None
  | _ => None
  end.

(** [(?:\d{2}[a-z]{3}\d{2}\s+)?([a-z]{3})] at the head of [s], reduced to
    its capture group. *)
Definition origin_here (s : string) : option string :=
  let s2 := match date_prefix s with Some r => r | None => s end in
  match s2 with
  | String a (String b (String c _)) =>
      if is_alpha a && is_alpha b && is_alpha c
      then Some (String a (String b (String c EmptyString)))
      else None
  | _ => None
  end.

(** [str.match(firstOriginPattern)], reduced to its capture group:
    [/^(?:s-)?(?:\d{2}[a-z]{3}\d{2}\s+)?([a-z]{3})/i]. *)
Definition firstOriginPattern (str : string) : option string :=
  origin_here (if starts_with_ci "s-" str then drop 2 str else str).

(** [((?:\d+\.)?\d+)] at the head of [s]. *)
Definition roe_number_here (s : string) : option string :=
  let '(d1, r) := span is_digit s in
  match d1 with
  | EmptyString => None
  | String _ _ =>
      match r with
      | String c r' =>
          if Ascii.eqb c "."%char then
            match fst (span is_digit r') with
            | EmptyString => Some d1
            | String _ _ as d2 => Some (d1 +:+ "." +:+ d2)
            end
          else Some d1
      | EmptyString => Some d1
      end
  end.

(** [str.match(/ROE((?:\d+\.)?\d+)/)], reduced to its capture group: the
    leftmost position at which the pattern matches. *)
Fixpoint roePattern (s : string) : option string :=
  match (if starts_with "ROE" s then roe_number_here (drop 3 s) else None) with
  | Some r => Some r
  | None =>
      match s with
      | EmptyString => None
      | String _ s' => roePattern s'
      end
  end.

(** [fareCalculation.replace(/\s*\(/, '.')]: the pattern has no [g] flag, so
    only the leftmost match is replaced. *)
Fixpoint replace_paren (s : string) : string :=
  let unchanged :=
    match s with
    | EmptyString => EmptyString
    | String c s' => String c (replace_paren s')
    end in
  match snd (span is_space s) with
  | String c r => if Ascii.eqb c "("%char then String "."%char r else unchanged
  | EmptyString => unchanged
  end.

Record t := mk {
  fareCalculation : string;
  firstOrigin : option string;
  roe : option string
}.

(** The only failure is the [TypeError] of indexing the [null] that
    [String.prototype.match] returns when the pattern does not match. *)
Inductive error := TypeError.

Definition parseFareCalculation (str : string) : result error t :=
  match fareCalculationPattern str with
  | None => Throw TypeError
  | Some fareCalculation =>
      Ok {| fareCalculation := replace_paren fareCalculation;
            firstOrigin := firstOriginPattern str;
            roe := roePattern str |}
  end.

End FareCalc.

(** ** Arrays and plain objects *)

Module Js.

(** [Array.prototype.sort]: a stable insertion sort; [le x y] says that the
    comparator does not put [y] before [x] (a result that is negative, zero
    or [NaN]). For a comparator that is a total preorder every stable sort
    returns this list. *)
Fixpoint insert_by {A} (le : A -> A -> bool) (x : A) (l : list A) : list A :=
  match l with
  | [] => [x]
  | y :: l' => if le x y then x :: l else y :: insert_by le x l'
  end.

Fixpoint sort_by {A} (le : A -> A -> bool) (l : list A) : list A :=
  match l with
  | [] => []
  | x :: l' => insert_by le x (sort_by le l')
  end.

(** A plain object: its own enumerable string-keyed properties in creation
    order. *)
Definition jsobj (V : Type) : Type := list (string * V).

(** [o[k]] *)
Fixpoint obj_get {V} (k : string) (o : jsobj V) : option V :=
  match o with
  | [] => None
  | (k', v) :: o' => if String.eqb k k' then Some v else obj_get k o'
  end.

(** [o[k] = v]: an existing property keeps its place, a new one is created
    last. *)
Fixpoint obj_set {V} (k : string) (v : V) (o : jsobj V) : jsobj V :=
  match o with
  | [] => [(k, v)]
  | (k', v') :: o' =>
      if String.eqb k k' then (k, v) :: o' else (k', v') :: obj_set k v o'
  end.

Fixpoint digits_value (acc : N) (s : string) : option N :=
  match s with
  | EmptyString => Some acc
  | String c s' =>
      if Re.is_digit c
      then digits_value (acc * 10 + (N_of_ascii c - 48))%N s'
      else None
  end.

(** A property key that is an array index: a canonical numeric string (no
    sign, no leading zero) whose value is below 2^32 - 1. *)
Definition array_index (k : string) : option N :=
  match k with
  | EmptyString => None
  | String c r =>
      if Ascii.eqb c "0"%char && negb (String.eqb r EmptyString) then None
      else match digits_value 0%N k with
           | Some n => if (n <? 4294967295)%N then Some n else None
           | None => None
           end
  end.

Definition is_index {V} (kv : string * V) : bool :=
  match array_index (fst kv) with Some _ => true | None => false end.

Definition index_le {V} (a b : string * V) : bool :=
  match array_index (fst a), array_index (fst b) with
  | Some m, Some n => (m <=? n)%N
  | _, _ => true
  end.

(** [Object.entries(o)]: array-index keys in ascending numeric order, then
    the other keys in creation order. *)
Definition obj_entries {V} (o : jsobj V) : list (string * V) :=
  sort_by index_le (List.filter is_index o)
  ++ List.filter (fun kv => negb (is_index kv)) o.

(** [Object.keys(o)] *)
Definition obj_keys {V} (o : jsobj V) : list string := List.map fst (obj_entries o).

(** [Object.values(o)] *)
Definition obj_values {V} (o : jsobj V) : list V := List.map snd (obj_entries o).

(** Modelled from the spec: [utils.firstInObj] is not among the sources;
    the design document speaks of the first fare component, so it is the
    value under the first enumerated key, [o[Object.keys(o)[0]]]. [None] is
    [undefined]. The callers that may pass [undefined] test their argument
    before they read the result ([fareInfo && firstFareInfo.TourCode]), so
    for [undefined] the result is [undefined]; they model that case
    themselves. *)
Definition firstInObj {V} (o : jsobj V) : option V :=
  match obj_keys o with
  | [] => None
  | k :: _ => obj_get k o
  end.

(** A string in a condition: [undefined] and the empty string are falsy. *)
Definition truthy (s : option string) : bool :=
  match s with
  | Some (String _ _) => true
  | _ => false
  end.

(** A value used as a property key: [undefined] becomes the string
    ["undefined"]. *)
Definition prop_key (k : option string) : string :=
  match k with
  | Some s => s
  | None => "undefined"
  end.

End Js.

(** ** countHistogram *)

Module Histogram.
Import Js.

(** The values an array handed to [countHistogram] may hold: [undefined], a
    string, or an object (with its identity [ref] and its [Code] property). *)
Inductive value :=
| Undefined
| Str (s : string)
| Object (ref : nat) (Code : option string).

(** What the caller passes: an array, or something that is not an array. *)
Inductive arg :=
| NotArray
| Array (l : list value).

Inductive error :=
| HistogramTypeInvalid
| TypeError.

(** [Object.prototype.toString.call(v) === '[object Object]'] *)
Definition is_plain_object (v : option value) : bool :=
  match v with
  | Some (Object _ _) => true
  | _ => false
  end.

(** [elem.Code]; reading a property of [undefined] throws. *)
Definition get_Code (elem : value) : result error value :=
  match elem with
  | Undefined => Throw TypeError
  | Str _ => Ok Undefined
  | Object _ (Some c) => Ok (Str c)
  | Object _ None => Ok Undefined
  end.

(** [String(v)], which is also [v] used as a property key. *)
Definition to_string (v : value) : string :=
  match v with
  | Undefined => "undefined"
  | Str s => s
  | Object _ _ => "[object Object]"
  end.

(** The default sort order: [undefined] last, everything else by the
    code-unit order of its string conversion. *)
Definition default_le (x y : value) : bool :=
  match x, y with
  | _, Undefined => true
  | Undefined, _ => false
  | _, _ => String.leb (to_string x) (to_string y)
  end.

(** [x !== y] negated: objects are compared by identity. *)
Definition strict_eq (x y : value) : bool :=
  match x, y with
  | Undefined, Undefined => true
  | Str a, Str b => String.eqb a b
  | Object r _, Object r' _ => Nat.eqb r r'
  | _, _ => false
  end.

(** The [for] loop; [prev = None] is the initial [null]. In the [else]
    branch the key was stored by the previous iteration, so the increment
    always finds a number (see [HistogramFacts.scan_prev_stored]). *)
Fixpoint scan (l : list value) (prev : option value) (a : gmap string nat)
  : gmap string nat :=
  match l with
  | [] => a
  | x :: l' =>
      let k := to_string x in
      let a' :=
        if match prev with Some p => strict_eq x p | None => false end
        then <[k := S (default 0 (a !! k))]> a
        else <[k := 1]> a in
      scan l' (Some x) a'
  end.

(** [countHistogram(arr)]. The second component is the caller's argument as
    the call leaves it: [arr.sort()] sorts in place, and it sorts the
    caller's own array unless [arr] was rebound to the array of codes. *)
Definition countHistogram (arr : arg) : result error (gmap string nat) * arg :=
  match arr with
  | NotArray => (Throw HistogramTypeInvalid, NotArray)
  | Array l =>
      if is_plain_object (head l) then
        match rmap get_Code l with
        | Throw e => (Throw e, Array l)
        | Ok codes => (Ok (scan (sort_by default_le codes) None ∅), Array l)
        end
      else
        let sorted := sort_by default_le l in
        (Ok (scan sorted None ∅), Array sorted)
  end.

End Histogram.

(** ** Functions of modules outside this file

    [utils.getErrorPcc] and the case conversions of [String.prototype] are
    used by the parser but defined elsewhere; the parser is parametric in
    them. [getErrorPcc] receives [None] when it is applied to [undefined]. *)

Class Utils := {
  getErrorPcc : option string -> option string;
  toUpperCase : string -> string;
  toLowerCase : string -> string
}.

(** ** Response documents *)

Module Doc.
Import Js.

Record ResponseMessage := {
  rm_text : option string;      (* the [_] property *)
  rm_Type : option string;
  rm_Code : option string
}.

Record AirSegmentError := {
  air_ErrorMessage : option string
}.

Record ErrorInfo := {
  common_Code : option string;
  common_Description : option string;
  air_AirSegmentError : option (list AirSegmentError)
}.

Record Detail := {
  common_ErrorInfo : option ErrorInfo;
  air_AvailabilityErrorInfo : option ErrorInfo
}.

Record DocumentFailureInfo := {
  dfi_Code : option string;
  dfi_Message : option string
}.

Record Coupon := {
  CouponNumber : option string;
  Origin : option string;
  Destination : option string;
  DepartureTime : option string;
  MarketingCarrier : option string;
  MarketingFlightNumber : option string;
  Status : option string;
  NotValidBefore : option string;
  NotValidAfter : option string;
  BookingClass : option string;
  StopoverCode : option string
}.

Record ExchangedTicketInfo := {
  eti_Number : option string
}.

Record Ticket := {
  TicketNumber : option string;
  air_Coupon : option (jsobj Coupon);
  air_ExchangedTicketInfo : option (list ExchangedTicketInfo)
}.

Record BookingTravelerName := {
  First : option string;
  Last : option string;
  Prefix : option string
}.

Record BookingTraveler := {
  common_BookingTravelerName : option BookingTravelerName
}.

Record FareInfo := {
  FareBasis : option string
}.

Record BookingInfo := {
  FareInfoRef : option string;
  CabinClass : option string
}.

Record AirPricingInfo := {
  air_FareInfo : option (jsobj FareInfo);
  air_BookingInfo : option (list BookingInfo);
  api_FareCalc : option string;
  PricingMethod : option string;
  PricingType : option string
}.

Record ETR := {
  ProviderLocatorCode : option string;
  TourCode : option string;
  common_BookingTraveler : option (jsobj BookingTraveler);
  air_AirPricingInfo : option (jsobj AirPricingInfo);
  air_Ticket : option (jsobj Ticket);
  air_FareCalc : option string;
  air_AirReservationLocatorCode : option string;
  PlatingCarrier : option string;
  PseudoCityCode : option string;
  IssuedDate : option string;
  IATANumber : option string
}.

(** [obj['air:ETR']] is either one ETR or an object of ETRs by key. *)
Inductive ETRNode :=
| OneETR (etr : ETR)
| ManyETR (etrs : jsobj ETR).

(** A response or fault document, with the properties the handlers and the
    ticket parsers read. *)
Record Response := {
  faultcode : option string;
  faultstring : option string;
  detail : option Detail;
  common_ResponseMessage : option (list ResponseMessage);
  air_DocumentFailureInfo : option DocumentFailureInfo;
  air_ETR : option ETRNode;
  UniversalRecordLocatorCode : option string
}.

Definition set_faultstring (s : string) (r : Response) : Response :=
  {| faultcode := faultcode r;
     faultstring := Some s;
     detail := detail r;
     common_ResponseMessage := common_ResponseMessage r;
     air_DocumentFailureInfo := air_DocumentFailureInfo r;
     air_ETR := air_ETR r;
     UniversalRecordLocatorCode := UniversalRecordLocatorCode r |}.

End Doc.

(** ** The error handlers *)

Module Errors.
Import Js Doc.

(** The errors the handlers and the ticket parsers throw, each with the
    data it is constructed with. [TypeError] is the built-in one. *)
Inductive error :=
| AirRuntimeError (data : Response)
| NoSeatsAvailable (data : Response)
| NoAgreement (pcc : option string)
| UnableToRetrieve (data : Response)
| UnableToRetrieveTicket (data : Response)
| AccessedByAnotherTransaction (data : Response)
| NoResidualValue (data : Response)
| TicketsNotIssued (data : Response)
| NoReservationToImport (data : Response)
| InvalidRequestData (data : Response)
| TicketInfoIncomplete (data : Response)
| TicketInfoIncompleteETR (data : ETRNode)
| SegmentWaitlisted (data : Response)
| SegmentBookingFailed (data : Response)
| NoResultsFound (data : Response)
| DuplicateTicketFound (data : Response)
| UAPIServiceError (data : Response)
| UAPIServiceErrorScreen (screen : option string)
| UnhandledError (causedBy : error)
| TypeError.

Definition noAgreementPattern (s : string) : bool :=
  Re.contains_ci "NO AGENCY AGREEMENT" s.
Definition unableToRetreivePattern (s : string) : bool :=
  Re.contains_ci "UNABLE TO RETRIEVE" s.
Definition ticketRetrieveErrorPattern (s : string) : bool :=
  Re.contains_ci "HOST ERROR DURING TICKET RETRIEVE" s.
Definition accessedByAnotherTransactionPattern (s : string) : bool :=
  Re.contains_ci "ACCESSED BY ANOTHER TRANSACTION" s.

Definition fallbackMessage : string := "UAPI Service resulted in an error".

(** [getResponseMessages]: [source[key] || []] *)
Definition getResponseMessages (source : Response) : list ResponseMessage :=
  match common_ResponseMessage source with
  | Some l => l
  | None => []
  end.

(** [getUAPIErrorMessage]; [None] is [null]. *)
Definition getUAPIErrorMessage (source : Response) : option string :=
  if truthy (faultstring source) then faultstring source
  else match getResponseMessages source with
       | responseMessage :: _ =>
           Some (default fallbackMessage (rm_text responseMessage))
       | [] =>
           match air_DocumentFailureInfo source with
           | Some documentFailureInfo =>
               Some (default fallbackMessage (dfi_Message documentFailureInfo))
           | None => None
           end
       end.

Section Handlers.
Context `{Utils}.

(** [processUAPIError]: always throws; the result is the thrown error. *)
Definition processUAPIError (source : Response) : error :=
  match getUAPIErrorMessage source with
  | None | Some EmptyString =>
      UnhandledError (AirRuntimeError source)
  | Some uapiErrorMessage =>
      let pcc := getErrorPcc (Some uapiErrorMessage) in
      let sourceWithFaultString :=
        set_faultstring (toUpperCase uapiErrorMessage) source in
      if noAgreementPattern uapiErrorMessage then NoAgreement pcc
      else if unableToRetreivePattern uapiErrorMessage
      then UnableToRetrieve sourceWithFaultString
      else if ticketRetrieveErrorPattern uapiErrorMessage
      then UnableToRetrieveTicket sourceWithFaultString
      else if accessedByAnotherTransactionPattern uapiErrorMessage
      then AccessedByAnotherTransaction sourceWithFaultString
      else UAPIServiceError sourceWithFaultString
  end.

(** The [try] block of both handlers: [None] when reading [errorInfo]
    throws, which the [catch] turns into [processUAPIError]. *)
Definition read_errorInfo (rsp : Response) : option ErrorInfo :=
  match detail rsp with
  | None => None
  | Some d =>
      match common_ErrorInfo d with
      | Some errorInfo => Some errorInfo
      | None => air_AvailabilityErrorInfo d
      end
  end.

Definition code_is (code : option string) (c : string) : bool :=
  match code with
  | Some s => String.eqb s c
  | None => false
  end.

Definition ticketInfoIncompletePhrase : string :=
  "At least one valid locator code or ticket number or tcr number or service fee info should have been specified".

Definition waitlistedPhrase : string :=
  "Booking is not complete due to waitlisted segment".

(** [messages.indexOf(waitlistedPhrase) !== -1] *)
Definition has_waitlisted (messages : list (option string)) : bool :=
  existsb (fun m => match m with
                    | Some s => String.eqb s waitlistedPhrase
                    | None => false
                    end) messages.

(** [AirErrorHandler]: always throws; the result is the thrown error. *)
Definition AirErrorHandler (rsp : Response) : error :=
  match read_errorInfo rsp with
  | None => processUAPIError rsp
  | Some errorInfo =>
      let code := common_Code errorInfo in
      let screen := common_Description errorInfo in
      let pcc := getErrorPcc (faultstring rsp) in
      if code_is code "20" then NoSeatsAvailable rsp
      else if code_is code "345" || code_is code "1512" then
        match pcc with
        | Some _ => NoAgreement pcc
        | None => UnableToRetrieve rsp
        end
      else if code_is code "6207" || code_is code "6119"
      then UAPIServiceErrorScreen screen
      else if code_is code "4454" then NoResidualValue rsp
      else if code_is code "12009" then TicketsNotIssued rsp
      else if code_is code "13003" then NoReservationToImport rsp
      else if code_is code "3003" then InvalidRequestData rsp
      else if code_is code "3000" then
        if match faultstring rsp with
           | Some s => String.eqb s ticketInfoIncompletePhrase
           | None => false
           end
        then TicketInfoIncomplete rsp
        else
          let airSegmentErrors := default [] (air_AirSegmentError errorInfo) in
          let messages := List.map air_ErrorMessage airSegmentErrors in
          if has_waitlisted messages then SegmentWaitlisted rsp
          else SegmentBookingFailed rsp
      else if code_is code "2602" || code_is code "3037"
      then NoResultsFound rsp
      else processUAPIError rsp
  end.

(** [responseHasNoTickets] *)
Definition responseHasNoTickets (rsp : Response) : bool :=
  match faultcode rsp, faultstring rsp with
  | Some _, Some s => Re.contains "has no tickets" s
  | _, _ => false
  end.

(** [airGetTicketsErrorHandler]: returns the response or throws. *)
Definition airGetTicketsErrorHandler (rsp : Response) : result error Response :=
  match read_errorInfo rsp with
  | None => Throw (processUAPIError rsp)
  | Some errorInfo =>
      let code := common_Code errorInfo in
      if code_is code "3000" && responseHasNoTickets rsp then Ok rsp
      else if code_is code "345"
      then Throw (NoAgreement (getErrorPcc (faultstring rsp)))
      else Throw (processUAPIError rsp)
  end.

End Handlers.
End Errors.

(** ** Ticket parsing: getTicketFromEtr, airGetTicket, airGetTickets *)

Module Tickets.
Import Js Doc Errors.

(** An element of [allCoupons], and a coupon of a returned ticket (the
    latter may carry [serviceClass]). *)
Record coupon := {
  key : string;
  ticketNumber : option string;
  couponNumber : option string;
  from : option string;
  to : option string;
  departure : option string;
  airline : option string;
  flightNumber : option string;
  fareBasisCode : option string;
  status : option string;
  notValidBefore : option string;
  notValidAfter : option string;
  bookingClass : option string;
  stopover : bool;
  serviceClass : option (option string)
}.

Record ticket := {
  t_ticketNumber : option string;
  coupons : list coupon
}.

Record passenger := {
  firstName : string;
  lastName : option string
}.

(** The ticket record that [getTicketFromEtr] returns. The payment, price,
    tax and commission properties are computed from the ETR independently of
    the ones kept here and are left out. *)
Record ticketData := {
  uapi_ur_locator : option string;
  uapi_reservation_locator : option string;
  pnr : option string;
  td_ticketNumber : option string;
  platingCarrier : option string;
  ticketingPcc : option string;
  issuedAt : option string;
  farePricingMethod : option string;
  farePricingType : option string;
  passengers : list passenger;
  tickets : list ticket;
  iataNumber : option string;
  isConjunctionTicket : bool;
  tourCode : option string;
  fareCalc : FareCalc.t;
  exchangedTickets : list (option string)
}.

(** [arr.findIndex(p)]; [None] is [-1]. *)
Fixpoint findIndex {A} (p : A -> bool) (l : list A) : option nat :=
  match l with
  | [] => None
  | x :: l' => if p x then Some 0 else option_map S (findIndex p l')
  end.

(** [coupon.StopoverCode === 'true'] *)
Definition stopover_flag (c : Coupon) : bool :=
  match StopoverCode c with
  | Some s => String.eqb s "true"
  | None => false
  end.

Section Parser.
Context `{Utils}.
(** [utils.formFareBasisCode], defined outside this file. *)
Variable formFareBasisCode : option AirPricingInfo -> Coupon -> option string.

Definition lift {A} (o : option A) : result error A :=
  match o with
  | Some a => Ok a
  | None => Throw TypeError
  end.

Definition couponEntry (airPricingInfo : option AirPricingInfo) (t : Ticket)
    (kc : string * Coupon) : coupon :=
  let '(couponKey, c) := kc in
  {| key := couponKey;
     ticketNumber := TicketNumber t;
     couponNumber := CouponNumber c;
     from := Origin c;
     to := Destination c;
     departure := DepartureTime c;
     airline := MarketingCarrier c;
     flightNumber := MarketingFlightNumber c;
     fareBasisCode := formFareBasisCode airPricingInfo c;
     status := Status c;
     notValidBefore := NotValidBefore c;
     notValidAfter := NotValidAfter c;
     bookingClass := BookingClass c;
     stopover := stopover_flag c;
     serviceClass := None |}.

(** The coupons of every ticket, in ticket order, as one list. *)
Definition allCoupons (airPricingInfo : option AirPricingInfo)
    (ticketsList : list Ticket) : result error (list coupon) :=
  do chunks <- rmap (fun t =>
                 do cs <- lift (air_Coupon t);
                 Ok (List.map (couponEntry airPricingInfo t) (obj_entries cs)))
               ticketsList;
  Ok (List.concat chunks).

(** The search for [bookingInfo]: the elements of [allCoupons] have no
    [FareBasis] property, so [fare.FareBasis === coupon.FareBasis] holds
    exactly for a fare without [FareBasis]; the last hit wins. *)
Definition find_bookingInfo (airPricingInfo : option AirPricingInfo)
  : option BookingInfo :=
  match airPricingInfo with
  | None => None
  | Some api =>
      match air_FareInfo api with
      | None => None
      | Some fares =>
          fold_left
            (fun bookingInfo fareKey =>
               match obj_get fareKey fares, air_BookingInfo api with
               | Some fare, Some infos =>
                   match FareBasis fare with
                   | None =>
                       match List.find
                               (fun info => match FareInfoRef info with
                                            | Some r => String.eqb r fareKey
                                            | None => false
                                            end) infos with
                       | Some bInfo => Some bInfo
                       | None => bookingInfo
                       end
                   | Some _ => bookingInfo
                   end
               | _, _ => bookingInfo
               end)
            (obj_keys fares) None
      end
  end.

Definition with_stopover (c : coupon) (s : bool) (sc : option (option string))
  : coupon :=
  {| key := key c;
     ticketNumber := ticketNumber c;
     couponNumber := couponNumber c;
     from := from c;
     to := to c;
     departure := departure c;
     airline := airline c;
     flightNumber := flightNumber c;
     fareBasisCode := fareBasisCode c;
     status := status c;
     notValidBefore := notValidBefore c;
     notValidAfter := notValidAfter c;
     bookingClass := bookingClass c;
     stopover := s;
     serviceClass := sc |}.

(** One returned coupon: the element of [allCoupons] found by key, with the
    [stopover] of the element after it, or [true] when there is none. *)
Definition returnedCoupon (airPricingInfo : option AirPricingInfo)
    (all : list coupon) (couponKey : string) : result error coupon :=
  do allCouponsIndex <- lift (findIndex (fun ac => String.eqb (key ac) couponKey) all);
  do c <- lift (all !! allCouponsIndex);
  let nextCoupon := all !! (allCouponsIndex + 1) in
  let bookingInfo := find_bookingInfo airPricingInfo in
  Ok (with_stopover c
        (match nextCoupon with
         | Some n => stopover n
         | None => true
         end)
        (match bookingInfo with
         | Some b => Some (CabinClass b)
         | None => None
         end)).

Definition returnedTicket (airPricingInfo : option AirPricingInfo)
    (all : list coupon) (t : Ticket) : result error ticket :=
  do cs <- lift (air_Coupon t);
  do coupons <- rmap (returnedCoupon airPricingInfo all) (obj_keys cs);
  Ok {| t_ticketNumber := TicketNumber t; coupons := coupons |}.

Definition exchangedNumbers (ticketsList : list Ticket) : list (option string) :=
  List.concat
    (List.map (fun t => List.map eti_Number (default [] (air_ExchangedTicketInfo t)))
       ticketsList).

Definition buildPassengers (etr : ETR) : result error (list passenger) :=
  do passengersList <- lift (common_BookingTraveler etr);
  rmap (fun kv : string * BookingTraveler =>
          do travelerDetails <- lift (common_BookingTravelerName (snd kv));
          do first <- lift (First travelerDetails);
          Ok {| firstName := first +:+ default EmptyString (Prefix travelerDetails);
                lastName := Last travelerDetails |})
       (obj_entries passengersList).

(** [getTicketFromEtr(etr, obj, allowNoProviderLocatorCodeRetrieval)] *)
Definition getTicketFromEtr (etr : ETR) (obj : Response)
    (allowNoProviderLocatorCodeRetrieval : bool) : result error ticketData :=
  if negb allowNoProviderLocatorCodeRetrieval
     && negb (truthy (ProviderLocatorCode etr))
  then Throw (TicketInfoIncompleteETR (OneETR etr))
  else
    do passengers <- buildPassengers etr;
    let airPricingInfo :=
      match air_AirPricingInfo etr with
      | Some o => firstInObj o
      | None => None
      end in
    do ticketObj <- lift (air_Ticket etr);
    let ticketsList := obj_values ticketObj in
    do all <- allCoupons airPricingInfo ticketsList;
    do tickets <- rmap (returnedTicket airPricingInfo all) ticketsList;
    do etrFareCalc <- lift (air_FareCalc etr);
    do fareCalcSource <-
      match FareCalc.fareCalculationPattern etrFareCalc with
      | Some _ => Ok etrFareCalc
      | None => do api <- lift airPricingInfo; lift (api_FareCalc api)
      end;
    do firstTicket <- lift (head tickets);
    do fareCalc <-
      match FareCalc.parseFareCalculation fareCalcSource with
      | Ok fc => Ok fc
      | Throw FareCalc.TypeError => Throw TypeError
      end;
    Ok {| uapi_ur_locator := UniversalRecordLocatorCode obj;
          uapi_reservation_locator := air_AirReservationLocatorCode etr;
          pnr := ProviderLocatorCode etr;
          td_ticketNumber := t_ticketNumber firstTicket;
          platingCarrier := PlatingCarrier etr;
          ticketingPcc := PseudoCityCode etr;
          issuedAt := IssuedDate etr;
          farePricingMethod :=
            match airPricingInfo with Some a => PricingMethod a | None => None end;
          farePricingType :=
            match airPricingInfo with Some a => PricingType a | None => None end;
          passengers := passengers;
          tickets := tickets;
          iataNumber := IATANumber etr;
          isConjunctionTicket := 1 <? length tickets;
          tourCode := TourCode etr;
          fareCalc := fareCalc;
          exchangedTickets := exchangedNumbers ticketsList |}.

(** What [airGetTicket] returns: one ticket record or an array of them. *)
Inductive ticketResult :=
| OneTicket (t : ticketData)
| ManyTickets (ts : list ticketData).

(** [responseMessages.some(({ Type, Code }) => Type === 'Error' && Code !== '12009')] *)
Definition has_error_message (msgs : list ResponseMessage) : bool :=
  existsb (fun m => code_is (rm_Type m) "Error" && negb (code_is (rm_Code m) "12009"))
    msgs.

(** [airGetTicket(obj, parseParams)]. The first property of a single ETR is
    not an object with a [ProviderLocatorCode], so [multipleTickets] is
    false for it. *)
Definition airGetTicket (obj : Response)
    (allowNoProviderLocatorCodeRetrieval : bool) : result error ticketResult :=
  match air_DocumentFailureInfo obj with
  | Some failure =>
      if code_is (dfi_Code failure) "3273" then Throw (DuplicateTicketFound obj)
      else Throw (processUAPIError obj)
  | None =>
      if has_error_message (getResponseMessages obj)
      then Throw (processUAPIError obj)
      else
        match air_ETR obj with
        | None => Throw (processUAPIError obj)
        | Some (OneETR etr) =>
            do t <- getTicketFromEtr etr obj allowNoProviderLocatorCodeRetrieval;
            Ok (OneTicket t)
        | Some (ManyETR etrs) =>
            do firstEtr <- lift (firstInObj etrs);
            if truthy (ProviderLocatorCode firstEtr) then
              do ts <- rmap (fun innerEtr =>
                         getTicketFromEtr innerEtr obj
                           allowNoProviderLocatorCodeRetrieval)
                       (obj_values etrs);
              Ok (ManyTickets ts)
            else if negb allowNoProviderLocatorCodeRetrieval
            then Throw (TicketInfoIncompleteETR (ManyETR etrs))
            else Throw TypeError
        end
  end.

(** [airGetTickets(obj)] *)
Definition airGetTickets (obj : Response) : result error (list ticketData) :=
  if responseHasNoTickets obj then Ok []
  else
    do tickets <- airGetTicket obj false;
    match tickets with
    | ManyTickets ts => Ok ts
    | OneTicket t => Ok [t]
    end.

End Parser.
End Tickets.

(** ** Booking extraction: extractBookings *)

Module Bookings.
Import Js.

(** *** The universal record document *)

Record Message := {
  m_text : option string;          (* the [_] property *)
  m_Code : option (string + Z)     (* a string or a number *)
}.

Record Name := {
  n_First : option string;
  n_Last : option string
}.

Record Email := {
  e_Type : option string;
  EmailID : option string;
  e_ProviderReservationInfoRef : option string
}.

Record GeneralRemark := {
  r_ProviderReservationInfoRef : option string;
  common_RemarkData : option string
}.

Record ProviderReservationDetails := {
  DivideDetails : option string
}.

Record ProviderReservationInfo := {
  pri_Key : option string;
  pri_LocatorCode : option string;
  CreateDate : option string;
  HostCreateDate : option string;
  ModifiedDate : option string;
  OwningPCC : option string;
  universal_ProviderReservationDetails : option ProviderReservationDetails
}.

Record TicketInfo := {
  ti_Number : option string;
  common_Name : option Name;
  ti_BookingTravelerRef : option string;
  AirPricingInfoRef : option string
}.

Record SupplierLocator := {
  CreateDateTime : option string;
  SupplierCode : option string;
  SupplierLocatorCode : option string
}.

Record TaxDetail := {
  OriginAirport : option string;
  td_Amount : option string
}.

Record TaxInfo := {
  Category : option string;
  Amount : option string;
  common_TaxDetail : option (list TaxDetail)
}.

Record Endorsement := {
  Value : string
}.

Record TicketingModifiers := {
  tm_PlatingCarrier : option string
}.

(** The data that the functions of [AirFormat] consume and produce. That
    module is outside this file, so the types are left open and its
    functions are taken as they are; [formatServiceSegment] returns [None]
    when it throws: the caller catches that, reads the text of the remark
    for a warning and drops the segment. *)
Class Format := {
  Traveler : Type;
  AirSegment : Type;
  PassiveSegment : Type;
  PassiveRemark : Type;
  BaggageAllowance : Type;
  Passenger : Type;
  Segment : Type;
  ServiceSegment : Type;
  Baggage : Type;
  traveler_Name : Traveler -> option Name;
  traveler_Email : Traveler -> option (jsobj Email);
  passiveSegment_Key : PassiveSegment -> option string;
  passiveRemark_PassiveSegmentRef : PassiveRemark -> option string;
  buildPassenger : option Name -> Traveler -> Passenger;
  setIndexesForSegments :
    option (list AirSegment) -> option (list PassiveSegment) ->
    option (list AirSegment) * option (list PassiveSegment);
  formatSegment : AirSegment -> Segment;
  formatServiceSegment : PassiveSegment -> option PassiveRemark -> option ServiceSegment;
  setReferencesForSegments : list Segment -> list Segment;
  getBaggage : option BaggageAllowance -> Baggage;
  (** [moment(d).valueOf()]: milliseconds, or [None] for an invalid date
      ([NaN]). *)
  moment : option string -> option Z
}.

Section Extract.
Context `{Utils} `{Format}.

Record FareInfo := {
  air_BaggageAllowance : option BaggageAllowance;
  fi_TourCode : option string;
  common_Endorsement : option (list Endorsement);
  EffectiveDate : option string
}.

Record BookingInfo := {
  SegmentRef : option string
}.

Record PassengerType := {
  pt_Code : option string
}.

Record AirPricingInfo := {
  air_BookingInfo : option (list BookingInfo);
  common_BookingTravelerRef : option (list string);
  air_FareInfo : option (jsobj FareInfo);
  air_PassengerType : option (list PassengerType);
  air_TaxInfo : option (jsobj TaxInfo);
  air_TicketingModifiersRef : option (jsobj unit);
  AirPricingInfoGroup : option string;
  PricingMethod : option string;
  PricingType : option string;
  TotalPrice : option string;
  BasePrice : option string;
  EquivalentBasePrice : option string;
  Taxes : option string;
  LatestTicketingTime : option string;
  air_FareCalc : option string
}.

Record PassiveReservation := {
  pr_ProviderReservationInfoRef : option string;
  passive_PassiveSegment : option (list PassiveSegment);
  passive_PassiveRemark : option (list PassiveRemark)
}.

Record AirReservation := {
  ar_ProviderReservationInfoRef : option string;
  ar_LocatorCode : option string;
  air_TicketingModifiers : option (jsobj TicketingModifiers);
  ar_BookingTravelerRef : option (list string);
  air_AirSegment : option (list AirSegment);
  common_SupplierLocator : option (list SupplierLocator);
  air_TicketInfo : option (list TicketInfo);   (* under [air:DocumentInfo] *)
  air_AirPricingInfo : option (jsobj AirPricingInfo)
}.

Record UniversalRecord := {
  common_BookingTraveler : option (jsobj Traveler);
  air_AirReservation : option (list AirReservation);
  universal_ProviderReservationInfo : option (jsobj ProviderReservationInfo);
  common_GeneralRemark : option (jsobj GeneralRemark);
  passive_PassiveReservation : option (list PassiveReservation);
  Version : option string;
  ur_LocatorCode : option string
}.

Record Document := {
  universal_UniversalRecord : option UniversalRecord;
  common_ResponseMessage : option (list Message);
  air_AirSegmentSellFailureInfo : bool       (* present or not *)
}.

(** *** The records returned *)

Record email := {
  em_index : nat;
  em_email : string
}.

Record ticket := {
  number : option string;
  t_passengers : list Name;
  uapi_passenger_ref : option string;
  uapi_pricing_info_ref : option string
}.

Record taxInfo := {
  tx_value : option string;
  tx_type : option string;
  tx_details : option (list (option string * option string))
}.

Record pricingInfoPassenger := {
  pp_uapi_passenger_ref : string;
  isTicketed : bool;
  pp_ticketNumber : option (option string)
}.

Record pricingInfo := {
  pi_uapi_pricing_info_ref : string;
  pi_passengers : list pricingInfoPassenger;
  uapi_pricing_info_group : option string;
  pi_farePricingMethod : option string;
  pi_farePricingType : option string;
  totalPrice : option string;
  basePrice : option string;
  equivalentBasePrice : option string;
  taxes : option string;
  passengersCount : jsobj nat;
  taxesInfo : list taxInfo;
  baggage : option (list Baggage);
  timeToReprice : option string;
  pi_fareCalc : FareCalc.t
}.

(** An entry of [fareQuotesCommon]; [None] is [undefined] or [null]. *)
Record fareQuoteCommon := {
  uapi_segment_refs : list (option string);
  effectiveDate : option string;
  endorsement : option string;
  fq_tourCode : option string;
  fq_platingCarrier : option string
}.

(** A fare quote; [common] is the spread of [fareQuotesCommon[key]]. *)
Record fareQuote := {
  pricingInfos : list pricingInfo;
  uapi_passenger_refs : list string;
  common : option fareQuoteCommon;
  index : nat
}.

Record supplierLocatorBlock := {
  createDate : option string;
  supplierCode : option string;
  locatorCode : option string
}.

Record booking := {
  pnr : option string;
  version : option string;             (* the operand of [Number(...)] *)
  uapi_ur_locator : option string;
  uapi_reservation_locator : option string;
  airlineLocatorInfo : list supplierLocatorBlock;
  createdAt : option string;
  hostCreatedAt : option string;
  modifiedAt : option string;
  fareQuotes : list fareQuote;
  segments : list Segment;
  serviceSegments : list ServiceSegment;
  passengers : list Passenger;
  emails : list email;
  bookingPCC : option string;
  tickets : list ticket;
  splitBookings : list string;
  messages : list Message
}.

Inductive error :=
| NoValidFare (data : Document)
| UniversalRecordDataCouldBeStale (data : list Message)
| SegmentBookingFailed (data : Document)
| ReservationsMissing
| ReservationProviderInfoMissing
| TravelersListError
| TypeError.

(** *** The patterns of extractBookings *)

Definition noValidFare (s : string) : bool :=
  Re.contains "NO VALID FARE FOR INPUT CRITERIA" s.

(** [/failed refresh|data may be stale/i] *)
Definition bookingStaleData (s : string) : bool :=
  Re.contains_ci "failed refresh" s || Re.contains_ci "data may be stale" s.

Definition BOOKING_STALE_DATA_ERROR_CODE : Z := 1301.

(** [.] of a pattern without the [s] flag: anything but a line terminator. *)
Definition not_line_terminator (c : ascii) : bool :=
  negb (Ascii.eqb c "010"%char || Ascii.eqb c "013"%char).

Fixpoint take (n : nat) (s : string) : string :=
  match n, s with
  | S n', String c s' => String c (take n' s')
  | _, _ => EmptyString
  end.

(** [data.match(/^SPLIT\s.*([A-Z0-9]{6})$/)], reduced to its capture group:
    the last six characters. *)
Definition splitPattern (data : string) : option string :=
  if Re.starts_with "SPLIT" data then
    match Re.drop 5 data with
    | String w r =>
        let n := String.length r in
        if Re.is_space w && (6 <=? n)
           && Re.all_chars not_line_terminator (take (n - 6) r)
           && Re.all_chars Re.is_upper_alnum (Re.drop (n - 6) r)
        then Some (Re.drop (n - 6) r)
        else None
    | EmptyString => None
    end
  else None.

Definition lift {A} (o : option A) : result error A :=
  match o with
  | Some a => Ok a
  | None => Throw TypeError
  end.

(** *** The checks before the reservations are read *)

(** The [messages.forEach] at the head of the function; a message code is a
    string or a number, and only the number 1301 is [===] to the constant. *)
Fixpoint check_messages (obj : Document) (all msgs : list Message)
  : result error unit :=
  match msgs with
  | [] => Ok tt
  | m :: rest =>
      if match m_text m with Some t => noValidFare t | None => false end
      then Throw (NoValidFare obj)
      else if match m_text m with Some t => bookingStaleData t | None => false end
              || match m_Code m with
                 | Some (inr n) => Z.eqb n BOOKING_STALE_DATA_ERROR_CODE
                 | _ => false
                 end
      then Throw (UniversalRecordDataCouldBeStale all)
      else check_messages obj all rest
  end.

(** The [remarks] object: the general remarks by the reservation they
    refer to. It is only read by key. *)
Definition group_remarks (remarksObj : option (jsobj GeneralRemark))
  : gmap string (list GeneralRemark) :=
  match remarksObj with
  | None => ∅
  | Some o =>
      fold_left
        (fun acc kv =>
           let reservationRef := prop_key (r_ProviderReservationInfoRef (snd kv)) in
           <[reservationRef := default [] (acc !! reservationRef) ++ [snd kv]]> acc)
        (obj_entries o) ∅
  end.

(** *** One air reservation *)

(** The split bookings named by the remarks of a divided reservation. *)
Fixpoint split_remarks (resRemarks : list GeneralRemark) (acc : list string)
  : result error (list string) :=
  match resRemarks with
  | [] => Ok acc
  | remark :: rest =>
      do data <- lift (common_RemarkData remark);
      match splitPattern data with
      | None => split_remarks rest acc
      | Some locator => split_remarks rest (acc ++ [locator])
      end
  end.

(** The [forEach] over the e-mails of one traveler; [emails] is the array
    that the callback pushes to. *)
Fixpoint push_emails (travelerEmails : list Email) (emails : list email)
  : result error (list email) :=
  match travelerEmails with
  | [] => Ok emails
  | e :: rest =>
      let type := default "To" (e_Type e) in
      if truthy (e_ProviderReservationInfoRef e)
         && String.eqb (toUpperCase type) "TO"
      then
        do id <- lift (EmailID e);
        push_emails rest
          (emails ++ [{| em_index := length emails + 1;
                         em_email := toLowerCase id |}])
      else push_emails rest emails
  end.

(** The [map] over the traveler references of the reservation. *)
Fixpoint build_passengers (travelers : option (jsobj Traveler))
    (refs : list string) (emails : list email)
  : result error (list Passenger * list email) :=
  match refs with
  | [] => Ok ([], emails)
  | travellerRef :: rest =>
      do ts <- lift travelers;
      match obj_get travellerRef ts with
      | None => Throw TravelersListError
      | Some traveler =>
          do emails' <-
            match traveler_Email traveler with
            | Some travelerEmails => push_emails (obj_values travelerEmails) emails
            | None => Ok emails
            end;
          do r <- build_passengers travelers rest emails';
          Ok (buildPassenger (traveler_Name traveler) traveler :: fst r, snd r)
      end
  end.

Definition build_serviceSegments (passiveReservation : option PassiveReservation)
    (indexedServiceSegments : option (list PassiveSegment))
  : result error (list ServiceSegment) :=
  match indexedServiceSegments with
  | None => Ok []
  | Some l =>
      do formatted <-
        rmap (fun s =>
                do pr <- lift passiveReservation;
                do remarks <- lift (passive_PassiveRemark pr);
                let remark :=
                  List.find
                    (fun r => match passiveRemark_PassiveSegmentRef r,
                                    passiveSegment_Key s with
                              | Some a, Some b => String.eqb a b
                              | None, None => true
                              | _, _ => false
                              end) remarks in
                match formatServiceSegment s remark, remark with
                | Some v, _ => Ok (Some v)
                | None, Some _ => Ok None
                | None, None => Throw TypeError
                end) l;
      Ok (omap id formatted)
  end.

Definition build_tickets (b : AirReservation) : result error (list ticket) :=
  match air_TicketInfo b with
  | None => Ok []
  | Some infos =>
      rmap (fun t =>
              do name <- lift (common_Name t);
              Ok {| number := ti_Number t;
                    t_passengers := [name];
                    uapi_passenger_ref := ti_BookingTravelerRef t;
                    uapi_pricing_info_ref :=
                      if truthy (AirPricingInfoRef t) then AirPricingInfoRef t
                      else None |}) infos
  end.

Definition build_taxesInfo (taxes : option (jsobj TaxInfo)) : list taxInfo :=
  match taxes with
  | None => []
  | Some o =>
      List.map
        (fun t =>
           {| tx_value := Amount t;
              tx_type := Category t;
              tx_details :=
                option_map
                  (List.map (fun d => (OriginAirport d, td_Amount d)))
                  (common_TaxDetail t) |})
        (obj_values o)
  end.

(** [passengersCount]: the passenger types counted by code. *)
Definition count_passengers (types : option (list PassengerType)) : jsobj nat :=
  fold_left
    (fun acc data =>
       let k := prop_key (pt_Code data) in
       obj_set k (default 0 (obj_get k acc) + 1) acc)
    (default [] types) [].

Definition ticket_matches (ref key : string) (t : ticket) : bool :=
  match uapi_passenger_ref t, uapi_pricing_info_ref t with
  | Some r, Some k => String.eqb r ref && String.eqb k key
  | _, _ => false
  end.

(** The callback of the [map] over the pricing infos: it stores the entry
    of the group in [fareQuotesCommon] and returns the pricing info. *)
Definition build_pricingInfo (b : AirReservation) (tickets : list ticket)
    (key : string) (fareQuotesCommon : gmap string fareQuoteCommon)
  : result error (pricingInfo * gmap string fareQuoteCommon) :=
  do infos <- lift (air_AirPricingInfo b);
  do pricing <- lift (obj_get key infos);
  let uapiSegmentRefs := List.map SegmentRef (default [] (air_BookingInfo pricing)) in
  let uapiPassengerRefs := common_BookingTravelerRef pricing in
  let fareInfo := air_FareInfo pricing in
  let baggage :=
    option_map
      (fun o => List.map (fun f => getBaggage (air_BaggageAllowance f)) (obj_values o))
      fareInfo in
  let modifierKey :=
    match air_TicketingModifiersRef pricing with
    | Some refs => head (obj_keys refs)
    | None => None
    end in
  do modifiers <-
    (if truthy modifierKey then
       do tms <- lift (air_TicketingModifiers b);
       Ok (obj_get (prop_key modifierKey) tms)
     else Ok None);
  let platingCarrier :=
    match modifiers with
    | Some m => if truthy (tm_PlatingCarrier m) then tm_PlatingCarrier m else None
    | None => None
    end in
  (* every read of [firstFareInfo] stands behind [fareInfo &&]: without
     fare infos nothing is read and the fields below are absent; with fare
     infos none of which is first, [firstFareInfo.TourCode] throws *)
  do first <-
    match fareInfo with
    | Some fares => do firstFareInfo <- lift (firstInObj fares); Ok (Some firstFareInfo)
    | None => Ok None
    end;
  let tourCode :=
    match first with
    | Some f => if truthy (fi_TourCode f) then fi_TourCode f else None
    | None => None
    end in
  let endorsement :=
    match first with
    | Some f =>
        match common_Endorsement f with
        | Some ends => Some (String.concat " " (List.map Value ends))
        | None => None
        end
    | None => None
    end in
  let fareQuotesCommon' :=
    <[prop_key (AirPricingInfoGroup pricing) :=
        {| uapi_segment_refs := uapiSegmentRefs;
           effectiveDate := match first with
                            | Some f => EffectiveDate f
                            | None => None
                            end;
           endorsement := endorsement;
           fq_tourCode := tourCode;
           fq_platingCarrier := platingCarrier |}]> fareQuotesCommon in
  let pricingInfoPassengers :=
    List.map
      (fun ref =>
         let t := List.find (ticket_matches ref key) tickets in
         {| pp_uapi_passenger_ref := ref;
            isTicketed := match t with Some _ => true | None => false end;
            pp_ticketNumber := option_map number t |})
      (default [] uapiPassengerRefs) in
  do str <- lift (air_FareCalc pricing);
  do fc <-
    match FareCalc.parseFareCalculation str with
    | Ok fc => Ok fc
    | Throw FareCalc.TypeError => Throw TypeError
    end;
  Ok ({| pi_uapi_pricing_info_ref := key;
         pi_passengers := pricingInfoPassengers;
         uapi_pricing_info_group := AirPricingInfoGroup pricing;
         pi_farePricingMethod := PricingMethod pricing;
         pi_farePricingType := PricingType pricing;
         totalPrice := TotalPrice pricing;
         basePrice := BasePrice pricing;
         equivalentBasePrice := EquivalentBasePrice pricing;
         taxes := Taxes pricing;
         passengersCount := count_passengers (air_PassengerType pricing);
         taxesInfo := build_taxesInfo (air_TaxInfo pricing);
         baggage := baggage;
         timeToReprice := LatestTicketingTime pricing;
         pi_fareCalc := fc |},
      fareQuotesCommon').

(** The [map] over [Object.keys(booking['air:AirPricingInfo'])]. *)
Fixpoint build_pricingInfos (b : AirReservation) (tickets : list ticket)
    (keys : list string) (fareQuotesCommon : gmap string fareQuoteCommon)
  : result error (list pricingInfo * gmap string fareQuoteCommon) :=
  match keys with
  | [] => Ok ([], fareQuotesCommon)
  | key :: rest =>
      do r <- build_pricingInfo b tickets key fareQuotesCommon;
      do rs <- build_pricingInfos b tickets rest (snd r);
      Ok (fst r :: fst rs, snd rs)
  end.

(** [fareQuotesGrouped]: the pricing infos by their group, each group in
    the order of the pricing infos. *)
Definition group_pricingInfos (infos : list pricingInfo) : jsobj (list pricingInfo) :=
  fold_left
    (fun acc p =>
       let k := prop_key (uapi_pricing_info_group p) in
       obj_set k (default [] (obj_get k acc) ++ [p]) acc)
    infos [].

(** The comparator of the sort, [moment(fq1.effectiveDate) -
    moment(fq2.effectiveDate)], as "does not put [fq2] first": a difference
    that is [NaN] counts as zero. *)
Definition fq_date (fq : fareQuote) : option Z :=
  moment (match common fq with
          | Some c => effectiveDate c
          | None => None
          end).

Definition fq_le (fq1 fq2 : fareQuote) : bool :=
  match fq_date fq1, fq_date fq2 with
  | Some d1, Some d2 => (d1 <=? d2)%Z
  | _, _ => true
  end.

(** [.map((fq, index) => ({ ...fq, index: index + 1 }))], from position [i]. *)
Fixpoint set_indexes (i : nat) (fqs : list fareQuote) : list fareQuote :=
  match fqs with
  | [] => []
  | fq :: rest =>
      {| pricingInfos := pricingInfos fq;
         uapi_passenger_refs := uapi_passenger_refs fq;
         common := common fq;
         index := i + 1 |} :: set_indexes (S i) rest
  end.

Definition build_fareQuotes (infos : list pricingInfo)
    (fareQuotesCommon : gmap string fareQuoteCommon) : list fareQuote :=
  let fareQuotesGrouped := group_pricingInfos infos in
  set_indexes 0
    (sort_by fq_le
       (List.map
          (fun key =>
             let fqGroup := default [] (obj_get key fareQuotesGrouped) in
             {| pricingInfos := fqGroup;
                uapi_passenger_refs :=
                  List.concat
                    (List.map (fun fq => List.map pp_uapi_passenger_ref (pi_passengers fq))
                       fqGroup);
                common := fareQuotesCommon !! key;
                index := 0 |})
          (obj_keys fareQuotesGrouped))).

Definition formSupplierLocatorBlock (supplierLocator : list SupplierLocator)
  : list supplierLocatorBlock :=
  List.map (fun info => {| createDate := CreateDateTime info;
                           supplierCode := SupplierCode info;
                           locatorCode := SupplierLocatorCode info |})
    supplierLocator.

Definition same_ref (a b : option string) : bool :=
  match a, b with
  | Some x, Some y => String.eqb x y
  | None, None => true
  | _, _ => false
  end.

(** The callback of [record['air:AirReservation'].map]. The statements are
    in the order of the source: [providerInfo.Key] is read before the test
    of [providerInfo]. *)
Definition build_booking (record : UniversalRecord)
    (travelers : option (jsobj Traveler))
    (reservationInfo : option (jsobj ProviderReservationInfo))
    (remarks : gmap string (list GeneralRemark))
    (messages : list Message) (b : AirReservation) : result error booking :=
  do resInfo <- lift reservationInfo;
  let providerInfo := obj_get (prop_key (ar_ProviderReservationInfoRef b)) resInfo in
  do providerInfoKey <-
    match providerInfo with
    | Some p => Ok (pri_Key p)
    | None => Throw TypeError
    end;
  let resRemarks := default [] (remarks !! prop_key providerInfoKey) in
  do splitBookings <-
    match providerInfo with
    | Some p =>
        match universal_ProviderReservationDetails p with
        | Some d =>
            if same_ref (DivideDetails d) (Some "true")
            then split_remarks resRemarks []
            else Ok []
        | None => Ok []
        end
    | None => Ok []
    end;
  let passiveReservation :=
    match passive_PassiveReservation record with
    | Some l =>
        List.find (fun res => same_ref (pr_ProviderReservationInfoRef res) providerInfoKey) l
    | None => None
    end in
  match providerInfo with
  | None => Throw ReservationProviderInfoMissing
  | Some providerInfo =>
      do refs <- lift (ar_BookingTravelerRef b);
      do pe <- build_passengers travelers refs [];
      let '(indexedSegments, indexedServiceSegments) :=
        setIndexesForSegments (air_AirSegment b)
          (match passiveReservation with
           | Some pr => passive_PassiveSegment pr
           | None => None
           end) in
      let supplierLocator := default [] (common_SupplierLocator b) in
      let segments :=
        match indexedSegments with
        | Some l => List.map formatSegment l
        | None => []
        end in
      do serviceSegments <- build_serviceSegments passiveReservation indexedServiceSegments;
      do tickets <- build_tickets b;
      do pc <-
        match air_AirPricingInfo b with
        | None => Ok ([], ∅)
        | Some o => build_pricingInfos b tickets (obj_keys o) ∅
        end;
      let fareQuotes := build_fareQuotes (fst pc) (snd pc) in
      Ok {| pnr := pri_LocatorCode providerInfo;
            version := Version record;
            uapi_ur_locator := ur_LocatorCode record;
            uapi_reservation_locator := ar_LocatorCode b;
            airlineLocatorInfo := formSupplierLocatorBlock supplierLocator;
            createdAt := CreateDate providerInfo;
            hostCreatedAt := HostCreateDate providerInfo;
            modifiedAt := ModifiedDate providerInfo;
            fareQuotes := fareQuotes;
            segments := setReferencesForSegments segments;
            serviceSegments := serviceSegments;
            passengers := fst pe;
            emails := snd pe;
            bookingPCC := OwningPCC providerInfo;
            tickets := tickets;
            splitBookings := splitBookings;
            messages := messages |}
  end.

(** The booking returned for a provider reservation when the record has no
    air reservation. *)
Definition build_booking_without_air (record : UniversalRecord)
    (travelers : option (jsobj Traveler)) (messages : list Message)
    (providerInfo : ProviderReservationInfo) : result error booking :=
  do ts <- lift travelers;
  Ok {| pnr := pri_LocatorCode providerInfo;
        version := Version record;
        uapi_ur_locator := ur_LocatorCode record;
        uapi_reservation_locator := None;
        airlineLocatorInfo := [];
        createdAt := CreateDate providerInfo;
        hostCreatedAt := HostCreateDate providerInfo;
        modifiedAt := ModifiedDate providerInfo;
        fareQuotes := [];
        segments := [];
        serviceSegments := [];
        passengers :=
          List.map (fun t => buildPassenger (traveler_Name t) t) (obj_values ts);
        emails := [];
        bookingPCC := OwningPCC providerInfo;
        tickets := [];
        splitBookings := [];
        messages := messages |}.

(** [extractBookings(obj)] *)
Definition extractBookings (obj : Document) : result error (list booking) :=
  let messages := default [] (common_ResponseMessage obj) in
  do _ <- check_messages obj messages messages;
  if air_AirSegmentSellFailureInfo obj then Throw (SegmentBookingFailed obj)
  else
    do record <- lift (universal_UniversalRecord obj);
    let travelers := common_BookingTraveler record in
    let hasTravelers :=
      match travelers with
      | Some t => negb (Nat.eqb (length (obj_keys t)) 0)
      | None => false
      end in
    let hasAirReservation :=
      match air_AirReservation record with
      | Some (_ :: _) => true
      | _ => false
      end in
    if negb hasTravelers && negb hasAirReservation then Throw ReservationsMissing
    else
      let reservationInfo := universal_ProviderReservationInfo record in
      let remarks := group_remarks (common_GeneralRemark record) in
      if negb hasAirReservation then
        do resInfo <- lift reservationInfo;
        rmap (build_booking_without_air record travelers messages) (obj_values resInfo)
      else
        rmap (build_booking record travelers reservationInfo remarks messages)
          (default [] (air_AirReservation record)).

End Extract.
End Bookings.

(** ** The ticketing workflow *)

Module Ticketing.

(** The ticket method of [Air.js] is not among the sources; its tests are
    (the [ticket] block of the test file of the Air service). The machine
    below follows the design document, and the tests where they say more.
    In the words of the design document: the currency is resolved from the
    booking fetched on entry, and the machine fails with
    [CouldNotRetrieveCurrency] when it is absent; then the ticket is issued;
    on [TicketingFoidRequired] FOID is applied (once), the booking is
    re-fetched and the ticket is re-issued; on [TicketingPnrBusy] the ticket
    is re-issued; there is at most one retry per failure kind per
    invocation, a repeated failure of the same kind is not retried further
    and propagates; any other failure propagates unchanged.

    The design document also lets a busy PNR re-fetch the booking. The
    tests count the calls of [getUniversalRecordByPNR] and say otherwise:
    one call when the ticket call is rejected as busy and then succeeds
    ("should retry ticketing if PNR busy"), two calls in all for FOID
    required, busy, success ("should set FOID and retry ticketing if PNR
    busy"), two calls for FOID required, success ("should resolve foid and
    reticket"). So the booking is fetched again after FOID only. *)

(** Modelled from the spec: the failures of a ticket call that the
    ticketing machine of [Air.js] (not among the sources) tells apart. *)
Inductive failure :=
| TicketingFoidRequired
| TicketingPnrBusy
| OtherFailure (name : string).

Inductive outcome :=
| Issued
| Rejected (f : failure).

Inductive final :=
| Done
| Failed (f : failure)
| CouldNotRetrieveCurrency.

(** The calls made to the collaborators so far, and the retries taken
    for each failure kind. *)
Record state := {
  ticketCalls : nat;
  refetches : nat;          (* fetches of the booking after the first one *)
  foidCalls : nat;
  foidRetries : nat;
  busyRetries : nat
}.

Definition initial : state :=
  {| ticketCalls := 0; refetches := 0; foidCalls := 0;
     foidRetries := 0; busyRetries := 0 |}.

Definition issue (s : state) : state :=
  {| ticketCalls := S (ticketCalls s); refetches := refetches s;
     foidCalls := foidCalls s; foidRetries := foidRetries s;
     busyRetries := busyRetries s |}.

(** ApplyFoid, then RefetchBooking. *)
Definition resolve_foid (s : state) : state :=
  {| ticketCalls := ticketCalls s; refetches := S (refetches s);
     foidCalls := S (foidCalls s); foidRetries := S (foidRetries s);
     busyRetries := busyRetries s |}.

(** A busy PNR: the retry is noted, no collaborator is called. *)
Definition resolve_busy (s : state) : state :=
  {| ticketCalls := ticketCalls s; refetches := refetches s;
     foidCalls := foidCalls s; foidRetries := foidRetries s;
     busyRetries := S (busyRetries s) |}.

(** Modelled from the spec: the state Ticket of the ticketing machine of
    [Air.js] (not among the sources). [responses k] is the outcome of the
    ticket call number [k], counted from 0. [None] when the fuel runs out
    before the machine has finished. *)
Fixpoint ticket_loop (fuel : nat) (responses : nat -> outcome) (s : state)
  : option (final * state) :=
  match fuel with
  | O => None
  | S fuel' =>
      let s1 := issue s in
      match responses (ticketCalls s) with
      | Issued => Some (Done, s1)
      | Rejected TicketingFoidRequired =>
          if Nat.eqb (foidRetries s1) 0
          then ticket_loop fuel' responses (resolve_foid s1)
          else Some (Failed TicketingFoidRequired, s1)
      | Rejected TicketingPnrBusy =>
          if Nat.eqb (busyRetries s1) 0
          then ticket_loop fuel' responses (resolve_busy s1)
          else Some (Failed TicketingPnrBusy, s1)
      | Rejected f => Some (Failed f, s1)
      end
  end.

(** Modelled from the spec: one invocation of the ticketing machine of
    [Air.js] (not among the sources): FetchCurrency, then Ticket. A failure
    kind is retried at most once, so three ticket calls always suffice (see
    [TicketingFacts.ticket_run]). *)
Definition ticket (currency : option string) (responses : nat -> outcome)
  : option (final * state) :=
  match currency with
  | None => Some (CouldNotRetrieveCurrency, initial)
  | Some _ => ticket_loop 3 responses initial
  end.

End Ticketing.
(** ** The replies to ticketing, cancellation and queue requests:
    ticketParse, airCancelTicket, airCancelPnr, gdsQueue, exchangeBooking *)

Module Replies.
Import Js.

(** *** Patterns with [\s] *)

(** An element of a pattern: a literal character or [\s]. *)
Inductive atom :=
| Lit (c : ascii)
| Blank.

Definition atom_matches (a : atom) (c : ascii) : bool :=
  match a with
  | Lit x => Ascii.eqb x c
  | Blank => Re.is_space c
  end.

(** The pattern matches at the head of [s]. *)
Fixpoint atoms_here (p : list atom) (s : string) : bool :=
  match p, s with
  | [], _ => true
  | a :: p', String c s' => atom_matches a c && atoms_here p' s'
  | _ :: _, EmptyString => false
  end.

(** [/p/.test(s)]: the pattern matches somewhere in [s]. *)
Fixpoint atoms_anywhere (p : list atom) (s : string) : bool :=
  atoms_here p s ||
  match s with
  | EmptyString => false
  | String _ s' => atoms_anywhere p s'
  end.

Fixpoint lits (s : string) : list atom :=
  match s with
  | EmptyString => []
  | String c s' => Lit c :: lits s'
  end.

(** [/VALID\sFORM\sOF\sID\s\sFOID\s\sREQUIRED/] *)
Definition foidRequiredPattern : list atom :=
  lits "VALID" ++ [Blank] ++ lits "FORM" ++ [Blank] ++ lits "OF" ++ [Blank]
  ++ lits "ID" ++ [Blank; Blank] ++ lits "FOID" ++ [Blank; Blank]
  ++ lits "REQUIRED".

(** *** The documents *)

Record TicketFailureInfo := {
  Message : option string;
  Code : option string
}.

Record VoidResultInfo := {
  ResultType : option string
}.

(** A reply document, with the properties that the parsers of this section
    read. The ETRs of a ticketing reply are an object by key. *)
Record Reply := {
  air_TicketFailureInfo : option TicketFailureInfo;
  common_ResponseMessage : option (list Doc.ResponseMessage);
  air_ETR : option (jsobj Doc.ETR);
  air_VoidResultInfo : option VoidResultInfo;
  air_AirReservation : bool       (* present or not *)
}.

Inductive error :=
| TicketingFoidRequired (data : Reply)
| TicketingPNRBusy (data : Reply)
| TicketingFOPUnavailable (data : Reply)
| TicketingCreditCardRejected (data : Reply)
| TicketingFailed (data : Reply)
| TicketingResponseMissing (data : Reply)
| TicketCancelResultUnknown (data : Reply)
| CancelResponseNotFound
| PlacingInQueueError (data : Reply)
| PlacingInQueueMessageMissing (message : string)
| CantDetectExchangeResponse (data : Reply)
| TypeError.

Definition lift {A} (o : option A) : result error A :=
  match o with
  | Some a => Ok a
  | None => Throw TypeError
  end.

(** [v === c] for a string constant [c] *)
Definition is_text (v : option string) (c : string) : bool :=
  match v with
  | Some s => String.eqb s c
  | None => false
  end.

(** *** ticketParse *)

(** The [reduce] over the ETRs: every ticket of every ETR has a ticket
    number that is not empty. The callbacks read properties of the ETRs and
    of the tickets, which are objects here, so they do not throw and the
    [catch] clause around them ([TicketingTicketsMissing]) is not entered. *)
Definition tickets_numbered (etrs : jsobj Doc.ETR) : bool :=
  forallb
    (fun x => forallb (fun t => truthy (Doc.TicketNumber t))
                (obj_values (default [] (Doc.air_Ticket x))))
    (obj_values etrs).

(** [ticketParse(obj)]. A [Message] that is [undefined] is matched as the
    text "undefined", which the FOID pattern does not match; its [indexOf]
    throws. *)
Definition ticketParse (obj : Reply) : result error bool :=
  match air_TicketFailureInfo obj with
  | Some info =>
      if match Message info with
         | Some m => atoms_anywhere foidRequiredPattern m
         | None => false
         end
      then Throw (TicketingFoidRequired obj)
      else if is_text (Code info) "3979" then Throw (TicketingPNRBusy obj)
      else if is_text (Code info) "12008" then
        do m <- lift (Message info);
        if Re.contains "FOP SELECTED NOT AUTHORIZED" m
        then Throw (TicketingFOPUnavailable obj)
        else if Re.contains "REFUSE CREDIT" m
        then Throw (TicketingCreditCardRejected obj)
        else Throw (TicketingFailed obj)
      else Throw (TicketingFailed obj)
  | None =>
      let checkResponseMessage :=
        existsb (fun msg => is_text (Doc.rm_text msg) "OK:Ticket issued")
          (default [] (common_ResponseMessage obj)) in
      if negb checkResponseMessage then Throw (TicketingResponseMissing obj)
      else
        let checkTickets :=
          match air_ETR obj with
          | Some etrs => tickets_numbered etrs
          | None => false
          end in
        Ok (checkResponseMessage && checkTickets)
  end.

(** *** airCancelTicket, airCancelPnr, exchangeBooking *)

Definition airCancelTicket (obj : Reply) : result error bool :=
  match air_VoidResultInfo obj with
  | Some info =>
      if is_text (ResultType info) "Success" then Ok true
      else Throw (TicketCancelResultUnknown obj)
  | None => Throw (TicketCancelResultUnknown obj)
  end.

Definition airCancelPnr (obj : Reply) : result error bool :=
  let messages := default [] (common_ResponseMessage obj) in
  if existsb (fun message => is_text (Doc.rm_text message) "Itinerary Cancelled")
       messages
  then Ok true
  else Throw CancelResponseNotFound.

Definition exchangeBooking (rsp : Reply) : result error bool :=
  if air_AirReservation rsp then Ok true
  else Throw (CantDetectExchangeResponse rsp).

(** *** gdsQueue *)

(** [gdsQueue(req)]. Destructuring [undefined] throws inside the [try];
    reading [_] of the [undefined] first element of an empty array, and
    calling [match] on a message without text, throw outside of it. *)
Definition gdsQueue (req : Reply) : result error bool :=
  match common_ResponseMessage req with
  | None => Throw (PlacingInQueueError req)
  | Some messages =>
      do data <- lift (head messages);
      do message <- lift (Doc.rm_text data);
      if Re.starts_with "Booking successfully placed" message then Ok true
      else Throw (PlacingInQueueMessageMissing message)
  end.

End Replies.

(** ** searchLowFaresValidate *)

Module LowFares.
Import Js.

(** A property of the document as [Object.prototype.toString] sees it:
    absent, a text, an array or a plain object. *)
Inductive node (A : Type) :=
| Missing
| Text (s : string)
| List (l : list A)
| Dict (o : jsobj A).
Arguments Missing {A}.
Arguments Text {A} s.
Arguments List {A} l.
Arguments Dict {A} o.

(** [Object.prototype.toString.call(v) === '[object Object]'] *)
Definition is_plain_object {A} (v : node A) : bool :=
  match v with
  | Dict _ => true
  | _ => false
  end.

Section Validate.
(** The entries of the lists are not looked at. *)
Context {PricePoint PricingSolution AirSegment FareInfo FlightDetails Route : Type}.

Record LowFareSearchRsp := {
  air_AirPricePointList : node PricePoint;
  air_AirPricingSolution : node PricingSolution;
  air_AirSegmentList : node AirSegment;
  air_FareInfoList : node FareInfo;
  air_FlightDetailsList : node FlightDetails;
  air_RouteList : node Route
}.

Inductive error :=
| ResponseDataMissing (missing : string).

(** One round of [rootArrays.forEach]. *)
Definition check_list {A} (name : string) (v : node A) : result error unit :=
  let airName := "air:" +:+ name +:+ "List" in
  if negb (is_plain_object v) then Throw (ResponseDataMissing airName)
  else Ok tt.

Definition searchLowFaresValidate (obj : LowFareSearchRsp)
  : result error LowFareSearchRsp :=
  if negb (is_plain_object (air_AirPricePointList obj))
     && negb (is_plain_object (air_AirPricingSolution obj))
  then Throw (ResponseDataMissing "AirPricePoint or AirPricingSolution")
  else
    do _ <- check_list "AirSegment" (air_AirSegmentList obj);
    do _ <- check_list "FareInfo" (air_FareInfoList obj);
    do _ <- check_list "FlightDetails" (air_FlightDetailsList obj);
    do _ <- check_list "Route" (air_RouteList obj);
    Ok obj.

End Validate.
End LowFares.

(** ** availability *)

Module Availability.
Import Js.

(** [String(v)] *)
Definition to_String (v : option string) : string :=
  match v with
  | Some s => s
  | None => "undefined"
  end.

(** The value of the longest run of decimal digits at the head of [s];
    [acc] is the value of the digits read so far, [None] when there is none
    yet. *)
Fixpoint digits_prefix (acc : option Z) (s : string) : option Z :=
  match s with
  | EmptyString => acc
  | String c s' =>
      if Re.is_digit c
      then digits_prefix
             (Some (10 * default 0%Z acc + (Z.of_nat (nat_of_ascii c) - 48))%Z) s'
      else acc
  end.

(** [parseInt(v, 10)]: leading white space is skipped, a sign is read, and
    the digits that follow are the value; [None] is [NaN]. The number that
    JavaScript returns is the double nearest to this integer, so it equals
    an array index exactly when this integer does. *)
Definition parseInt10 (v : option string) : option Z :=
  let s := snd (Re.span Re.is_space (to_String v)) in
  match s with
  | String c r =>
      if Ascii.eqb c "-"%char then option_map Z.opp (digits_prefix None r)
      else if Ascii.eqb c "+"%char then digits_prefix None r
      else digits_prefix None s
  | EmptyString => None
  end.

(** [s.split(sep)] for a separator of one character. *)
Fixpoint split_on (sep : ascii) (s : string) : list string :=
  match s with
  | EmptyString => [EmptyString]
  | String c s' =>
      if Ascii.eqb c sep then EmptyString :: split_on sep s'
      else match split_on sep s' with
           | h :: t => String c h :: t
           | [] => [String c EmptyString]
           end
  end.

(** [a === b] for two values that are strings or [undefined]. *)
Definition same (a b : option string) : bool :=
  match a, b with
  | Some x, Some y => String.eqb x y
  | None, None => true
  | _, _ => false
  end.

(** *** The reply *)

Record BookingCodeInfo := {
  CabinClass : option string;
  BookingCounts : option string
}.

Record AirAvailInfo := {
  ProviderCode : option string;
  air_BookingCodeInfo : option (list BookingCodeInfo)
}.

Record Connection := {
  SegmentIndex : option string
}.

Record AirItinerarySolution := {
  air_Connection : option (list Connection);
  air_AirSegmentRef : option (list string)
}.

(** *** The records returned *)

Record bookingCode := {
  bookingClass : option string;
  cabin : option string;
  seats : string
}.

Inductive error := TypeError.

Definition lift {A} (o : option A) : result error A :=
  match o with
  | Some a => Ok a
  | None => Throw TypeError
  end.

(** One element of [x.BookingCounts.split('|')]: [item[0]] and
    [item[1].trim()]; an item of fewer than two characters has no
    [item[1]]. *)
Definition booking_code (x : BookingCodeInfo) (item : string)
  : result error bookingCode :=
  match item with
  | EmptyString => Throw TypeError
  | String c0 r =>
      match r with
      | EmptyString => Throw TypeError
      | String c1 _ =>
          Ok {| bookingClass := Some (String c0 EmptyString);
                cabin := CabinClass x;
                seats := if Re.is_space c1 then EmptyString
                         else String c1 EmptyString |}
      end
  end.

Section Parser.
(** A segment of the reply is read through [air_AirAvailInfo], [Equipment]
    and [FlightTime]; the rest of it is for [format.formatSegment], which is
    defined outside this file. [provider] is [this.provider] and [cabins] is
    [this.env.cabins]; [Reference] is the type of the next-result
    reference, an object. *)
Context {AirSegment Segment Reference : Type}.
Variable air_AirAvailInfo : AirSegment -> option (list AirAvailInfo).
Variable Equipment : AirSegment -> option string.
Variable FlightTime : AirSegment -> option string.
Variable formatSegment : AirSegment -> Segment.
Variable provider : option string.
Variable cabins : option (list string).

Record AvailabilityRsp := {
  air_AirItinerarySolution : option (jsobj AirItinerarySolution);
  air_AirSegmentList : option (jsobj AirSegment);
  common_NextResultReference : option Reference
}.

Record availableSegment := {
  formatted : Segment;          (* the spread of [format.formatSegment(segment)] *)
  plane : option string;
  duration : option string;
  availability_of : list bookingCode     (* the property [availability] *)
}.

Record availabilityResult := {
  legs : list (list availableSegment);
  nextResultReference : option Reference
}.

(** The filter on the booking code infos: with a non-empty list of cabins
    only the infos of those cabins pass. *)
Definition cabin_wanted (info : BookingCodeInfo) : bool :=
  match cabins with
  | Some (c :: cs) => existsb (fun w => same (Some w) (CabinClass info)) (c :: cs)
  | _ => true
  end.

Definition cabinsAvailability (infos : list BookingCodeInfo)
  : result error (list bookingCode) :=
  do chunks <- rmap (fun x =>
                 do counts <- lift (BookingCounts x);
                 rmap (booking_code x) (split_on "|"%char counts))
               (List.filter cabin_wanted infos);
  Ok (List.concat chunks).

(** What the callback of [forEach] makes of one segment reference: [None]
    when it returns early, without pushing a segment. *)
Definition segment_entry (rsp : AvailabilityRsp) (segmentRef : string)
  : result error (option availableSegment) :=
  do segmentList <- lift (air_AirSegmentList rsp);
  do segment <- lift (obj_get segmentRef segmentList);
  let availInfoList := default [] (air_AirAvailInfo segment) in
  match List.find (fun info => same (ProviderCode info) provider) availInfoList with
  | None => Ok None
  | Some availInfo =>
      match air_BookingCodeInfo availInfo with
      | None => Ok None
      | Some infos =>
          do codes <- cabinsAvailability infos;
          Ok (Some {| formatted := formatSegment segment;
                      plane := Equipment segment;
                      duration := FlightTime segment;
                      availability_of := codes |})
      end
  end.

(** [connectedSegments.find((s) => s === key) !== undefined] *)
Definition is_connected (connectedSegments : list (option Z)) (key : nat) : bool :=
  existsb (fun s => match s with
                    | Some z => Z.eqb z (Z.of_nat key)
                    | None => false
                    end) connectedSegments.

(** The [forEach] over the segment references, from the index [key] on,
    with the arrays [results] and [leg] that the callback pushes to. *)
Fixpoint segments_loop (rsp : AvailabilityRsp) (connectedSegments : list (option Z))
    (refs : list string) (key : nat)
    (results : list (list availableSegment)) (leg : list availableSegment)
  : result error (list (list availableSegment) * list availableSegment) :=
  match refs with
  | [] => Ok (results, leg)
  | segmentRef :: rest =>
      do entry <- segment_entry rsp segmentRef;
      match entry with
      | None => segments_loop rsp connectedSegments rest (S key) results leg
      | Some s =>
          if is_connected connectedSegments key
          then segments_loop rsp connectedSegments rest (S key) results (leg ++ [s])
          else segments_loop rsp connectedSegments rest (S key)
                 (results ++ [leg ++ [s]]) []
      end
  end.

(** [availability(rsp)]. [utils.firstInObj] is [Js.firstInObj]. *)
Definition availability (rsp : AvailabilityRsp) : result error availabilityResult :=
  do solutions <- lift (air_AirItinerarySolution rsp);
  do itinerarySolution <- lift (firstInObj solutions);
  let connectedSegments :=
    match air_Connection itinerarySolution with
    | Some connections => List.map (fun s => parseInt10 (SegmentIndex s)) connections
    | None => []
    end in
  do refs <- lift (air_AirSegmentRef itinerarySolution);
  do r <- segments_loop rsp connectedSegments refs 0 [] [];
  Ok {| legs := match snd r with
                | [] => fst r
                | _ :: _ => fst r ++ [snd r]
                end;
        nextResultReference := common_NextResultReference rsp |}.

End Parser.
End Availability.

(** ** airPrice *)

From Stdlib Require PrimFloat.

Module Pricing.
Import Js.

(** The data that only the functions of [AirFormat] read or produce; that
    module is outside this file. [SegmentRest] and [PricingRest] stand for
    the properties of a segment and of a pricing info that this file does
    not read. *)
Class Data := {
  SegmentRest : Type;
  PricingRest : Type;
  FlightDetails : Type;
  BaggageAllowanceInfo : Type;
  BaggageInfo : Type;
  Trip : Type;
  PassengerCounts : Type;
  PassengerFares : Type;
  FarePricingInfo : Type
}.

Section Documents.
Context `{Data}.

Record FareInfo := {
  FareBasis : option string
}.

Record BookingInfo := {
  SegmentRef : option string;
  FareInfoRef : option string;
  CabinClass : option string;
  BookingCode : option string
}.

Record TaxDetail := {
  OriginAirport : option string;
  td_Amount : option string
}.

Record TaxInfo := {
  Category : option string;
  Amount : option string;
  common_TaxDetail : option (list TaxDetail)
}.

Record BaggageAllowances := {
  air_BaggageAllowanceInfo : option (list BaggageAllowanceInfo)
}.

Record AirPricingInfo := {
  Key : option string;
  PlatingCarrier : option string;
  air_BookingInfo : option (list BookingInfo);
  air_FareInfo : option (jsobj FareInfo);
  air_BaggageAllowances : option BaggageAllowances;
  air_TaxInfo : option (jsobj TaxInfo);
  AirPricingInfoGroup : option string;
  PricingMethod : option string;
  PricingType : option string;
  TotalPrice : option string;
  BasePrice : option string;
  Taxes : option string;
  LatestTicketingTime : option string;
  pricing_rest : PricingRest
}.

Record AirPricingSolution := {
  s_Key : option string;
  s_TotalPrice : option string;
  s_BasePrice : option string;
  s_EquivalentBasePrice : option string;
  s_Taxes : option string;
  air_AirPricingInfo : option (jsobj AirPricingInfo)
}.

Record AirSegment := {
  seg_Key : option string;
  Group : option string;
  air_FlightDetails : option (jsobj FlightDetails);
  segment_rest : SegmentRest
}.

Record AirItinerary := {
  air_AirSegment : option (jsobj AirSegment)
}.

Record AirPriceResult := {
  air_AirPricingSolution : option (jsobj AirPricingSolution)
}.

Record AirPriceRsp := {
  air_AirPriceResult : option AirPriceResult;
  air_AirItinerary : option AirItinerary
}.

(** *** The records returned *)

(** A trip: the object that [format.formatTrip] returns, with the four
    properties that [Object.assign] sets on it. *)
Record trip := {
  formatted : Trip;
  serviceClass : option string;
  bookingClass : option string;
  fareBasisCode : option string;
  baggage : BaggageInfo
}.

Record direction := {
  from : option string;
  to : option string;
  duration : option string;
  d_platingCarrier : option string;
  segments : list trip
}.

Record bookingComponent := {
  bc_totalPrice : option string;
  bc_basePrice : option string;
  bc_taxes : option string;
  uapi_fare_reference : option string
}.

Record taxInfo := {
  tx_value : option string;
  tx_type : option string;
  tx_details : option (list (option string * option string))
}.

Record price := {
  uapi_pricing_info_ref : option string;
  uapi_pricing_info_group : option string;
  farePricingMethod : option string;
  farePricingType : option string;
  platingCarrier : option string;
  totalPrice : option string;
  basePrice : option string;
  equivalentBasePrice : option string;
  taxes : option string;
  directions : list (list direction);
  bookingComponents : list bookingComponent;
  passengerCounts : PassengerCounts;
  passengerFares : PassengerFares;
  fareInfo : FarePricingInfo;
  taxesInfo : list taxInfo;
  baggageInfos : list BaggageInfo;      (* the property [baggage] *)
  timeToReprice : option string
}.

End Documents.

(** The functions of [AirFormat] that [airPrice] calls, [trip_from] and
    [trip_to] for the properties [from] and [to] of a formatted trip, and
    [parseFloat]. *)
Class Format `{Data} := {
  parseFloat : string -> PrimFloat.float;
  getBaggageInfo : option BaggageAllowanceInfo -> BaggageInfo;
  formatTrip : AirSegment -> list FlightDetails -> Trip;
  trip_from : Trip -> option string;
  trip_to : Trip -> option string;
  formatPassengerCategories : jsobj AirPricingInfo -> PassengerCounts * PassengerFares;
  formatFarePricingInfo : AirPricingInfo -> FarePricingInfo
}.

Inductive error :=
| PlatingCarrierNotSet
| TypeError.

Definition lift {A} (o : option A) : result error A :=
  match o with
  | Some a => Ok a
  | None => Throw TypeError
  end.

(** [a === b] for two values that are strings or [undefined]. *)
Definition same (a b : option string) : bool :=
  match a, b with
  | Some x, Some y => String.eqb x y
  | None, None => true
  | _, _ => false
  end.

(** [o[Object.keys(o)[0]]] *)
Definition first_value {V} (o : jsobj V) : option V :=
  match obj_keys o with
  | [] => None
  | k :: _ => obj_get k o
  end.

(** [arr[k]] for a key that is a string or [undefined]: the element, when
    the key is an array index. *)
Definition array_get {V} (arr : list V) (k : option string) : option V :=
  match k with
  | Some s =>
      match array_index s with
      | Some n => arr !! N.to_nat n
      | None => None
      end
  | None => None
  end.

(** The comparator [(a, b) => a - b] on two prices, as "does not put [b]
    first": the difference is not positive (it may be [NaN]). *)
Definition price_le (a b : PrimFloat.float) : bool :=
  negb (PrimFloat.ltb PrimFloat.zero (PrimFloat.sub a b)).

Section Parser.
Context `{Format}.

(** The solution priced: with more than one, the first of them in the
    order of the total prices. The comparator reads the total price of
    every solution at least once, and throws when one is missing. *)
Definition choose_solution (pricingSolutions : jsobj AirPricingSolution)
  : result error AirPricingSolution :=
  let priceKeys := obj_keys pricingSolutions in
  if 1 <? length priceKeys then
    let solutions := obj_values pricingSolutions in
    do priced <- rmap (fun s =>
                   do total <- lift (s_TotalPrice s);
                   Ok (parseFloat (Re.drop 3 total), s)) solutions;
    lift (head (List.map snd
                  (sort_by (fun a b => price_le (fst a) (fst b)) priced)))
  else lift (first_value pricingSolutions).

(** The [reduce] that collects the groups of the segments, each once, in
    the order of their first segment. *)
Definition collect_groups (segments : list AirSegment) : list (option string) :=
  fold_left
    (fun previousValue currentValue =>
       if existsb (same (Group currentValue)) previousValue then previousValue
       else previousValue ++ [Group currentValue])
    segments [].

(** The callback of [segs.map]: one trip. *)
Definition build_trip (thisFare : AirPricingInfo) (leg : option string)
    (segment : AirSegment) : result error trip :=
  do details <- lift (air_FlightDetails segment);
  let tripFlightDetails := obj_values details in
  do infos <- lift (air_BookingInfo thisFare);
  do bookingInfo <-
    lift (head (List.filter (fun info => same (SegmentRef info) (seg_Key segment))
                  infos));
  do fares <- lift (air_FareInfo thisFare);
  let fareInfo := obj_get (prop_key (FareInfoRef bookingInfo)) fares in
  do allowances <- lift (air_BaggageAllowances thisFare);
  do allowanceInfos <- lift (air_BaggageAllowanceInfo allowances);
  let baggage := getBaggageInfo (array_get allowanceInfos leg) in
  do fareInfo <- lift fareInfo;
  Ok {| formatted := formatTrip segment tripFlightDetails;
        serviceClass := CabinClass bookingInfo;
        bookingClass := BookingCode bookingInfo;
        fareBasisCode := FareBasis fareInfo;
        baggage := baggage |}.

(** The callback of [groups.map]: the direction of one group, in an array
    of its own. [leg.TravelTime] is read from the group, a string, so the
    duration is [undefined]; for a group that is [undefined] the read
    throws. *)
Definition build_direction (thisFare : AirPricingInfo) (segments : list AirSegment)
    (leg : option string) : result error (list direction) :=
  let segs := List.filter (fun value => same (Group value) leg) segments in
  do trips <- rmap (build_trip thisFare leg) segs;
  do first <- lift (head trips);
  do final <- lift (last trips);
  do _ <- lift leg;
  Ok [{| from := trip_from (formatted first);
         to := trip_to (formatted final);
         duration := None;
         d_platingCarrier := PlatingCarrier thisFare;
         segments := trips |}].

Definition build_taxesInfo (taxes : option (jsobj TaxInfo)) : list taxInfo :=
  match taxes with
  | None => []
  | Some o =>
      List.map
        (fun t =>
           {| tx_value := Amount t;
              tx_type := Category t;
              tx_details :=
                option_map
                  (List.map (fun d => (OriginAirport d, td_Amount d)))
                  (common_TaxDetail t) |})
        (obj_values o)
  end.

(** [airPrice(obj)] *)
Definition airPrice (obj : AirPriceRsp) : result error price :=
  do priceResult <- lift (air_AirPriceResult obj);
  do pricingSolutions <- lift (air_AirPricingSolution priceResult);
  do pricingSolution <- choose_solution pricingSolutions;
  do pricingInfos <- lift (air_AirPricingInfo pricingSolution);
  do thisFare <- lift (first_value pricingInfos);
  if negb (truthy (PlatingCarrier thisFare)) then Throw PlatingCarrierNotSet
  else
    do itinerary <- lift (air_AirItinerary obj);
    do airSegments <- lift (air_AirSegment itinerary);
    let segments := obj_values airSegments in
    let groups := collect_groups segments in
    do directions <- rmap (build_direction thisFare segments) groups;
    let baggageInfos :=
      List.concat
        (List.map (fun d => List.map baggage (Pricing.segments d))
           (List.concat directions)) in
    let categories := formatPassengerCategories pricingInfos in
    Ok {| uapi_pricing_info_ref := s_Key pricingSolution;
          uapi_pricing_info_group := AirPricingInfoGroup thisFare;
          farePricingMethod := PricingMethod thisFare;
          farePricingType := PricingType thisFare;
          platingCarrier := PlatingCarrier thisFare;
          totalPrice := s_TotalPrice pricingSolution;
          basePrice := s_BasePrice pricingSolution;
          equivalentBasePrice := s_EquivalentBasePrice pricingSolution;
          taxes := s_Taxes pricingSolution;
          directions := directions;
          bookingComponents :=
            [{| bc_totalPrice := TotalPrice thisFare;
                bc_basePrice := BasePrice thisFare;
                bc_taxes := Taxes thisFare;
                uapi_fare_reference := Key thisFare |}];
          passengerCounts := fst categories;
          passengerFares := snd categories;
          fareInfo := formatFarePricingInfo thisFare;
          taxesInfo := build_taxesInfo (air_TaxInfo thisFare);
          baggageInfos := baggageInfos;
          timeToReprice := LatestTicketingTime thisFare |}.

End Parser.
End Pricing.

(** ** airPriceRspPricingSolutionXML *)

From Stdlib Require DecimalString.

Module SolutionXml.
Import Js.

(** The parts of the documents that this file does not look into. [Rest]
    stands for the properties of an object that the function does not
    read; [ParsedPassengerType] is a passenger type as the XML layer
    delivers it. *)
Class Data := {
  Rest : Type;
  Segments : Type;
  SegmentRefs : Type;
  FareNotes : Type;
  HostTokens : Type;
  Age : Type;
  ParsedPassengerType : Type;
  MergedSegments : Type
}.

Section Documents.
Context `{Data}.

(** *** The document as the XML layer delivers it: every element is an
    array, the attributes of an element are under [$] *)

(** The [$] of a passenger type that the function adds. *)
Record PassengerTypeAttrs := {
  BookingTravelerRef : string;
  Code : option string;
  pt_Age : option Age
}.

Inductive PassengerType :=
| Parsed (p : ParsedPassengerType)
| Added (attrs : PassengerTypeAttrs).    (* [{ $: attrs }] *)

Record InfoAttrs := {
  Key : option string;
  info_attrs_rest : Rest
}.

Record PricingInfo := {
  info_attrs : option InfoAttrs;                       (* [$] *)
  air_PassengerType : option (list PassengerType);
  info_rest : Rest
}.

Record SolutionAttrs := {
  TotalPrice : option string;
  solution_attrs_rest : Rest
}.

Record PricingSolution := {
  solution_attrs : option SolutionAttrs;               (* [$] *)
  air_AirSegmentRef : option SegmentRefs;
  sol_AirSegment : option Segments;                    (* [air:AirSegment] *)
  air_AirPricingInfo : option (list PricingInfo);
  air_FareNote : option FareNotes;
  common_HostToken : option HostTokens;
  solution_rest : Rest
}.

Record PriceResult := {
  air_AirPricingSolution : option (list PricingSolution);
  result_rest : Rest
}.

Record Itinerary := {
  air_AirSegment : option Segments;
  itinerary_rest : Rest
}.

Record AirPriceRsp := {
  air_AirItinerary : option (list Itinerary);
  air_AirPriceResult : option (list PriceResult);
  rsp_rest : Rest
}.

Record Document := {
  air_AirPriceRsp : option (list AirPriceRsp);
  doc_rest : Rest
}.

(** *** What [mergeLeafRecursive] makes of it, as far as it is read *)






(** A passenger of the request ([this.env.passengers]). *)
Record Passenger := {
  ageCategory : option string;
  p_Age : option Age
}.

(** What is handed to the XML builder under a root name. *)
Inductive node :=
| SegmentsNode (s : Segments)
| PricingInfosNode (l : list PricingInfo)
| FareNotesNode (n : FareNotes)
| HostTokensNode (t : HostTokens).


End Documents.

Inductive error :=
| HistogramTypeInvalid
| TypeError.


Definition lift {A} (o : option A) : result error A :=
  match o with
  | Some a => Ok a
  | None => Throw TypeError
  end.

(** [a === b] for two values that are strings or [undefined]. *)
Definition same (a b : option string) : bool :=
  match a, b with
  | Some x, Some y => String.eqb x y
  | None, None => true
  | _, _ => false
  end.

(** [o[Object.keys(o)[0]]] *)
Definition first_value {V} (o : jsobj V) : option V :=
  match obj_keys o with
  | [] => None
  | k :: _ => obj_get k o
  end.




Section Parser.
Context `{Env}.











End Parser.
End SolutionXml.
(** * Specifications

    The predicates in which the properties below are stated. *)

(** ** Patterns *)

Module ReSpec.

(** [p] occurs in [s]. *)
Definition occurs_in (p s : string) : Prop :=
  exists a b, s = a +:+ p +:+ b.

Fixpoint fold_string (s : string) : string :=
  match s with
  | EmptyString => EmptyString
  | String c s' => String (Re.fold_case c) (fold_string s')
  end.

(** [p] occurs in [s] when the case of the ASCII letters is ignored. *)
Definition occurs_in_ignoring_case (p s : string) : Prop :=
  exists a x b, s = a +:+ x +:+ b /\ fold_string x = fold_string p.

End ReSpec.

(** ** Fare calculations *)

Module FareCalcSpec.
Import Re FareCalc.

(** What may follow the [END] marker: the end of the string or a blank. *)
Definition after_marker (rest : string) : Prop :=
  rest = EmptyString \/ exists c r, rest = String c r /\ is_space c = true.

(** [content] followed by the [END] marker is a prefix of [str]. *)
Definition content_before_end (str content : string) : Prop :=
  exists rest, str = content +:+ "END" +:+ rest /\ after_marker rest.

(** The match of the pattern: a non-empty content, and the longest one. *)
Definition pattern_match (str content : string) : Prop :=
  content <> EmptyString /\ content_before_end str content /\
  forall c', c' <> EmptyString -> content_before_end str c' ->
             String.length c' <= String.length content.

Definition no_paren (s : string) : bool :=
  all_chars (fun c => negb (Ascii.eqb c "("%char)) s.

Fixpoint ends_with_space (s : string) : bool :=
  match s with
  | EmptyString => false
  | String c EmptyString => is_space c
  | String _ s' => ends_with_space s'
  end.

(** [out] is [content] with its first parenthetical separator (the
    leftmost run of blanks followed by an opening parenthesis) replaced by
    a period. *)
Definition first_separator_normalized (content out : string) : Prop :=
  (no_paren content = true /\ out = content) \/
  (exists a w b, content = a +:+ w +:+ "(" +:+ b /\
                 no_paren a = true /\ ends_with_space a = false /\
                 all_chars is_space w = true /\
                 out = a +:+ "." +:+ b).

(** The reading of the design document: every parenthetical separator is
    replaced by a period. *)
Fixpoint normalize_from (blanks s : string) : string :=
  match s with
  | EmptyString => blanks
  | String c s' =>
      if Ascii.eqb c "("%char then String "."%char (normalize_from EmptyString s')
      else if is_space c then normalize_from (blanks +:+ String c EmptyString) s'
      else blanks +:+ String c (normalize_from EmptyString s')
  end.

Definition spec_normalize_separators (s : string) : string :=
  normalize_from EmptyString s.

(** [\d{2}[a-z]{3}\d{2}] *)
Definition is_date (d : string) : bool :=
  match d with
  | String d1 (String d2 (String l1 (String l2 (String l3
      (String d3 (String d4 EmptyString)))))) =>
      is_digit d1 && is_digit d2 && is_alpha l1 && is_alpha l2
      && is_alpha l3 && is_digit d3 && is_digit d4
  | _ => false
  end.

(** What may stand before the origin: an optional [s-] and an optional
    date followed by blanks. *)
Definition origin_prefix (pre : string) : Prop :=
  exists p1 p2, pre = p1 +:+ p2 /\
    (p1 = EmptyString \/ p1 = "s-" \/ p1 = "S-") /\
    (p2 = EmptyString \/ exists d w, p2 = d +:+ w /\ is_date d = true /\
                            w <> EmptyString /\ all_chars is_space w = true).

(** [o] is the leading three-letter origin code of [str]. *)
Definition leading_origin (str o : string) : Prop :=
  exists pre rest, str = pre +:+ o +:+ rest /\ origin_prefix pre /\
    String.length o = 3 /\ all_chars is_alpha o = true.

(** [t] begins with a digit. *)
Definition begins_with_digit (t : string) : Prop :=
  exists d r, t = String d r /\ is_digit d = true.

(** [r] is the number at the head of [r +:+ b], taken as far as it goes:
    digits up to the first character that is not one, together with a
    period and the digits after it when a digit follows the period. *)
Definition number_before (r b : string) : Prop :=
  ~ begins_with_digit b /\
  ((r <> EmptyString /\ all_chars is_digit r = true /\
    forall b', b = "." +:+ b' -> ~ begins_with_digit b') \/
   (exists i f, r = i +:+ "." +:+ f /\ i <> EmptyString /\ f <> EmptyString /\
                all_chars is_digit i = true /\ all_chars is_digit f = true)).

(** [r] is the numeric ROE suffix of [str]: the number that follows the
    first [ROE] of [str] that a digit follows. *)
Definition roe_suffix (str r : string) : Prop :=
  exists a b, str = a +:+ "ROE" +:+ r +:+ b /\ number_before r b /\
    forall a' d b', str = a' +:+ "ROE" +:+ String d b' -> is_digit d = true ->
                    String.length a <= String.length a'.

End FareCalcSpec.

(** ** The histogram *)

Module HistogramSpec.
(** The number of occurrences of the code [k] in [codes]. *)
Definition occurrences (k : string) (codes : list string) : nat :=
  length (List.filter (String.eqb k) codes).
End HistogramSpec.

(** ** Fault documents *)

Module ErrorsSpec.
Import Js Doc Errors.

(** The codes on which [AirErrorHandler] dispatches. *)
Definition recognized_codes : list string :=
  ["20"; "345"; "1512"; "6207"; "6119"; "4454"; "12009"; "13003"; "3003";
   "3000"; "2602"; "3037"].

(** The structured error code of a fault document: [None] when it cannot be
    read (no [detail], or no error-info block in it). *)
Definition structured_code (rsp : Response) : option (option string) :=
  option_map common_Code (read_errorInfo rsp).

(** The structured code is absent or not one of the recognized ones. *)
Definition code_absent_or_unrecognized (rsp : Response) : Prop :=
  match structured_code rsp with
  | None => True
  | Some None => True
  | Some (Some c) => ~ In c recognized_codes
  end.

(** The document has no fault string to classify: the property is absent
    or empty. *)
Definition no_fault_string (rsp : Response) : Prop :=
  faultstring rsp = None \/ faultstring rsp = Some EmptyString.

(** The document has no response message: the list is absent or empty. *)
Definition no_response_message (rsp : Response) : Prop :=
  common_ResponseMessage rsp = None \/ common_ResponseMessage rsp = Some [].

(** The document has no fault string, no response message and no
    document-failure block. *)
Definition no_message_source (rsp : Response) : Prop :=
  no_fault_string rsp /\ no_response_message rsp /\
  air_DocumentFailureInfo rsp = None.

(** The sentence that stands in for a text that is absent. *)
Definition text_or_fallback (text : option string) : string :=
  match text with
  | Some t => t
  | None => "UAPI Service resulted in an error"
  end.

(** The message that the free-text classification works on, read off the
    document: the fault string when there is one; otherwise the text of the
    first response message; otherwise, without response messages, the
    message of the document-failure block. *)
Inductive resolved_message (rsp : Response) : string -> Prop :=
| from_fault_string (s : string) :
    faultstring rsp = Some s -> s <> EmptyString ->
    resolved_message rsp s
| from_response_message (m : ResponseMessage) (rest : list ResponseMessage) :
    no_fault_string rsp ->
    common_ResponseMessage rsp = Some (m :: rest) ->
    resolved_message rsp (text_or_fallback (rm_text m))
| from_document_failure (d : DocumentFailureInfo) :
    no_fault_string rsp -> no_response_message rsp ->
    air_DocumentFailureInfo rsp = Some d ->
    resolved_message rsp (text_or_fallback (dfi_Message d)).

(** [data] is the document [rsp] with [text] as its fault string. *)
Definition carries (text : string) (rsp data : Response) : Prop :=
  faultstring data = Some text /\
  faultcode data = faultcode rsp /\
  detail data = detail rsp /\
  common_ResponseMessage data = common_ResponseMessage rsp /\
  air_DocumentFailureInfo data = air_DocumentFailureInfo rsp /\
  air_ETR data = air_ETR rsp /\
  UniversalRecordLocatorCode data = UniversalRecordLocatorCode rsp.

(** None of the four patterns of the classification occurs in [m]. *)
Definition no_pattern (m : string) : Prop :=
  ~ ReSpec.occurs_in_ignoring_case "NO AGENCY AGREEMENT" m /\
  ~ ReSpec.occurs_in_ignoring_case "UNABLE TO RETRIEVE" m /\
  ~ ReSpec.occurs_in_ignoring_case "HOST ERROR DURING TICKET RETRIEVE" m /\
  ~ ReSpec.occurs_in_ignoring_case "ACCESSED BY ANOTHER TRANSACTION" m.

(** A stand-in for the functions of [utils] and [String.prototype] on ASCII
    text: the case conversions touch the ASCII letters only, and
    [getErrorPcc] finds no PCC. *)
Definition upper_char (c : ascii) : ascii := Re.fold_case c.
Definition lower_char (c : ascii) : ascii :=
  if Re.is_upper c then ascii_of_nat (nat_of_ascii c + 32) else c.

Fixpoint map_string (f : ascii -> ascii) (s : string) : string :=
  match s with
  | EmptyString => EmptyString
  | String c s' => String (f c) (map_string f s')
  end.

Definition ascii_utils : Utils :=
  {| getErrorPcc := fun _ => None;
     toUpperCase := map_string upper_char;
     toLowerCase := map_string lower_char |}.

Definition empty_response : Response :=
  {| faultcode := None; faultstring := None; detail := None;
     common_ResponseMessage := None; air_DocumentFailureInfo := None;
     air_ETR := None; UniversalRecordLocatorCode := None |}.

(** A document without a structured code whose only response message has
    an empty text. *)
Definition empty_text_document : Response :=
  {| faultcode := None; faultstring := None; detail := None;
     common_ResponseMessage :=
       Some [{| rm_text := Some EmptyString; rm_Type := Some "Error";
                rm_Code := None |}];
     air_DocumentFailureInfo := None;
     air_ETR := None; UniversalRecordLocatorCode := None |}.

(** A SOAP fault with the given fault string and structured code. *)
Definition fault (code : option string) (text : string) : Response :=
  {| faultcode := Some "Server.Business"; faultstring := Some text;
     detail := Some {| common_ErrorInfo :=
                         Some {| common_Code := code;
                                 common_Description := None;
                                 air_AirSegmentError := None |};
                       air_AvailabilityErrorInfo := None |};
     common_ResponseMessage := None; air_DocumentFailureInfo := None;
     air_ETR := None; UniversalRecordLocatorCode := None |}.

End ErrorsSpec.

(** ** Tickets *)

Module TicketsSpec.
Import Js Doc Errors Tickets ErrorsSpec.

Definition sample_coupon (n origin destination stop : string) : Coupon :=
  {| CouponNumber := Some n; Origin := Some origin; Destination := Some destination;
     DepartureTime := None; MarketingCarrier := Some "PS";
     MarketingFlightNumber := None; Status := Some "O";
     NotValidBefore := None; NotValidAfter := None; BookingClass := Some "Y";
     StopoverCode := Some stop |}.

(** An ETR with one ticket of three coupons whose own stopover codes are
    [true], [false], [false]. *)
Definition sample_etr : ETR :=
  {| ProviderLocatorCode := Some "ABC123";
     TourCode := None;
     common_BookingTraveler :=
       Some [("trv1", {| common_BookingTravelerName :=
                           Some {| First := Some "JOHN"; Last := Some "DOE";
                                   Prefix := Some "MR" |} |})];
     air_AirPricingInfo := None;
     air_Ticket :=
       Some [("tkt1",
              {| TicketNumber := Some "0649902789376";
                 air_Coupon :=
                   Some [("cpn1", sample_coupon "1" "KBP" "AMS" "true");
                         ("cpn2", sample_coupon "2" "AMS" "LHR" "false");
                         ("cpn3", sample_coupon "3" "LHR" "KBP" "false")];
                 air_ExchangedTicketInfo := None |})];
     air_FareCalc := Some "IEV PS AMS 100.00 NUC100.00END ROE1.0";
     air_AirReservationLocatorCode := Some "RES001";
     PlatingCarrier := Some "PS";
     PseudoCityCode := None;
     IssuedDate := None;
     IATANumber := None |}.

(** The coupons of the tickets of an ETR as one list, ticket after ticket,
    each with its key: the flattened list of all coupons, as the document
    holds them. *)
Definition flat_coupons (ticketsList : list Ticket) : list (string * Coupon) :=
  List.concat
    (List.map (fun t => obj_entries (default [] (air_Coupon t))) ticketsList).

(** The stopover code of the coupon says [true]. *)
Definition stopover_code_true (c : Coupon) : Prop := StopoverCode c = Some "true".

(** The returned coupons [cs] against the flattened list [flat]: they are
    as many, the coupon at position [i] has the key of the document's coupon
    at [i], and its stopover flag tells the stopover code of the document's
    coupon at [i + 1]; it is [true] when there is none. *)
Definition flags_of_next (flat : list (string * Coupon)) (cs : list coupon) : Prop :=
  length cs = length flat /\
  forall i c, cs !! i = Some c ->
    (exists own, flat !! i = Some (key c, own)) /\
    match flat !! (i + 1) with
    | Some (_, next) => stopover c = true <-> stopover_code_true next
    | None => stopover c = true
    end.

(** An ETR with two tickets whose only coupons share the key [cpn1]; the
    stopover codes of both say [false]. *)
Definition shared_key_etr : ETR :=
  {| ProviderLocatorCode := Some "ABC123";
     TourCode := None;
     common_BookingTraveler :=
       Some [("trv1", {| common_BookingTravelerName :=
                           Some {| First := Some "JOHN"; Last := Some "DOE";
                                   Prefix := Some "MR" |} |})];
     air_AirPricingInfo := None;
     air_Ticket :=
       Some [("tkt1",
              {| TicketNumber := Some "0649902789376";
                 air_Coupon := Some [("cpn1", sample_coupon "1" "KBP" "AMS" "false")];
                 air_ExchangedTicketInfo := None |});
             ("tkt2",
              {| TicketNumber := Some "0649902789377";
                 air_Coupon := Some [("cpn1", sample_coupon "1" "AMS" "KBP" "false")];
                 air_ExchangedTicketInfo := None |})];
     air_FareCalc := Some "IEV PS AMS 100.00 NUC100.00END ROE1.0";
     air_AirReservationLocatorCode := Some "RES001";
     PlatingCarrier := Some "PS";
     PseudoCityCode := None;
     IssuedDate := None;
     IATANumber := None |}.

End TicketsSpec.

(** ** Bookings *)

Module ThrowSpec.

(** [r] throws only errors that satisfy [P]. *)
Definition throws_only {E A} (P : E -> Prop) (r : result E A) : Prop :=
  forall e, r = Throw e -> P e.

End ThrowSpec.

Module BookingsSpec.
Import Js Bookings ErrorsSpec.

Section Spec.
Context `{Utils} `{Format}.

(** The group key of the pricing info stored under [key]. *)
Definition raw_group (o : jsobj AirPricingInfo) (key : string) : option string :=
  option_map (fun p => prop_key (AirPricingInfoGroup p)) (obj_get key o).

(** The pricing info stored under [key] is of group [g]. *)
Definition in_group (o : jsobj AirPricingInfo) (g key : string) : bool :=
  match raw_group o key with
  | Some g' => String.eqb g' g
  | None => false
  end.

(** The keys of the pricing infos of group [g], in enumeration order. *)
Definition keys_of_group (o : jsobj AirPricingInfo) (g : string) : list string :=
  List.filter (in_group o g) (obj_keys o).

(** The effective date of the first fare component of a pricing info. *)
Definition first_fare_date (p : AirPricingInfo) : option string :=
  match air_FareInfo p with
  | Some fares =>
      match firstInObj fares with
      | Some f => EffectiveDate f
      | None => None
      end
  | None => None
  end.

(** The date recorded for group [g]: the one of its last pricing info. *)
Definition group_date (o : jsobj AirPricingInfo) (g : string) : option string :=
  match last (keys_of_group o g) with
  | Some key =>
      match obj_get key o with
      | Some p => first_fare_date p
      | None => None
      end
  | None => None
  end.

(** The reading of the design document: the date of a group is the
    effective date of its first fare component, that is, of the first fare
    component of its first pricing info. *)
Definition spec_group_date (o : jsobj AirPricingInfo) (g : string) : option string :=
  match head (keys_of_group o g) with
  | Some key =>
      match obj_get key o with
      | Some p => first_fare_date p
      | None => None
      end
  | None => None
  end.

(** The group of a fare quote: the one of its pricing infos. *)
Definition fq_group (fq : fareQuote) : option string :=
  option_map (fun p => prop_key (uapi_pricing_info_group p)) (head (pricingInfos fq)).

Definition date_le (a b : option Z) : Prop :=
  match a, b with
  | Some x, Some y => (x <= y)%Z
  | _, _ => False
  end.

(** The fare quotes of a reservation, as the code forms them from the
    pricing infos [o]: one quote per group key, holding the pricing infos
    of that group in enumeration order, with the date of the group's last
    pricing info; in ascending order of the parsed dates when all of them
    parse; numbered from 1. *)
Definition fare_quotes_spec (o : jsobj AirPricingInfo) (fqs : list fareQuote) : Prop :=
  (forall fq, In fq fqs ->
     exists g, fq_group fq = Some g /\
       List.map pi_uapi_pricing_info_ref (pricingInfos fq) = keys_of_group o g /\
       Forall (fun p => prop_key (uapi_pricing_info_group p) = g) (pricingInfos fq) /\
       option_map effectiveDate (common fq) = Some (group_date o g)) /\
  (forall key, In key (obj_keys o) ->
     exists fq, In fq fqs /\
                In key (List.map pi_uapi_pricing_info_ref (pricingInfos fq))) /\
  NoDup (List.map fq_group fqs) /\
  (Forall (fun fq => fq_date fq <> None) fqs ->
   StronglySorted (fun a b => date_le (fq_date a) (fq_date b)) fqs) /\
  (forall i fq, fqs !! i = Some fq -> index fq = i + 1).

(** The order that the design document describes: ascending in the parsed
    date of the first fare component of each group. *)
Definition spec_sorted_by_first_component (o : jsobj AirPricingInfo)
    (fqs : list fareQuote) : Prop :=
  StronglySorted
    (fun a b =>
       date_le (moment (match fq_group a with
                        | Some g => spec_group_date o g | None => None end))
               (moment (match fq_group b with
                        | Some g => spec_group_date o g | None => None end)))
    fqs.

(** A fare quote with its index set. *)
Definition with_index (fq : fareQuote) (n : nat) : fareQuote :=
  {| pricingInfos := pricingInfos fq;
     uapi_passenger_refs := uapi_passenger_refs fq;
     common := common fq;
     index := n |}.

(** The group key of a returned pricing info. *)
Definition group_key (p : pricingInfo) : string :=
  prop_key (uapi_pricing_info_group p).

(** Any error but the controlled one for a missing provider reservation. *)
Definition not_missing (e : error) : Prop := e <> ReservationProviderInfoMissing.

(** The air reservations of a document. *)
Definition reservations (obj : Document) : list AirReservation :=
  match universal_UniversalRecord obj with
  | Some record => default [] (air_AirReservation record)
  | None => []
  end.

End Spec.

(** *** Sample data *)

(** The functions of [AirFormat] over data without content, and [moment]
    on the three dates of the samples. *)
Definition sample_format : Format :=
  {| Traveler := unit;
     AirSegment := unit;
     PassiveSegment := unit;
     PassiveRemark := unit;
     BaggageAllowance := unit;
     Passenger := unit;
     Segment := unit;
     ServiceSegment := unit;
     Baggage := unit;
     traveler_Name := fun _ => None;
     traveler_Email := fun _ => None;
     passiveSegment_Key := fun _ => None;
     passiveRemark_PassiveSegmentRef := fun _ => None;
     buildPassenger := fun _ _ => tt;
     setIndexesForSegments := fun a p => (a, p);
     formatSegment := fun _ => tt;
     formatServiceSegment := fun _ _ => Some tt;
     setReferencesForSegments := fun l => l;
     getBaggage := fun _ => tt;
     moment := fun d =>
       match d with
       | Some s =>
           if String.eqb s "2010-01-01T00:00:00.000+00:00" then Some 1262304000000%Z
           else if String.eqb s "2015-01-01T00:00:00.000+00:00" then Some 1420070400000%Z
           else if String.eqb s "2020-01-01T00:00:00.000+00:00" then Some 1577836800000%Z
           else None
       | None => None
       end |}.

Definition sample_provider_info : ProviderReservationInfo :=
  {| pri_Key := Some "pri1"; pri_LocatorCode := Some "PNR001";
     CreateDate := None; HostCreateDate := None; ModifiedDate := None;
     OwningPCC := None; universal_ProviderReservationDetails := None |}.

Definition sample_pricing (group date : string) : @AirPricingInfo sample_format :=
  {| air_BookingInfo := None;
     common_BookingTravelerRef := None;
     air_FareInfo :=
       Some [("fare1", {| air_BaggageAllowance := None; fi_TourCode := None;
                          common_Endorsement := None;
                          EffectiveDate := Some date |})];
     air_PassengerType := None;
     air_TaxInfo := None;
     air_TicketingModifiersRef := None;
     AirPricingInfoGroup := Some group;
     PricingMethod := None; PricingType := None; TotalPrice := Some "UAH100";
     BasePrice := None; EquivalentBasePrice := None; Taxes := None;
     LatestTicketingTime := None;
     air_FareCalc := Some "IEV PS AMS 100.00 NUC100.00END" |}.

(** Pricing infos [p1] and [p2] of group 1, dated 2020 and 2010, and [p3]
    of group 2, dated 2015. *)
Definition sample_pricing_infos : jsobj (@AirPricingInfo sample_format) :=
  [("p1", sample_pricing "1" "2020-01-01T00:00:00.000+00:00");
   ("p2", sample_pricing "1" "2010-01-01T00:00:00.000+00:00");
   ("p3", sample_pricing "2" "2015-01-01T00:00:00.000+00:00")].

(** A pricing info of group 3 without fare infos. *)
Definition bare_pricing : @AirPricingInfo sample_format :=
  {| air_BookingInfo := None;
     common_BookingTravelerRef := None;
     air_FareInfo := None;
     air_PassengerType := None;
     air_TaxInfo := None;
     air_TicketingModifiersRef := None;
     AirPricingInfoGroup := Some "3";
     PricingMethod := None; PricingType := None; TotalPrice := Some "UAH100";
     BasePrice := None; EquivalentBasePrice := None; Taxes := None;
     LatestTicketingTime := None;
     air_FareCalc := Some "IEV PS AMS 100.00 NUC100.00END" |}.

Definition sample_reservation (ref : string) : @AirReservation sample_format :=
  {| ar_ProviderReservationInfoRef := Some ref;
     ar_LocatorCode := Some "RES001";
     air_TicketingModifiers := None;
     ar_BookingTravelerRef := Some [];
     air_AirSegment := None;
     common_SupplierLocator := None;
     air_TicketInfo := None;
     air_AirPricingInfo := Some sample_pricing_infos |}.

(** A universal record with one air reservation that refers to the provider
    reservation [ref]; the record holds the provider reservation [pri1]. *)
Definition sample_document (ref : string) : @Document sample_format :=
  {| universal_UniversalRecord :=
       Some {| common_BookingTraveler :=
                 Some ([("trv1", tt)] : jsobj (@Traveler sample_format));
               air_AirReservation := Some [sample_reservation ref];
               universal_ProviderReservationInfo := Some [("pri1", sample_provider_info)];
               common_GeneralRemark := None;
               passive_PassiveReservation := None;
               Version := Some "1";
               ur_LocatorCode := Some "UR0001" |};
     common_ResponseMessage := None;
     air_AirSegmentSellFailureInfo := false |}.

(** The same record, with [bare_pricing] as the only pricing info of its
    reservation. *)
Definition bare_document : @Document sample_format :=
  {| universal_UniversalRecord :=
       Some {| common_BookingTraveler :=
                 Some ([("trv1", tt)] : jsobj (@Traveler sample_format));
               air_AirReservation :=
                 Some [{| ar_ProviderReservationInfoRef := Some "pri1";
                          ar_LocatorCode := Some "RES001";
                          air_TicketingModifiers := None;
                          ar_BookingTravelerRef := Some [];
                          air_AirSegment := None;
                          common_SupplierLocator := None;
                          air_TicketInfo := None;
                          air_AirPricingInfo := Some [("p1", bare_pricing)] |}];
               universal_ProviderReservationInfo := Some [("pri1", sample_provider_info)];
               common_GeneralRemark := None;
               passive_PassiveReservation := None;
               Version := Some "1";
               ur_LocatorCode := Some "UR0001" |};
     common_ResponseMessage := None;
     air_AirSegmentSellFailureInfo := false |}.

End BookingsSpec.


(** ** The ticketing machine *)

Module TicketingSpec.
Import Ticketing.

(** The ticket call is rejected with [TicketingPnrBusy], then with
    [TicketingFoidRequired], and then succeeds. *)
Definition busy_foid_success (responses : nat -> outcome) : Prop :=
  responses 0 = Rejected TicketingPnrBusy /\
  responses 1 = Rejected TicketingFoidRequired /\
  responses 2 = Issued.

(** The outcomes of the ticket calls given as a list; the calls beyond it
    succeed. *)
Definition responses_of (l : list outcome) (k : nat) : outcome := nth k l Issued.

Definition sample_responses : nat -> outcome :=
  responses_of [Rejected TicketingPnrBusy; Rejected TicketingFoidRequired; Issued].

(** The calls of [getUniversalRecordByPNR]: the fetch on entry and the
    later ones. *)
Definition fetches (s : state) : nat := 1 + refetches s.

(** A rejection that the machine answers with a retry when it is the first
    of its kind. *)
Definition retryable (o : outcome) : Prop :=
  o = Rejected TicketingFoidRequired \/ o = Rejected TicketingPnrBusy.

(** Call [k] got a retryable rejection that no earlier call got. *)
Definition retried (responses : nat -> outcome) (k : nat) : Prop :=
  retryable (responses k) /\ forall i, i < k -> responses i <> responses k.

(** Call [k] is the last one: every call before it was retried, it is
    not. *)
Definition last_call (responses : nat -> outcome) (k : nat) : Prop :=
  (forall j, j < k -> retried responses j) /\ ~ retried responses k.

(** How the run ends with the outcome of the last call. *)
Definition final_of (o : outcome) : final :=
  match o with
  | Issued => Done
  | Rejected f => Failed f
  end.

(** The number of the first [k] calls that were rejected for a missing
    FOID. *)
Definition foid_rejections (responses : nat -> outcome) (k : nat) : nat :=
  length (List.filter (fun j => match responses j with
                                | Rejected TicketingFoidRequired => true
                                | _ => false
                                end) (seq 0 k)).

End TicketingSpec.

(** ** The ticket record *)

Module TicketRecordSpec.
Import Js Doc Errors Tickets TicketsSpec.

(** The coupon keys of the tickets [raw], ticket by ticket. *)
Definition coupon_keys (raw : list Ticket) : list (list string) :=
  List.map (fun T => obj_keys (default [] (air_Coupon T))) raw.

(** An ETR with two tickets, of two coupons and of one, and a pricing info
    whose only fare info has a fare basis; [etrCalc] is the fare calculation
    of the ETR and [apiCalc] the one of the pricing info. *)
Definition priced_etr (etrCalc : string) (apiCalc : option string) : ETR :=
  {| ProviderLocatorCode := Some "ABC123";
     TourCode := None;
     common_BookingTraveler :=
       Some [("trv1", {| common_BookingTravelerName :=
                           Some {| First := Some "JOHN"; Last := Some "DOE";
                                   Prefix := None |} |})];
     air_AirPricingInfo :=
       Some [("api1", {| air_FareInfo := Some [("fare1", {| FareBasis := Some "YOW" |})];
                         air_BookingInfo :=
                           Some [{| FareInfoRef := Some "fare1";
                                    CabinClass := Some "Economy" |}];
                         api_FareCalc := apiCalc;
                         PricingMethod := Some "Guaranteed";
                         PricingType := None |})];
     air_Ticket :=
       Some [("tkt1",
              {| TicketNumber := Some "0649902789376";
                 air_Coupon :=
                   Some [("cpn1", sample_coupon "1" "KBP" "AMS" "false");
                         ("cpn2", sample_coupon "2" "AMS" "LHR" "true")];
                 air_ExchangedTicketInfo := None |});
             ("tkt2",
              {| TicketNumber := Some "0649902789377";
                 air_Coupon := Some [("cpn3", sample_coupon "1" "LHR" "KBP" "false")];
                 air_ExchangedTicketInfo := None |})];
     air_FareCalc := Some etrCalc;
     air_AirReservationLocatorCode := Some "RES001";
     PlatingCarrier := Some "PS";
     PseudoCityCode := None;
     IssuedDate := None;
     IATANumber := None |}.

Definition conjunction_etr : ETR :=
  priced_etr "IEV PS AMS 100.00 NUC100.00END ROE1.0" None.

(** The same, with a fare calculation of the ETR that has no marker. *)
Definition fallback_etr : ETR :=
  priced_etr "FARE CALCULATION NOT AVAILABLE"
    (Some "IEV PS AMS 100.00 NUC100.00END ROE1.0").

End TicketRecordSpec.

Module BookingChecksSpec.
Import Js Bookings ReSpec ThrowSpec.

(** A response message that reports that no fare is valid. *)
Definition fare_message (m : Message) : Prop :=
  exists t, m_text m = Some t /\ occurs_in "NO VALID FARE FOR INPUT CRITERIA" t.

(** A response message that reports stale data: by its text, or by the
    numeric code 1301. *)
Definition stale_message (m : Message) : Prop :=
  (exists t, m_text m = Some t /\
             (occurs_in_ignoring_case "failed refresh" t \/
              occurs_in_ignoring_case "data may be stale" t)) \/
  m_Code m = Some (inr 1301%Z).

Definition harmless (m : Message) : Prop := ~ fare_message m /\ ~ stale_message m.

Section Spec.
Context `{Format}.

(** The record has no traveler: the property is absent or an empty object. *)
Definition no_travelers (record : UniversalRecord) : Prop :=
  common_BookingTraveler record = None \/ common_BookingTraveler record = Some [].

(** The record has no air reservation: the property is absent or an empty
    array. *)
Definition no_air_reservation (record : UniversalRecord) : Prop :=
  air_AirReservation record = None \/ air_AirReservation record = Some [].

(** The errors that come from inside the construction of one booking. *)
Definition inner_error (e : error) : Prop :=
  e = TypeError \/ e = TravelersListError \/ e = ReservationProviderInfoMissing.

(** The traveler references of the air reservations of a record. *)
Definition traveler_refs (record : UniversalRecord) : list string :=
  List.concat (List.map (fun ar => default [] (ar_BookingTravelerRef ar))
                 (default [] (air_AirReservation record))).

End Spec.
Section Split.
Context `{Format}.

(** The provider reservation is marked as divided. *)
Definition divided (p : ProviderReservationInfo) : bool :=
  match universal_ProviderReservationDetails p with
  | Some d => same_ref (DivideDetails d) (Some "true")
  | None => false
  end.

(** The general remarks of the record that refer to the provider
    reservation [p], in enumeration order. *)
Definition remarks_of (record : UniversalRecord) (p : ProviderReservationInfo)
  : list GeneralRemark :=
  List.filter
    (fun r => String.eqb (prop_key (r_ProviderReservationInfoRef r))
                (prop_key (pri_Key p)))
    (match common_GeneralRemark record with
     | Some o => obj_values o
     | None => []
     end).

(** The locators that the remarks [rs] capture with the split pattern. *)
Definition split_locators (rs : list GeneralRemark) : list string :=
  omap (fun r => common_RemarkData r ≫= splitPattern) rs.

End Split.

(** *** Sample data *)

(** Travelers that are their own object of e-mails. *)
Definition email_format : Format :=
  {| Traveler := jsobj Email;
     AirSegment := unit;
     PassiveSegment := unit;
     PassiveRemark := unit;
     BaggageAllowance := unit;
     Passenger := nat;
     Segment := unit;
     ServiceSegment := unit;
     Baggage := unit;
     traveler_Name := fun _ => None;
     traveler_Email := fun t => Some t;
     passiveSegment_Key := fun _ => None;
     passiveRemark_PassiveSegmentRef := fun _ => None;
     buildPassenger := fun _ t => length t;
     setIndexesForSegments := fun a p => (a, p);
     formatSegment := fun _ => tt;
     formatServiceSegment := fun _ _ => Some tt;
     setReferencesForSegments := fun l => l;
     getBaggage := fun _ => tt;
     moment := fun _ => None |}.

Definition sample_email (type : option string) (id : string) : Email :=
  {| e_Type := type; EmailID := Some id;
     e_ProviderReservationInfoRef := Some "pri1" |}.

(** A record with two travelers: the first has two e-mails of the type
    "To" (one by default) and one of the type "From", the second has one of
    the type "to". *)
Definition email_document : @Document email_format :=
  {| universal_UniversalRecord :=
       Some {| common_BookingTraveler :=
                 Some ([("trv1", [("e1", sample_email None "A@X.COM");
                                  ("e2", sample_email (Some "From") "B@X.COM");
                                  ("e3", sample_email (Some "To") "C@X.COM")]);
                        ("trv2", [("e4", sample_email (Some "to") "D@X.COM")])]
                       : jsobj (@Traveler email_format));
               air_AirReservation :=
                 Some [{| ar_ProviderReservationInfoRef := Some "pri1";
                          ar_LocatorCode := Some "RES001";
                          air_TicketingModifiers := None;
                          ar_BookingTravelerRef := Some ["trv1"; "trv2"];
                          air_AirSegment := None;
                          common_SupplierLocator := None;
                          air_TicketInfo := None;
                          air_AirPricingInfo := None |}];
               universal_ProviderReservationInfo :=
                 Some [("pri1", BookingsSpec.sample_provider_info)];
               common_GeneralRemark := None;
               passive_PassiveReservation := None;
               Version := Some "1";
               ur_LocatorCode := Some "UR0001" |};
     common_ResponseMessage := None;
     air_AirSegmentSellFailureInfo := false |}.

(** A record whose provider reservation is divided, with two remarks that
    refer to it, one of which names a split booking, and one remark of
    another reservation. *)
Definition divided_document : @Document BookingsSpec.sample_format :=
  {| universal_UniversalRecord :=
       Some {| common_BookingTraveler :=
                 Some ([("trv1", tt)] : jsobj (@Traveler BookingsSpec.sample_format));
               air_AirReservation := Some [BookingsSpec.sample_reservation "pri1"];
               universal_ProviderReservationInfo :=
                 Some [("pri1",
                        {| pri_Key := Some "pri1"; pri_LocatorCode := Some "PNR001";
                           CreateDate := None; HostCreateDate := None;
                           ModifiedDate := None; OwningPCC := None;
                           universal_ProviderReservationDetails :=
                             Some {| DivideDetails := Some "true" |} |})];
               common_GeneralRemark :=
                 Some [("r1", {| r_ProviderReservationInfoRef := Some "pri1";
                                 common_RemarkData := Some "SPLIT PTY/12MAY/AAAG 8VWL5K" |});
                       ("r2", {| r_ProviderReservationInfoRef := Some "pri2";
                                 common_RemarkData := Some "SPLIT PTY/12MAY/AAAG 9XYZ11" |});
                       ("r3", {| r_ProviderReservationInfoRef := Some "pri1";
                                 common_RemarkData := Some "CTCM 380501234567" |})];
               passive_PassiveReservation := None;
               Version := Some "1";
               ur_LocatorCode := Some "UR0001" |};
     common_ResponseMessage := None;
     air_AirSegmentSellFailureInfo := false |}.

End BookingChecksSpec.

Module RepliesSpec.
Import Js Replies ReSpec.

(** [x] is an instance of the pattern [p]: it has as many characters as the
    pattern has elements, each the literal character or a blank as the
    pattern has it. *)
Fixpoint instance_of (p : list atom) (x : string) : Prop :=
  match p, x with
  | [], EmptyString => True
  | a :: p', String c x' => atom_matches a c = true /\ instance_of p' x'
  | _, _ => False
  end.

(** An instance of [p] occurs in [s]. *)
Definition pattern_occurs (p : list atom) (s : string) : Prop :=
  exists a x b, s = a +:+ x +:+ b /\ instance_of p x.

(** The failure message asks for a FOID. *)
Definition foid_required (info : TicketFailureInfo) : Prop :=
  exists m, Message info = Some m /\ pattern_occurs foidRequiredPattern m.

(** Some response message of the reply has the text [t]. *)
Definition has_message (obj : Reply) (t : string) : Prop :=
  exists msgs m, common_ResponseMessage obj = Some msgs /\ In m msgs /\
                 Doc.rm_text m = Some t.

(** Every ticket of every ETR has a ticket number that is not empty. *)
Definition all_tickets_numbered (etrs : jsobj Doc.ETR) : Prop :=
  forall k x tickets k' t,
    In (k, x) etrs -> Doc.air_Ticket x = Some tickets -> In (k', t) tickets ->
    truthy (Doc.TicketNumber t) = true.

Definition reply_of_messages (msgs : option (list Doc.ResponseMessage)) : Reply :=
  {| air_TicketFailureInfo := None;
     common_ResponseMessage := msgs;
     air_ETR := None;
     air_VoidResultInfo := None;
     air_AirReservation := false |}.

Definition text_message (t : string) : Doc.ResponseMessage :=
  {| Doc.rm_text := Some t; Doc.rm_Type := None; Doc.rm_Code := None |}.

Definition failed_reply (code message : string) : Reply :=
  {| air_TicketFailureInfo := Some {| Message := Some message; Code := Some code |};
     common_ResponseMessage := Some [text_message "OK:Ticket issued"];
     air_ETR := None;
     air_VoidResultInfo := None;
     air_AirReservation := false |}.

Definition issued_reply : Reply :=
  {| air_TicketFailureInfo := None;
     common_ResponseMessage :=
       Some [text_message "Warning"; text_message "OK:Ticket issued"];
     air_ETR := Some [("etr1", TicketsSpec.sample_etr)];
     air_VoidResultInfo := None;
     air_AirReservation := false |}.

End RepliesSpec.


(** ** Low-fare search replies *)

Module LowFaresSpec.
Import Js LowFares.

Section Validate.
Context {PricePoint PricingSolution AirSegment FareInfo FlightDetails Route : Type}.
Implicit Type obj : @LowFareSearchRsp PricePoint PricingSolution AirSegment FareInfo
                      FlightDetails Route.

(** The document holds the price points or the pricing solutions as an
    object. *)
Definition has_prices obj : bool :=
  is_plain_object (air_AirPricePointList obj)
  || is_plain_object (air_AirPricingSolution obj).

(** The four root lists, by name, each with the answer to "is it an
    object?". *)
Definition root_lists obj : list (string * bool) :=
  [("air:AirSegmentList", is_plain_object (air_AirSegmentList obj));
   ("air:FareInfoList", is_plain_object (air_FareInfoList obj));
   ("air:FlightDetailsList", is_plain_object (air_FlightDetailsList obj));
   ("air:RouteList", is_plain_object (air_RouteList obj))].

End Validate.
End LowFaresSpec.

(** ** Unknown travelers *)

Module TravelersSpec.
Import Js Bookings.
Section Spec.
Context `{Format}.

(** Only the [TypeError] of reading a property of [undefined]. *)
Definition type_error (e : error) : Prop := e = TypeError.

(** The air reservation [ar] refers to a traveler that the record does not
    hold. *)
Definition unknown_traveler (record : UniversalRecord) (ar : AirReservation) : Prop :=
  exists refs travelers ref,
    ar_BookingTravelerRef ar = Some refs /\
    common_BookingTraveler record = Some travelers /\
    In ref refs /\ obj_get ref travelers = None.

End Spec.

(** The sample record, with an air reservation that refers to the traveler
    [trv9], which the record does not hold. *)
Definition unknown_traveler_document : @Document BookingsSpec.sample_format :=
  {| universal_UniversalRecord :=
       Some {| common_BookingTraveler :=
                 Some ([("trv1", tt)] : jsobj (@Traveler BookingsSpec.sample_format));
               air_AirReservation :=
                 Some [{| ar_ProviderReservationInfoRef := Some "pri1";
                          ar_LocatorCode := Some "RES001";
                          air_TicketingModifiers := None;
                          ar_BookingTravelerRef := Some ["trv1"; "trv9"];
                          air_AirSegment := None;
                          common_SupplierLocator := None;
                          air_TicketInfo := None;
                          air_AirPricingInfo := None |}];
               universal_ProviderReservationInfo :=
                 Some [("pri1", BookingsSpec.sample_provider_info)];
               common_GeneralRemark := None;
               passive_PassiveReservation := None;
               Version := Some "1";
               ur_LocatorCode := Some "UR0001" |};
     common_ResponseMessage := None;
     air_AirSegmentSellFailureInfo := false |}.

End TravelersSpec.

(** ** The errors of ticket retrieval *)

Module TicketErrorsSpec.
Import Js Doc Errors.

(** The errors from inside the construction of one ticket record: the
    [TypeError] of reading a property of [undefined], and no other. *)
Definition type_error_only (e : error) : Prop := e = TypeError.

End TicketErrorsSpec.

(** ** Availability *)

Module AvailabilitySpec.
Import Js Availability.

(** The entries that gave a segment, each with its index among the segment
    references; [key] is the index of the first entry. *)
Fixpoint kept {A} (entries : list (option A)) (key : nat) : list (nat * A) :=
  match entries with
  | [] => []
  | None :: rest => kept rest (S key)
  | Some s :: rest => (key, s) :: kept rest (S key)
  end.

(** The indexes that the connections of the itinerary solution name. *)
Definition connected_of (solution : AirItinerarySolution) : list (option Z) :=
  match air_Connection solution with
  | Some connections => List.map (fun s => parseInt10 (SegmentIndex s)) connections
  | None => []
  end.

(** The index [key] is named by a connection of the itinerary solution. *)
Definition named_by_connection (solution : AirItinerarySolution) (key : nat) : Prop :=
  exists connections c,
    air_Connection solution = Some connections /\ In c connections /\
    parseInt10 (SegmentIndex c) = Some (Z.of_nat key).

Section Legs.
Context {A : Type}.
(** The segments that are connected to the next one, by their index. *)
Variable connects : nat -> Prop.

Definition connected_key (e : nat * A) : Prop := connects (fst e).

(** A leg that was closed: its last segment is not connected to the next
    one, the segments before it are. *)
Definition closed_leg (leg : list (nat * A)) : Prop :=
  exists body last,
    leg = body ++ [last] /\ Forall connected_key body /\
    ~ connects (fst last).

(** The leg left open at the end: it is not empty, and all its segments are
    connected to the next one. *)
Definition open_leg (leg : list (nat * A)) : Prop :=
  leg <> [] /\ Forall connected_key leg.

(** Closed legs, followed by at most one open leg. *)
Definition legs_shape (keyed : list (list (nat * A))) : Prop :=
  exists closed rest,
    keyed = closed ++ rest /\ Forall closed_leg closed /\
    (rest = [] \/ exists leg, rest = [leg] /\ open_leg leg).

End Legs.

Section Entries.
Context {AirSegment Segment Reference : Type}.
Variable air_AirAvailInfo : AirSegment -> option (list AirAvailInfo).
Variable Equipment : AirSegment -> option string.
Variable FlightTime : AirSegment -> option string.
Variable formatSegment : AirSegment -> Segment.
Variable provider : option string.
Variable cabins : option (list string).

(** [info] is the availability from the provider among [infos]: the first
    of them whose provider code is the one of the provider. *)
Definition of_provider (infos : list AirAvailInfo) (info : AirAvailInfo) : Prop :=
  exists pre post,
    infos = pre ++ info :: post /\ ProviderCode info = provider /\
    Forall (fun i => ProviderCode i <> provider) pre.

(** What the segment reference [ref] gives. It gives a segment when the
    segment it names has availability from the provider, with booking code
    infos: the segment formatted, with its equipment, its flight time and
    the booking codes of those infos. It gives nothing when the segment has
    no availability from the provider, or one without booking code
    infos. *)
Definition entry_for (rsp : @AvailabilityRsp AirSegment Reference) (ref : string)
    (entry : option (@availableSegment Segment)) : Prop :=
  exists segmentList segment,
    air_AirSegmentList rsp = Some segmentList /\
    obj_get ref segmentList = Some segment /\
    match entry with
    | Some s =>
        exists info codes,
          of_provider (default [] (air_AirAvailInfo segment)) info /\
          air_BookingCodeInfo info = Some codes /\
          cabinsAvailability cabins codes = Ok (availability_of s) /\
          formatted s = formatSegment segment /\
          plane s = Equipment segment /\
          duration s = FlightTime segment
    | None =>
        Forall (fun i => ProviderCode i <> provider)
          (default [] (air_AirAvailInfo segment)) \/
        exists info,
          of_provider (default [] (air_AirAvailInfo segment)) info /\
          air_BookingCodeInfo info = None
    end.

End Entries.

(** *** Sample data: segments that are their own availability *)

Definition sample_avail (counts : string) : list AirAvailInfo :=
  [{| ProviderCode := Some "1G";
      air_BookingCodeInfo :=
        Some [{| CabinClass := Some "Economy"; BookingCounts := Some counts |}] |}].

(** Four segments: [s0] connects to [s1]; [s2] has no availability from the
    provider; [s3] stands alone. *)
Definition sample_availability : @AvailabilityRsp (list AirAvailInfo) unit :=
  {| air_AirItinerarySolution :=
       Some [("sol1", {| air_Connection := Some [{| SegmentIndex := Some "0" |}];
                         air_AirSegmentRef := Some ["s0"; "s1"; "s2"; "s3"] |})];
     air_AirSegmentList :=
       Some [("s0", sample_avail "Y9|B4");
             ("s1", sample_avail "Y7");
             ("s2", [{| ProviderCode := Some "1P"; air_BookingCodeInfo := None |}]);
             ("s3", sample_avail "C2|D ")];
     common_NextResultReference := None |}.

Definition sample_availability_of (rsp : @AvailabilityRsp (list AirAvailInfo) unit)
  : result error (@availabilityResult (list AirAvailInfo) unit) :=
  availability (fun s => Some s) (fun _ => None) (fun _ => None) (fun s => s)
    (Some "1G") None rsp.

End AvailabilitySpec.

(** ** Pricing *)

Module PricingSpec.
Import Js Pricing.

Section Spec.
Context `{Format}.

(** The segments of the group [g], in the order of the itinerary. *)
Definition segments_of_group (segs : list AirSegment) (g : option string)
  : list AirSegment :=
  List.filter (fun s => same (Group s) g) segs.

(** [gs] lists the groups [keys] of the segments, each once, in the order
    in which they first occur: of two groups listed, the one listed first
    occurs before the other one does. *)
Definition first_occurrences (keys gs : list (option string)) : Prop :=
  NoDup gs /\
  (forall g, In g gs <-> In g keys) /\
  forall i j g g', gs !! i = Some g -> gs !! j = Some g' -> i < j ->
    exists k, keys !! k = Some g /\
              forall k', k' <= k -> keys !! k' <> Some g'.

(** The trip [t] was formatted from the segment [seg] and its flight
    details. *)
Definition trip_of (seg : AirSegment) (t : trip) : Prop :=
  exists details,
    air_FlightDetails seg = Some details /\
    formatted t = formatTrip seg (obj_values details).

(** [ds] is the direction of the group [g]: an array of one direction,
    whose trips are those of the segments of the group, in their order; it
    starts where its first trip starts and ends where its last trip ends,
    and it has no duration. *)
Definition direction_of (segs : list AirSegment) (g : option string)
    (ds : list direction) : Prop :=
  exists d first final,
    ds = [d] /\
    Forall2 trip_of (segments_of_group segs g) (segments d) /\
    head (segments d) = Some first /\ last (segments d) = Some final /\
    from d = trip_from (formatted first) /\ to d = trip_to (formatted final) /\
    duration d = None.

End Spec.
(** *** Sample data *)

(** Segments that carry their origin and destination, which is also what a
    formatted trip is; baggage allowances that are texts. *)
Definition sample_data : Data :=
  {| SegmentRest := string * string;
     PricingRest := unit;
     FlightDetails := unit;
     BaggageAllowanceInfo := string;
     BaggageInfo := option string;
     Trip := string * string;
     PassengerCounts := unit;
     PassengerFares := unit;
     FarePricingInfo := unit |}.

Definition sample_format : @Format sample_data :=
  @Build_Format sample_data
    (fun _ => PrimFloat.zero)
    (fun b : option string => b)
    (fun seg _ => @segment_rest sample_data seg)
    (fun t : string * string => Some (fst t))
    (fun t : string * string => Some (snd t))
    (fun _ => (tt, tt))
    (fun _ => tt).

Definition sample_segment (key group origin destination : string)
  : string * @AirSegment sample_data :=
  (key, {| seg_Key := Some key; Group := Some group;
           air_FlightDetails :=
             Some ([("fd1", tt)] : jsobj (@FlightDetails sample_data));
           segment_rest := ((origin, destination) : @SegmentRest sample_data) |}).

Definition sample_booking_info (segment : string) : BookingInfo :=
  {| SegmentRef := Some segment; FareInfoRef := Some "fare1";
     CabinClass := Some "Economy"; BookingCode := Some "Y" |}.

(** An itinerary of three segments, two of the group 0 and one of the
    group 1, priced by one solution. *)
Definition sample_price_rsp : @AirPriceRsp sample_data :=
  {| air_AirPriceResult :=
       Some {| air_AirPricingSolution :=
                 Some [("sol1",
                        {| s_Key := Some "sol1"; s_TotalPrice := Some "UAH100";
                           s_BasePrice := None; s_EquivalentBasePrice := None;
                           s_Taxes := None;
                           air_AirPricingInfo :=
                             Some [("api1",
                                    {| Key := Some "api1";
                                       PlatingCarrier := Some "PS";
                                       air_BookingInfo :=
                                         Some [sample_booking_info "seg1";
                                               sample_booking_info "seg2";
                                               sample_booking_info "seg3"];
                                       air_FareInfo :=
                                         Some [("fare1", {| FareBasis := Some "YOW" |})];
                                       air_BaggageAllowances :=
                                         Some {| air_BaggageAllowanceInfo :=
                                                   Some (["1PC"; "2PC"]
                                                         : list (@BaggageAllowanceInfo
                                                                   sample_data)) |};
                                       air_TaxInfo := None;
                                       AirPricingInfoGroup := None;
                                       PricingMethod := None; PricingType := None;
                                       TotalPrice := Some "UAH100"; BasePrice := None;
                                       Taxes := None; LatestTicketingTime := None;
                                       pricing_rest := (tt : @PricingRest sample_data) |})] |})] |};
     air_AirItinerary :=
       Some {| air_AirSegment :=
                 Some [sample_segment "seg1" "0" "KBP" "AMS";
                       sample_segment "seg2" "0" "AMS" "LHR";
                       sample_segment "seg3" "1" "LHR" "KBP"] |} |}.

End PricingSpec.

(** ** The pricing solution as XML *)

Module SolutionXmlSpec.
Import Js SolutionXml.

Section Spec.
Context `{Env}.












End Spec.

(** *** Sample data *)

Definition sample_data : Data :=
  {| Rest := unit;
     Segments := list string;
     SegmentRefs := list string;
     FareNotes := unit;
     HostTokens := unit;
     Age := nat;
     ParsedPassengerType := string;
     MergedSegments := list string |}.

Definition no_rest : @Rest sample_data := tt.

(** A response with one pricing solution, which refers to the segment
    [seg1] and holds one pricing info for one adult. *)
Definition sample_solution : @PricingSolution sample_data :=
  {| solution_attrs := Some {| TotalPrice := Some "UAH100"; solution_attrs_rest := no_rest |};
     air_AirSegmentRef := Some (["seg1"] : @SegmentRefs sample_data);
     sol_AirSegment := None;
     air_AirPricingInfo :=
       Some [{| info_attrs := Some {| Key := Some "api1"; info_attrs_rest := no_rest |};
                air_PassengerType := Some [Parsed ("ADT" : @ParsedPassengerType sample_data)];
                info_rest := no_rest |}];
     air_FareNote := None;
     common_HostToken := None;
     solution_rest := no_rest |}.

Definition sample_document : @Document sample_data :=
  {| air_AirPriceRsp :=
       Some [{| air_AirItinerary :=
                  Some [{| air_AirSegment := Some (["seg1"] : @Segments sample_data);
                           itinerary_rest := no_rest |}];
                air_AirPriceResult :=
                  Some [{| air_AirPricingSolution := Some [sample_solution];
                           result_rest := no_rest |}];
                rsp_rest := no_rest |}];
     doc_rest := no_rest |}.





End SolutionXmlSpec.
(** * Properties *)

(** ** Strings and patterns *)

Module ReFacts.
Import Re ReSpec.

Lemma sapp_nil (s : string) : EmptyString +:+ s = s.
Proof. reflexivity. Qed.

Lemma sapp_cons (c : ascii) (s t : string) : String c s +:+ t = String c (s +:+ t).
Proof. reflexivity. Qed.

Ltac sapp := rewrite ?sapp_cons, ?sapp_nil in *.

Lemma sapp_nil_r (s : string) : s +:+ EmptyString = s.
Proof. induction s; sapp; congruence. Qed.

Lemma sapp_assoc (a b c : string) : (a +:+ b) +:+ c = a +:+ (b +:+ c).
Proof. induction a; sapp; congruence. Qed.

Lemma length_sapp (a b : string) :
  String.length (a +:+ b) = String.length a + String.length b.
Proof. induction a; sapp; simpl; congruence. Qed.

Lemma sapp_inj_length (a b x y : string) :
  a +:+ x = b +:+ y -> String.length a = String.length b -> a = b.
Proof.
  revert b. induction a as [|c a IH]; intros [|d b] Heq Hlen;
    simpl in Hlen; try discriminate; [reflexivity|].
  sapp. injection Heq as -> Heq. f_equal. apply IH; auto.
Qed.

Lemma span_step (p : ascii -> bool) (c : ascii) (s : string) :
  span p (String c s) =
  if p c then (String c (fst (span p s)), snd (span p s)) else (EmptyString, String c s).
Proof. simpl. destruct (p c); [destruct (span p s)|]; reflexivity. Qed.

Lemma span_all (p : ascii -> bool) (w b : string) :
  all_chars p w = true ->
  match b with EmptyString => True | String c _ => p c = false end ->
  span p (w +:+ b) = (w, b).
Proof.
  intros Hw Hb. induction w as [|c w IH]; sapp.
  - destruct b as [|c b]; [reflexivity|]. rewrite span_step, Hb. reflexivity.
  - simpl in Hw. apply andb_prop in Hw as [Hc Hw].
    rewrite span_step, Hc, (IH Hw). reflexivity.
Qed.

Lemma span_sapp (p : ascii -> bool) (s : string) :
  fst (span p s) +:+ snd (span p s) = s /\ all_chars p (fst (span p s)) = true /\
  match snd (span p s) with EmptyString => True | String c _ => p c = false end.
Proof.
  induction s as [|c s (IH1 & IH2 & IH3)]; [simpl; auto|].
  rewrite span_step. destruct (p c) eqn:Hc; simpl; sapp.
  - rewrite IH1, Hc, IH2. auto.
  - rewrite Hc. auto.
Qed.

Lemma span_nonempty (p : ascii -> bool) (c : ascii) (s : string) :
  p c = true -> fst (span p (String c s)) <> EmptyString.
Proof. intros Hc. rewrite span_step, Hc. discriminate. Qed.

Lemma starts_with_spec (p s : string) :
  starts_with p s = true <-> s = p +:+ drop (String.length p) s.
Proof.
  revert s. induction p as [|a p IH]; intros s; simpl; sapp; [tauto|].
  destruct s as [|b s]; [split; discriminate|].
  rewrite andb_true_iff, Ascii.eqb_eq, IH. split.
  - intros [-> Hs]. congruence.
  - intros [= -> Hs]. auto.
Qed.


Lemma drop_sapp (p b : string) : drop (String.length p) (p +:+ b) = b.
Proof. induction p as [|x p IH]; [reflexivity|]. sapp. simpl. exact IH. Qed.

Lemma contains_step (p s : string) :
  contains p s =
  (starts_with p s ||
   match s with
   | EmptyString => false
   | String _ s' => contains p s'
   end).
Proof. destruct s; reflexivity. Qed.

(** [contains p s] says that [p] occurs in [s]. *)
Lemma contains_spec (p s : string) :
  contains p s = true <-> occurs_in p s.
Proof.
  unfold occurs_in. induction s as [|c s IH]; rewrite contains_step.
  - rewrite orb_false_r, starts_with_spec. split.
    + intros Hs. exists EmptyString, (drop (String.length p) EmptyString). exact Hs.
    + intros (a & b & Hs). destruct a; [|discriminate]. sapp.
      destruct p; [reflexivity|discriminate].
  - rewrite orb_true_iff, IH, starts_with_spec. split.
    + intros [Hs|(a & b & ->)].
      * exists EmptyString, (drop (String.length p) (String c s)). exact Hs.
      * exists (String c a), b. reflexivity.
    + intros ([|c' a] & b & Hs).
      * left. sapp. rewrite Hs, drop_sapp. reflexivity.
      * right. sapp. injection Hs as -> ->. eauto.
Qed.

Lemma starts_with_ci_spec (p s : string) :
  starts_with_ci p s = true <->
  exists x r, s = x +:+ r /\ fold_string x = fold_string p.
Proof.
  revert s. induction p as [|a p IH]; intros s.
  - simpl. split; [intros _; exists EmptyString, s; auto|reflexivity].
  - destruct s as [|b s]; simpl.
    + split; [discriminate|]. intros ([|? ?] & r & Hs & Hf); discriminate.
    + rewrite andb_true_iff, IH. unfold ascii_eqb_ci. rewrite Ascii.eqb_eq. split.
      * intros (Hab & x & r & -> & Hf). exists (String b x), r.
        split; [reflexivity|]. simpl. congruence.
      * intros ([|b' x] & r & Hs & Hf); [discriminate|]. sapp.
        injection Hs as -> ->. simpl in Hf. injection Hf as Hb Hf.
        split; [congruence|]. eauto.
Qed.

Lemma contains_ci_step (p s : string) :
  contains_ci p s =
  (starts_with_ci p s ||
   match s with
   | EmptyString => false
   | String _ s' => contains_ci p s'
   end).
Proof. destruct s; reflexivity. Qed.

(** [contains_ci p s] says that [p] occurs in [s] in some mix of ASCII
    cases. *)
Lemma contains_ci_spec (p s : string) :
  contains_ci p s = true <-> occurs_in_ignoring_case p s.
Proof.
  unfold occurs_in_ignoring_case. induction s as [|c s IH]; rewrite contains_ci_step.
  - rewrite orb_false_r, starts_with_ci_spec. split.
    + intros (x & r & Hs & Hf). exists EmptyString, x, r. auto.
    + intros (a & x & b & Hs & Hf). destruct a; [|discriminate]. sapp. eauto.
  - rewrite orb_true_iff, IH, starts_with_ci_spec. split.
    + intros [(x & r & Hs & Hf)|(a & x & b & -> & Hf)].
      * exists EmptyString, x, r. auto.
      * exists (String c a), x, b. auto.
    + intros ([|c' a] & x & b & Hs & Hf).
      * left. sapp. eauto.
      * right. sapp. injection Hs as -> ->. eauto.
Qed.

End ReFacts.

(** ** Results *)

Module ResultFacts.

Lemma rbind_Ok {E A B} (r : result E A) (k : A -> result E B) (b : B) :
  rbind r k = Ok b -> exists a, r = Ok a /\ k a = Ok b.
Proof. destruct r as [a|e]; simpl; [eauto|discriminate]. Qed.

Lemma rmap_In {E A B} (f : A -> result E B) (l : list A) (ys : list B) :
  rmap f l = Ok ys -> forall y, In y ys -> exists x, In x l /\ f x = Ok y.
Proof.
  revert ys. induction l as [|x l IH]; intros ys; simpl.
  - intros [= <-] y [].
  - intros Hb. apply rbind_Ok in Hb as (y0 & Hy0 & Hb).
    apply rbind_Ok in Hb as (ys0 & Hys0 & [= <-]).
    intros y [<-|Hin]; [eauto|].
    destruct (IH ys0 Hys0 y Hin) as (x' & Hx' & Hf). eauto.
Qed.

Lemma rmap_length {E A B} (f : A -> result E B) (l : list A) (ys : list B) :
  rmap f l = Ok ys -> length ys = length l.
Proof.
  revert ys. induction l as [|x l IH]; intros ys; simpl.
  - intros [= <-]. reflexivity.
  - intros Hb. apply rbind_Ok in Hb as (y0 & Hy0 & Hb).
    apply rbind_Ok in Hb as (ys0 & Hys0 & [= <-]). simpl. f_equal. auto.
Qed.

Lemma rmap_lookup {E A B} (f : A -> result E B) (l : list A) (ys : list B) :
  rmap f l = Ok ys ->
  forall i y, ys !! i = Some y -> exists x, l !! i = Some x /\ f x = Ok y.
Proof.
  revert ys. induction l as [|x l IH]; intros ys; simpl.
  - intros [= <-] i y Hy. destruct i; discriminate.
  - intros Hb. apply rbind_Ok in Hb as (y0 & Hy0 & Hb).
    apply rbind_Ok in Hb as (ys0 & Hys0 & [= <-]).
    intros [|i] y Hy; simpl in *.
    + injection Hy as <-. eauto.
    + apply (IH ys0 Hys0 i y Hy).
Qed.

End ResultFacts.

(** ** parseFareCalculation *)

Module FareCalcFacts.
Import Re ReFacts FareCalc FareCalcSpec.

Lemma end_marker_here_spec (s : string) :
  end_marker_here s = true <-> exists rest, s = "END" +:+ rest /\ after_marker rest.
Proof.
  split.
  - destruct s as [|a [|b [|c r]]]; simpl; try discriminate.
    + destruct a as [[] [] [] [] [] [] [] []]; discriminate.
    + destruct a as [[] [] [] [] [] [] [] []]; try discriminate;
      destruct b as [[] [] [] [] [] [] [] []]; discriminate.
    + destruct a as [[] [] [] [] [] [] [] []]; try discriminate;
      destruct b as [[] [] [] [] [] [] [] []]; try discriminate;
      destruct c as [[] [] [] [] [] [] [] []]; try discriminate.
      intros Hr. exists r. split; [reflexivity|].
      destruct r as [|d r']; [left; reflexivity|right; eauto].
  - intros (rest & -> & Hr). 
    destruct Hr as [->|(c & r & -> & Hc)]; auto.
Qed.

Lemma greedy_before_end_step (c : ascii) (s : string) :
  greedy_before_end (String c s) =
  match greedy_before_end s with
  | Some p => Some (String c p)
  | None => if end_marker_here (String c s) then Some EmptyString else None
  end.
Proof. reflexivity. Qed.

Lemma greedy_before_end_none (s : string) :
  greedy_before_end s = None -> forall p, ~ content_before_end s p.
Proof.
  induction s as [|c s IH].
  - intros _ p (rest & Hs & _). destruct p; discriminate.
  - rewrite greedy_before_end_step.
    destruct (greedy_before_end s) as [q|]; [discriminate|].
    destruct (end_marker_here (String c s)) eqn:He; [discriminate|].
    intros _ [|c' p'] (rest' & Hs' & Hr').
    + assert (end_marker_here (String c s) = true) as Ht
        by (apply end_marker_here_spec; exists rest'; auto).
      congruence.
    + sapp. injection Hs' as -> Hs'. apply (IH eq_refl p'). exists rest'. auto.
Qed.

Lemma greedy_before_end_some (s p : string) :
  greedy_before_end s = Some p ->
  content_before_end s p /\
  forall p', content_before_end s p' -> String.length p' <= String.length p.
Proof.
  revert p. induction s as [|c s IH]; intros p; [discriminate|].
  rewrite greedy_before_end_step.
  destruct (greedy_before_end s) as [q|] eqn:Hq.
  - intros [= <-]. destruct (IH q eq_refl) as [(rest & Hs & Hr) Hmax]. split.
    + exists rest. split; [sapp; congruence|assumption].
    + intros [|c' p'] Hp'; simpl; [lia|].
      destruct Hp' as (rest' & Hs' & Hr'). sapp. injection Hs' as -> Hs'.
      assert (content_before_end s p') as Hc by (exists rest'; auto).
      specialize (Hmax p' Hc). lia.
  - destruct (end_marker_here (String c s)) eqn:He; [|discriminate].
    intros [= <-]. apply end_marker_here_spec in He. split; [exact He|].
    intros [|c' p'] Hp'; simpl; [lia|].
    destruct Hp' as (rest' & Hs' & Hr'). sapp. injection Hs' as -> Hs'.
    exfalso. apply (greedy_before_end_none s Hq p'). exists rest'. auto.
Qed.

(** The capture group of [fareCalculationPattern] is the pattern match. *)
Lemma fareCalculationPattern_some (str content : string) :
  fareCalculationPattern str = Some content -> pattern_match str content.
Proof.
  destruct str as [|c s]; [discriminate|]. simpl.
  destruct (greedy_before_end s) as [p|] eqn:Hp; [|discriminate].
  intros [= <-]. destruct (greedy_before_end_some s p Hp) as [(rest & Hs & Hr) Hmax].
  split; [discriminate|]. split.
  - exists rest. split; [sapp; congruence|assumption].
  - intros [|c' p'] Hne (rest' & Hs' & Hr'); [congruence|]. sapp.
    injection Hs' as -> Hs'. simpl.
    assert (content_before_end s p') as Hc by (exists rest'; auto).
    specialize (Hmax p' Hc). lia.
Qed.

Lemma fareCalculationPattern_none (str : string) :
  fareCalculationPattern str = None ->
  forall content, content <> EmptyString -> ~ content_before_end str content.
Proof.
  destruct str as [|c s]; simpl.
  - intros _ [|c' p'] Hne (rest & Hs & _); [congruence|discriminate].
  - destruct (greedy_before_end s) as [p|] eqn:Hp; [discriminate|].
    intros _ [|c' p'] Hne (rest & Hs & Hr); [congruence|]. sapp.
    injection Hs as -> Hs. apply (greedy_before_end_none s Hp p'). exists rest. auto.
Qed.


Lemma pattern_match_unique (str c1 c2 : string) :
  pattern_match str c1 -> pattern_match str c2 -> c1 = c2.
Proof.
  intros (Hn1 & C1 & M1) (Hn2 & C2 & M2).
  assert (String.length c1 = String.length c2) as Hlen
    by (apply Nat.le_antisymm; auto).
  destruct C1 as (r1 & H1 & _), C2 as (r2 & H2 & _).
  apply (sapp_inj_length c1 c2 ("END" +:+ r1) ("END" +:+ r2)); congruence.
Qed.

Lemma fareCalculationPattern_complete (str content : string) :
  pattern_match str content -> fareCalculationPattern str = Some content.
Proof.
  intros Hm. destruct (fareCalculationPattern str) as [c|] eqn:Hc.
  - f_equal. apply (pattern_match_unique str); auto using fareCalculationPattern_some.
  - destruct Hm as (Hne & Hb & _).
    exfalso. exact (fareCalculationPattern_none str Hc content Hne Hb).
Qed.

(** *** The replacement of the first separator *)

Lemma replace_paren_step (s : string) :
  replace_paren s =
  match snd (span is_space s) with
  | String c r =>
      if Ascii.eqb c "("%char then String "."%char r
      else match s with
           | EmptyString => EmptyString
           | String c s' => String c (replace_paren s')
           end
  | EmptyString =>
      match s with
      | EmptyString => EmptyString
      | String c s' => String c (replace_paren s')
      end
  end.
Proof. destruct s; reflexivity. Qed.

Lemma no_paren_suffix (s : string) :
  no_paren s = true -> no_paren (snd (span is_space s)) = true.
Proof.
  induction s as [|c s IH]; [auto|]. intros Hs. rewrite span_step.
  destruct (is_space c); [|exact Hs]. simpl.
  apply IH. unfold no_paren in *. simpl in Hs. apply andb_prop in Hs. tauto.
Qed.

Lemma replace_paren_no_paren (s : string) :
  no_paren s = true -> replace_paren s = s.
Proof.
  induction s as [|c s IH]; [reflexivity|]. intros Hs.
  rewrite replace_paren_step. pose proof (no_paren_suffix _ Hs) as Hsuf.
  assert (no_paren s = true) as Hs'
    by (unfold no_paren in *; simpl in Hs; apply andb_prop in Hs; tauto).
  destruct (snd (span is_space (String c s))) as [|d r].
  - rewrite (IH Hs'). reflexivity.
  - unfold no_paren in Hsuf. simpl in Hsuf. apply andb_prop in Hsuf as [Hd _].
    apply negb_true_iff in Hd. rewrite Hd, (IH Hs'). reflexivity.
Qed.

Lemma paren_not_space : is_space "("%char = false.
Proof. reflexivity. Qed.

Lemma replace_paren_here (w b : string) :
  all_chars is_space w = true ->
  replace_paren (w +:+ "(" +:+ b) = "." +:+ b.
Proof.
  intros Hw. rewrite replace_paren_step.
  rewrite (span_all is_space w ("(" +:+ b) Hw); [reflexivity|].
  sapp. exact paren_not_space.
Qed.

Lemma span_stops_inside (a tail : string) :
  a <> EmptyString -> no_paren a = true -> ends_with_space a = false ->
  match snd (span is_space (a +:+ tail)) with
  | String d _ => Ascii.eqb d "("%char = false
  | EmptyString => True
  end.
Proof.
  induction a as [|c a IH]; [congruence|]. intros _ Ha He. sapp.
  unfold no_paren in Ha. simpl in Ha. apply andb_prop in Ha as [Hc Ha].
  apply negb_true_iff in Hc. rewrite span_step.
  destruct (is_space c) eqn:Hsc; [|exact Hc]. simpl.
  destruct a as [|d a]; [simpl in He; congruence|].
  apply IH; [discriminate|exact Ha|exact He].
Qed.

Lemma replace_paren_first (a w b : string) :
  no_paren a = true -> ends_with_space a = false ->
  all_chars is_space w = true ->
  replace_paren (a +:+ w +:+ "(" +:+ b) = a +:+ "." +:+ b.
Proof.
  intros Ha He Hw. induction a as [|c a IH].
  - apply replace_paren_here; assumption.
  - assert (no_paren a = true) as Ha'
      by (unfold no_paren in *; simpl in Ha; apply andb_prop in Ha; tauto).
    assert (ends_with_space a = false) as He'.
    { destruct a as [|d a]; [reflexivity|exact He]. }
    pose proof (span_stops_inside (String c a) (w +:+ "(" +:+ b)
                  ltac:(discriminate) Ha He) as Hd.
    rewrite replace_paren_step.
    destruct (snd (span is_space (String c a +:+ w +:+ "(" +:+ b))) as [|d r].
    + sapp. rewrite (IH Ha' He'). reflexivity.
    + rewrite Hd. sapp. rewrite (IH Ha' He'). reflexivity.
Qed.

Lemma first_separator_exists (s : string) :
  no_paren s = true \/
  exists a w b, s = a +:+ w +:+ "(" +:+ b /\ no_paren a = true /\
                ends_with_space a = false /\ all_chars is_space w = true.
Proof.
  induction s as [|c s IH]; [left; reflexivity|].
  destruct (Ascii.eqb c "("%char) eqn:Hc.
  - right. exists EmptyString, EmptyString, s. apply Ascii.eqb_eq in Hc. subst c. auto.
  - destruct IH as [IH|(a & w & b & -> & Ha & He & Hw)].
    + left. unfold no_paren in *. simpl. rewrite Hc, IH. reflexivity.
    + right. destruct a as [|d a].
      * destruct (is_space c) eqn:Hsc.
        -- exists EmptyString, (String c w), b. sapp. simpl. rewrite Hsc, Hw. auto.
        -- exists (String c EmptyString), w, b. sapp. unfold no_paren. simpl.
           rewrite Hc, Hsc. auto.
      * exists (String c (String d a)), w, b. sapp. unfold no_paren in *.
        split; [reflexivity|]. split; [|split; [exact He|exact Hw]].
        change (negb (Ascii.eqb c "(") && all_chars (fun c => negb (Ascii.eqb c "(")) (String d a) = true).
        rewrite Hc, Ha. reflexivity.
Qed.

Lemma replace_paren_spec (content : string) :
  first_separator_normalized content (replace_paren content).
Proof.
  destruct (first_separator_exists content)
    as [Hn|(a & w & b & -> & Ha & He & Hw)].
  - left. split; [exact Hn|]. apply replace_paren_no_paren; exact Hn.
  - right. exists a, w, b. repeat split; auto.
    apply replace_paren_first; assumption.
Qed.


(** *** The origin and the rate of exchange *)

Lemma char_classes (c : ascii) :
  (is_alpha c = true ->
   is_digit c = false /\ is_space c = false /\ ascii_eqb_ci "-" c = false) /\
  (is_digit c = true -> ascii_eqb_ci "s" c = false) /\
  (ascii_eqb_ci "s" c = true -> c = "s"%char \/ c = "S"%char) /\
  (ascii_eqb_ci "-" c = true -> c = "-"%char).
Proof.
  destruct c as [[] [] [] [] [] [] [] []]; vm_compute;
    repeat split; intros; try discriminate; auto.
Qed.

Lemma starts_with_s_dash (str : string) :
  starts_with_ci "s-" str = true ->
  exists p1, (p1 = "s-" \/ p1 = "S-") /\ str = p1 +:+ drop 2 str.
Proof.
  destruct str as [|c1 [|c2 r]]; simpl; try discriminate.
  - rewrite andb_false_r. discriminate.
  - rewrite andb_true_r. intros Hc. apply andb_prop in Hc as [H1 H2].
    destruct (char_classes c1) as (_ & _ & C1 & _).
    destruct (char_classes c2) as (_ & _ & _ & C2).
    rewrite (C2 H2). destruct (C1 H1) as [->| ->]; [exists "s-"|exists "S-"]; auto.
Qed.

Lemma date_prefix_some (s r : string) :
  date_prefix s = Some r ->
  exists d w, s = d +:+ w +:+ r /\ is_date d = true /\ w <> EmptyString /\
              all_chars is_space w = true.
Proof.
  destruct s as [|d1 [|d2 [|l1 [|l2 [|l3 [|d3 [|d4 [|w0 t]]]]]]]];
    try discriminate.
  unfold date_prefix.
  destruct (is_digit d1 && is_digit d2 && is_alpha l1 && is_alpha l2
            && is_alpha l3 && is_digit d3 && is_digit d4 && is_space w0) eqn:Hc;
    [|discriminate].
  intros [= <-]. apply andb_prop in Hc as [Hd Hw].
  destruct (span_sapp is_space t) as (Ht & Hws & _).
  exists (String d1 (String d2 (String l1 (String l2 (String l3
            (String d3 (String d4 EmptyString))))))), (String w0 (fst (span is_space t))).
  sapp. rewrite Ht. split; [reflexivity|]. split; [exact Hd|].
  split; [discriminate|]. simpl. rewrite Hw, Hws. reflexivity.
Qed.

Lemma origin_here_sound (s1 o : string) :
  origin_here s1 = Some o ->
  exists p2 rest, s1 = p2 +:+ o +:+ rest /\
    (p2 = EmptyString \/ exists d w, p2 = d +:+ w /\ is_date d = true /\
                            w <> EmptyString /\ all_chars is_space w = true) /\
    String.length o = 3 /\ all_chars is_alpha o = true.
Proof.
  unfold origin_here.
  set (s2 := match date_prefix s1 with Some r => r | None => s1 end).
  assert (exists p2, (p2 = EmptyString \/ exists d w, p2 = d +:+ w /\ is_date d = true /\
                        w <> EmptyString /\ all_chars is_space w = true) /\
                     s1 = p2 +:+ s2) as (p2 & Hp2 & Hs1).
  { subst s2. destruct (date_prefix s1) as [r|] eqn:Hd.
    - destruct (date_prefix_some s1 r Hd) as (d & w & He & Hdate & Hw & Hsp).
      exists (d +:+ w). split; [right; exists d, w; auto|].
      rewrite sapp_assoc. exact He.
    - exists EmptyString. auto. }
  destruct s2 as [|a [|b [|c rest]]]; try discriminate.
  destruct (is_alpha a && is_alpha b && is_alpha c) eqn:Hal; [|discriminate].
  intros [= <-]. exists p2, rest. repeat split; auto.
  simpl. rewrite andb_true_r, andb_assoc. exact Hal.
Qed.

Lemma firstOriginPattern_sound (str o : string) :
  firstOriginPattern str = Some o -> leading_origin str o.
Proof.
  unfold firstOriginPattern. intros Ho.
  apply origin_here_sound in Ho as (p2 & rest & Hs1 & Hp2 & Hlen & Hal).
  destruct (starts_with_ci "s-" str) eqn:Hs.
  - destruct (starts_with_s_dash str Hs) as (p1 & Hp1 & Hstr).
    exists (p1 +:+ p2), rest. split.
    + rewrite Hstr, Hs1, sapp_assoc. reflexivity.
    + split; [exists p1, p2; tauto|auto].
  - exists p2, rest. split; [exact Hs1|].
    split; [exists EmptyString, p2; auto|auto].
Qed.

Lemma date_prefix_not_digit (a : ascii) (s : string) :
  is_digit a = false -> date_prefix (String a s) = None.
Proof.
  intros Ha. destruct s as [|d2 [|l1 [|l2 [|l3 [|d3 [|d4 [|w0 t]]]]]]];
    try reflexivity.
  unfold date_prefix. rewrite Ha. reflexivity.
Qed.

Lemma origin_here_complete (p2 t : string) (a b c : ascii) :
  (p2 = EmptyString \/ exists d w, p2 = d +:+ w /\ is_date d = true /\
                          w <> EmptyString /\ all_chars is_space w = true) ->
  is_alpha a = true -> is_alpha b = true -> is_alpha c = true ->
  origin_here (p2 +:+ String a (String b (String c t)))
  = Some (String a (String b (String c EmptyString))) /\
  starts_with_ci "s-" (p2 +:+ String a (String b (String c t))) = false.
Proof.
  intros Hp2 Ha Hb Hc.
  destruct (char_classes a) as [Ca _]. destruct (Ca Ha) as (Da & Sa & _).
  destruct (char_classes b) as [Cb _]. destruct (Cb Hb) as (_ & _ & Mb).
  unfold origin_here.
  destruct Hp2 as [->|(d & w & -> & Hd & Hw & Hsp)].
  - sapp. rewrite (date_prefix_not_digit a _ Da). simpl.
    rewrite Ha, Hb, Hc, Mb, andb_false_r. auto.
  - destruct d as [|d1 [|d2 [|l1 [|l2 [|l3 [|d3 [|d4 [|? ?]]]]]]]];
      try discriminate.
    destruct w as [|w0 w]; [congruence|].
    simpl in Hd, Hsp. apply andb_prop in Hsp as [Hw0 Hsp].
    assert (is_digit d1 = true) as Hd1.
    { clear -Hd. do 6 (apply andb_prop in Hd as [Hd _]). exact Hd. }
    destruct (char_classes d1) as (_ & Cd & _). specialize (Cd Hd1).
    sapp. simpl. rewrite Cd. simpl. rewrite Hd, Hw0. simpl.
    rewrite (span_all is_space w (String a (String b (String c t))) Hsp Sa).
    simpl. rewrite Ha, Hb, Hc. auto.
Qed.

Lemma firstOriginPattern_complete (str o : string) :
  leading_origin str o -> firstOriginPattern str = Some o.
Proof.
  intros (pre & rest & -> & (p1 & p2 & -> & Hp1 & Hp2) & Hlen & Hal).
  destruct o as [|a [|b [|c [|? ?]]]]; try discriminate.
  simpl in Hal. rewrite andb_true_r in Hal.
  apply andb_prop in Hal as [Ha Hal]. apply andb_prop in Hal as [Hb Hc].
  destruct (origin_here_complete p2 rest a b c Hp2 Ha Hb Hc) as [Ho Hs].
  unfold firstOriginPattern. rewrite !sapp_assoc. sapp.
  destruct Hp1 as [->|[->| ->]]; sapp.
  - rewrite Hs. exact Ho.
  - exact Ho.
  - exact Ho.
Qed.

(** The rate of exchange *)

Lemma roePattern_step (s : string) :
  roePattern s =
  match (if starts_with "ROE" s then roe_number_here (drop 3 s) else None) with
  | Some r => Some r
  | None =>
      match s with
      | EmptyString => None
      | String _ s' => roePattern s'
      end
  end.
Proof. destruct s; reflexivity. Qed.

Lemma not_begins_span (b : string) :
  ~ begins_with_digit b ->
  match b with EmptyString => True | String c _ => is_digit c = false end.
Proof.
  intros Hb. destruct b as [|c b]; [exact I|].
  destruct (is_digit c) eqn:Hc; [|reflexivity].
  exfalso. apply Hb. exists c, b. auto.
Qed.

Lemma span_begins (b : string) :
  match b with EmptyString => True | String c _ => is_digit c = false end ->
  ~ begins_with_digit b.
Proof. intros Hb (d & r & -> & Hd). congruence. Qed.

Lemma roe_number_here_iff (t r : string) :
  roe_number_here t = Some r <-> exists b, t = r +:+ b /\ number_before r b.
Proof.
  split.
  - unfold roe_number_here.
    destruct (span_sapp is_digit t) as (Ht & Hd1 & Hs1).
    destruct (span is_digit t) as [d1 rest]. simpl in Ht, Hd1, Hs1.
    destruct d1 as [|x d1]; [discriminate|].
    destruct rest as [|c r'].
    { intros [= <-]. exists EmptyString. split; [auto|]. split.
      - intros (d & r0 & Hr0 & _). discriminate.
      - left. split; [discriminate|]. split; [exact Hd1|]. intros b' Hb'. discriminate. }
    destruct (Ascii.eqb c "."%char) eqn:Hc.
    + apply Ascii.eqb_eq in Hc. subst c.
      destruct (span_sapp is_digit r') as (Hr' & Hd2 & Hs2).
      destruct (span is_digit r') as [d2 tl]. simpl in Hr', Hd2, Hs2 |- *.
      destruct d2 as [|y d2].
      * intros [= <-]. exists (String "."%char r'). split; [auto|]. split.
        { apply span_begins. reflexivity. }
        left. split; [discriminate|]. split; [exact Hd1|].
        intros b' Hb'. sapp. injection Hb' as <-.
        sapp. subst tl. apply span_begins. exact Hs2.
      * intros [= <-]. exists tl. split.
        { rewrite <- Ht, <- Hr', !sapp_assoc. reflexivity. }
        split; [apply span_begins; exact Hs2|].
        right. exists (String x d1), (String y d2).
        repeat split; auto; discriminate.
    + intros [= <-]. exists (String c r'). split; [auto|]. split.
      { apply span_begins. exact Hs1. }
      left. split; [discriminate|]. split; [exact Hd1|].
      intros b' Hb'. sapp. injection Hb' as -> _. discriminate.
  - intros (b & -> & Hb & Hn). unfold roe_number_here.
    destruct Hn as [(Hne & Hd & Hdot)|(i & f & -> & Hi & Hf & Hdi & Hdf)].
    + rewrite (span_all is_digit r b Hd (not_begins_span b Hb)).
      destruct r as [|x r]; [congruence|].
      destruct b as [|c b]; [reflexivity|].
      destruct (Ascii.eqb c "."%char) eqn:Hc; [|reflexivity].
      apply Ascii.eqb_eq in Hc. subst c.
      specialize (Hdot b eq_refl).
      destruct b as [|y b]; [reflexivity|].
      rewrite span_step.
      destruct (is_digit y) eqn:Hy; [|reflexivity].
      exfalso. apply Hdot. exists y, b. auto.
    + rewrite !sapp_assoc.
      rewrite (span_all is_digit i ("." +:+ f +:+ b) Hdi) by reflexivity.
      destruct i as [|x i]; [congruence|].
      sapp. change (Ascii.eqb "." ".") with true. cbn iota.
      rewrite (span_all is_digit f b Hdf (not_begins_span b Hb)). simpl fst.
      destruct f as [|y f]; [congruence|]. reflexivity.
Qed.

Lemma roe_number_here_digit (d : ascii) (b : string) :
  is_digit d = true -> exists r, roe_number_here (String d b) = Some r.
Proof.
  intros Hd. unfold roe_number_here.
  pose proof (span_nonempty is_digit d b Hd) as Hne.
  destruct (span is_digit (String d b)) as [d1 rest]. simpl in Hne.
  destruct d1 as [|x d1]; [congruence|].
  destruct rest as [|y rest]; [eauto|].
  destruct (Ascii.eqb y "."%char); [|eauto].
  destruct (fst (span is_digit rest)); eauto.
Qed.

Lemma roePattern_none (s : string) :
  roePattern s = None ->
  forall a d b, s = a +:+ "ROE" +:+ String d b -> is_digit d = false.
Proof.
  induction s as [|c s IH]; intros Hr a d b Hs.
  - destruct a; discriminate.
  - rewrite roePattern_step in Hr.
    destruct a as [|c' a].
    + assert ((if starts_with "ROE" (String c s)
               then roe_number_here (drop 3 (String c s)) else None)
              = roe_number_here (String d b)) as Hstep
        by (rewrite Hs; reflexivity).
      rewrite Hstep in Hr.
      destruct (is_digit d) eqn:Hd; [|reflexivity].
      destruct (roe_number_here_digit d b Hd) as (r & Hn).
      rewrite Hn in Hr. discriminate.
    + sapp. injection Hs as -> Hs.
      destruct (if starts_with "ROE" (String c' s)
                then roe_number_here (drop 3 (String c' s)) else None);
        [discriminate|].
      exact (IH Hr a d b Hs).
Qed.

Lemma number_before_digit (r b : string) :
  number_before r b -> exists d r', r = String d r' /\ is_digit d = true.
Proof.
  intros [_ [(Hne & Hd & _)|(i & f & -> & Hi & _ & Hd & _)]].
  - destruct r as [|d r]; [congruence|]. simpl in Hd.
    apply andb_prop in Hd as [Hd _]. eauto.
  - destruct i as [|d i]; [congruence|]. simpl in Hd.
    apply andb_prop in Hd as [Hd _]. sapp. eauto.
Qed.

Lemma roe_head (t : string) :
  (if starts_with "ROE" ("ROE" +:+ t)
   then roe_number_here (drop 3 ("ROE" +:+ t)) else None)
  = roe_number_here t.
Proof. reflexivity. Qed.

Lemma roePattern_iff (s r : string) :
  roePattern s = Some r <-> roe_suffix s r.
Proof.
  split.
  - induction s as [|c s IH]; rewrite roePattern_step; [simpl; discriminate|].
    destruct (if starts_with "ROE" (String c s)
              then roe_number_here (drop 3 (String c s)) else None) as [r0|] eqn:Hhead.
    + intros [= ->].
      destruct (starts_with "ROE" (String c s)) eqn:Hs; [|discriminate].
      apply starts_with_spec in Hs.
      apply roe_number_here_iff in Hhead as (b & Hb & Hn).
      exists EmptyString, b. split; [|split; [exact Hn|intros; simpl; lia]].
      sapp. rewrite Hs at 1. simpl String.length. rewrite Hb. reflexivity.
    + intros H. destruct (IH H) as (a & b & -> & Hn & Hleft).
      exists (String c a), b. split; [reflexivity|]. split; [exact Hn|].
      intros a' d b' Heq Hd. destruct a' as [|c' a'].
      * exfalso. rewrite Heq, sapp_nil, roe_head in Hhead.
        destruct (roe_number_here_digit d b' Hd) as (r1 & Hr1). congruence.
      * sapp. injection Heq as -> Heq. simpl. apply le_n_S.
        exact (Hleft a' d b' Heq Hd).
  - intros (a & b & -> & Hn & Hleft). revert Hleft.
    induction a as [|c a IH]; intros Hleft; rewrite roePattern_step.
    + rewrite sapp_nil, roe_head.
      rewrite (proj2 (roe_number_here_iff (r +:+ b) r)) by eauto. reflexivity.
    + rewrite sapp_cons.
      destruct (if starts_with "ROE" (String c (a +:+ "ROE" +:+ r +:+ b))
                then roe_number_here (drop 3 (String c (a +:+ "ROE" +:+ r +:+ b)))
                else None) as [r0|] eqn:Hhead.
      * exfalso.
        destruct (starts_with "ROE" (String c (a +:+ "ROE" +:+ r +:+ b))) eqn:Hs;
          [|discriminate].
        apply starts_with_spec in Hs.
        apply roe_number_here_iff in Hhead as (b0 & Hb0 & Hn0).
        destruct (number_before_digit _ _ Hn0) as (d & r' & -> & Hd).
        specialize (Hleft EmptyString d (r' +:+ b0)).
        simpl String.length in Hleft. 
        assert (S (String.length a) <= 0); [|lia].
        apply Hleft; [|exact Hd]. sapp. rewrite Hs at 1.
        simpl String.length. rewrite Hb0. sapp. reflexivity.
      * apply IH. intros a' d b' Heq Hd.
        specialize (Hleft (String c a') d b'). simpl in Hleft.
        assert (S (String.length a) <= S (String.length a')); [|lia].
        apply Hleft; [|exact Hd]. sapp. rewrite Heq. reflexivity.
Qed.

Lemma roePattern_none_iff (s : string) :
  roePattern s = None <->
  forall a d b, s = a +:+ "ROE" +:+ String d b -> is_digit d = false.
Proof.
  split; [apply roePattern_none|]. intros Hno.
  destruct (roePattern s) as [r|] eqn:Hr; [|reflexivity].
  apply roePattern_iff in Hr as (a & b & Hs & Hn & _).
  destruct (number_before_digit _ _ Hn) as (d & r' & -> & Hd).
  rewrite sapp_cons in Hs. rewrite (Hno a d (r' +:+ b) Hs) in Hd. discriminate.
Qed.

(** *** parseFareCalculation *)

Lemma parseFareCalculation_throws (str : string) :
  (forall content, content <> EmptyString -> ~ content_before_end str content) ->
  parseFareCalculation str = Throw TypeError.
Proof.
  intros Hno. unfold parseFareCalculation.
  destruct (fareCalculationPattern str) as [c|] eqn:Hc; [|reflexivity].
  destruct (fareCalculationPattern_some str c Hc) as (Hne & Hb & _).
  destruct (Hno c Hne Hb).
Qed.


Example parseFareCalculation_sample :
  parseFareCalculation "MOW PS X/IEV PS LON 100.00 (X) NUC100.00END ROE1.234 XT 5"
  = Ok {| fareCalculation := "MOW PS X/IEV PS LON 100.00.X) NUC100.00";
          firstOrigin := Some "MOW";
          roe := Some "1.234" |}.
Proof. reflexivity. Qed.

Example parseFareCalculation_greedy :
  parseFareCalculation "s-12MAY19 iev ps lon END END x"
  = Ok {| fareCalculation := "s-12MAY19 iev ps lon END ";
          firstOrigin := Some "iev";
          roe := None |}.
Proof. reflexivity. Qed.

Example parseFareCalculation_no_marker :
  parseFareCalculation "MOW PS LON 100.00 NUC100.00ENDX" = Throw TypeError.
Proof. reflexivity. Qed.

(** C6, as the code has it. [parseFareCalculation] fails exactly when no
    non-empty content is followed by the [END] marker (and by a blank or the
    end of the string); otherwise it succeeds on the longest such content
    and returns it with its first parenthetical separator (blanks and an
    opening parenthesis) replaced by a period; [firstOrigin] is present
    exactly when the string has a leading three-letter origin code, and
    holds it; [roe] is present exactly when some [ROE] in the string is
    followed by a digit, and holds the numeric suffix of the first such
    [ROE]: its digits, with a period and the digits after it when there are
    any, taken as far as they go. *)
Theorem parseFareCalculation_first_separator (str : string) :
  (parseFareCalculation str = Throw TypeError /\
   forall content, content <> EmptyString -> ~ content_before_end str content) \/
  (exists content r,
     pattern_match str content /\
     parseFareCalculation str = Ok r /\
     first_separator_normalized content (fareCalculation r) /\
     (forall o, firstOrigin r = Some o <-> leading_origin str o) /\
     (forall x, roe r = Some x <-> roe_suffix str x) /\
     (roe r = None <->
      forall a d b, str = a +:+ "ROE" +:+ String d b -> is_digit d = false)).
Proof.
  unfold parseFareCalculation.
  destruct (fareCalculationPattern str) as [content|] eqn:Hc.
  - right. exists content. eexists. split; [|split; [reflexivity|]].
    + apply fareCalculationPattern_some; exact Hc.
    + simpl. split; [apply replace_paren_spec|]. split; [|split].
      * intros o. split;
          [apply firstOriginPattern_sound|apply firstOriginPattern_complete].
      * intros x. apply roePattern_iff.
      * apply roePattern_none_iff.
  - left. split; [reflexivity|]. apply fareCalculationPattern_none; exact Hc.
Qed.

(** C6 as stated fails: only the first separator becomes a period. *)
Lemma parseFareCalculation_second_separator_kept :
  exists r, parseFareCalculation "A (B (C END" = Ok r /\
            fareCalculation r = "A.B (C " /\
            spec_normalize_separators "A (B (C " = "A.B.C " /\
            fareCalculation r <> spec_normalize_separators "A (B (C ".
Proof.
  eexists. split; [reflexivity|]. split; [reflexivity|].
  split; [reflexivity|]. vm_compute. discriminate.
Qed.

End FareCalcFacts.

(** ** Sorting *)

Module SortFacts.
Import Js.

Section Sort.
Context {A : Type} (le : A -> A -> bool).

Lemma insert_by_Permutation (x : A) (l : list A) :
  Permutation (insert_by le x l) (x :: l).
Proof.
  induction l as [|y l IH]; simpl; [reflexivity|].
  destruct (le x y); [reflexivity|].
  rewrite IH. apply perm_swap.
Qed.

Lemma sort_by_Permutation (l : list A) : Permutation (sort_by le l) l.
Proof.
  induction l as [|x l IH]; simpl; [reflexivity|].
  rewrite insert_by_Permutation, IH. reflexivity.
Qed.

(** The order need only be total and transitive on the elements sorted. *)
Variable P : A -> Prop.
Hypothesis le_total : forall x y, P x -> P y -> le x y = false -> le y x = true.
Hypothesis le_trans :
  forall x y z, P x -> P y -> P z -> le x y = true -> le y z = true -> le x z = true.

Lemma insert_by_sorted (x : A) (l : list A) :
  P x -> Forall P l ->
  StronglySorted (fun a b => le a b = true) l ->
  StronglySorted (fun a b => le a b = true) (insert_by le x l).
Proof.
  intros Px Pl Hs. induction Hs as [|y l Hs IH Hy]; simpl.
  - constructor; constructor.
  - apply Forall_cons_iff in Pl as [Py Pl].
    destruct (le x y) eqn:Hxy.
    + constructor; [constructor; assumption|].
      constructor; [exact Hxy|].
      rewrite Forall_forall in *. intros z Hz.
      apply (le_trans x y z); auto.
    + constructor; [apply IH; exact Pl|].
      rewrite (insert_by_Permutation x l).
      constructor; [apply le_total; auto|exact Hy].
Qed.

Lemma sort_by_sorted (l : list A) :
  Forall P l -> StronglySorted (fun a b => le a b = true) (sort_by le l).
Proof.
  induction l as [|x l IH]; intros Pl; simpl; [constructor|].
  apply Forall_cons_iff in Pl as [Px Pl].
  apply insert_by_sorted; auto.
  rewrite (sort_by_Permutation l). exact Pl.
Qed.

End Sort.

Lemma sort_by_map {A B : Type} (f : A -> B) (le : A -> A -> bool)
    (le' : B -> B -> bool) (l : list A) :
  (forall x y, le' (f x) (f y) = le x y) ->
  sort_by le' (List.map f l) = List.map f (sort_by le l).
Proof.
  intros Hle. induction l as [|x l IH]; simpl; [reflexivity|].
  rewrite IH. generalize (sort_by le l). intros s.
  induction s as [|y s IHs]; simpl; [reflexivity|].
  rewrite Hle. destruct (le x y); simpl; congruence.
Qed.

(** The code-unit order of strings. *)
Lemma ascii_compare_refl (a : ascii) : Ascii.compare a a = Eq.
Proof. unfold Ascii.compare. apply N.compare_refl. Qed.

Lemma string_leb_trans (a b c : string) :
  String.leb a b = true -> String.leb b c = true -> String.leb a c = true.
Proof.
  unfold String.leb. revert b c.
  induction a as [|x a IH]; intros [|y b] [|z c]; simpl; try easy.
  unfold Ascii.compare.
  destruct (N.compare_spec (N_of_ascii x) (N_of_ascii y)) as [Hxy|Hxy|Hxy];
    destruct (N.compare_spec (N_of_ascii y) (N_of_ascii z)) as [Hyz|Hyz|Hyz];
    try easy.
  - rewrite Hxy, Hyz, N.compare_refl. apply IH.
  - rewrite Hxy. apply N.compare_lt_iff in Hyz. rewrite Hyz. trivial.
  - rewrite <- Hyz. apply N.compare_lt_iff in Hxy. rewrite Hxy. trivial.
  - assert (N_of_ascii x < N_of_ascii z)%N as H by lia.
    apply N.compare_lt_iff in H. rewrite H. trivial.
Qed.

Lemma string_leb_total (a b : string) :
  String.leb a b = false -> String.leb b a = true.
Proof. destruct (String.leb_total a b) as [H|H]; congruence. Qed.

Lemma sort_strings_sorted (l : list string) :
  StronglySorted (fun a b => String.leb a b = true) (sort_by String.leb l).
Proof.
  apply (sort_by_sorted String.leb (fun _ => True)).
  - intros x y _ _. apply string_leb_total.
  - intros x y z _ _ _. apply string_leb_trans.
  - apply Forall_forall. trivial.
Qed.


End SortFacts.

(** ** countHistogram *)

Module HistogramFacts.
Import Js Histogram HistogramSpec SortFacts.

Lemma occurrences_Permutation (k : string) (l l' : list string) :
  Permutation l l' -> occurrences k l = occurrences k l'.
Proof.
  intros Hp. unfold occurrences.
  induction Hp; simpl; try destruct (String.eqb k x); try destruct (String.eqb k y);
    simpl; congruence.
Qed.

Lemma occurrences_pos_In (k : string) (l : list string) :
  occurrences k l <> 0 -> In k l.
Proof.
  unfold occurrences. induction l as [|x l IH]; simpl; [congruence|].
  destruct (String.eqb_spec k x); [auto|]. intros H. right. auto.
Qed.

(** The scan of a sorted list of codes counts the occurrences. *)
Lemma scan_sorted (cs : list string) :
  StronglySorted (fun a b => String.leb a b = true) cs ->
  forall (prev : option string) (a : gmap string nat),
    (forall p, prev = Some p -> Forall (fun c => String.leb p c = true) cs) ->
    forall k,
      scan (List.map Str cs) (option_map Str prev) a !! k =
      if Nat.eqb (occurrences k cs) 0 then a !! k
      else Some (occurrences k cs
                 + if decide (prev = Some k) then default 0 (a !! k) else 0).
Proof.
  induction 1 as [|x cs Hs IH Hx]; intros prev a Hprev k; [reflexivity|].
  cbn [List.map scan to_string].
  set (a' := if match option_map Str prev with
                | Some p => strict_eq (Str x) p
                | None => false
                end
             then <[x := S (default 0 (a !! x))]> a
             else <[x := 1]> a).
  assert (a' !! x = Some (if decide (prev = Some x) then S (default 0 (a !! x)) else 1))
    as Hax.
  { subst a'. destruct prev as [p|]; simpl.
    - destruct (String.eqb_spec x p) as [->|Hne];
        match goal with
        | |- context [decide ?Q] => destruct (decide Q) as [Hd|Hd]
        end; try congruence; apply lookup_insert_eq.
    - destruct (decide (None = Some x)); [discriminate|]. apply lookup_insert_eq. }
  assert (forall j, j <> x -> a' !! j = a !! j) as Hao.
  { intros j Hj. subst a'.
    destruct (match option_map Str prev with
              | Some p => strict_eq (Str x) p | None => false end);
      apply lookup_insert_ne; congruence. }
  specialize (IH (Some x) a').
  cbn [option_map] in IH. rewrite IH; [|intros p [= <-]; exact Hx].
  unfold occurrences in *. cbn [List.filter].
  destruct (String.eqb_spec k x) as [->|Hkx].
  - cbn [length]. rewrite Hax.
    destruct (decide (Some x = Some x)) as [_|]; [|congruence].
    destruct (Nat.eqb_spec (length (List.filter (String.eqb x) cs)) 0) as [->|Hn];
      cbn [Nat.eqb]; destruct (decide (prev = Some x)); simpl; f_equal; lia.
  - destruct (decide (Some x = Some k)) as [|_]; [congruence|].
    rewrite (Hao k Hkx).
    destruct (Nat.eqb_spec (length (List.filter (String.eqb k) cs)) 0) as [Hz|Hn];
      [reflexivity|].
    destruct (decide (prev = Some k)) as [->|]; [|reflexivity].
    exfalso. apply Hkx. apply String.leb_antisym.
    + specialize (Hprev k eq_refl). apply Forall_cons_iff in Hprev. tauto.
    + rewrite Forall_forall in Hx. apply Hx. apply list_elem_of_In.
      apply (occurrences_pos_In k cs). exact Hn.
Qed.


Lemma default_le_Str (a b : string) : default_le (Str a) (Str b) = String.leb a b.
Proof. reflexivity. Qed.

Lemma sort_codes (codes : list string) :
  sort_by default_le (List.map Str codes) = List.map Str (sort_by String.leb codes).
Proof. apply sort_by_map. intros x y. reflexivity. Qed.

Lemma scan_codes (codes : list string) (k : string) :
  scan (sort_by default_le (List.map Str codes)) None ∅ !! k =
  if Nat.eqb (occurrences k codes) 0 then None else Some (occurrences k codes).
Proof.
  rewrite sort_codes.
  rewrite (scan_sorted (sort_by String.leb codes) (sort_strings_sorted codes) None ∅)
    by discriminate.
  rewrite (occurrences_Permutation k _ _ (sort_by_Permutation String.leb codes)).
  rewrite lookup_empty.
  destruct (decide (None = Some k)); [discriminate|].
  rewrite Nat.add_0_r. reflexivity.
Qed.

Lemma rmap_get_Code (objs : list (nat * string)) :
  rmap get_Code (List.map (fun rc => Object (fst rc) (Some (snd rc))) objs)
  = Ok (List.map Str (List.map snd objs)).
Proof.
  induction objs as [|[r c] objs IH]; [reflexivity|].
  simpl. rewrite IH. reflexivity.
Qed.

(** The increment of the loop always finds a number: the key of [prev] was
    stored by the iteration before. *)
Lemma scan_prev_stored (x p : value) (a : gmap string nat) (n : nat) :
  strict_eq x p = true -> is_Some (<[to_string p := n]> a !! to_string x).
Proof.
  intros He.
  assert (to_string x = to_string p) as ->.
  { destruct x, p; simpl in *; try discriminate; try reflexivity.
    apply String.eqb_eq in He. exact He. }
  rewrite lookup_insert_eq. eauto.
Qed.

(** C2. A non-array makes [countHistogram] fail with
    [HistogramTypeInvalid]. For a list of codes, and for a list of objects
    carrying a code, the result is the run count of the sorted codes, and
    it maps every code to the number of its occurrences in the list (and
    nothing else). In particular [[A, B, A, A, B]] gives [{A: 3, B: 2}]. *)
Theorem countHistogram_counts :
  fst (countHistogram NotArray) = Throw HistogramTypeInvalid /\
  (forall codes : list string,
     let sorted := sort_by String.leb codes in
     Permutation sorted codes /\
     StronglySorted (fun a b => String.leb a b = true) sorted /\
     exists m,
       fst (countHistogram (Array (List.map Str codes))) = Ok m /\
       m = scan (List.map Str sorted) None ∅ /\
       forall k, m !! k = if Nat.eqb (occurrences k codes) 0 then None
                          else Some (occurrences k codes)) /\
  (forall objs : list (nat * string),
     let codes := List.map snd objs in
     exists m,
       fst (countHistogram
              (Array (List.map (fun rc => Object (fst rc) (Some (snd rc))) objs)))
       = Ok m /\
       m = scan (List.map Str (sort_by String.leb codes)) None ∅ /\
       forall k, m !! k = if Nat.eqb (occurrences k codes) 0 then None
                          else Some (occurrences k codes)) /\
  fst (countHistogram (Array [Str "A"; Str "B"; Str "A"; Str "A"; Str "B"]))
  = Ok (<["A" := 3]> (<["B" := 2]> ∅)).
Proof.
  split; [reflexivity|]. split; [|split].
  - intros codes sorted. split; [apply sort_by_Permutation|].
    split; [apply sort_strings_sorted|].
    exists (scan (sort_by default_le (List.map Str codes)) None ∅).
    split; [|split].
    + unfold countHistogram. destruct codes; reflexivity.
    + rewrite sort_codes. reflexivity.
    + apply scan_codes.
  - intros objs codes.
    exists (scan (sort_by default_le (List.map Str codes)) None ∅).
    split; [|split].
    + unfold countHistogram. destruct objs as [|[r c] objs]; [reflexivity|].
      cbn [List.map head is_plain_object fst snd].
      change (Object r (Some c) :: List.map (fun rc => Object (fst rc) (Some (snd rc))) objs)
        with (List.map (fun rc => Object (fst rc) (Some (snd rc))) ((r, c) :: objs)).
      rewrite rmap_get_Code. reflexivity.
    + rewrite sort_codes. reflexivity.
    + apply scan_codes.
  - vm_compute. reflexivity.
Qed.

(** The caller's array of codes comes back reordered. *)
Lemma countHistogram_reorders_argument :
  snd (countHistogram (Array [Str "B"; Str "A"])) = Array [Str "A"; Str "B"] /\
  snd (countHistogram (Array [Str "B"; Str "A"])) <> Array [Str "B"; Str "A"].
Proof. split; [reflexivity|]. vm_compute. discriminate. Qed.


End HistogramFacts.

(** ** The error handlers *)

Module ErrorsFacts.
Import Js Doc Errors ErrorsSpec Re ReSpec ReFacts.

Section Handlers.
Context `{Utils}.

Lemma code_is_In (code : option string) (c : string) :
  code_is code c = true -> code = Some c.
Proof.
  destruct code as [s|]; simpl; [|discriminate].
  intros He. apply String.eqb_eq in He. congruence.
Qed.

Lemma unrecognized_falls_through (rsp : Response) :
  code_absent_or_unrecognized rsp -> AirErrorHandler rsp = processUAPIError rsp.
Proof.
  unfold code_absent_or_unrecognized, structured_code, AirErrorHandler.
  destruct (read_errorInfo rsp) as [ei|]; [|reflexivity]. simpl.
  intros Hc.
  assert (forall c, In c recognized_codes -> code_is (common_Code ei) c = false) as Hno.
  { intros c Hin. destruct (code_is (common_Code ei) c) eqn:He; [|reflexivity].
    apply code_is_In in He. rewrite He in Hc. contradiction. }
  rewrite !Hno by (simpl; tauto). reflexivity.
Qed.

Lemma truthy_false (s : option string) :
  truthy s = false <-> s = None \/ s = Some EmptyString.
Proof.
  destruct s as [[|c s]|]; simpl; split; auto; try discriminate;
    intros [Hs|Hs]; discriminate.
Qed.

Lemma getUAPIErrorMessage_none (rsp : Response) :
  no_message_source rsp -> getUAPIErrorMessage rsp = None.
Proof.
  intros (Hf & Hm & Hd). unfold getUAPIErrorMessage, getResponseMessages.
  apply truthy_false in Hf. rewrite Hf, Hd.
  destruct Hm as [-> | ->]; reflexivity.
Qed.

Lemma getUAPIErrorMessage_resolved (rsp : Response) (m : string) :
  resolved_message rsp m -> getUAPIErrorMessage rsp = Some m.
Proof.
  unfold getUAPIErrorMessage, getResponseMessages.
  intros [s Hs Hne|r rest Hf Hm|d Hf Hm Hd].
  - rewrite Hs. destruct s; [congruence|reflexivity].
  - apply truthy_false in Hf. rewrite Hf, Hm.
    destruct (rm_text r); reflexivity.
  - apply truthy_false in Hf. rewrite Hf, Hd.
    destruct Hm as [-> | ->]; destruct (dfi_Message d); reflexivity.
Qed.

Lemma message_source_cases (rsp : Response) :
  no_message_source rsp \/ exists m, resolved_message rsp m.
Proof.
  destruct (faultstring rsp) as [[|c s]|] eqn:Hf;
    try (right; exists (String c s); apply from_fault_string;
         [exact Hf|discriminate]).
  all: assert (no_fault_string rsp) as Hn by (unfold no_fault_string; auto).
  all: destruct (common_ResponseMessage rsp) as [[|r rest]|] eqn:Hm;
    try (right; eexists; eapply from_response_message; [exact Hn|exact Hm]).
  all: assert (no_response_message rsp) as Hr by (unfold no_response_message; auto).
  all: destruct (air_DocumentFailureInfo rsp) as [d|] eqn:Hd;
    try (right; eexists; eapply from_document_failure; [exact Hn|exact Hr|exact Hd]).
  all: left; split; [exact Hn|]; split; [exact Hr|exact Hd].
Qed.

Lemma set_faultstring_carries (text : string) (rsp : Response) :
  carries text rsp (set_faultstring text rsp).
Proof. unfold carries. cbn. auto 10. Qed.

(** C3, as the code has it. When the structured code is absent or
    unrecognized the handler classifies by the message resolved from the
    document: the fault string, else the text of the first response
    message, else the message of the document-failure block. Without any of
    the three, and also when the resolved message is empty, it throws
    [UnhandledError] wrapping a plain [AirRuntimeError] with the document.
    For a non-empty message [m] the first pattern that occurs in [m] (case
    ignored), in the order "no agency agreement", "unable to retrieve",
    "host error during ticket retrieve", "accessed by another transaction",
    decides between [NoAgreement] with the PCC taken from [m],
    [UnableToRetrieve], [UnableToRetrieveTicket] and
    [AccessedByAnotherTransaction]; when none occurs it throws
    [UAPIServiceError]. All but [NoAgreement] carry the document with [m],
    in upper case, as its fault string and nothing else changed. *)
Theorem AirErrorHandler_free_text (rsp : Response) :
  code_absent_or_unrecognized rsp ->
  (no_message_source rsp \/ exists m, resolved_message rsp m) /\
  (no_message_source rsp ->
   AirErrorHandler rsp = UnhandledError (AirRuntimeError rsp)) /\
  (forall m, resolved_message rsp m ->
     let agreement := occurs_in_ignoring_case "NO AGENCY AGREEMENT" m in
     let retrieve := occurs_in_ignoring_case "UNABLE TO RETRIEVE" m in
     let host := occurs_in_ignoring_case "HOST ERROR DURING TICKET RETRIEVE" m in
     let accessed := occurs_in_ignoring_case "ACCESSED BY ANOTHER TRANSACTION" m in
     (m = EmptyString ->
      AirErrorHandler rsp = UnhandledError (AirRuntimeError rsp)) /\
     (m <> EmptyString -> agreement ->
      AirErrorHandler rsp = NoAgreement (getErrorPcc (Some m))) /\
     (m <> EmptyString -> ~ agreement -> retrieve ->
      exists data, AirErrorHandler rsp = UnableToRetrieve data /\
                   carries (toUpperCase m) rsp data) /\
     (m <> EmptyString -> ~ agreement -> ~ retrieve -> host ->
      exists data, AirErrorHandler rsp = UnableToRetrieveTicket data /\
                   carries (toUpperCase m) rsp data) /\
     (m <> EmptyString -> ~ agreement -> ~ retrieve -> ~ host -> accessed ->
      exists data, AirErrorHandler rsp = AccessedByAnotherTransaction data /\
                   carries (toUpperCase m) rsp data) /\
     (m <> EmptyString -> ~ agreement -> ~ retrieve -> ~ host -> ~ accessed ->
      exists data, AirErrorHandler rsp = UAPIServiceError data /\
                   carries (toUpperCase m) rsp data)).
Proof.
  intros Hc. rewrite (unrecognized_falls_through rsp Hc).
  split; [apply message_source_cases|]. split.
  - intros Hn. unfold processUAPIError.
    rewrite (getUAPIErrorMessage_none rsp Hn). reflexivity.
  - intros m Hm agreement retrieve host accessed.
    apply getUAPIErrorMessage_resolved in Hm.
    unfold processUAPIError. rewrite Hm.
    destruct m as [|c m].
    { split; [reflexivity|]. repeat split; congruence. }
    split; [discriminate|].
    unfold noAgreementPattern, unableToRetreivePattern,
      ticketRetrieveErrorPattern, accessedByAnotherTransactionPattern.
    subst agreement retrieve host accessed.
    rewrite <- !contains_ci_spec.
    pose proof (set_faultstring_carries (toUpperCase (String c m)) rsp) as Hd.
    destruct (contains_ci "NO AGENCY AGREEMENT" (String c m));
      destruct (contains_ci "UNABLE TO RETRIEVE" (String c m));
      destruct (contains_ci "HOST ERROR DURING TICKET RETRIEVE" (String c m));
      destruct (contains_ci "ACCESSED BY ANOTHER TRANSACTION" (String c m));
      repeat split; intros; try reflexivity; try congruence; eauto.
Qed.

(** C3 as stated fails. The only response message of the sample document
    has an empty text: a response-message list is present and none of the
    four patterns occurs in the resolved message, yet the error is not the
    generic service error with the text but [UnhandledError]. *)
Lemma AirErrorHandler_empty_text_unhandled :
  code_absent_or_unrecognized empty_text_document /\
  ~ no_message_source empty_text_document /\
  resolved_message empty_text_document EmptyString /\
  no_pattern EmptyString /\
  @AirErrorHandler ascii_utils empty_text_document
  = UnhandledError (AirRuntimeError empty_text_document) /\
  forall data, @AirErrorHandler ascii_utils empty_text_document
               <> UAPIServiceError data.
Proof.
  split; [exact I|]. split.
  { intros (_ & [Hm|Hm] & _); discriminate. }
  split.
  { apply (from_response_message empty_text_document
             {| rm_text := Some EmptyString; rm_Type := Some "Error";
                rm_Code := None |} []);
      [left; reflexivity|reflexivity]. }
  split.
  { unfold no_pattern. rewrite <- !contains_ci_spec. vm_compute.
    repeat split; discriminate. }
  split; [reflexivity|]. intros data. vm_compute. discriminate.
Qed.


Lemma has_waitlisted_In (messages : list (option string)) :
  has_waitlisted messages = true <-> In (Some waitlistedPhrase) messages.
Proof.
  unfold has_waitlisted. rewrite existsb_exists. split.
  - intros ([m|] & Hin & Hm); [|discriminate].
    apply String.eqb_eq in Hm. subst m. exact Hin.
  - intros Hin. exists (Some waitlistedPhrase). split; [exact Hin|].
    apply String.eqb_refl.
Qed.

(** C4. With the structured code 3000 the handler throws
    [TicketInfoIncomplete] exactly when the fault string is the phrase
    expected; otherwise [SegmentWaitlisted] exactly when the messages of the
    air segment errors contain the waitlist phrase; otherwise
    [SegmentBookingFailed]. *)
Theorem AirErrorHandler_code_3000 (rsp : Response) (errorInfo : ErrorInfo) :
  read_errorInfo rsp = Some errorInfo ->
  common_Code errorInfo = Some "3000" ->
  let messages :=
    List.map air_ErrorMessage (default [] (air_AirSegmentError errorInfo)) in
  (AirErrorHandler rsp = TicketInfoIncomplete rsp <->
   faultstring rsp = Some ticketInfoIncompletePhrase) /\
  (faultstring rsp <> Some ticketInfoIncompletePhrase ->
   (AirErrorHandler rsp = SegmentWaitlisted rsp <->
    In (Some waitlistedPhrase) messages)) /\
  (faultstring rsp <> Some ticketInfoIncompletePhrase ->
   ~ In (Some waitlistedPhrase) messages ->
   AirErrorHandler rsp = SegmentBookingFailed rsp).
Proof.
  intros Hei Hcode messages. unfold AirErrorHandler. rewrite Hei, Hcode.
  cbn [code_is]. 
  change (String.eqb "3000" "20") with false.
  change (String.eqb "3000" "345") with false.
  change (String.eqb "3000" "1512") with false.
  change (String.eqb "3000" "6207") with false.
  change (String.eqb "3000" "6119") with false.
  change (String.eqb "3000" "4454") with false.
  change (String.eqb "3000" "12009") with false.
  change (String.eqb "3000" "13003") with false.
  change (String.eqb "3000" "3003") with false.
  change (String.eqb "3000" "3000") with true.
  cbn [orb].
  fold messages. rewrite <- has_waitlisted_In.
  destruct (faultstring rsp) as [s|].
  - destruct (String.eqb_spec s ticketInfoIncompletePhrase) as [->|Hne].
    + split; [tauto|]. split; congruence.
    + split; [|split].
      * split; [|congruence].
        destruct (has_waitlisted messages); discriminate.
      * intros _. destruct (has_waitlisted messages); split;
          congruence || reflexivity.
      * intros _ Hw. destruct (has_waitlisted messages); congruence.
  - split; [|split].
    + split; [|discriminate]. destruct (has_waitlisted messages); discriminate.
    + intros _. destruct (has_waitlisted messages); split;
        congruence || reflexivity.
    + intros _ Hw. destruct (has_waitlisted messages); congruence.
Qed.

Lemma responseHasNoTickets_spec (rsp : Response) :
  responseHasNoTickets rsp = true <->
  faultcode rsp <> None /\
  exists s, faultstring rsp = Some s /\ occurs_in "has no tickets" s.
Proof.
  unfold responseHasNoTickets.
  destruct (faultcode rsp) as [c|], (faultstring rsp) as [s|].
  - rewrite contains_spec. split.
    + intros Ho. split; [discriminate|eauto].
    + intros (_ & s' & [= <-] & Ho). exact Ho.
  - split; [discriminate|]. intros (_ & s' & Hs & _). discriminate.
  - split; [discriminate|]. intros [Hc _]. congruence.
  - split; [discriminate|]. intros [Hc _]. congruence.
Qed.

Section Tickets.
Variable formFareBasisCode : option AirPricingInfo -> Coupon -> option string.

(** C5. A fault with the structured code 3000 whose fault string contains
    "has no tickets" is returned by the ticket-retrieval handler instead of
    being thrown, and [airGetTickets] returns the empty list for it. *)
Theorem no_tickets_is_not_an_error (rsp : Response) (errorInfo : ErrorInfo) (s : string) :
  faultcode rsp <> None ->
  read_errorInfo rsp = Some errorInfo ->
  common_Code errorInfo = Some "3000" ->
  faultstring rsp = Some s ->
  occurs_in "has no tickets" s ->
  airGetTicketsErrorHandler rsp = Ok rsp /\
  Tickets.airGetTickets formFareBasisCode rsp = Ok [].
Proof.
  intros Hfc Hei Hcode Hfs Ho.
  assert (responseHasNoTickets rsp = true) as Hn
    by (apply responseHasNoTickets_spec; eauto).
  split.
  - unfold airGetTicketsErrorHandler. rewrite Hei, Hcode, Hn. reflexivity.
  - unfold Tickets.airGetTickets. rewrite Hn. reflexivity.
Qed.

End Tickets.
End Handlers.

Lemma AirErrorHandler_free_text_witness :
  code_absent_or_unrecognized (fault (Some "9999") "Unable to retrieve PNR") /\
  exists data,
    @AirErrorHandler ascii_utils (fault (Some "9999") "Unable to retrieve PNR")
    = UnableToRetrieve data /\
    carries "UNABLE TO RETRIEVE PNR" (fault (Some "9999") "Unable to retrieve PNR") data.
Proof.
  assert (code_absent_or_unrecognized (fault (Some "9999") "Unable to retrieve PNR"))
    as Hc by (vm_compute; intuition discriminate).
  split; [exact Hc|].
  destruct (@AirErrorHandler_free_text ascii_utils _ Hc) as (_ & _ & Hm).
  assert (resolved_message (fault (Some "9999") "Unable to retrieve PNR")
            "Unable to retrieve PNR") as Hr
    by (apply from_fault_string; [reflexivity|discriminate]).
  specialize (Hm "Unable to retrieve PNR" Hr). clear Hr.
  destruct Hm as (_ & _ & Hr & _). apply Hr.
  - discriminate.
  - intros Ha. apply contains_ci_spec in Ha. vm_compute in Ha. discriminate.
  - apply contains_ci_spec. vm_compute. reflexivity.
Defined.

Lemma AirErrorHandler_code_3000_witness :
  let rsp := fault (Some "3000") "Segment sell failure" in
  @AirErrorHandler ascii_utils rsp = SegmentBookingFailed rsp.
Proof.
  intros rsp.
  refine (proj2 (proj2 (@AirErrorHandler_code_3000 ascii_utils rsp _ eq_refl eq_refl)) _ _).
  - vm_compute. discriminate.
  - vm_compute. tauto.
Defined.

Lemma no_tickets_is_not_an_error_witness :
  let rsp := fault (Some "3000") "Record locator ABC123 has no tickets" in
  @airGetTicketsErrorHandler ascii_utils rsp = Ok rsp /\
  @Tickets.airGetTickets ascii_utils (fun _ _ => None) rsp = Ok [].
Proof.
  intros rsp.
  refine (@no_tickets_is_not_an_error ascii_utils (fun _ _ => None) rsp _ _
            ltac:(discriminate) eq_refl eq_refl eq_refl _).
  apply contains_spec. vm_compute. reflexivity.
Defined.

End ErrorsFacts.

(** ** getTicketFromEtr *)

Module TicketsFacts.
Import Js Doc Errors Tickets ErrorsSpec TicketsSpec ResultFacts.

Lemma findIndex_Some {A} (p : A -> bool) (l : list A) (i : nat) :
  findIndex p l = Some i ->
  exists x, l !! i = Some x /\ p x = true /\
            forall j y, j < i -> l !! j = Some y -> p y = false.
Proof.
  revert i. induction l as [|x l IH]; intros i; simpl; [discriminate|].
  destruct (p x) eqn:Hx.
  - intros [= <-]. exists x. repeat split; auto. intros j y Hj. lia.
  - destruct (findIndex p l) as [i'|]; [|discriminate]. simpl.
    intros [= <-]. destruct (IH i' eq_refl) as (y & Hy & Hp & Hlt).
    exists y. repeat split; auto.
    intros [|j] z Hj; simpl; [congruence|]. apply Hlt. lia.
Qed.

End TicketsFacts.

(** ** Plain objects *)

Module JsFacts.
Import Js SortFacts.

Section Obj.
Context {V : Type}.
Implicit Types (o : jsobj V) (k : string) (v : V).

Lemma obj_get_set_eq k v o : obj_get k (obj_set k v o) = Some v.
Proof.
  induction o as [|[k' v'] o IH]; simpl.
  - rewrite String.eqb_refl. reflexivity.
  - destruct (String.eqb_spec k k') as [->|Hne]; simpl.
    + rewrite String.eqb_refl. reflexivity.
    + destruct (String.eqb_spec k k'); [contradiction|]. exact IH.
Qed.

Lemma obj_get_set_ne k k' v o : k <> k' -> obj_get k' (obj_set k v o) = obj_get k' o.
Proof.
  intros Hne. induction o as [|[k0 v0] o IH]; simpl.
  - destruct (String.eqb_spec k' k); [congruence|reflexivity].
  - destruct (String.eqb_spec k k0) as [->|Hk]; simpl.
    + destruct (String.eqb_spec k' k0); [congruence|reflexivity].
    + destruct (String.eqb_spec k' k0); [reflexivity|exact IH].
Qed.

Lemma obj_get_In k o : In k (List.map fst o) <-> obj_get k o <> None.
Proof.
  induction o as [|[k' v'] o IH]; simpl; [tauto|].
  destruct (String.eqb_spec k k') as [->|Hne].
  - split; [discriminate|auto].
  - rewrite <- IH. split; [intros [?|?]; [congruence|auto]|auto].
Qed.

Lemma obj_set_keys k v o :
  List.map fst (obj_set k v o) =
  if existsb (String.eqb k) (List.map fst o) then List.map fst o
  else List.map fst o ++ [k].
Proof.
  induction o as [|[k' v'] o IH]; simpl; [reflexivity|].
  destruct (String.eqb_spec k k') as [->|Hne]; simpl; [reflexivity|].
  rewrite IH. destruct (existsb (String.eqb k) (List.map fst o)); reflexivity.
Qed.

Lemma obj_set_NoDup k v o :
  NoDup (List.map fst o) -> NoDup (List.map fst (obj_set k v o)).
Proof.
  intros Hn. rewrite obj_set_keys.
  destruct (existsb (String.eqb k) (List.map fst o)) eqn:He; [exact Hn|].
  apply NoDup_app. split; [exact Hn|]. split; [|apply NoDup_singleton].
  intros x Hx Hk. apply list_elem_of_In in Hk. destruct Hk as [Hk|[]]. subst x.
  assert (existsb (String.eqb k) (List.map fst o) = true) as Ht.
  { apply existsb_exists. exists k. split; [apply list_elem_of_In; exact Hx|].
    apply String.eqb_refl. }
  congruence.
Qed.

(** [Object.entries] lists every property once. *)
Lemma obj_entries_Permutation o : Permutation (obj_entries o) o.
Proof.
  unfold obj_entries. rewrite sort_by_Permutation.
  induction o as [|kv o IH]; simpl; [reflexivity|].
  destruct (is_index kv); simpl.
  - apply perm_skip. exact IH.
  - eapply Permutation_trans; [symmetry; apply Permutation_middle|].
    apply perm_skip. exact IH.
Qed.

Lemma obj_keys_Permutation o : Permutation (obj_keys o) (List.map fst o).
Proof. unfold obj_keys. apply Permutation_map, obj_entries_Permutation. Qed.

Lemma obj_keys_In k o : In k (obj_keys o) <-> obj_get k o <> None.
Proof.
  rewrite <- obj_get_In. split; intros Hin; apply list_elem_of_In;
    apply list_elem_of_In in Hin.
  - rewrite <- (obj_keys_Permutation o). exact Hin.
  - rewrite (obj_keys_Permutation o). exact Hin.
Qed.

Lemma obj_keys_NoDup o : NoDup (List.map fst o) -> NoDup (obj_keys o).
Proof. intros Hn. rewrite (obj_keys_Permutation o). exact Hn. Qed.

End Obj.
(** Array indexes come first, in numeric order; the other keys keep the
    order of their creation. *)
Example obj_keys_order :
  obj_keys [("b", 1); ("10", 2); ("a", 3); ("9", 4); ("01", 5);
            ("4294967295", 6); ("4294967294", 7)]
  = ["9"; "10"; "4294967294"; "b"; "a"; "01"; "4294967295"].
Proof. reflexivity. Qed.

End JsFacts.

(** ** extractBookings *)

Module ThrowFacts.
Import ThrowSpec.

(** [r] throws only errors that satisfy [P]. *)
Lemma throws_only_bind {E A B} (P : E -> Prop) (r : result E A) (k : A -> result E B) :
  throws_only P r -> (forall a, r = Ok a -> throws_only P (k a)) ->
  throws_only P (rbind r k).
Proof.
  intros Hr Hk e. destruct r as [a|e']; simpl.
  - apply (Hk a eq_refl).
  - intros [= <-]. apply Hr. reflexivity.
Qed.

Lemma throws_only_Ok {E A} (P : E -> Prop) (a : A) : throws_only P (Ok a).
Proof. intros e. discriminate. Qed.

Lemma throws_only_Throw {E A} (P : E -> Prop) (e : E) :
  P e -> throws_only P (@Throw E A e).
Proof. intros He e' [= <-]. exact He. Qed.

Lemma throws_only_rmap {E A B} (P : E -> Prop) (f : A -> result E B) (l : list A) :
  (forall x, In x l -> throws_only P (f x)) -> throws_only P (rmap f l).
Proof.
  induction l as [|x l IH]; intros Hf; simpl; [apply throws_only_Ok|].
  apply throws_only_bind; [apply Hf; left; reflexivity|]. intros y _.
  apply throws_only_bind; [apply IH; intros; apply Hf; right; assumption|].
  intros ys _. apply throws_only_Ok.
Qed.

End ThrowFacts.

Module BookingsFacts.
Import Js Bookings ErrorsSpec ThrowSpec BookingsSpec SortFacts JsFacts ResultFacts ThrowFacts.

Section Facts.
Context `{Utils} `{Format}.

(** *** Grouping *)

Lemma group_pricingInfos_snoc (infos : list pricingInfo) (p : pricingInfo) :
  group_pricingInfos (infos ++ [p]) =
  obj_set (group_key p)
    (default [] (obj_get (group_key p) (group_pricingInfos infos)) ++ [p])
    (group_pricingInfos infos).
Proof. unfold group_pricingInfos. rewrite fold_left_app. reflexivity. Qed.

Lemma group_pricingInfos_get (infos : list pricingInfo) (g : string) :
  obj_get g (group_pricingInfos infos) =
  match List.filter (fun p => String.eqb (group_key p) g) infos with
  | [] => None
  | l => Some l
  end.
Proof.
  induction infos as [|p infos IH] using rev_ind; [reflexivity|].
  rewrite group_pricingInfos_snoc, List.filter_app. cbn [List.filter].
  destruct (String.eqb_spec (group_key p) g) as [<-|Hne].
  - rewrite obj_get_set_eq, IH.
    destruct (List.filter (fun p0 => String.eqb (group_key p0) (group_key p)) infos);
      reflexivity.
  - rewrite obj_get_set_ne by exact Hne. rewrite IH, app_nil_r. reflexivity.
Qed.

Lemma group_pricingInfos_NoDup (infos : list pricingInfo) :
  NoDup (List.map fst (group_pricingInfos infos)).
Proof.
  induction infos as [|p infos IH] using rev_ind; [constructor|].
  rewrite group_pricingInfos_snoc. apply obj_set_NoDup. exact IH.
Qed.

Lemma group_pricingInfos_key (infos : list pricingInfo) (g : string) :
  In g (obj_keys (group_pricingInfos infos)) ->
  exists p l, List.filter (fun p => String.eqb (group_key p) g) infos = p :: l /\
              default [] (obj_get g (group_pricingInfos infos)) = p :: l /\
              group_key p = g.
Proof.
  intros Hin. apply obj_keys_In in Hin. rewrite group_pricingInfos_get in *.
  destruct (List.filter (fun p => String.eqb (group_key p) g) infos) as [|p l] eqn:Hf;
    [congruence|].
  exists p, l. repeat split.
  assert (In p (List.filter (fun p => String.eqb (group_key p) g) infos)) as Hp
    by (rewrite Hf; left; reflexivity).
  apply filter_In in Hp as [_ Hp]. apply String.eqb_eq in Hp. exact Hp.
Qed.

(** *** Indexes *)

Lemma set_indexes_lookup (fqs : list fareQuote) (i j : nat) :
  set_indexes i fqs !! j = (fun fq => with_index fq (i + j + 1)) <$> fqs !! j.
Proof.
  revert i j. induction fqs as [|fq fqs IH]; intros i j; [reflexivity|].
  destruct j as [|j]; cbn.
  - rewrite Nat.add_0_r. reflexivity.
  - rewrite IH. replace (S i + j + 1) with (i + S j + 1) by lia. reflexivity.
Qed.

Lemma set_indexes_In (fqs : list fareQuote) (i : nat) (fq : fareQuote) :
  In fq (set_indexes i fqs) -> exists fq0 n, In fq0 fqs /\ fq = with_index fq0 n.
Proof.
  revert i. induction fqs as [|a fqs IH]; intros i; simpl; [tauto|].
  intros [<-|Hin]; [exists a, (i + 1); auto|].
  destruct (IH _ Hin) as (fq0 & n & Hfq0 & ->). eauto.
Qed.

Lemma set_indexes_In_inv (fqs : list fareQuote) (i : nat) (fq0 : fareQuote) :
  In fq0 fqs -> exists n, In (with_index fq0 n) (set_indexes i fqs).
Proof.
  revert i. induction fqs as [|a fqs IH]; intros i; simpl; [tauto|].
  intros [->|Hin]; [exists (i + 1); auto|].
  destruct (IH (S i) Hin) as (n & Hn). eauto.
Qed.

Lemma set_indexes_map {B} (f : fareQuote -> B) (fqs : list fareQuote) (i : nat) :
  (forall fq n, f (with_index fq n) = f fq) ->
  List.map f (set_indexes i fqs) = List.map f fqs.
Proof.
  intros Hf. revert i. induction fqs as [|a fqs IH]; intros i; [reflexivity|].
  simpl. rewrite IH. f_equal. apply (Hf a (i + 1)).
Qed.

(** *** Order *)

Lemma StronglySorted_map {A B} (R : B -> B -> Prop) (f : A -> B) (l : list A) :
  StronglySorted (fun a b => R (f a) (f b)) l <-> StronglySorted R (List.map f l).
Proof.
  induction l as [|x l IH]; simpl.
  - split; constructor.
  - split; intros Hs; apply StronglySorted_inv in Hs as [Hs Hx]; constructor;
      try (apply IH; exact Hs).
    + apply List.Forall_forall. intros y Hy.
      apply in_map_iff in Hy as (a & <- & Ha).
      exact (proj1 (List.Forall_forall _ _) Hx a Ha).
    + apply List.Forall_forall. intros y Hy.
      exact (proj1 (List.Forall_forall _ _) Hx (f y) (in_map f l y Hy)).
Qed.

Lemma StronglySorted_impl {A} (R R' : A -> A -> Prop) (P : A -> Prop) (l : list A) :
  (forall a b, P a -> P b -> R a b -> R' a b) ->
  Forall P l -> StronglySorted R l -> StronglySorted R' l.
Proof.
  intros Himp Hp Hs. induction Hs as [|x l Hs IH Hx]; [constructor|].
  apply Forall_cons_iff in Hp as [Px Pl]. constructor; [auto|].
  apply List.Forall_forall. intros y Hy. apply Himp; auto.
  - exact (proj1 (List.Forall_forall _ _) Pl y Hy).
  - exact (proj1 (List.Forall_forall _ _) Hx y Hy).
Qed.

Lemma fq_le_sorted (fqs : list fareQuote) :
  Forall (fun fq => fq_date fq <> None) fqs ->
  StronglySorted (fun a b => date_le (fq_date a) (fq_date b)) (sort_by fq_le fqs).
Proof.
  intros Hv.
  assert (Forall (fun fq => fq_date fq <> None) (sort_by fq_le fqs)) as Hv'
    by (rewrite (sort_by_Permutation fq_le fqs); exact Hv).
  apply (StronglySorted_impl (fun a b => fq_le a b = true) _
           (fun fq => fq_date fq <> None)); [|exact Hv'|].
  - intros a b Pa Pb. unfold fq_le, date_le.
    destruct (fq_date a), (fq_date b); try congruence.
    intros Hle. apply Z.leb_le. exact Hle.
  - apply (sort_by_sorted fq_le (fun fq => fq_date fq <> None)); [| |exact Hv].
    + intros x y Px Py. unfold fq_le.
      destruct (fq_date x), (fq_date y); try congruence.
      rewrite Z.leb_gt, Z.leb_le. lia.
    + intros x y z Px Py Pz. unfold fq_le.
      destruct (fq_date x), (fq_date y), (fq_date z); try congruence.
      rewrite !Z.leb_le. lia.
Qed.


(** *** The pricing infos and the common entries *)

Lemma lift_Ok {A} (o : option A) (a : A) : lift o = Ok a -> o = Some a.
Proof. destruct o; simpl; [intros [= ->]; reflexivity|discriminate]. Qed.

Lemma build_pricingInfo_Ok (b : AirReservation) (tickets : list ticket)
    (key : string) (c c' : gmap string fareQuoteCommon) (p : pricingInfo) :
  build_pricingInfo b tickets key c = Ok (p, c') ->
  exists o raw entry,
    air_AirPricingInfo b = Some o /\ obj_get key o = Some raw /\
    pi_uapi_pricing_info_ref p = key /\
    group_key p = prop_key (AirPricingInfoGroup raw) /\
    c' = <[prop_key (AirPricingInfoGroup raw) := entry]> c /\
    effectiveDate entry = first_fare_date raw.
Proof.
  unfold build_pricingInfo. intros Hb.
  apply rbind_Ok in Hb as (o & Ho & Hb). apply lift_Ok in Ho.
  apply rbind_Ok in Hb as (raw & Hraw & Hb). apply lift_Ok in Hraw.
  apply rbind_Ok in Hb as (modifiers & _ & Hb).
  apply rbind_Ok in Hb as (first & Hfirst & Hb).
  apply rbind_Ok in Hb as (str & _ & Hb).
  apply rbind_Ok in Hb as (fc & _ & Hb).
  injection Hb as <- <-.
  eexists o, raw, _. split; [exact Ho|]. split; [exact Hraw|].
  split; [reflexivity|]. split; [reflexivity|]. split; [reflexivity|].
  unfold first_fare_date. cbn [effectiveDate].
  destruct (air_FareInfo raw) as [fares|].
  - apply rbind_Ok in Hfirst as (f & Hf & [= <-]). apply lift_Ok in Hf.
    rewrite Hf. reflexivity.
  - injection Hfirst as <-. reflexivity.
Qed.

Lemma build_pricingInfos_Ok (b : AirReservation) (tickets : list ticket)
    (o : jsobj AirPricingInfo) (keys : list string) :
  air_AirPricingInfo b = Some o ->
  forall (c c' : gmap string fareQuoteCommon) (infos : list pricingInfo),
    build_pricingInfos b tickets keys c = Ok (infos, c') ->
    List.map pi_uapi_pricing_info_ref infos = keys /\
    Forall (fun p => raw_group o (pi_uapi_pricing_info_ref p) = Some (group_key p)) infos /\
    forall g,
      effectiveDate <$> (c' !! g) =
      match last (List.filter (in_group o g) keys) with
      | Some key => Some (match obj_get key o with
                          | Some raw => first_fare_date raw
                          | None => None
                          end)
      | None => effectiveDate <$> (c !! g)
      end.
Proof.
  intros Ho. induction keys as [|key keys IH]; intros c c' infos; simpl.
  - intros [= <- <-]. auto.
  - intros Hb. apply rbind_Ok in Hb as ([p c1] & Hp & Hb).
    apply rbind_Ok in Hb as ([ps c2] & Hps & Hb). injection Hb as <- <-.
    cbn [fst snd] in *.
    destruct (build_pricingInfo_Ok _ _ _ _ _ _ Hp)
      as (o' & raw & entry & Ho' & Hraw & Hkey & Hg & -> & Hdate).
    rewrite Ho in Ho'. injection Ho' as <-.
    destruct (IH _ _ _ Hps) as (Hrefs & Hall & Hcommon).
    split; [simpl; congruence|]. split.
    + constructor; [|exact Hall].
      unfold raw_group. rewrite Hkey, Hraw. simpl. congruence.
    + intros g. rewrite Hcommon.
      assert (in_group o g key = String.eqb (prop_key (AirPricingInfoGroup raw)) g)
        as Hin by (unfold in_group, raw_group; rewrite Hraw; reflexivity).
      cbn [List.filter]. rewrite Hin.
      destruct (String.eqb_spec (prop_key (AirPricingInfoGroup raw)) g) as [Heq|Hne].
      * rewrite last_cons.
        destruct (last (List.filter (in_group o g) keys)); [reflexivity|].
        rewrite Heq, lookup_insert_eq, Hraw. simpl. congruence.
      * rewrite lookup_insert_ne by exact Hne. reflexivity.
Qed.


(** *** The fare quotes *)

Lemma filter_refs (o : jsobj AirPricingInfo) (infos : list pricingInfo) (g : string) :
  Forall (fun p => raw_group o (pi_uapi_pricing_info_ref p) = Some (group_key p)) infos ->
  List.map pi_uapi_pricing_info_ref
    (List.filter (fun p => String.eqb (group_key p) g) infos)
  = List.filter (in_group o g) (List.map pi_uapi_pricing_info_ref infos).
Proof.
  induction 1 as [|p infos Hp Hall IH]; [reflexivity|]. cbn [List.filter List.map].
  unfold in_group at 1. rewrite Hp.
  destruct (String.eqb (group_key p) g); simpl; congruence.
Qed.

Lemma build_fareQuotes_spec (o : jsobj AirPricingInfo) (infos : list pricingInfo)
    (cm : gmap string fareQuoteCommon) :
  List.map pi_uapi_pricing_info_ref infos = obj_keys o ->
  Forall (fun p => raw_group o (pi_uapi_pricing_info_ref p) = Some (group_key p)) infos ->
  (forall g, effectiveDate <$> (cm !! g) =
             match last (keys_of_group o g) with
             | Some key => Some (match obj_get key o with
                                 | Some raw => first_fare_date raw
                                 | None => None
                                 end)
             | None => None
             end) ->
  fare_quotes_spec o (build_fareQuotes infos cm).
Proof.
  intros Hrefs Hall Hcm. unfold build_fareQuotes.
  set (G := group_pricingInfos infos).
  set (mk := fun key : string =>
               {| pricingInfos := default [] (obj_get key G);
                  uapi_passenger_refs :=
                    List.concat
                      (List.map (fun fq => List.map pp_uapi_passenger_ref (pi_passengers fq))
                         (default [] (obj_get key G)));
                  common := cm !! key;
                  index := 0 |}).
  set (fq0 := List.map mk (obj_keys G)).
  set (sorted := sort_by fq_le fq0).
  assert (Permutation sorted fq0) as Hperm by apply sort_by_Permutation.
  assert (forall key, In key (obj_keys G) -> fq_group (mk key) = Some key) as Hgroup.
  { intros key Hkey.
    destruct (group_pricingInfos_key infos key Hkey) as (p & l & _ & Hd & Hg).
    unfold fq_group, mk. cbn [pricingInfos]. fold G in Hd. rewrite Hd. simpl.
    f_equal. exact Hg. }
  assert (forall fq, In fq (set_indexes 0 sorted) ->
            exists key n, In key (obj_keys G) /\ fq = with_index (mk key) n) as Hfq.
  { intros fq Hin. apply set_indexes_In in Hin as (f0 & n & Hf0 & ->).
    apply list_elem_of_In in Hf0. rewrite Hperm in Hf0. apply list_elem_of_In in Hf0.
    apply in_map_iff in Hf0 as (key & <- & Hkey). eauto. }
  unfold fare_quotes_spec. split_and!.
  - intros fq Hin. destruct (Hfq fq Hin) as (key & n & Hkey & ->).
    destruct (group_pricingInfos_key infos key Hkey) as (p & l & Hf & Hd & Hg).
    fold G in Hd. exists key. split_and!.
    + exact (Hgroup key Hkey).
    + cbn [with_index pricingInfos mk]. rewrite Hd, <- Hf.
      rewrite (filter_refs o infos key Hall), Hrefs. reflexivity.
    + cbn [with_index pricingInfos mk]. rewrite Hd, <- Hf.
      apply List.Forall_forall. intros q Hq. apply filter_In in Hq as [_ Hq].
      apply String.eqb_eq in Hq. exact Hq.
    + cbn [with_index common mk]. 
      change (option_map effectiveDate (cm !! key)) with (effectiveDate <$> (cm !! key)).
      rewrite Hcm. unfold group_date.
      assert (keys_of_group o key <> []) as Hne.
      { unfold keys_of_group. rewrite <- Hrefs, <- (filter_refs o infos key Hall), Hf.
        discriminate. }
      destruct (last (keys_of_group o key)) as [k|] eqn:Hl; [reflexivity|].
      apply last_None in Hl. contradiction.
  - intros key Hkey. rewrite <- Hrefs in Hkey.
    apply in_map_iff in Hkey as (p & <- & Hp).
    assert (In p (List.filter (fun q => String.eqb (group_key q) (group_key p)) infos))
      as Hpf by (apply filter_In; split; [exact Hp|apply String.eqb_refl]).
    assert (In (group_key p) (obj_keys G)) as Hk.
    { apply obj_keys_In. unfold G. rewrite group_pricingInfos_get.
      destruct (List.filter (fun q => String.eqb (group_key q) (group_key p)) infos);
        [destruct Hpf|discriminate]. }
    assert (In (mk (group_key p)) sorted) as Hs.
    { apply list_elem_of_In. rewrite Hperm. apply list_elem_of_In.
      apply in_map. exact Hk. }
    destruct (set_indexes_In_inv sorted 0 _ Hs) as (n & Hn).
    exists (with_index (mk (group_key p)) n). split; [exact Hn|].
    cbn [with_index pricingInfos mk]. apply in_map.
    unfold G. rewrite group_pricingInfos_get.
    destruct (List.filter (fun q => String.eqb (group_key q) (group_key p)) infos)
      as [|q l] eqn:Hf; [destruct Hpf|exact Hpf].
  - rewrite (set_indexes_map fq_group sorted 0) by reflexivity.
    rewrite Hperm. unfold fq0. rewrite List.map_map.
    rewrite (map_ext_in _ Some) by exact Hgroup.
    apply (NoDup_fmap_2 Some). apply obj_keys_NoDup, group_pricingInfos_NoDup.
  - intros Hv.
    apply (proj2 (StronglySorted_map date_le fq_date _)).
    rewrite (set_indexes_map fq_date sorted 0) by reflexivity.
    apply (proj1 (StronglySorted_map date_le fq_date sorted)). apply fq_le_sorted.
    rewrite <- Hperm. apply List.Forall_forall. intros f0 Hf0.
    destruct (set_indexes_In_inv sorted 0 f0 Hf0) as (n & Hn).
    exact (proj1 (List.Forall_forall _ _) Hv _ Hn).
  - intros i fq Hi. rewrite set_indexes_lookup in Hi.
    destruct (sorted !! i) as [f0|]; [|discriminate].
    injection Hi as <-. reflexivity.
Qed.


Lemma build_booking_fareQuotes (record : UniversalRecord)
    (travelers : option (jsobj Traveler))
    (reservationInfo : option (jsobj ProviderReservationInfo))
    (remarks : gmap string (list GeneralRemark)) (messages : list Message)
    (ar : AirReservation) (b : booking) :
  build_booking record travelers reservationInfo remarks messages ar = Ok b ->
  fare_quotes_spec (default [] (air_AirPricingInfo ar)) (fareQuotes b).
Proof.
  unfold build_booking. intros Hb.
  apply rbind_Ok in Hb as (resInfo & _ & Hb).
  apply rbind_Ok in Hb as (providerInfoKey & _ & Hb).
  apply rbind_Ok in Hb as (splits & _ & Hb).
  destruct (obj_get (prop_key (ar_ProviderReservationInfoRef ar)) resInfo)
    as [providerInfo|]; [|discriminate].
  apply rbind_Ok in Hb as (refs & _ & Hb).
  apply rbind_Ok in Hb as (pe & _ & Hb).
  destruct (setIndexesForSegments _ _) as [indexedSegments indexedServiceSegments].
  apply rbind_Ok in Hb as (serviceSegments & _ & Hb).
  apply rbind_Ok in Hb as (tickets & _ & Hb).
  apply rbind_Ok in Hb as ([infos cm] & Hpc & Hb).
  injection Hb as <-. cbn [fareQuotes fst snd].
  destruct (air_AirPricingInfo ar) as [o|] eqn:Ho; cbn [default].
  - destruct (build_pricingInfos_Ok ar tickets o (obj_keys o) Ho _ _ _ Hpc)
      as (Hrefs & Hall & Hcm).
    apply build_fareQuotes_spec; [exact Hrefs|exact Hall|].
    intros g. rewrite Hcm, lookup_empty. reflexivity.
  - injection Hpc as <- <-.
    apply build_fareQuotes_spec; [reflexivity|constructor|].
    intros g. rewrite lookup_empty. reflexivity.
Qed.

(** C1, as the code has it. In the booking that [extractBookings] returns
    for an air reservation, the fare quotes are formed by grouping the
    pricing infos of the reservation on their group key: there is one quote
    per group, it holds the pricing infos of the group in their order, and
    every pricing info is in a quote. The effective date of a quote is the
    one of the first fare component of the LAST pricing info of its group.
    When the dates of all quotes parse, the quotes are in ascending order of
    the parsed date. The quote at position [i], counted from 0, has index
    [i + 1]. (For a record without air reservations the bookings have no
    fare quotes.) *)
Theorem fareQuotes_grouped_sorted_indexed (obj : Document) (bookings : list booking) :
  extractBookings obj = Ok bookings ->
  forall i b, bookings !! i = Some b ->
    match reservations obj with
    | [] => fareQuotes b = []
    | _ :: _ =>
        exists ar, reservations obj !! i = Some ar /\
                   fare_quotes_spec (default [] (air_AirPricingInfo ar)) (fareQuotes b)
    end.
Proof.
  unfold extractBookings, reservations. intros Hb i b Hi.
  apply rbind_Ok in Hb as (_ & _ & Hb).
  destruct (air_AirSegmentSellFailureInfo obj); [discriminate|].
  apply rbind_Ok in Hb as (record & Hrec & Hb). apply lift_Ok in Hrec.
  rewrite Hrec.
  destruct (negb _ && negb _); [discriminate|].
  destruct (air_AirReservation record) as [[|ar0 ars]|]; cbn [negb default] in *.
  - apply rbind_Ok in Hb as (resInfo & _ & Hb).
    destruct (rmap_lookup _ _ _ Hb i b Hi) as (p & _ & Hp).
    unfold build_booking_without_air in Hp.
    apply rbind_Ok in Hp as (ts & _ & Hp). injection Hp as <-. reflexivity.
  - destruct (rmap_lookup _ _ _ Hb i b Hi) as (ar & Har & Hbk).
    exists ar. split; [exact Har|].
    apply (build_booking_fareQuotes _ _ _ _ _ _ _ Hbk).
  - apply rbind_Ok in Hb as (resInfo & _ & Hb).
    destruct (rmap_lookup _ _ _ Hb i b Hi) as (p & _ & Hp).
    unfold build_booking_without_air in Hp.
    apply rbind_Ok in Hp as (ts & _ & Hp). injection Hp as <-. reflexivity.
Qed.

End Facts.

(** The sample record: group 1 holds [p1] (2020) and [p2] (2010), group 2
    holds [p3] (2015); the quote of group 1 is dated 2010 and comes first. *)
Lemma fareQuotes_grouped_sorted_indexed_witness :
  exists b,
    @extractBookings ascii_utils sample_format (sample_document "pri1") = Ok [b] /\
    List.map (fun fq => (index fq, fq_group fq, effectiveDate <$> common fq))
      (fareQuotes b)
    = [(1, Some "1", Some (Some "2010-01-01T00:00:00.000+00:00"));
       (2, Some "2", Some (Some "2015-01-01T00:00:00.000+00:00"))] /\
    exists ar, reservations (sample_document "pri1") !! 0 = Some ar /\
               fare_quotes_spec (default [] (air_AirPricingInfo ar)) (fareQuotes b).
Proof.
  eexists. split; [vm_compute; reflexivity|]. split; [vm_compute; reflexivity|].
  exact (@fareQuotes_grouped_sorted_indexed ascii_utils sample_format
           (sample_document "pri1") _ eq_refl 0 _ eq_refl).
Defined.

(** A pricing info without fare infos is returned all the same: its group
    has no effective date, no tour code and no endorsement. *)
Lemma fareQuotes_without_fare_info :
  exists b,
    @extractBookings ascii_utils sample_format bare_document = Ok [b] /\
    List.map (fun fq => (index fq, fq_group fq,
                         (fun c => (effectiveDate c, fq_tourCode c, endorsement c))
                           <$> common fq))
      (fareQuotes b)
    = [(1, Some "3", Some (None, None, None))].
Proof. eexists. split; vm_compute; reflexivity. Qed.

(** C1 as stated fails: the quotes are not in the order of the date of the
    first fare component of each group. The first fare component of group 1
    is the one of [p1], dated 2020; the quote of group 1 precedes the quote
    of group 2, dated 2015. *)
Lemma fareQuotes_not_sorted_by_first_component :
  exists b,
    @extractBookings ascii_utils sample_format (sample_document "pri1") = Ok [b] /\
    List.map (fun fq => match fq_group fq with
                        | Some g => spec_group_date sample_pricing_infos g
                        | None => None
                        end) (fareQuotes b)
    = [Some "2020-01-01T00:00:00.000+00:00"; Some "2015-01-01T00:00:00.000+00:00"] /\
    ~ spec_sorted_by_first_component sample_pricing_infos (fareQuotes b).
Proof.
  eexists. split; [vm_compute; reflexivity|]. split; [vm_compute; reflexivity|].
  unfold spec_sorted_by_first_component. intros Hs.
  apply StronglySorted_inv in Hs as [_ Hs].
  apply Forall_cons_iff in Hs as [Hs _].
  vm_compute in Hs. apply Hs. reflexivity.
Qed.


(** *** The missing provider reservation *)

Section Missing.
Context `{Utils} `{Format}.

Lemma throws_only_lift {A} (o : option A) : throws_only not_missing (lift o).
Proof. destruct o; [apply throws_only_Ok|apply throws_only_Throw; discriminate]. Qed.

Ltac throws :=
  repeat first
    [ apply throws_only_Ok
    | apply throws_only_lift
    | apply throws_only_Throw; discriminate
    | apply throws_only_bind; [|intros ? ?]
    | apply throws_only_rmap; intros ? ?
    | match goal with
      | |- throws_only _ (match ?x with _ => _ end) => destruct x
      end ].

Lemma check_messages_throws (obj : Document) (all msgs : list Message) :
  throws_only not_missing (check_messages obj all msgs).
Proof. induction msgs as [|m msgs IH]; simpl; throws; assumption. Qed.

Lemma split_remarks_throws (rs : list GeneralRemark) (acc : list string) :
  throws_only not_missing (split_remarks rs acc).
Proof.
  revert acc. induction rs as [|r rs IH]; intros acc; simpl; throws; apply IH.
Qed.

Lemma push_emails_throws (es : list Email) (acc : list email) :
  throws_only not_missing (push_emails es acc).
Proof.
  revert acc. induction es as [|e es IH]; intros acc; simpl; throws; apply IH.
Qed.

Lemma build_passengers_throws (travelers : option (jsobj Traveler))
    (refs : list string) (emails : list email) :
  throws_only not_missing (build_passengers travelers refs emails).
Proof.
  revert emails. induction refs as [|r refs IH]; intros emails; simpl; throws;
    try apply push_emails_throws; apply IH.
Qed.

Lemma build_pricingInfo_throws (b : AirReservation) (tickets : list ticket)
    (key : string) (c : gmap string fareQuoteCommon) :
  throws_only not_missing (build_pricingInfo b tickets key c).
Proof. unfold build_pricingInfo. throws. Qed.

Lemma build_pricingInfos_throws (b : AirReservation) (tickets : list ticket)
    (keys : list string) (c : gmap string fareQuoteCommon) :
  throws_only not_missing (build_pricingInfos b tickets keys c).
Proof.
  revert c. induction keys as [|k keys IH]; intros c; simpl; throws;
    try apply build_pricingInfo_throws; apply IH.
Qed.

Lemma build_booking_throws (record : UniversalRecord)
    (travelers : option (jsobj Traveler))
    (reservationInfo : option (jsobj ProviderReservationInfo))
    (remarks : gmap string (list GeneralRemark)) (messages : list Message)
    (ar : AirReservation) :
  throws_only not_missing
    (build_booking record travelers reservationInfo remarks messages ar).
Proof.
  unfold build_booking. apply throws_only_bind; [apply throws_only_lift|].
  intros resInfo _.
  destruct (obj_get (prop_key (ar_ProviderReservationInfoRef ar)) resInfo)
    as [providerInfo|]; [|apply throws_only_Throw; discriminate].
  cbn [rbind].
  apply throws_only_bind.
  { throws; apply split_remarks_throws. }
  intros splits _.
  apply throws_only_bind; [apply throws_only_lift|]. intros refs _.
  apply throws_only_bind; [apply build_passengers_throws|]. intros pe _.
  destruct (setIndexesForSegments _ _) as [indexedSegments indexedServiceSegments].
  apply throws_only_bind.
  { unfold build_serviceSegments. throws. }
  intros serviceSegments _.
  apply throws_only_bind.
  { unfold build_tickets. throws. }
  intros tickets _.
  apply throws_only_bind.
  { destruct (air_AirPricingInfo ar); [apply build_pricingInfos_throws|throws]. }
  intros pc _. throws.
Qed.

Lemma build_booking_missing (record : UniversalRecord)
    (travelers : option (jsobj Traveler))
    (resInfo : jsobj ProviderReservationInfo)
    (remarks : gmap string (list GeneralRemark)) (messages : list Message)
    (ar : AirReservation) :
  obj_get (prop_key (ar_ProviderReservationInfoRef ar)) resInfo = None ->
  build_booking record travelers (Some resInfo) remarks messages ar = Throw TypeError.
Proof. intros Hn. unfold build_booking. cbn [lift rbind]. rewrite Hn. reflexivity. Qed.

Lemma extractBookings_throws (obj : Document) :
  throws_only not_missing (extractBookings obj).
Proof.
  unfold extractBookings.
  apply throws_only_bind; [apply check_messages_throws|]. intros _ _.
  destruct (air_AirSegmentSellFailureInfo obj); [apply throws_only_Throw; discriminate|].
  apply throws_only_bind; [apply throws_only_lift|]. intros record _.
  destruct (negb _ && negb _); [apply throws_only_Throw; discriminate|].
  destruct (negb _).
  - apply throws_only_bind; [apply throws_only_lift|]. intros resInfo _.
    apply throws_only_rmap. intros p _. unfold build_booking_without_air. throws.
  - apply throws_only_rmap. intros ar _. apply build_booking_throws.
Qed.

End Missing.

(** C8 fails on the code. [extractBookings] never throws
    [ReservationProviderInfoMissing]: the callback reads [providerInfo.Key]
    before it tests [providerInfo], so a reservation whose provider
    reservation is absent ends in the [TypeError] of that read. The sample
    record, whose only air reservation refers to the absent [pri9], shows
    it. *)
Theorem extractBookings_missing_provider_info :
  (forall (U : Utils) (F : Format) (obj : Document),
     extractBookings obj <> Throw ReservationProviderInfoMissing) /\
  (forall (U : Utils) (F : Format) record travelers resInfo remarks messages ar,
     obj_get (prop_key (ar_ProviderReservationInfoRef ar)) resInfo = None ->
     build_booking record travelers (Some resInfo) remarks messages ar
     = Throw TypeError) /\
  @extractBookings ascii_utils sample_format (sample_document "pri9")
  = Throw TypeError.
Proof.
  split; [|split].
  - intros U F obj Hthrow. exact (extractBookings_throws obj _ Hthrow eq_refl).
  - intros U F. apply build_booking_missing.
  - vm_compute. reflexivity.
Qed.

End BookingsFacts.

(** ** The ticketing machine *)

Module TicketingFacts.
Import Ticketing TicketingSpec.

Lemma retried_0 (responses : nat -> outcome) :
  retried responses 0 <-> retryable (responses 0).
Proof. unfold retried. split; [tauto|]. intros Hr. split; [exact Hr|]. intros i Hi. lia. Qed.

Lemma retried_1 (responses : nat -> outcome) :
  retried responses 1 <->
  retryable (responses 1) /\ responses 0 <> responses 1.
Proof.
  unfold retried. split.
  - intros [Hr Hd]. split; [exact Hr|]. apply Hd. lia.
  - intros [Hr Hd]. split; [exact Hr|]. intros i Hi.
    assert (i = 0) as -> by lia. exact Hd.
Qed.

Lemma retried_2 (responses : nat -> outcome) :
  retried responses 2 <->
  retryable (responses 2) /\ responses 0 <> responses 2 /\ responses 1 <> responses 2.
Proof.
  unfold retried. split.
  - intros [Hr Hd]. split; [exact Hr|]. split; apply Hd; lia.
  - intros (Hr & H0 & H1). split; [exact Hr|]. intros i Hi.
    destruct i as [|[|i]]; [exact H0|exact H1|lia].
Qed.

Lemma last_call_0 (responses : nat -> outcome) :
  ~ retried responses 0 -> last_call responses 0.
Proof. intros Hn. split; [intros j Hj; lia|exact Hn]. Qed.

Lemma last_call_1 (responses : nat -> outcome) :
  retried responses 0 -> ~ retried responses 1 -> last_call responses 1.
Proof.
  intros H0 Hn. split; [|exact Hn]. intros j Hj.
  assert (j = 0) as -> by lia. exact H0.
Qed.

Lemma last_call_2 (responses : nat -> outcome) :
  retried responses 0 -> retried responses 1 -> ~ retried responses 2 ->
  last_call responses 2.
Proof.
  intros H0 H1 Hn. split; [|exact Hn]. intros j Hj.
  destruct j as [|[|j]]; [exact H0|exact H1|lia].
Qed.

Ltac decide_retried :=
  rewrite ?retried_0, ?retried_1, ?retried_2; unfold retryable;
  repeat match goal with
         | H : _ = _ |- _ => rewrite H
         end;
  first [ solve [intuition congruence]
        | solve [split_and?; (left + right + idtac); first [reflexivity|congruence]] ].

(** Every run ends, after at most three ticket calls: it stops at the first
    call that is not answered with a retry, with the outcome of that call. *)
Lemma ticket_run (currency : string) (responses : nat -> outcome) :
  exists k s,
    last_call responses k /\ k <= 2 /\
    ticket (Some currency) responses = Some (final_of (responses k), s) /\
    ticketCalls s = S k /\
    foidCalls s = foid_rejections responses k /\
    refetches s = foid_rejections responses k.
Proof.
  unfold ticket, foid_rejections. cbn [ticket_loop initial issue ticketCalls foidRetries busyRetries].
  destruct (responses 0) as [|[| |n0]] eqn:H0.
  - exists 0. eexists. split; [apply last_call_0; decide_retried|].
    rewrite H0. cbn. auto.
  - cbn. destruct (responses 1) as [|[| |n1]] eqn:H1.
    + exists 1. eexists. split; [apply last_call_1; decide_retried|].
      rewrite H1. cbn. rewrite H0. cbn. auto.
    + exists 1. eexists. split; [apply last_call_1; decide_retried|].
      rewrite H1. cbn. rewrite H0. cbn. auto.
    + cbn. destruct (responses 2) as [|[| |n2]] eqn:H2.
      all: exists 2; eexists;
        (split; [apply last_call_2; decide_retried|]);
        rewrite H2; cbn; rewrite H0, H1; cbn; auto.
    + exists 1. eexists. split; [apply last_call_1; decide_retried|].
      rewrite H1. cbn. rewrite H0. cbn. auto.
  - cbn. destruct (responses 1) as [|[| |n1]] eqn:H1.
    + exists 1. eexists. split; [apply last_call_1; decide_retried|].
      rewrite H1. cbn. rewrite H0. cbn. auto.
    + cbn. destruct (responses 2) as [|[| |n2]] eqn:H2.
      all: exists 2; eexists;
        (split; [apply last_call_2; decide_retried|]);
        rewrite H2; cbn; rewrite H0, H1; cbn; auto.
    + exists 1. eexists. split; [apply last_call_1; decide_retried|].
      rewrite H1. cbn. rewrite H0. cbn. auto.
    + exists 1. eexists. split; [apply last_call_1; decide_retried|].
      rewrite H1. cbn. rewrite H0. cbn. auto.
  - exists 0. eexists. split; [apply last_call_0; decide_retried|].
    rewrite H0. cbn. auto.
Qed.


Lemma last_call_unique (responses : nat -> outcome) (k k' : nat) :
  last_call responses k -> last_call responses k' -> k = k'.
Proof.
  intros [Hb Hn] [Hb' Hn'].
  destruct (Nat.lt_trichotomy k k') as [Hlt|[Heq|Hgt]]; [|exact Heq|].
  - exfalso. apply Hn. apply Hb'. exact Hlt.
  - exfalso. apply Hn'. apply Hb. exact Hgt.
Qed.

(** The machine against the tests of the method: the calls of the ticket
    service, of FOID and of [getUniversalRecordByPNR] that the tests count,
    for the outcomes they feed. *)
Lemma ticket_agrees_with_tests :
  (* should check if correct function from service is called *)
  (exists s, ticket (Some "UAH") (responses_of [Issued]) = Some (Done, s) /\
             ticketCalls s = 1 /\ foidCalls s = 0 /\ fetches s = 1) /\
  (* should resolve foid and reticket *)
  (exists s, ticket (Some "UAH") (responses_of [Rejected TicketingFoidRequired; Issued])
             = Some (Done, s) /\
             ticketCalls s = 2 /\ foidCalls s = 1 /\ fetches s = 2) /\
  (* should retry ticketing if PNR busy *)
  (exists s, ticket (Some "UAH") (responses_of [Rejected TicketingPnrBusy; Issued])
             = Some (Done, s) /\
             ticketCalls s = 2 /\ fetches s = 1) /\
  (* should set FOID and retry ticketing if PNR busy *)
  (exists s, ticket (Some "UAH")
               (responses_of [Rejected TicketingFoidRequired;
                              Rejected TicketingPnrBusy; Issued])
             = Some (Done, s) /\
             ticketCalls s = 3 /\ foidCalls s = 1 /\ fetches s = 2) /\
  (* should resolve rethrow other errors *)
  (exists s, ticket (Some "UAH") (responses_of [Rejected (OtherFailure "NoValidFare")])
             = Some (Failed (OtherFailure "NoValidFare"), s) /\
             ticketCalls s = 1 /\ foidCalls s = 0 /\ fetches s = 1) /\
  (* should throw an error when currency is not found *)
  (exists s, ticket None (responses_of [Rejected (OtherFailure "No Call")])
             = Some (CouldNotRetrieveCurrency, s) /\
             ticketCalls s = 0 /\ foidCalls s = 0 /\ fetches s = 1).
Proof. split_and!; eexists; (split; [reflexivity|]); cbn; auto. Qed.

(** C9, as the tests have it. When the ticket call is rejected with
    [TicketingPnrBusy], then with [TicketingFoidRequired], and then
    succeeds, the machine finishes in [Done] after three ticket calls and
    one application of FOID, with the booking fetched twice in all: once on
    entry and once more after FOID was applied; the busy PNR is retried
    without a new fetch. On every sequence of outcomes the machine
    finishes after at most three ticket calls, at the first call that is not
    answered with a retry. A call is answered with a retry only when it is
    rejected with [TicketingFoidRequired] or [TicketingPnrBusy] and no
    earlier call was rejected in the same way, so each of the two kinds is
    retried at most once and any other failure ends the run with that very
    failure. FOID is applied, and the booking fetched again, once per call
    rejected for a missing FOID before the last one. *)
Theorem ticket_retries (currency : string) (responses : nat -> outcome) :
  (busy_foid_success responses ->
   exists s, ticket (Some currency) responses = Some (Done, s) /\
             ticketCalls s = 3 /\ foidCalls s = 1 /\
             fetches s = 2 /\ refetches s = 1) /\
  (exists k, k <= 2 /\ last_call responses k) /\
  (forall k, last_call responses k ->
     exists s, ticket (Some currency) responses
               = Some (final_of (responses k), s) /\
               ticketCalls s = S k /\
               foidCalls s = foid_rejections responses k /\
               refetches s = foid_rejections responses k).
Proof.
  split; [|split].
  - intros (H0 & H1 & H2). unfold ticket. cbn. rewrite H0. cbn. rewrite H1. cbn.
    rewrite H2. eexists. split; [reflexivity|]. cbn. auto.
  - destruct (ticket_run currency responses) as (k & s & Hl & Hk & _). eauto.
  - intros k Hk.
    destruct (ticket_run currency responses) as (k' & s & Hl & _ & Hrun).
    rewrite (last_call_unique responses k k' Hk Hl). eauto.
Qed.

Lemma ticket_retries_witness :
  busy_foid_success sample_responses /\
  exists s, ticket (Some "UAH") sample_responses = Some (Done, s) /\
            ticketCalls s = 3 /\ foidCalls s = 1 /\
            fetches s = 2 /\ refetches s = 1.
Proof.
  assert (busy_foid_success sample_responses) as Hs
    by (repeat split; reflexivity).
  split; [exact Hs|].
  exact (proj1 (ticket_retries "UAH" sample_responses) Hs).
Defined.

(** C9 as stated fails: after a busy PNR, a missing FOID and a success the
    booking has been fetched again once, not twice. *)
Lemma ticket_refetches_once :
  busy_foid_success sample_responses /\
  exists s, ticket (Some "UAH") sample_responses = Some (Done, s) /\
            ticketCalls s = 3 /\ foidCalls s = 1 /\
            refetches s = 1 /\ refetches s <> 2.
Proof.
  split; [repeat split; reflexivity|].
  eexists. split; [reflexivity|]. cbn. auto.
Qed.

End TicketingFacts.

(** ** The ticket-retrieval handler and the ticket lists *)

Module HandlerFacts.
Import Js Doc Errors ErrorsSpec Re ReSpec ReFacts ResultFacts Tickets ErrorsFacts.

Section Handlers.
Context `{Utils}.

(** X1. [airGetTicketsErrorHandler] returns in one case only: the structured
    code is 3000, the fault has a fault code and its fault string contains
    "has no tickets"; what it returns is the fault itself. In every other
    case it throws: for the structured code 345 it throws [NoAgreement]
    with the PCC of the fault string, and otherwise the error of
    [processUAPIError]. *)
Theorem airGetTicketsErrorHandler_returns_iff (rsp : Response) :
  (forall r, airGetTicketsErrorHandler rsp = Ok r <->
     r = rsp /\ structured_code rsp = Some (Some "3000") /\
     faultcode rsp <> None /\
     exists s, faultstring rsp = Some s /\ occurs_in "has no tickets" s) /\
  (structured_code rsp = Some (Some "345") ->
   airGetTicketsErrorHandler rsp
   = Throw (NoAgreement (getErrorPcc (faultstring rsp)))) /\
  (structured_code rsp <> Some (Some "345") ->
   ~ (structured_code rsp = Some (Some "3000") /\
      faultcode rsp <> None /\
      exists s, faultstring rsp = Some s /\ occurs_in "has no tickets" s) ->
   airGetTicketsErrorHandler rsp = Throw (processUAPIError rsp)).
Proof.
  unfold airGetTicketsErrorHandler, structured_code. split; [|split].
  - intros r. rewrite <- responseHasNoTickets_spec.
    destruct (read_errorInfo rsp) as [ei|]; simpl.
    + destruct (code_is (common_Code ei) "3000") eqn:Hc; simpl.
      * apply code_is_In in Hc. rewrite Hc.
        destruct (responseHasNoTickets rsp); simpl.
        -- split; [intros [= <-]; auto|intros (-> & _); reflexivity].
        -- split; [discriminate|]. intros (_ & _ & Hn). discriminate.
      * split.
        -- destruct (code_is (common_Code ei) "345"); discriminate.
        -- intros (_ & [= Hs] & _). rewrite Hs in Hc. discriminate.
    + split; [discriminate|]. intros (_ & Hs & _). discriminate.
  - destruct (read_errorInfo rsp) as [ei|]; simpl; [|discriminate].
    intros [= ->]. reflexivity.
  - rewrite <- responseHasNoTickets_spec.
    destruct (read_errorInfo rsp) as [ei|]; simpl; [|reflexivity].
    intros H345 Hno.
    destruct (code_is (common_Code ei) "3000") eqn:H3; simpl.
    + apply code_is_In in H3.
      destruct (responseHasNoTickets rsp); simpl.
      * exfalso. apply Hno. rewrite H3. auto.
      * rewrite H3. reflexivity.
    + destruct (code_is (common_Code ei) "345") eqn:Hc; [|reflexivity].
      apply code_is_In in Hc. congruence.
Qed.

(** X2. [processUAPIError] throws [UnhandledError], wrapping a plain
    [AirRuntimeError] with the document, exactly when no message can be
    resolved or the resolved message is empty. The fallback sentence stands
    in for a text that is absent, not for one that is empty: when the fault
    string is absent or empty and there are response messages, the error is
    unhandled exactly when the text of the first message is the empty
    string, whatever the other messages and the document failure say. *)
Theorem processUAPIError_unhandled_iff (rsp : Response) :
  (processUAPIError rsp = UnhandledError (AirRuntimeError rsp) <->
   getUAPIErrorMessage rsp = None \/ getUAPIErrorMessage rsp = Some EmptyString) /\
  (forall e, processUAPIError rsp = UnhandledError e -> e = AirRuntimeError rsp) /\
  (forall m rest,
     truthy (faultstring rsp) = false ->
     common_ResponseMessage rsp = Some (m :: rest) ->
     (processUAPIError rsp = UnhandledError (AirRuntimeError rsp) <->
      rm_text m = Some EmptyString)).
Proof.
  assert (forall e,
            processUAPIError rsp = UnhandledError e ->
            e = AirRuntimeError rsp /\
            (getUAPIErrorMessage rsp = None \/
             getUAPIErrorMessage rsp = Some EmptyString)) as Hinv.
  { intros e. unfold processUAPIError.
    destruct (getUAPIErrorMessage rsp) as [[|c m]|].
    - intros [= <-]. auto.
    - destruct (noAgreementPattern _); [discriminate|].
      destruct (unableToRetreivePattern _); [discriminate|].
      destruct (ticketRetrieveErrorPattern _); [discriminate|].
      destruct (accessedByAnotherTransactionPattern _); discriminate.
    - intros [= <-]. auto. }
  assert (getUAPIErrorMessage rsp = None \/
          getUAPIErrorMessage rsp = Some EmptyString ->
          processUAPIError rsp = UnhandledError (AirRuntimeError rsp)) as Hdir.
  { unfold processUAPIError. intros [-> | ->]; reflexivity. }
  split_and!.
  - split; [intros He; apply (Hinv _ He)|exact Hdir].
  - intros e He. apply (Hinv _ He).
  - intros m rest Hf Hm.
    assert (getUAPIErrorMessage rsp = Some (default fallbackMessage (rm_text m))) as Hg.
    { unfold getUAPIErrorMessage, getResponseMessages. rewrite Hf, Hm. reflexivity. }
    split.
    + intros He. destruct (Hinv _ He) as [_ [Hn|Hn]]; rewrite Hg in Hn; [discriminate|].
      destruct (rm_text m) as [t|]; [|discriminate]. injection Hn as ->. reflexivity.
    + intros Ht. apply Hdir. right. rewrite Hg, Ht. reflexivity.
Qed.

Section Tickets.
Variable formFareBasisCode : option AirPricingInfo -> Coupon -> option string.

Lemma firstInObj_Some_values {V} (o : jsobj V) (v : V) :
  firstInObj o = Some v -> obj_values o <> [].
Proof.
  unfold firstInObj, obj_keys, obj_values.
  destruct (obj_entries o); simpl; [discriminate|discriminate].
Qed.

(** X3. [airGetTickets] returns the empty list for the fault that reports a
    record without tickets, and for nothing else: every other document
    either makes it throw or gives at least one ticket. *)
Theorem airGetTickets_empty_iff (obj : Response) :
  airGetTickets formFareBasisCode obj = Ok [] <->
  faultcode obj <> None /\
  exists s, faultstring obj = Some s /\ occurs_in "has no tickets" s.
Proof.
  rewrite <- responseHasNoTickets_spec. unfold airGetTickets.
  destruct (responseHasNoTickets obj); [tauto|].
  split; [|discriminate]. intros Hb.
  apply rbind_Ok in Hb as (res & Hres & Hb).
  destruct res as [t|ts]; [discriminate|]. injection Hb as Hnil; subst ts.
  unfold airGetTicket in Hres.
  destruct (air_DocumentFailureInfo obj) as [f|].
  { destruct (code_is (dfi_Code f) "3273"); discriminate. }
  destruct (has_error_message (getResponseMessages obj)); [discriminate|].
  destruct (air_ETR obj) as [[etr|etrs]|]; [| |discriminate].
  - apply rbind_Ok in Hres as (t & _ & [=]).
  - apply rbind_Ok in Hres as (firstEtr & Hf & Hres).
    destruct (firstInObj etrs) as [v|] eqn:Hv; [|discriminate].
    apply firstInObj_Some_values in Hv.
    destruct (truthy (ProviderLocatorCode firstEtr)).
    + apply rbind_Ok in Hres as (ts & Hts & [= ->]).
      apply rmap_length in Hts. destruct (obj_values etrs); [congruence|discriminate].
    + destruct (negb false); discriminate.
Qed.

(** X4. The tickets that [airGetTicket] returns when retrieval without a
    provider locator code is not allowed all carry a non-empty PNR; for an
    object of ETRs there is one ticket record per ETR, in enumeration
    order. *)
Theorem airGetTicket_pnr_present (obj : Response) (res : ticketResult) :
  airGetTicket formFareBasisCode obj false = Ok res ->
  match res with
  | OneTicket t => truthy (pnr t) = true
  | ManyTickets ts =>
      Forall (fun t => truthy (pnr t) = true) ts /\
      exists etrs, air_ETR obj = Some (ManyETR etrs) /\
                   List.map pnr ts = List.map ProviderLocatorCode (obj_values etrs)
  end.
Proof.
  assert (forall etr t, getTicketFromEtr formFareBasisCode etr obj false = Ok t ->
            truthy (pnr t) = true /\ pnr t = ProviderLocatorCode etr) as Hone.
  { intros etr t. unfold getTicketFromEtr. cbn [negb andb].
    destruct (truthy (ProviderLocatorCode etr)) eqn:Ht; [|discriminate].
    cbn [negb]. intros Hb.
    apply rbind_Ok in Hb as (ps & _ & Hb).
    apply rbind_Ok in Hb as (ticketObj & _ & Hb).
    apply rbind_Ok in Hb as (all & _ & Hb).
    apply rbind_Ok in Hb as (ts & _ & Hb).
    apply rbind_Ok in Hb as (fcs & _ & Hb).
    apply rbind_Ok in Hb as (src & _ & Hb).
    apply rbind_Ok in Hb as (ft & _ & Hb).
    apply rbind_Ok in Hb as (fc & _ & [= <-]). cbn [pnr]. auto. }
  unfold airGetTicket.
  destruct (air_DocumentFailureInfo obj) as [f|].
  { destruct (code_is (dfi_Code f) "3273"); discriminate. }
  destruct (has_error_message (getResponseMessages obj)); [discriminate|].
  destruct (air_ETR obj) as [[etr|etrs]|]; [| |discriminate].
  - intros Hb. apply rbind_Ok in Hb as (t & Ht & [= <-]). apply (Hone etr t Ht).
  - intros Hb. apply rbind_Ok in Hb as (firstEtr & _ & Hb).
    destruct (truthy (ProviderLocatorCode firstEtr)); [|discriminate].
    apply rbind_Ok in Hb as (ts & Hts & [= <-]). split.
    + apply List.Forall_forall. intros t Ht.
      destruct (rmap_In _ _ _ Hts t Ht) as (etr & _ & He). apply (Hone etr t He).
    + exists etrs. split; [reflexivity|].
      revert ts Hts. induction (obj_values etrs) as [|e l IH]; intros ts; simpl.
      * intros [= <-]. reflexivity.
      * intros Hb. apply rbind_Ok in Hb as (t & Ht & Hb).
        apply rbind_Ok in Hb as (ts' & Hts' & [= <-]). simpl.
        rewrite (IH ts' Hts'). f_equal. apply (Hone e t Ht).
Qed.

End Tickets.
End Handlers.

(** A reply with one ETR under a key: one ticket, with the PNR of the ETR. *)
Lemma airGetTicket_pnr_present_witness :
  let obj := {| faultcode := None; faultstring := None; detail := None;
                common_ResponseMessage := None; air_DocumentFailureInfo := None;
                air_ETR := Some (ManyETR [("etr1", TicketsSpec.sample_etr)]);
                UniversalRecordLocatorCode := None |} in
  exists ts etrs,
    @airGetTicket ascii_utils (fun _ _ => None) obj false = Ok (ManyTickets ts) /\
    air_ETR obj = Some (ManyETR etrs) /\
    Forall (fun t => truthy (pnr t) = true) ts /\
    List.map pnr ts = List.map ProviderLocatorCode (obj_values etrs).
Proof.
  intros obj. eexists. eexists. split; [vm_compute; reflexivity|].
  split; [reflexivity|].
  destruct (@airGetTicket_pnr_present ascii_utils (fun _ _ => None) obj _
              ltac:(vm_compute; reflexivity)) as (Hall & etrs & He & Hm).
  injection He as <-. split; [exact Hall|exact Hm].
Defined.

End HandlerFacts.
(** ** The ticket record *)

Module TicketRecordFacts.
Import Js Doc Errors Tickets ErrorsSpec TicketsSpec TicketRecordSpec ResultFacts JsFacts.
Import FareCalcSpec.

Lemma NoDup_map_inj {A B} (f : A -> B) (l : list A) (a b : A) :
  NoDup (List.map f l) -> In a l -> In b l -> f a = f b -> a = b.
Proof.
  induction l as [|x l IH]; simpl; [tauto|].
  intros Hn Ha Hb Hf. apply NoDup_cons in Hn as [Hx Hn].
  destruct Ha as [<-|Ha], Hb as [<-|Hb]; auto.
  - exfalso. apply Hx. rewrite Hf. apply list_elem_of_In, in_map, Hb.
  - exfalso. apply Hx. rewrite <- Hf. apply list_elem_of_In, in_map, Ha.
Qed.

Section Parser.
Context `{Utils}.
Variable formFareBasisCode : option AirPricingInfo -> Coupon -> option string.


(** What a successful [getTicketFromEtr] has computed on the way. *)
Lemma getTicketFromEtr_Ok (etr : ETR) (obj : Response) (allow : bool) (r : ticketData) :
  getTicketFromEtr formFareBasisCode etr obj allow = Ok r ->
  exists ticketObj all firstTicket,
    let api := match air_AirPricingInfo etr with
               | Some o => firstInObj o
               | None => None
               end in
    air_Ticket etr = Some ticketObj /\
    allCoupons formFareBasisCode api (obj_values ticketObj) = Ok all /\
    rmap (returnedTicket api all) (obj_values ticketObj) = Ok (tickets r) /\
    head (tickets r) = Some firstTicket /\
    td_ticketNumber r = t_ticketNumber firstTicket /\
    isConjunctionTicket r = (1 <? length (tickets r)) /\
    pnr r = ProviderLocatorCode etr.
Proof.
  unfold getTicketFromEtr.
  destruct (negb allow && negb (truthy (ProviderLocatorCode etr))); [discriminate|].
  intros Hb.
  apply rbind_Ok in Hb as (ps & _ & Hb).
  apply rbind_Ok in Hb as (ticketObj & Hto & Hb).
  apply rbind_Ok in Hb as (all & Hall & Hb).
  apply rbind_Ok in Hb as (ts & Hts & Hb).
  apply rbind_Ok in Hb as (fcs & _ & Hb).
  apply rbind_Ok in Hb as (src & _ & Hb).
  apply rbind_Ok in Hb as (ft & Hft & Hb).
  apply rbind_Ok in Hb as (fc & _ & [= <-]).
  exists ticketObj, all, ft. cbn.
  destruct (air_Ticket etr); [injection Hto as ->|discriminate].
  destruct (head ts) eqn:Hh; [injection Hft as ->|discriminate].
  auto 10.
Qed.

Lemma returnedCoupon_key (api : option AirPricingInfo) (all : list coupon)
    (k : string) (c : coupon) :
  returnedCoupon api all k = Ok c ->
  key c = k /\
  exists i ac, findIndex (fun x => String.eqb (key x) k) all = Some i /\
               all !! i = Some ac /\ key ac = k /\
               c = with_stopover ac (stopover c) (serviceClass c) /\
               serviceClass c = option_map CabinClass (find_bookingInfo api).
Proof.
  unfold returnedCoupon. intros Hk.
  apply rbind_Ok in Hk as (i & Hi & Hk).
  apply rbind_Ok in Hk as (ac & Hac & [= <-]).
  destruct (findIndex (fun x => String.eqb (key x) k) all) as [i'|] eqn:Hf;
    [injection Hi as ->|discriminate].
  destruct (all !! i) as [ac'|] eqn:Hl; [injection Hac as ->|discriminate].
  destruct (TicketsFacts.findIndex_Some _ _ _ Hf) as (x & Hx & Hp & _).
  rewrite Hl in Hx. injection Hx as <-. apply String.eqb_eq in Hp.
  cbn [key with_stopover stopover serviceClass]. split; [exact Hp|].
  exists i, ac. split; [reflexivity|]. split; [exact Hl|]. split; [exact Hp|].
  split; [reflexivity|]. destruct (find_bookingInfo api); reflexivity.
Qed.

Lemma returnedTicket_keys (api : option AirPricingInfo) (all : list coupon)
    (T : Ticket) (t : ticket) :
  returnedTicket api all T = Ok t ->
  t_ticketNumber t = TicketNumber T /\
  List.map key (coupons t) = obj_keys (default [] (air_Coupon T)).
Proof.
  unfold returnedTicket. intros Hb.
  apply rbind_Ok in Hb as (cs & Hcs & Hb).
  apply rbind_Ok in Hb as (cps & Hcps & [= <-]). cbn [t_ticketNumber coupons].
  split; [reflexivity|].
  destruct (air_Coupon T) as [cs'|]; [injection Hcs as ->|discriminate].
  change (default [] (Some cs)) with cs. revert cps Hcps.
  induction (obj_keys cs) as [|k ks IH]; intros cps; simpl.
  - intros [= <-]. reflexivity.
  - intros Hb. apply rbind_Ok in Hb as (c & Hc & Hb).
    apply rbind_Ok in Hb as (cps' & Hcps' & [= <-]). simpl.
    rewrite (IH cps' Hcps'). f_equal. apply (returnedCoupon_key _ _ _ _ Hc).
Qed.

(** X5. The tickets of a returned record are those of the ETR, one for one and
    in enumeration order: same ticket number, same coupon keys in the same
    order. There is at least one; the ticket number of the record is the
    one of the first ticket, and the record is flagged as a conjunction
    ticket exactly when the ETR holds more than one ticket. *)
Theorem getTicketFromEtr_tickets (etr : ETR) (obj : Response) (allow : bool)
    (r : ticketData) :
  getTicketFromEtr formFareBasisCode etr obj allow = Ok r ->
  exists ticketObj first,
    air_Ticket etr = Some ticketObj /\
    head (obj_values ticketObj) = Some first /\
    List.map t_ticketNumber (tickets r) = List.map TicketNumber (obj_values ticketObj) /\
    List.map (fun t => List.map key (coupons t)) (tickets r)
    = coupon_keys (obj_values ticketObj) /\
    td_ticketNumber r = TicketNumber first /\
    (isConjunctionTicket r = true <-> 2 <= length ticketObj).
Proof.
  intros Hr. destruct (getTicketFromEtr_Ok _ _ _ _ Hr)
    as (ticketObj & all & ft & Hto & _ & Hts & Hft & Hn & Hc & _).
  set (api := match air_AirPricingInfo etr with
              | Some o => firstInObj o
              | None => None
              end) in *.
  assert (List.map t_ticketNumber (tickets r) = List.map TicketNumber (obj_values ticketObj) /\
          List.map (fun t => List.map key (coupons t)) (tickets r)
          = coupon_keys (obj_values ticketObj)) as [Hnum Hkeys].
  { revert Hts. generalize (tickets r).
    induction (obj_values ticketObj) as [|T l IH]; intros ts; simpl.
    - intros [= <-]. auto.
    - intros Hb. apply rbind_Ok in Hb as (t & Ht & Hb).
      apply rbind_Ok in Hb as (ts' & Hts' & [= <-]). simpl.
      destruct (IH ts' Hts') as [-> ->].
      destruct (returnedTicket_keys _ _ _ _ Ht) as [-> ->]. auto. }
  assert (length (tickets r) = length ticketObj) as Hlen.
  { rewrite (rmap_length _ _ _ Hts). unfold obj_values. rewrite length_map.
    apply Permutation_length, obj_entries_Permutation. }
  destruct (obj_values ticketObj) as [|first l] eqn:Hv.
  { destruct (tickets r); [discriminate|discriminate]. }
  exists ticketObj, first. rewrite Hv. split; [exact Hto|]. split; [reflexivity|].
  split; [exact Hnum|]. split; [exact Hkeys|]. split.
  - rewrite Hn. destruct (tickets r) as [|t ts]; [discriminate|].
    injection Hft as <-. simpl in Hnum. congruence.
  - rewrite Hc, <- Hlen. rewrite Nat.ltb_lt. lia.
Qed.

Lemma allCoupons_entries (api : option AirPricingInfo) (raw : list Ticket)
    (all : list coupon) :
  allCoupons formFareBasisCode api raw = Ok all ->
  List.map key all = List.concat (coupon_keys raw) /\
  forall T cs k c, In T raw -> air_Coupon T = Some cs -> In (k, c) (obj_entries cs) ->
    In (couponEntry formFareBasisCode api T (k, c)) all.
Proof.
  unfold allCoupons. intros Hb.
  apply rbind_Ok in Hb as (chunks & Hc & [= <-]).
  revert chunks Hc. induction raw as [|T raw IH]; intros chunks; simpl.
  - intros [= <-]. split; [reflexivity|]. intros ? ? ? ? [].
  - intros Hb. apply rbind_Ok in Hb as (chunk & Hchunk & Hb).
    apply rbind_Ok in Hb as (chunks' & Hchunks' & [= <-]).
    apply rbind_Ok in Hchunk as (cs & Hcs & [= <-]).
    destruct (air_Coupon T) as [cs'|] eqn:HT; [injection Hcs as ->|discriminate].
    destruct (IH chunks' Hchunks') as [IHk IHin]. split.
    + simpl. rewrite List.map_app, IHk. f_equal.
      unfold obj_keys. rewrite List.map_map. apply List.map_ext. intros [k c]. reflexivity.
    + intros T' cs' k c [<-|HT'] Hcs' Hin; cbn [concat]; apply in_or_app.
      * left. rewrite HT in Hcs'. injection Hcs' as <-.
        apply (in_map (couponEntry formFareBasisCode api T) _ _ Hin).
      * right. apply (IHin T' cs' k c HT' Hcs' Hin).
Qed.

(** X6. When no coupon key occurs twice among the tickets of the ETR, every
    coupon of a returned ticket is a coupon of that very ticket: it carries
    the number of the ticket it is listed under, and the data of the coupon
    stored under its key in that ticket. *)
Theorem returned_coupons_of_own_ticket (etr : ETR) (obj : Response) (allow : bool)
    (r : ticketData) (ticketObj : jsobj Ticket) :
  getTicketFromEtr formFareBasisCode etr obj allow = Ok r ->
  air_Ticket etr = Some ticketObj ->
  NoDup (List.concat (coupon_keys (obj_values ticketObj))) ->
  forall i t T, tickets r !! i = Some t -> obj_values ticketObj !! i = Some T ->
    Forall (fun c =>
              ticketNumber c = TicketNumber T /\
              exists cs raw, air_Coupon T = Some cs /\
                             In (key c, raw) cs /\
                             couponNumber c = CouponNumber raw /\
                             from c = Origin raw /\ to c = Destination raw /\
                             status c = Status raw)
      (coupons t).
Proof.
  intros Hr Hto Hnd i t T Ht HT.
  destruct (getTicketFromEtr_Ok _ _ _ _ Hr)
    as (ticketObj' & all & ft & Hto' & Hall & Hts & _).
  rewrite Hto in Hto'. injection Hto' as <-.
  set (api := match air_AirPricingInfo etr with
              | Some o => firstInObj o
              | None => None
              end) in *.
  destruct (allCoupons_entries _ _ _ Hall) as [Hkeys Hin].
  rewrite <- Hkeys in Hnd.
  destruct (rmap_lookup _ _ _ Hts i t Ht) as (T' & HT' & Hret).
  rewrite HT in HT'. injection HT' as <-.
  assert (In T (obj_values ticketObj)) as HTin.
  { apply list_elem_of_In. eapply list_elem_of_lookup_2. exact HT. }
  unfold returnedTicket in Hret.
  apply rbind_Ok in Hret as (cs & Hcs & Hret).
  apply rbind_Ok in Hret as (cps & Hcps & [= <-]). cbn [coupons].
  destruct (air_Coupon T) as [cs'|] eqn:HcT; [injection Hcs as ->|discriminate].
  apply List.Forall_forall. intros c Hc.
  destruct (rmap_In _ _ _ Hcps c Hc) as (k & Hk & Hrc).
  destruct (returnedCoupon_key _ _ _ _ Hrc) as (Hkc & j & ac & _ & Hj & Hack & Hcac & _).
  unfold obj_keys in Hk. apply in_map_iff in Hk as ([k' raw] & Hk' & Hent).
  simpl in Hk'. subst k'.
  assert (ticketNumber c = ticketNumber ac /\ couponNumber c = couponNumber ac /\
          from c = from ac /\ to c = to ac /\ status c = status ac)
    as (E1 & E2 & E3 & E4 & E5) by (rewrite Hcac; cbn; auto).
  assert (ac = couponEntry formFareBasisCode api T (k, raw)) as Hac.
  { apply (NoDup_map_inj key all); auto.
    - apply list_elem_of_In. eapply list_elem_of_lookup_2. exact Hj.
    - apply (Hin T cs k raw); auto. }
  rewrite E1, E2, E3, E4, E5, Hac, Hkc. cbn. split; [reflexivity|].
  exists cs, raw. split; [reflexivity|]. split; [|auto].
  apply list_elem_of_In. rewrite <- (obj_entries_Permutation cs).
  apply list_elem_of_In. exact Hent.
Qed.

Lemma find_bookingInfo_None (api : AirPricingInfo) :
  (forall fares k fare, air_FareInfo api = Some fares ->
     obj_get k fares = Some fare -> FareBasis fare <> None) ->
  find_bookingInfo (Some api) = None.
Proof.
  intros Hb. unfold find_bookingInfo.
  destruct (air_FareInfo api) as [fares|]; [|reflexivity].
  specialize (Hb fares). induction (obj_keys fares) as [|k ks IH] using rev_ind;
    [reflexivity|].
  rewrite fold_left_app. cbn [fold_left]. rewrite IH.
  destruct (obj_get k fares) as [fare|] eqn:Hk; [|reflexivity].
  destruct (air_BookingInfo api); [|reflexivity].
  specialize (Hb k fare eq_refl Hk). destruct (FareBasis fare); [reflexivity|congruence].
Qed.

(** X7. A coupon gets a [serviceClass] only through a fare info that has no
    [FareBasis]: the search compares the fare basis of each fare info with a
    property that the collected coupons do not have. So when every fare
    info of the first pricing info has a fare basis, and also when the ETR
    has no pricing info, no returned coupon has a [serviceClass]. *)
Theorem serviceClass_needs_fare_without_basis (etr : ETR) (obj : Response)
    (allow : bool) (r : ticketData) :
  getTicketFromEtr formFareBasisCode etr obj allow = Ok r ->
  (forall o api fares k fare,
     air_AirPricingInfo etr = Some o -> firstInObj o = Some api ->
     air_FareInfo api = Some fares -> obj_get k fares = Some fare ->
     FareBasis fare <> None) ->
  forall t c, In t (tickets r) -> In c (coupons t) -> serviceClass c = None.
Proof.
  intros Hr Hfb t c Ht Hc.
  destruct (getTicketFromEtr_Ok _ _ _ _ Hr)
    as (ticketObj & all & ft & _ & _ & Hts & _).
  set (api := match air_AirPricingInfo etr with
              | Some o => firstInObj o
              | None => None
              end) in *.
  assert (find_bookingInfo api = None) as Hnone.
  { subst api. destruct (air_AirPricingInfo etr) as [o|]; [|reflexivity].
    destruct (firstInObj o) as [a|] eqn:Ha; [|reflexivity].
    apply find_bookingInfo_None. intros fares k fare. apply (Hfb o a); auto. }
  destruct (rmap_In _ _ _ Hts t Ht) as (T & _ & Hret).
  unfold returnedTicket in Hret.
  apply rbind_Ok in Hret as (cs & _ & Hret).
  apply rbind_Ok in Hret as (cps & Hcps & [= <-]). cbn [coupons] in Hc.
  destruct (rmap_In _ _ _ Hcps c Hc) as (k & _ & Hrc).
  destruct (returnedCoupon_key _ _ _ _ Hrc) as (_ & j & ac & _ & _ & _ & _ & Hsc).
  rewrite Hsc, Hnone. reflexivity.
Qed.

(** X8. The fare calculation of a ticket record is parsed from the fare
    calculation of the ETR when that one has a content before an [END]
    marker, and otherwise from the fare calculation of the first pricing
    info of the ETR; so the [fareCalculation], [firstOrigin] and [roe] of
    the record are those that [parseFareCalculation] gives for that
    text. *)
Theorem getTicketFromEtr_fareCalc_source (etr : ETR) (obj : Response) (allow : bool)
    (r : ticketData) :
  getTicketFromEtr formFareBasisCode etr obj allow = Ok r ->
  exists etrCalc source,
    air_FareCalc etr = Some etrCalc /\
    FareCalc.parseFareCalculation source = Ok (fareCalc r) /\
    ((exists content, pattern_match etrCalc content) /\ source = etrCalc \/
     (forall content, content <> EmptyString -> ~ content_before_end etrCalc content) /\
     exists o api, air_AirPricingInfo etr = Some o /\ firstInObj o = Some api /\
                   api_FareCalc api = Some source).
Proof.
  unfold getTicketFromEtr.
  destruct (negb allow && negb (truthy (ProviderLocatorCode etr))); [discriminate|].
  intros Hb.
  apply rbind_Ok in Hb as (ps & _ & Hb).
  apply rbind_Ok in Hb as (ticketObj & _ & Hb).
  apply rbind_Ok in Hb as (all & _ & Hb).
  apply rbind_Ok in Hb as (ts & _ & Hb).
  apply rbind_Ok in Hb as (etrCalc & Hcalc & Hb).
  apply rbind_Ok in Hb as (src & Hsrc & Hb).
  apply rbind_Ok in Hb as (ft & _ & Hb).
  apply rbind_Ok in Hb as (fc & Hfc & [= <-]). cbn [fareCalc].
  exists etrCalc, src.
  split; [destruct (air_FareCalc etr); [injection Hcalc as ->; reflexivity|discriminate]|].
  split.
  { destruct (FareCalc.parseFareCalculation src) as [fc'|[]]; [|discriminate].
    injection Hfc as ->. reflexivity. }
  destruct (FareCalc.fareCalculationPattern etrCalc) as [content|] eqn:Hp.
  - left. injection Hsrc as <-. split; [|reflexivity].
    exists content. apply FareCalcFacts.fareCalculationPattern_some. exact Hp.
  - right. split; [apply FareCalcFacts.fareCalculationPattern_none; exact Hp|].
    apply rbind_Ok in Hsrc as (api & Hapi & Hsrc).
    destruct (air_AirPricingInfo etr) as [o|]; [|discriminate].
    exists o, api. split; [reflexivity|].
    split; [destruct (firstInObj o); [injection Hapi as ->; reflexivity|discriminate]|].
    destruct (api_FareCalc api); [injection Hsrc as ->; reflexivity|discriminate].
Qed.

End Parser.

(** The two tickets of [conjunction_etr] come back with their own numbers
    and coupon keys, and the record is flagged as a conjunction ticket. *)
Lemma getTicketFromEtr_tickets_witness :
  exists r,
    getTicketFromEtr (fun _ _ => None) conjunction_etr empty_response false = Ok r /\
    List.map t_ticketNumber (tickets r)
    = [Some "0649902789376"; Some "0649902789377"] /\
    List.map (fun t => List.map key (coupons t)) (tickets r)
    = [["cpn1"; "cpn2"]; ["cpn3"]] /\
    td_ticketNumber r = Some "0649902789376" /\
    isConjunctionTicket r = true.
Proof.
  eexists. split; [vm_compute; reflexivity|].
  destruct (getTicketFromEtr_tickets (fun _ _ => None) conjunction_etr
              empty_response false _ ltac:(vm_compute; reflexivity))
    as (ticketObj & first & Hto & Hf & Hn & Hk & Hnum & Hc).
  injection Hto as <-. injection Hf as <-.
  split; [exact Hn|]. split; [exact Hk|]. split; [exact Hnum|]. reflexivity.
Defined.

(** The coupon of the second ticket of [conjunction_etr] carries the number
    of that ticket. *)
Lemma returned_coupons_of_own_ticket_witness :
  exists r t T,
    getTicketFromEtr (fun _ _ => None) conjunction_etr empty_response false = Ok r /\
    tickets r !! 1 = Some t /\
    TicketNumber T = Some "0649902789377" /\
    Forall (fun c =>
              ticketNumber c = TicketNumber T /\
              exists cs raw, air_Coupon T = Some cs /\
                             In (key c, raw) cs /\
                             couponNumber c = CouponNumber raw /\
                             from c = Origin raw /\ to c = Destination raw /\
                             status c = Status raw)
      (coupons t).
Proof.
  eexists. eexists. eexists. split; [vm_compute; reflexivity|].
  split; [reflexivity|]. split; [|
  refine (returned_coupons_of_own_ticket (fun _ _ => None) conjunction_etr
            empty_response false _ _ ltac:(vm_compute; reflexivity) eq_refl _
            1 _ _ eq_refl eq_refl);
  apply (bool_decide_unpack _); vm_compute; exact I].
  reflexivity.
Defined.

Lemma serviceClass_needs_fare_without_basis_witness :
  exists r,
    getTicketFromEtr (fun _ _ => None) conjunction_etr empty_response false = Ok r /\
    forall t c, In t (tickets r) -> In c (coupons t) -> serviceClass c = None.
Proof.
  eexists. split; [vm_compute; reflexivity|].
  refine (serviceClass_needs_fare_without_basis (fun _ _ => None) conjunction_etr
            empty_response false _ ltac:(vm_compute; reflexivity) _).
  intros o api fares k fare [= <-] [= <-] [= <-]. simpl.
  destruct (String.eqb k "fare1"); [intros [= <-]|]; discriminate.
Defined.

(** The ETR of [fallback_etr] has a fare calculation without the marker; the
    record gets the fare calculation of the pricing info. *)
Lemma getTicketFromEtr_fareCalc_source_witness :
  exists r,
    getTicketFromEtr (fun _ _ => None) fallback_etr empty_response false = Ok r /\
    FareCalc.fareCalculation (fareCalc r) = "IEV PS AMS 100.00 NUC100.00" /\
    exists etrCalc source,
      air_FareCalc fallback_etr = Some etrCalc /\
      FareCalc.parseFareCalculation source = Ok (fareCalc r) /\
      ((exists content, pattern_match etrCalc content) /\ source = etrCalc \/
       (forall content, content <> EmptyString ->
          ~ content_before_end etrCalc content) /\
       exists o api, air_AirPricingInfo fallback_etr = Some o /\
                     firstInObj o = Some api /\ api_FareCalc api = Some source).
Proof.
  eexists. split; [vm_compute; reflexivity|]. split; [reflexivity|].
  apply (getTicketFromEtr_fareCalc_source (fun _ _ => None) fallback_etr
           empty_response false).
  vm_compute. reflexivity.
Defined.

End TicketRecordFacts.
Module BookingChecksFacts.
Import Js Bookings Re ReSpec ReFacts ResultFacts ThrowSpec ThrowFacts JsFacts.
Import BookingsSpec BookingChecksSpec.

Lemma fare_message_dec (m : Message) :
  match m_text m with Some t => noValidFare t | None => false end = true <->
  fare_message m.
Proof.
  unfold fare_message, noValidFare. destruct (m_text m) as [t|].
  - rewrite contains_spec. split; [eauto|]. intros (t' & [= <-] & Ho). exact Ho.
  - split; [discriminate|]. intros (t' & Ht & _). discriminate.
Qed.

Lemma stale_message_dec (m : Message) :
  match m_text m with Some t => bookingStaleData t | None => false end
  || match m_Code m with
     | Some (inr n) => Z.eqb n BOOKING_STALE_DATA_ERROR_CODE
     | _ => false
     end = true <->
  stale_message m.
Proof.
  unfold stale_message, bookingStaleData, BOOKING_STALE_DATA_ERROR_CODE.
  rewrite orb_true_iff.
  assert (match m_text m with
          | Some t => contains_ci "failed refresh" t || contains_ci "data may be stale" t
          | None => false
          end = true <->
          exists t, m_text m = Some t /\
                    (occurs_in_ignoring_case "failed refresh" t \/
                     occurs_in_ignoring_case "data may be stale" t)) as Ht.
  { destruct (m_text m) as [t|].
    - rewrite orb_true_iff, !contains_ci_spec. split; [eauto|].
      intros (t' & [= <-] & Ho). exact Ho.
    - split; [discriminate|]. intros (t' & Ht & _). discriminate. }
  assert (match m_Code m with
          | Some (inr n) => Z.eqb n 1301
          | _ => false
          end = true <-> m_Code m = Some (inr 1301%Z)) as Hc.
  { destruct (m_Code m) as [[s|n]|]; try (split; discriminate).
    rewrite Z.eqb_eq. split; [congruence|]. intros [= ->]. reflexivity. }
  tauto.
Qed.

Section Facts.
Context `{Utils} `{Format}.

(** The loop over the messages stops at the first message that is not
    harmless. *)
Lemma check_messages_first (obj : Document) (all pre post : list Message)
    (m : Message) :
  Forall harmless pre ->
  (fare_message m ->
   check_messages obj all (pre ++ m :: post) = Throw (NoValidFare obj)) /\
  (~ fare_message m -> stale_message m ->
   check_messages obj all (pre ++ m :: post)
   = Throw (UniversalRecordDataCouldBeStale all)).
Proof.
  intros Hpre. induction Hpre as [|x pre [Hf Hs] _ IH]; simpl.
  - split.
    + intros Hm. apply fare_message_dec in Hm. rewrite Hm. reflexivity.
    + intros Hnf Hst. apply stale_message_dec in Hst.
      destruct (match m_text m with Some t => noValidFare t | None => false end) eqn:E.
      { apply fare_message_dec in E. contradiction. }
      rewrite Hst. reflexivity.
  - destruct (match m_text x with Some t => noValidFare t | None => false end) eqn:E.
    { apply fare_message_dec in E. contradiction. }
    destruct (_ || _) eqn:E2.
    { apply stale_message_dec in E2. contradiction. }
    exact IH.
Qed.

Lemma check_messages_Ok (obj : Document) (all msgs : list Message) :
  check_messages obj all msgs = Ok tt <-> Forall harmless msgs.
Proof.
  induction msgs as [|m msgs IH]; simpl.
  - split; [constructor|reflexivity].
  - rewrite Forall_cons_iff, <- IH. unfold harmless.
    rewrite <- fare_message_dec, <- stale_message_dec.
    destruct (match m_text m with Some t => noValidFare t | None => false end).
    { split; [discriminate|]. intros [[Hf _] _]. congruence. }
    destruct (_ || _).
    { split; [discriminate|]. intros [[_ Hs] _]. congruence. }
    split; [intros Hc; split; [split; discriminate|exact Hc]|tauto].
Qed.

Lemma check_messages_Throw (obj : Document) (all msgs : list Message) (e : error) :
  check_messages obj all msgs = Throw e ->
  e = NoValidFare obj \/ e = UniversalRecordDataCouldBeStale all.
Proof.
  induction msgs as [|m msgs IH]; simpl; [discriminate|].
  destruct (match m_text m with Some t => noValidFare t | None => false end).
  { intros [= <-]. auto. }
  destruct (_ || _); [intros [= <-]; auto|exact IH].
Qed.

(** *** The errors from inside one booking *)

Lemma inner_lift {A} (o : option A) : throws_only inner_error (lift o).
Proof.
  destruct o; [apply throws_only_Ok|apply throws_only_Throw; left; reflexivity].
Qed.

Ltac inner :=
  repeat first
    [ apply throws_only_Ok
    | apply inner_lift
    | apply throws_only_Throw; unfold inner_error; tauto
    | apply throws_only_bind; [|intros ? ?]
    | apply throws_only_rmap; intros ? ?
    | match goal with
      | |- throws_only _ (match ?x with _ => _ end) => destruct x
      end ].

Lemma split_remarks_inner (rs : list GeneralRemark) (acc : list string) :
  throws_only inner_error (split_remarks rs acc).
Proof.
  revert acc. induction rs as [|r rs IH]; intros acc; simpl; inner; apply IH.
Qed.

Lemma push_emails_inner (es : list Email) (acc : list email) :
  throws_only inner_error (push_emails es acc).
Proof.
  revert acc. induction es as [|e es IH]; intros acc; simpl; inner; apply IH.
Qed.

Lemma build_passengers_inner (travelers : option (jsobj Traveler))
    (refs : list string) (emails : list email) :
  throws_only inner_error (build_passengers travelers refs emails).
Proof.
  revert emails. induction refs as [|r refs IH]; intros emails; simpl; inner;
    try apply push_emails_inner; apply IH.
Qed.

Lemma build_pricingInfo_inner (b : AirReservation) (tickets : list ticket)
    (key : string) (c : gmap string fareQuoteCommon) :
  throws_only inner_error (build_pricingInfo b tickets key c).
Proof. unfold build_pricingInfo. inner. Qed.

Lemma build_pricingInfos_inner (b : AirReservation) (tickets : list ticket)
    (keys : list string) (c : gmap string fareQuoteCommon) :
  throws_only inner_error (build_pricingInfos b tickets keys c).
Proof.
  revert c. induction keys as [|k keys IH]; intros c; simpl; inner;
    try apply build_pricingInfo_inner; apply IH.
Qed.

Lemma build_booking_inner (record : UniversalRecord)
    (travelers : option (jsobj Traveler))
    (reservationInfo : option (jsobj ProviderReservationInfo))
    (remarks : gmap string (list GeneralRemark)) (messages : list Message)
    (ar : AirReservation) :
  throws_only inner_error
    (build_booking record travelers reservationInfo remarks messages ar).
Proof.
  unfold build_booking. apply throws_only_bind; [apply inner_lift|].
  intros resInfo _.
  destruct (obj_get (prop_key (ar_ProviderReservationInfoRef ar)) resInfo)
    as [providerInfo|]; [|apply throws_only_Throw; left; reflexivity].
  cbn [rbind].
  apply throws_only_bind.
  { inner; apply split_remarks_inner. }
  intros splits _.
  apply throws_only_bind; [apply inner_lift|]. intros refs _.
  apply throws_only_bind; [apply build_passengers_inner|]. intros pe _.
  destruct (setIndexesForSegments _ _) as [indexedSegments indexedServiceSegments].
  apply throws_only_bind.
  { unfold build_serviceSegments. inner. }
  intros serviceSegments _.
  apply throws_only_bind.
  { unfold build_tickets. inner. }
  intros tickets _.
  apply throws_only_bind.
  { destruct (air_AirPricingInfo ar); [apply build_pricingInfos_inner|inner]. }
  intros pc _. inner.
Qed.

Lemma obj_keys_nil {V} (o : jsobj V) : length (obj_keys o) = length o.
Proof.
  unfold obj_keys. rewrite length_map.
  apply Permutation_length, obj_entries_Permutation.
Qed.

(** What [extractBookings] does once the messages are found harmless. *)
Lemma extractBookings_harmless (obj : Document) :
  Forall harmless (default [] (common_ResponseMessage obj)) ->
  extractBookings obj =
  let messages := default [] (common_ResponseMessage obj) in
  if air_AirSegmentSellFailureInfo obj then Throw (SegmentBookingFailed obj)
  else
    do record <- lift (universal_UniversalRecord obj);
    match air_AirReservation record with
    | Some (ar :: ars) =>
        rmap (build_booking record (common_BookingTraveler record)
                (universal_ProviderReservationInfo record)
                (group_remarks (common_GeneralRemark record)) messages)
          (ar :: ars)
    | _ =>
        match common_BookingTraveler record with
        | Some (_ :: _) =>
            do resInfo <- lift (universal_ProviderReservationInfo record);
            rmap (build_booking_without_air record (common_BookingTraveler record)
                    messages) (obj_values resInfo)
        | _ => Throw ReservationsMissing
        end
    end.
Proof.
  intros Hh. unfold extractBookings.
  rewrite (proj2 (check_messages_Ok obj _ _) Hh). cbn [rbind].
  destruct (air_AirSegmentSellFailureInfo obj); [reflexivity|].
  destruct (universal_UniversalRecord obj) as [record|]; [|reflexivity].
  cbn [lift rbind].
  destruct (air_AirReservation record) as [[|ar ars]|];
    destruct (common_BookingTraveler record) as [[|t ts]|]; try reflexivity.
  all: pose proof (obj_keys_nil (t :: ts)) as Hl;
    destruct (obj_keys (t :: ts)); [discriminate|reflexivity].
Qed.

(** X9. The first response message that is not harmless decides: a message that
    reports no valid fare makes [extractBookings] throw [NoValidFare] with
    the document, a message that reports stale data (by its text, or by the
    numeric code 1301) makes it throw [UniversalRecordDataCouldBeStale]
    with all the messages, whatever else the document holds. When every
    message is harmless neither error is thrown. *)
Theorem extractBookings_first_offending_message (obj : Document) :
  let messages := default [] (common_ResponseMessage obj) in
  (forall pre m post, messages = pre ++ m :: post -> Forall harmless pre ->
     (fare_message m -> extractBookings obj = Throw (NoValidFare obj)) /\
     (~ fare_message m -> stale_message m ->
      extractBookings obj = Throw (UniversalRecordDataCouldBeStale messages))) /\
  (Forall harmless messages ->
   forall e, extractBookings obj = Throw e ->
     e <> NoValidFare obj /\ e <> UniversalRecordDataCouldBeStale messages).
Proof.
  intros messages. split.
  - intros pre m post Hm Hpre. unfold extractBookings. fold messages. rewrite Hm.
    destruct (check_messages_first obj (pre ++ m :: post) pre post m Hpre) as [Hf Hs].
    split.
    + intros Hfm. rewrite (Hf Hfm). reflexivity.
    + intros Hn Hst. rewrite (Hs Hn Hst). reflexivity.
  - intros Hh e. rewrite (extractBookings_harmless obj Hh). cbn zeta.
    destruct (air_AirSegmentSellFailureInfo obj).
    { intros [= <-]. split; discriminate. }
    intros He.
    assert (inner_error e \/ e = ReservationsMissing) as [Hi| ->].
    { destruct (universal_UniversalRecord obj) as [record|];
        [|injection He as <-; left; left; reflexivity].
      cbn [lift rbind] in He.
      destruct (air_AirReservation record) as [[|ar ars]|].
      - destruct (common_BookingTraveler record) as [[|t ts]|];
          try (injection He as <-; right; reflexivity).
        left. revert He. generalize e.
        change (throws_only inner_error
                  (do resInfo <- lift (universal_ProviderReservationInfo record);
                   rmap (build_booking_without_air record (Some (t :: ts))
                           (default [] (common_ResponseMessage obj)))
                     (obj_values resInfo))).
        apply throws_only_bind; [apply inner_lift|]. intros resInfo _.
        apply throws_only_rmap. intros p _. unfold build_booking_without_air. inner.
      - left. revert He. generalize e.
        apply throws_only_rmap. intros a _. apply build_booking_inner.
      - destruct (common_BookingTraveler record) as [[|t ts]|];
          try (injection He as <-; right; reflexivity).
        left. revert He. generalize e.
        change (throws_only inner_error
                  (do resInfo <- lift (universal_ProviderReservationInfo record);
                   rmap (build_booking_without_air record (Some (t :: ts))
                           (default [] (common_ResponseMessage obj)))
                     (obj_values resInfo))).
        apply throws_only_bind; [apply inner_lift|]. intros resInfo _.
        apply throws_only_rmap. intros p _. unfold build_booking_without_air. inner. }
    + destruct Hi as [->|[->| ->]]; split; discriminate.
    + split; discriminate.
Qed.

(** X10. [extractBookings] throws [ReservationsMissing] exactly for a document
    whose messages are all harmless, that reports no segment sell failure,
    and whose universal record has neither a traveler nor an air
    reservation. *)
Theorem extractBookings_ReservationsMissing_iff (obj : Document) :
  extractBookings obj = Throw ReservationsMissing <->
  Forall harmless (default [] (common_ResponseMessage obj)) /\
  air_AirSegmentSellFailureInfo obj = false /\
  exists record, universal_UniversalRecord obj = Some record /\
                 no_travelers record /\ no_air_reservation record.
Proof.
  unfold no_travelers, no_air_reservation. split.
  - intros He.
    assert (Forall harmless (default [] (common_ResponseMessage obj))) as Hh.
    { apply (check_messages_Ok obj (default [] (common_ResponseMessage obj))).
      unfold extractBookings in He.
      destruct (check_messages obj _ _) as [[]|e] eqn:Hc; [reflexivity|].
      injection He as ->. apply check_messages_Throw in Hc as [Hc|Hc]; discriminate. }
    split; [exact Hh|]. rewrite (extractBookings_harmless obj Hh) in He. cbn zeta in He.
    destruct (air_AirSegmentSellFailureInfo obj); [discriminate|]. split; [reflexivity|].
    destruct (universal_UniversalRecord obj) as [record|]; [|discriminate].
    exists record. split; [reflexivity|]. cbn [lift rbind] in He.
    assert (forall A (l : list A) (f : A -> result error booking),
              (forall x, throws_only inner_error (f x)) ->
              rmap f l <> Throw ReservationsMissing) as Hrmap.
    { intros A l f Hf Hr.
      assert (throws_only inner_error (rmap f l)) as Ht
        by (apply throws_only_rmap; intros; apply Hf).
      destruct (Ht _ Hr) as [|[|]]; discriminate. }
    destruct (air_AirReservation record) as [[|ar ars]|].
    + destruct (common_BookingTraveler record) as [[|t ts]|]; auto.
      exfalso. destruct (universal_ProviderReservationInfo record); [|discriminate].
      revert He. apply Hrmap. intros p. unfold build_booking_without_air. inner.
    + exfalso. revert He. apply Hrmap. intros a. apply build_booking_inner.
    + destruct (common_BookingTraveler record) as [[|t ts]|]; auto.
      exfalso. destruct (universal_ProviderReservationInfo record); [|discriminate].
      revert He. apply Hrmap. intros p. unfold build_booking_without_air. inner.
  - intros (Hh & Hs & record & Hr & Ht & Ha).
    rewrite (extractBookings_harmless obj Hh). cbn zeta. rewrite Hs, Hr. cbn [lift rbind].
    destruct Ha as [-> | ->], Ht as [-> | ->]; reflexivity.
Qed.

(** X11. [extractBookings] throws [SegmentBookingFailed] exactly for a document
    whose messages are all harmless and that reports a segment sell
    failure, and then with the document itself; the universal record is not
    looked at. *)
Theorem extractBookings_SegmentBookingFailed_iff (obj d : Document) :
  extractBookings obj = Throw (SegmentBookingFailed d) <->
  d = obj /\ Forall harmless (default [] (common_ResponseMessage obj)) /\
  air_AirSegmentSellFailureInfo obj = true.
Proof.
  split.
  - intros He.
    assert (Forall harmless (default [] (common_ResponseMessage obj))) as Hh.
    { apply (check_messages_Ok obj (default [] (common_ResponseMessage obj))).
      unfold extractBookings in He.
      destruct (check_messages obj _ _) as [[]|e] eqn:Hc; [reflexivity|].
      injection He as ->. apply check_messages_Throw in Hc as [Hc|Hc]; discriminate. }
    rewrite (extractBookings_harmless obj Hh) in He. cbn zeta in He.
    destruct (air_AirSegmentSellFailureInfo obj); [injection He as <-; auto|].
    exfalso.
    destruct (universal_UniversalRecord obj) as [record|]; [|discriminate].
    cbn [lift rbind] in He.
    assert (forall A (l : list A) (f : A -> result error booking),
              (forall x, throws_only inner_error (f x)) ->
              rmap f l <> Throw (SegmentBookingFailed d)) as Hrmap.
    { intros A l f Hf Hr.
      assert (throws_only inner_error (rmap f l)) as Ht
        by (apply throws_only_rmap; intros; apply Hf).
      destruct (Ht _ Hr) as [|[|]]; discriminate. }
    destruct (air_AirReservation record) as [[|ar ars]|].
    + destruct (common_BookingTraveler record) as [[|t ts]|]; try discriminate.
      destruct (universal_ProviderReservationInfo record); [|discriminate].
      revert He. apply Hrmap. intros p. unfold build_booking_without_air. inner.
    + revert He. apply Hrmap. intros a. apply build_booking_inner.
    + destruct (common_BookingTraveler record) as [[|t ts]|]; try discriminate.
      destruct (universal_ProviderReservationInfo record); [|discriminate].
      revert He. apply Hrmap. intros p. unfold build_booking_without_air. inner.
  - intros (-> & Hh & Hs).
    rewrite (extractBookings_harmless obj Hh). cbn zeta. rewrite Hs. reflexivity.
Qed.

(** *** The bookings returned *)

Lemma build_booking_Ok (record : UniversalRecord)
    (travelers : option (jsobj Traveler))
    (reservationInfo : option (jsobj ProviderReservationInfo))
    (remarks : gmap string (list GeneralRemark)) (msgs : list Message)
    (ar : AirReservation) (b : booking) :
  build_booking record travelers reservationInfo remarks msgs ar = Ok b ->
  exists resInfo providerInfo refs passengers,
    reservationInfo = Some resInfo /\
    obj_get (prop_key (ar_ProviderReservationInfoRef ar)) resInfo = Some providerInfo /\
    ar_BookingTravelerRef ar = Some refs /\
    build_passengers travelers refs [] = Ok (passengers, emails b) /\
    Bookings.passengers b = passengers /\
    pnr b = pri_LocatorCode providerInfo /\
    uapi_reservation_locator b = ar_LocatorCode ar /\
    version b = Version record /\
    uapi_ur_locator b = ur_LocatorCode record /\
    messages b = msgs.
Proof.
  unfold build_booking. intros Hb.
  apply rbind_Ok in Hb as (resInfo & Hres & Hb).
  apply rbind_Ok in Hb as (providerInfoKey & _ & Hb).
  apply rbind_Ok in Hb as (splits & _ & Hb).
  destruct (obj_get (prop_key (ar_ProviderReservationInfoRef ar)) resInfo)
    as [providerInfo|] eqn:Hg; [|discriminate].
  apply rbind_Ok in Hb as (refs & Hrefs & Hb).
  apply rbind_Ok in Hb as ([ps es] & Hpe & Hb).
  destruct (setIndexesForSegments _ _) as [indexedSegments indexedServiceSegments].
  apply rbind_Ok in Hb as (serviceSegments & _ & Hb).
  apply rbind_Ok in Hb as (tickets & _ & Hb).
  apply rbind_Ok in Hb as (pc & _ & Hb).
  injection Hb as <-. cbn.
  apply BookingsFacts.lift_Ok in Hres, Hrefs.
  exists resInfo, providerInfo, refs, ps. split_and!; auto.
Qed.

(** X12. [extractBookings] returns one booking per air reservation, in their
    order, each for the provider reservation that the air reservation
    refers to; for a record without air reservation it returns one booking
    per provider reservation, in enumeration order, without fare quotes,
    segments, tickets or e-mails. Every booking carries the version and the
    locator of the universal record and all the response messages. *)
Theorem extractBookings_one_per_reservation (obj : Document) (bs : list booking) :
  extractBookings obj = Ok bs ->
  exists record,
    universal_UniversalRecord obj = Some record /\
    Forall (fun b => version b = Version record /\
                     uapi_ur_locator b = ur_LocatorCode record /\
                     messages b = default [] (common_ResponseMessage obj)) bs /\
    match air_AirReservation record with
    | Some (ar :: ars) =>
        List.map uapi_reservation_locator bs = List.map ar_LocatorCode (ar :: ars) /\
        exists resInfo, universal_ProviderReservationInfo record = Some resInfo /\
          List.map (fun b => Some (pnr b)) bs
          = List.map (fun ar => option_map pri_LocatorCode
                                  (obj_get (prop_key (ar_ProviderReservationInfoRef ar))
                                     resInfo)) (ar :: ars)
    | _ =>
        exists resInfo, universal_ProviderReservationInfo record = Some resInfo /\
          List.map pnr bs = List.map pri_LocatorCode (obj_values resInfo) /\
          Forall (fun b => fareQuotes b = [] /\ segments b = [] /\ tickets b = [] /\
                           emails b = [] /\ uapi_reservation_locator b = None) bs
    end.
Proof.
  unfold extractBookings. intros Hb.
  apply rbind_Ok in Hb as (_ & _ & Hb).
  destruct (air_AirSegmentSellFailureInfo obj); [discriminate|].
  apply rbind_Ok in Hb as (record & Hrec & Hb). apply BookingsFacts.lift_Ok in Hrec.
  exists record. split; [exact Hrec|].
  destruct (negb _ && negb _); [discriminate|].
  set (msgs := default [] (common_ResponseMessage obj)) in *.
  assert (forall resInfo bs0,
            rmap (build_booking_without_air record (common_BookingTraveler record) msgs)
              (obj_values resInfo) = Ok bs0 ->
            Forall (fun b => version b = Version record /\
                             uapi_ur_locator b = ur_LocatorCode record /\
                             messages b = msgs) bs0 /\
            List.map pnr bs0 = List.map pri_LocatorCode (obj_values resInfo) /\
            Forall (fun b => fareQuotes b = [] /\ segments b = [] /\ tickets b = [] /\
                             emails b = [] /\ uapi_reservation_locator b = None) bs0)
    as Hwithout.
  { intros resInfo. induction (obj_values resInfo) as [|p ps IH];
      intros bs0; simpl.
    - intros [= <-]. auto.
    - intros Hr. apply rbind_Ok in Hr as (b & Hb0 & Hr).
      apply rbind_Ok in Hr as (bs' & Hbs' & [= <-]).
      destruct (IH bs' Hbs') as (I1 & I2 & I3).
      unfold build_booking_without_air in Hb0.
      apply rbind_Ok in Hb0 as (ts & _ & [= <-]).
      split; [constructor; [cbn; auto|exact I1]|].
      split; [simpl; rewrite I2; reflexivity|].
      constructor; [cbn; auto 6|exact I3]. }
  destruct (air_AirReservation record) as [[|ar0 ars]|]; cbn [negb default] in *.
  - apply rbind_Ok in Hb as (resInfo & Hres & Hb). apply BookingsFacts.lift_Ok in Hres.
    destruct (Hwithout resInfo bs Hb) as (I1 & I2 & I3). split; [exact I1|]. eauto.
  - assert (exists resInfo, universal_ProviderReservationInfo record = Some resInfo)
      as [resInfo Hres].
    { simpl in Hb. apply rbind_Ok in Hb as (b & Hb0 & _).
      destruct (build_booking_Ok _ _ _ _ _ _ _ Hb0) as (resInfo & ? & ? & ? & Hres & _).
      eauto. }
    rewrite Hres in *.
    assert (Forall (fun b => version b = Version record /\
                             uapi_ur_locator b = ur_LocatorCode record /\
                             messages b = msgs) bs /\
            List.map uapi_reservation_locator bs = List.map ar_LocatorCode (ar0 :: ars) /\
            List.map (fun b => Some (pnr b)) bs
            = List.map (fun ar => option_map pri_LocatorCode
                                    (obj_get (prop_key (ar_ProviderReservationInfoRef ar))
                                       resInfo)) (ar0 :: ars)) as (I1 & I2 & I3).
    { revert bs Hb. generalize (ar0 :: ars) as l.
      induction l as [|a l IH]; intros bs0; simpl.
      - intros [= <-]. auto.
      - intros Hr. apply rbind_Ok in Hr as (b & Hb0 & Hr).
        apply rbind_Ok in Hr as (bs' & Hbs' & [= <-]).
        destruct (IH bs' Hbs') as (I1 & I2 & I3).
        destruct (build_booking_Ok _ _ _ _ _ _ _ Hb0)
          as (resInfo' & providerInfo & refs & ps & [= <-] & Hg & _ & _ & _ &
              Hpnr & Hloc & Hver & Hur & Hmsg).
        split; [constructor; [auto|exact I1]|].
        split; [simpl; rewrite I2, Hloc; reflexivity|].
        simpl. rewrite I3, Hg, Hpnr. reflexivity. }
    split; [exact I1|]. split; [exact I2|]. eauto.
  - apply rbind_Ok in Hb as (resInfo & Hres & Hb). apply BookingsFacts.lift_Ok in Hres.
    destruct (Hwithout resInfo bs Hb) as (I1 & I2 & I3). split; [exact I1|]. eauto.
Qed.

(** *** The e-mails of a booking *)

Lemma push_emails_numbered (es : list Email) (acc out : list email) :
  push_emails es acc = Ok out ->
  List.map em_index acc = seq 1 (length acc) ->
  List.map em_index out = seq 1 (length out).
Proof.
  revert acc. induction es as [|e es IH]; intros acc; simpl.
  - intros [= <-]. auto.
  - destruct (_ && _).
    + intros Hb Hacc. apply rbind_Ok in Hb as (id & _ & Hb).
      apply (IH _ Hb). rewrite List.map_app, length_app, seq_app, Hacc. simpl.
      rewrite Nat.add_1_r. reflexivity.
    + apply IH.
Qed.

Lemma build_passengers_numbered (travelers : option (jsobj Traveler))
    (refs : list string) (acc : list email) (ps : list Passenger) (out : list email) :
  build_passengers travelers refs acc = Ok (ps, out) ->
  List.map em_index acc = seq 1 (length acc) ->
  List.map em_index out = seq 1 (length out) /\ length ps = length refs.
Proof.
  revert acc ps. induction refs as [|r refs IH]; intros acc ps; simpl.
  - intros [= <- <-]. auto.
  - intros Hb Hacc. apply rbind_Ok in Hb as (ts & _ & Hb).
    destruct (obj_get r ts) as [traveler|]; [|discriminate].
    apply rbind_Ok in Hb as (emails' & He & Hb).
    apply rbind_Ok in Hb as ([ps' out'] & Hr & [= <- <-]).
    assert (List.map em_index emails' = seq 1 (length emails')) as Hacc'.
    { destruct (traveler_Email traveler).
      - apply (push_emails_numbered _ _ _ He Hacc).
      - injection He as <-. exact Hacc. }
    destruct (IH _ _ Hr Hacc') as [I1 I2]. simpl. auto.
Qed.

(** X13. The e-mails of every booking returned are numbered 1, 2, 3, ... in the
    order in which they were collected, across all the passengers of the
    booking; and a booking made from an air reservation has one passenger
    per traveler reference of that reservation. *)
Theorem emails_numbered_from_one (obj : Document) (bs : list booking) :
  extractBookings obj = Ok bs ->
  Forall (fun b => List.map em_index (emails b) = seq 1 (length (emails b))) bs /\
  forall i b ar, bs !! i = Some b -> reservations obj !! i = Some ar ->
    length (passengers b) = length (default [] (ar_BookingTravelerRef ar)).
Proof.
  unfold extractBookings, reservations. intros Hb.
  apply rbind_Ok in Hb as (_ & _ & Hb).
  destruct (air_AirSegmentSellFailureInfo obj); [discriminate|].
  apply rbind_Ok in Hb as (record & Hrec & Hb). apply BookingsFacts.lift_Ok in Hrec.
  rewrite Hrec. destruct (negb _ && negb _); [discriminate|].
  assert (forall resInfo,
            rmap (build_booking_without_air record (common_BookingTraveler record)
                    (default [] (common_ResponseMessage obj)))
              (obj_values resInfo) = Ok bs ->
            Forall (fun b => List.map em_index (emails b) = seq 1 (length (emails b))) bs)
    as Hwithout.
  { intros resInfo Hr. apply List.Forall_forall. intros b Hin.
    destruct (rmap_In _ _ _ Hr b Hin) as (p & _ & Hp).
    unfold build_booking_without_air in Hp.
    apply rbind_Ok in Hp as (ts & _ & [= <-]). reflexivity. }
  destruct (air_AirReservation record) as [[|ar0 ars]|]; cbn [negb default] in *.
  - apply rbind_Ok in Hb as (resInfo & _ & Hb). split; [eauto|].
    intros i b ar _ Har. destruct i; discriminate.
  - split.
    + apply List.Forall_forall. intros b Hin.
      destruct (rmap_In _ _ _ Hb b Hin) as (ar & _ & Hbk).
      destruct (build_booking_Ok _ _ _ _ _ _ _ Hbk)
        as (? & ? & refs & ps & _ & _ & _ & Hps & _).
      apply (build_passengers_numbered _ _ _ _ _ Hps). reflexivity.
    + intros i b ar Hi Har.
      destruct (rmap_lookup _ _ _ Hb i b Hi) as (ar' & Har' & Hbk).
      rewrite Har in Har'. injection Har' as <-.
      destruct (build_booking_Ok _ _ _ _ _ _ _ Hbk)
        as (? & ? & refs & ps & _ & _ & Hrefs & Hps & Hpb & _).
      rewrite Hpb, Hrefs. cbn [default].
      apply (build_passengers_numbered _ _ _ _ _ Hps). reflexivity.
  - apply rbind_Ok in Hb as (resInfo & _ & Hb). split; [eauto|].
    intros i b ar _ Har. destruct i; discriminate.
Qed.

End Facts.
(** The sample record with one air reservation: one booking, for the
    provider reservation [pri1]. *)
Lemma extractBookings_one_per_reservation_witness :
  let obj := sample_document "pri1" in
  exists bs,
    @extractBookings ErrorsSpec.ascii_utils sample_format obj = Ok bs /\
    List.map pnr bs = [Some "PNR001"] /\
    exists record,
      universal_UniversalRecord obj = Some record /\
      Forall (fun b => version b = Version record /\
                       uapi_ur_locator b = ur_LocatorCode record /\
                       messages b = default [] (common_ResponseMessage obj)) bs /\
      match air_AirReservation record with
      | Some (ar :: ars) =>
          List.map uapi_reservation_locator bs = List.map ar_LocatorCode (ar :: ars) /\
          exists resInfo, universal_ProviderReservationInfo record = Some resInfo /\
            List.map (fun b => Some (pnr b)) bs
            = List.map (fun ar => option_map pri_LocatorCode
                                    (obj_get (prop_key (ar_ProviderReservationInfoRef ar))
                                       resInfo)) (ar :: ars)
      | _ =>
          exists resInfo, universal_ProviderReservationInfo record = Some resInfo /\
            List.map pnr bs = List.map pri_LocatorCode (obj_values resInfo) /\
            Forall (fun b => fareQuotes b = [] /\ segments b = [] /\ tickets b = [] /\
                             emails b = [] /\ uapi_reservation_locator b = None) bs
      end.
Proof.
  intros obj. eexists. split; [vm_compute; reflexivity|]. split; [reflexivity|].
  apply (@extractBookings_one_per_reservation ErrorsSpec.ascii_utils sample_format obj).
  vm_compute. reflexivity.
Defined.

(** The e-mails of the sample record: the three of the type "To", whatever
    the case, numbered across the two travelers. *)
Lemma emails_numbered_from_one_witness :
  exists b,
    @extractBookings ErrorsSpec.ascii_utils email_format email_document = Ok [b] /\
    List.map em_email (emails b) = ["a@x.com"; "c@x.com"; "d@x.com"] /\
    List.map em_index (emails b) = [1; 2; 3] /\
    length (passengers b) = 2.
Proof.
  eexists. split; [vm_compute; reflexivity|]. split; [reflexivity|].
  destruct (@emails_numbered_from_one ErrorsSpec.ascii_utils email_format
              email_document _ ltac:(vm_compute; reflexivity)) as [Hall Hlen].
  apply Forall_cons in Hall as [Hidx _].
  split; [exact Hidx|]. exact (Hlen 0 _ _ eq_refl eq_refl).
Defined.

End BookingChecksFacts.

Module BookingPartsFacts.
Import Js Bookings Re ReSpec ReFacts ResultFacts JsFacts HistogramSpec.
Import BookingsSpec BookingChecksSpec.

(** *** The pattern of a split remark *)

Lemma take_drop (n : nat) (s : string) : take n s +:+ drop n s = s.
Proof.
  revert s. induction n as [|n IH]; intros [|c s]; simpl; sapp; try reflexivity.
  rewrite IH. reflexivity.
Qed.

Lemma length_drop (n : nat) (s : string) :
  String.length (drop n s) = String.length s - n.
Proof.
  revert s. induction n as [|n IH]; intros [|c s]; simpl; auto; lia.
Qed.

Lemma take_sapp (p b : string) : take (String.length p) (p +:+ b) = p.
Proof.
  induction p as [|x p IH]; sapp; simpl.
  - destruct b; reflexivity.
  - rewrite IH. reflexivity.
Qed.

(** X14. [splitPattern] is the pattern [/^SPLIT\s.*([A-Z0-9]{6})$/]: it matches
    the strings made of "SPLIT", a blank, any text without a line
    terminator, and six characters that are capital letters or digits up to
    the end; the capture is those six characters. *)
Theorem splitPattern_spec (data l : string) :
  splitPattern data = Some l <->
  exists w mid,
    data = "SPLIT" +:+ String w mid +:+ l /\
    is_space w = true /\
    all_chars not_line_terminator mid = true /\
    String.length l = 6 /\
    all_chars is_upper_alnum l = true.
Proof.
  unfold splitPattern. split.
  - destruct (starts_with "SPLIT" data) eqn:Hs; [|discriminate].
    apply starts_with_spec in Hs. change (String.length "SPLIT") with 5 in Hs.
    destruct (drop 5 data) as [|w r] eqn:Hd; [discriminate|].
    destruct (is_space w && (6 <=? String.length r)
              && all_chars not_line_terminator (take (String.length r - 6) r)
              && all_chars is_upper_alnum (drop (String.length r - 6) r)) eqn:Hc;
      [|discriminate].
    intros [= <-]. apply andb_prop in Hc as [Hc Hal]. apply andb_prop in Hc as [Hc Hnl].
    apply andb_prop in Hc as [Hw Hlen]. apply Nat.leb_le in Hlen.
    exists w, (take (String.length r - 6) r). split_and!; auto.
    + rewrite Hs. sapp. rewrite take_drop. reflexivity.
    + rewrite length_drop. lia.
  - intros (w & mid & -> & Hw & Hnl & Hlen & Hal).
    change (starts_with "SPLIT" ("SPLIT" +:+ String w mid +:+ l)) with true.
    change (drop 5 ("SPLIT" +:+ String w mid +:+ l)) with (String w mid +:+ l).
    sapp. cbv iota.
    assert (String.length (mid +:+ l) - 6 = String.length mid) as ->
      by (rewrite length_sapp; lia).
    rewrite take_sapp, drop_sapp, Hw, Hnl, Hal.
    assert ((6 <=? String.length (mid +:+ l)) = true) as ->
      by (apply Nat.leb_le; rewrite length_sapp; lia).
    reflexivity.
Qed.

(** *** The split bookings of a reservation *)

Section Facts.
Context `{Utils} `{Format}.

Lemma split_remarks_spec (rs : list GeneralRemark) (acc out : list string) :
  split_remarks rs acc = Ok out <->
  Forall (fun r => common_RemarkData r <> None) rs /\
  out = acc ++ omap (fun r => common_RemarkData r ≫= splitPattern) rs.
Proof.
  revert acc. induction rs as [|r rs IH]; intros acc; simpl.
  - rewrite app_nil_r. split; [intros [= <-]; auto|intros [_ ->]; reflexivity].
  - rewrite Forall_cons_iff. destruct (common_RemarkData r) as [data|]; cbn.
    + destruct (splitPattern data) as [loc|]; rewrite IH.
      * rewrite <- app_assoc. simpl. intuition congruence.
      * intuition congruence.
    + split; [discriminate|]. intros [[Hn _] _]. congruence.
Qed.

Lemma group_remarks_lookup (o : jsobj GeneralRemark) (k : string) :
  default [] (group_remarks (Some o) !! k)
  = List.filter (fun r => String.eqb (prop_key (r_ProviderReservationInfoRef r)) k)
      (obj_values o).
Proof.
  unfold group_remarks, obj_values.
  induction (obj_entries o) as [|kv l IH] using rev_ind; [reflexivity|].
  rewrite fold_left_app, List.map_app, List.filter_app. cbn [fold_left List.map List.filter].
  destruct (String.eqb_spec (prop_key (r_ProviderReservationInfoRef (snd kv))) k) as [->|Hne].
  - rewrite lookup_insert_eq. cbn [default]. rewrite IH. reflexivity.
  - rewrite lookup_insert_ne by exact Hne. rewrite IH, app_nil_r. reflexivity.
Qed.

Lemma build_booking_splitBookings (record : UniversalRecord)
    (travelers : option (jsobj Traveler))
    (reservationInfo : option (jsobj ProviderReservationInfo))
    (msgs : list Message) (ar : AirReservation) (b : booking) :
  build_booking record travelers reservationInfo
    (group_remarks (common_GeneralRemark record)) msgs ar = Ok b ->
  exists resInfo p,
    reservationInfo = Some resInfo /\
    obj_get (prop_key (ar_ProviderReservationInfoRef ar)) resInfo = Some p /\
    splitBookings b = if divided p then split_locators (remarks_of record p) else [].
Proof.
  unfold build_booking. intros Hb.
  apply rbind_Ok in Hb as (resInfo & Hres & Hb). apply BookingsFacts.lift_Ok in Hres.
  apply rbind_Ok in Hb as (providerInfoKey & Hkey & Hb).
  apply rbind_Ok in Hb as (splits & Hsplits & Hb).
  destruct (obj_get (prop_key (ar_ProviderReservationInfoRef ar)) resInfo)
    as [p|] eqn:Hg; [|discriminate].
  injection Hkey as <-.
  apply rbind_Ok in Hb as (refs & _ & Hb).
  apply rbind_Ok in Hb as (pe & _ & Hb).
  destruct (setIndexesForSegments _ _) as [indexedSegments indexedServiceSegments].
  apply rbind_Ok in Hb as (serviceSegments & _ & Hb).
  apply rbind_Ok in Hb as (tickets & _ & Hb).
  apply rbind_Ok in Hb as (pc & _ & Hb).
  injection Hb as <-. cbn [splitBookings].
  exists resInfo, p. split; [exact Hres|]. split; [exact Hg|].
  unfold divided.
  destruct (universal_ProviderReservationDetails p) as [d|];
    [|injection Hsplits as <-; reflexivity].
  destruct (same_ref (DivideDetails d) (Some "true"));
    [|injection Hsplits as <-; reflexivity].
  apply split_remarks_spec in Hsplits as [_ ->]. cbn [app].
  unfold split_locators, remarks_of. f_equal.
  destruct (common_GeneralRemark record) as [o|].
  - apply group_remarks_lookup.
  - cbn [group_remarks]. rewrite lookup_empty. reflexivity.
Qed.

(** X15. The split bookings of a booking are empty unless the provider
    reservation of the air reservation is marked as divided; then they are
    the locators captured by the split pattern from the general remarks
    that refer to that provider reservation, in the enumeration order of
    the remarks. Remarks of other reservations, and remarks that the
    pattern does not match, contribute nothing. *)
Theorem splitBookings_of_reservation (obj : Document) (bs : list booking) :
  extractBookings obj = Ok bs ->
  forall i b ar, bs !! i = Some b -> reservations obj !! i = Some ar ->
    exists record resInfo p,
      universal_UniversalRecord obj = Some record /\
      universal_ProviderReservationInfo record = Some resInfo /\
      obj_get (prop_key (ar_ProviderReservationInfoRef ar)) resInfo = Some p /\
      splitBookings b
      = if divided p then split_locators (remarks_of record p) else [].
Proof.
  unfold extractBookings, reservations. intros Hb i b ar Hi Har.
  apply rbind_Ok in Hb as (_ & _ & Hb).
  destruct (air_AirSegmentSellFailureInfo obj); [discriminate|].
  apply rbind_Ok in Hb as (record & Hrec & Hb). apply BookingsFacts.lift_Ok in Hrec.
  rewrite Hrec in Har. destruct (negb _ && negb _); [discriminate|].
  destruct (air_AirReservation record) as [[|ar0 ars]|]; cbn [negb default] in *;
    [destruct i; discriminate| |destruct i; discriminate].
  destruct (rmap_lookup _ _ _ Hb i b Hi) as (ar' & Har' & Hbk).
  rewrite Har in Har'. injection Har' as <-.
  destruct (build_booking_splitBookings _ _ _ _ _ _ Hbk) as (resInfo & p & Hri & Hg & Hs).
  exists record, resInfo, p. auto.
Qed.

(** *** The passenger counts of a pricing info *)

Lemma count_passengers_snoc (l : list PassengerType) (p : PassengerType) :
  count_passengers (Some (l ++ [p])) =
  let k := prop_key (pt_Code p) in
  obj_set k (default 0 (obj_get k (count_passengers (Some l))) + 1)
    (count_passengers (Some l)).
Proof.
  unfold count_passengers. change (default [] (Some (l ++ [p]))) with (l ++ [p]).
  rewrite fold_left_app. reflexivity.
Qed.

(** X16. [passengersCount] maps every passenger type code to the number of
    passenger types of the pricing info that carry it, and has no other
    property; a passenger type without a code counts under "undefined".
    The codes are listed once each. *)
Theorem count_passengers_counts (types : option (list PassengerType)) :
  let codes := List.map (fun p => prop_key (pt_Code p)) (default [] types) in
  (forall k, obj_get k (count_passengers types)
             = if Nat.eqb (occurrences k codes) 0 then None
               else Some (occurrences k codes)) /\
  NoDup (List.map fst (count_passengers types)) /\
  (forall k, In k (List.map fst (count_passengers types)) <-> In k codes).
Proof.
  intros codes.
  assert (count_passengers types = count_passengers (Some (default [] types))) as ->
    by (destruct types; reflexivity).
  subst codes. generalize (default [] types) as l. clear types.
  assert (forall l : list PassengerType,
            (forall k, obj_get k (count_passengers (Some l))
                       = if Nat.eqb (occurrences k (List.map (fun p => prop_key (pt_Code p)) l)) 0
                         then None
                         else Some (occurrences k (List.map (fun p => prop_key (pt_Code p)) l))) /\
            NoDup (List.map fst (count_passengers (Some l)))) as Hmain.
  { induction l as [|p l [IHg IHn]] using rev_ind.
    - split; [intros k; reflexivity|constructor].
    - rewrite count_passengers_snoc. cbv zeta. split.
      + intros k. rewrite List.map_app. unfold occurrences in *.
        rewrite List.filter_app, length_app. cbn [List.map List.filter].
        destruct (String.eqb_spec k (prop_key (pt_Code p))) as [->|Hne].
        * rewrite obj_get_set_eq, IHg. cbn [length].
          destruct (length _) as [|n]; simpl; [reflexivity|].
          rewrite Nat.add_1_r. reflexivity.
        * rewrite obj_get_set_ne by congruence. rewrite IHg. cbn [length].
          rewrite Nat.add_0_r. reflexivity.
      + apply obj_set_NoDup. exact IHn. }
  intros l. destruct (Hmain l) as [Hg Hn]. split; [exact Hg|]. split; [exact Hn|].
  intros k. rewrite obj_get_In, Hg. unfold occurrences.
  split.
  - intros Hk. apply HistogramFacts.occurrences_pos_In. unfold occurrences.
    destruct (length _); [simpl in Hk; congruence|discriminate].
  - intros Hin.
    assert (In k (List.filter (String.eqb k) (List.map (fun p => prop_key (pt_Code p)) l)))
      as Hf by (apply filter_In; split; [exact Hin|apply String.eqb_refl]).
    destruct (List.filter _ _); [destruct Hf|simpl; discriminate].
Qed.

End Facts.

(** The divided sample record: of the three remarks only the first refers
    to the reservation and names a split booking. *)
Lemma splitBookings_of_reservation_witness :
  exists b,
    @extractBookings ErrorsSpec.ascii_utils sample_format divided_document = Ok [b] /\
    splitBookings b = ["8VWL5K"] /\
    exists record resInfo p,
      universal_UniversalRecord divided_document = Some record /\
      universal_ProviderReservationInfo record = Some resInfo /\
      obj_get (prop_key (ar_ProviderReservationInfoRef (sample_reservation "pri1")))
        resInfo = Some p /\
      splitBookings b
      = if divided p then split_locators (remarks_of record p) else [].
Proof.
  eexists. split; [vm_compute; reflexivity|]. split; [reflexivity|].
  exact (@splitBookings_of_reservation ErrorsSpec.ascii_utils sample_format
           divided_document _ ltac:(vm_compute; reflexivity) 0 _ _ eq_refl eq_refl).
Defined.

End BookingPartsFacts.

Module RepliesFacts.
Import Js Replies RepliesSpec Re ReSpec ReFacts ResultFacts JsFacts.

Lemma atoms_here_spec (p : list atom) (s : string) :
  atoms_here p s = true <-> exists x r, s = x +:+ r /\ instance_of p x.
Proof.
  revert s. induction p as [|a p IH]; intros s; simpl.
  - split; [intros _; exists EmptyString, s; split; [reflexivity|exact I]|reflexivity].
  - destruct s as [|c s].
    + split; [discriminate|]. intros ([|c x] & r & Hs & Hi); [destruct Hi|discriminate].
    + rewrite andb_true_iff, IH. split.
      * intros (Ha & x & r & -> & Hi). exists (String c x), r. sapp. simpl. auto.
      * intros ([|c' x] & r & Hs & Hi); [destruct Hi|].
        sapp. injection Hs as <- ->. destruct Hi as [Ha Hi]. eauto.
Qed.

Lemma atoms_anywhere_step (p : list atom) (s : string) :
  atoms_anywhere p s =
  (atoms_here p s ||
   match s with
   | EmptyString => false
   | String _ s' => atoms_anywhere p s'
   end).
Proof. destruct s; reflexivity. Qed.

Lemma atoms_anywhere_spec (p : list atom) (s : string) :
  atoms_anywhere p s = true <-> pattern_occurs p s.
Proof.
  unfold pattern_occurs. induction s as [|c s IH]; rewrite atoms_anywhere_step.
  - rewrite orb_false_r, atoms_here_spec. split.
    + intros (x & r & Hs & Hi). exists EmptyString, x, r. auto.
    + intros (a & x & b & Hs & Hi). destruct a; [|discriminate]. sapp. eauto.
  - rewrite orb_true_iff, atoms_here_spec, IH. split.
    + intros [(x & r & Hs & Hi)|(a & x & b & -> & Hi)].
      * exists EmptyString, x, r. auto.
      * exists (String c a), x, b. sapp. auto.
    + intros ([|c' a] & x & b & Hs & Hi).
      * left. sapp. eauto.
      * right. sapp. injection Hs as <- ->. eauto.
Qed.

Lemma is_text_spec (v : option string) (c : string) :
  is_text v c = true <-> v = Some c.
Proof.
  destruct v as [s|]; simpl; [|split; discriminate].
  rewrite String.eqb_eq. split; congruence.
Qed.

Lemma is_text_false (v : option string) (c : string) :
  v <> Some c -> is_text v c = false.
Proof.
  intros Hn. destruct (is_text v c) eqn:E; [|reflexivity].
  apply is_text_spec in E. contradiction.
Qed.

Lemma foid_required_dec (info : TicketFailureInfo) :
  match Message info with
  | Some m => atoms_anywhere foidRequiredPattern m
  | None => false
  end = true <-> foid_required info.
Proof.
  unfold foid_required. destruct (Message info) as [m|].
  - rewrite atoms_anywhere_spec. split; [eauto|]. intros (m' & [= <-] & Ho). exact Ho.
  - split; [discriminate|]. intros (m' & Hm & _). discriminate.
Qed.

(** X17. A reply that carries a ticket failure never makes [ticketParse]
    return, whatever its response messages and ETRs are. The failure is
    told apart in this order: a message that asks for a FOID gives
    [TicketingFoidRequired], even under the codes 3979 and 12008; then the
    code 3979 gives [TicketingPNRBusy]; then, under the code 12008, the
    message decides between [TicketingFOPUnavailable] and
    [TicketingCreditCardRejected]; everything else is [TicketingFailed]. *)
Theorem ticketParse_failure (obj : Reply) (info : TicketFailureInfo) :
  air_TicketFailureInfo obj = Some info ->
  (forall b, ticketParse obj <> Ok b) /\
  (foid_required info -> ticketParse obj = Throw (TicketingFoidRequired obj)) /\
  (~ foid_required info -> Code info = Some "3979" ->
   ticketParse obj = Throw (TicketingPNRBusy obj)) /\
  (~ foid_required info -> Code info = Some "12008" ->
   forall m, Message info = Some m ->
     (occurs_in "FOP SELECTED NOT AUTHORIZED" m ->
      ticketParse obj = Throw (TicketingFOPUnavailable obj)) /\
     (~ occurs_in "FOP SELECTED NOT AUTHORIZED" m -> occurs_in "REFUSE CREDIT" m ->
      ticketParse obj = Throw (TicketingCreditCardRejected obj)) /\
     (~ occurs_in "FOP SELECTED NOT AUTHORIZED" m -> ~ occurs_in "REFUSE CREDIT" m ->
      ticketParse obj = Throw (TicketingFailed obj))) /\
  (~ foid_required info -> Code info <> Some "3979" -> Code info <> Some "12008" ->
   ticketParse obj = Throw (TicketingFailed obj)).
Proof.
  intros Hinfo. unfold ticketParse. rewrite Hinfo.
  pose proof (foid_required_dec info) as Hf.
  destruct (match Message info with
            | Some m => atoms_anywhere foidRequiredPattern m
            | None => false
            end).
  { split_and!; try (intros Hn; exfalso; apply Hn; apply Hf; reflexivity).
    - discriminate.
    - reflexivity. }
  assert (~ foid_required info) as Hnf by (intros Hx; apply Hf in Hx; discriminate).
  split_and!.
  - intros b. destruct (is_text (Code info) "3979"); [discriminate|].
    destruct (is_text (Code info) "12008"); [|discriminate].
    destruct (Message info) as [m|]; [|discriminate]. cbn [lift rbind].
    destruct (contains _ m); [discriminate|]. destruct (contains _ m); discriminate.
  - contradiction.
  - intros _ Hc. rewrite (proj2 (is_text_spec _ _) Hc). reflexivity.
  - intros _ Hc m Hm. rewrite Hc, Hm. cbn [is_text String.eqb Ascii.eqb lift rbind].
    change (is_text (Some "12008") "3979") with false.
    change (is_text (Some "12008") "12008") with true. cbv iota.
    rewrite <- !contains_spec.
    destruct (contains "FOP SELECTED NOT AUTHORIZED" m);
      destruct (contains "REFUSE CREDIT" m); split_and!; intros;
      first [reflexivity|congruence].
  - intros _ H1 H2. rewrite (is_text_false _ _ H1), (is_text_false _ _ H2). reflexivity.
Qed.

Lemma has_message_dec (obj : Reply) (t : string) :
  existsb (fun msg => is_text (Doc.rm_text msg) t)
    (default [] (common_ResponseMessage obj)) = true <-> has_message obj t.
Proof.
  unfold has_message. rewrite existsb_exists.
  destruct (common_ResponseMessage obj) as [msgs|]; cbn [default].
  - split.
    + intros (m & Hin & Ht). apply is_text_spec in Ht. eauto.
    + intros (msgs' & m & [= <-] & Hin & Ht). exists m. rewrite is_text_spec. auto.
  - split; [intros (m & [] & _)|intros (msgs' & m & Hm & _); discriminate].
Qed.

Lemma obj_values_In {V} (o : jsobj V) (v : V) :
  In v (obj_values o) <-> exists k, In (k, v) o.
Proof.
  unfold obj_values. rewrite in_map_iff. split.
  - intros ([k v'] & <- & Hin). exists k.
    apply list_elem_of_In. rewrite <- (obj_entries_Permutation o).
    apply list_elem_of_In. exact Hin.
  - intros (k & Hin). exists (k, v). split; [reflexivity|].
    apply list_elem_of_In. rewrite (obj_entries_Permutation o).
    apply list_elem_of_In. exact Hin.
Qed.

Lemma tickets_numbered_spec (etrs : jsobj Doc.ETR) :
  tickets_numbered etrs = true <-> all_tickets_numbered etrs.
Proof.
  unfold tickets_numbered, all_tickets_numbered. rewrite forallb_forall. split.
  - intros Hall k x tickets k' t Hx Ht Hin.
    assert (In x (obj_values etrs)) as Hxv by (apply obj_values_In; eauto).
    specialize (Hall x Hxv). rewrite forallb_forall in Hall. apply Hall.
    rewrite Ht. cbn [default]. apply obj_values_In. eauto.
  - intros Hall x Hx. apply obj_values_In in Hx as (k & Hk).
    rewrite forallb_forall. intros t Ht.
    destruct (Doc.air_Ticket x) as [tickets|] eqn:Hts; cbn [default] in Ht.
    + apply obj_values_In in Ht as (k' & Hk'). eauto.
    + destruct Ht.
  Qed.

(** X18. Without a ticket failure [ticketParse] throws
    [TicketingResponseMissing] unless some response message is exactly
    "OK:Ticket issued". With such a message it returns, and it returns
    [true] exactly when the reply holds ETRs and every ticket of every ETR
    has a ticket number; a reply without ETRs gives [false]. *)
Theorem ticketParse_issued (obj : Reply) :
  air_TicketFailureInfo obj = None ->
  (~ has_message obj "OK:Ticket issued" ->
   ticketParse obj = Throw (TicketingResponseMissing obj)) /\
  (has_message obj "OK:Ticket issued" ->
   exists b, ticketParse obj = Ok b /\
             (b = true <-> exists etrs, air_ETR obj = Some etrs /\
                                        all_tickets_numbered etrs)).
Proof.
  intros Hinfo. unfold ticketParse. rewrite Hinfo.
  pose proof (has_message_dec obj "OK:Ticket issued") as Hm.
  destruct (existsb _ _); cbn [negb andb].
  - split; [intros Hn; exfalso; apply Hn; apply Hm; reflexivity|]. intros _.
    eexists. split; [reflexivity|].
    destruct (air_ETR obj) as [etrs|].
    + rewrite tickets_numbered_spec. split; [eauto|].
      intros (etrs' & [= <-] & Hall). exact Hall.
    + split; [discriminate|]. intros (etrs & He & _). discriminate.
  - split; [reflexivity|]. intros Hh. apply Hm in Hh. discriminate.
Qed.

(** X19. [gdsQueue] looks at the first response message only: it returns [true]
    exactly when the text of that message begins with "Booking successfully
    placed", and otherwise throws [PlacingInQueueMessageMissing] with that
    text, whatever the other messages say. A reply without the message
    property gives [PlacingInQueueError]; an empty list of messages, or a
    first message without text, ends in a [TypeError]. *)
Theorem gdsQueue_first_message (req : Reply) :
  (common_ResponseMessage req = None ->
   gdsQueue req = Throw (PlacingInQueueError req)) /\
  (common_ResponseMessage req = Some [] -> gdsQueue req = Throw TypeError) /\
  (forall m rest, common_ResponseMessage req = Some (m :: rest) ->
     match Doc.rm_text m with
     | None => gdsQueue req = Throw TypeError
     | Some text =>
         ((exists r, text = "Booking successfully placed" +:+ r) ->
          gdsQueue req = Ok true) /\
         ((forall r, text <> "Booking successfully placed" +:+ r) ->
          gdsQueue req = Throw (PlacingInQueueMessageMissing text))
     end).
Proof.
  unfold gdsQueue. split_and!.
  - intros ->. reflexivity.
  - intros ->. reflexivity.
  - intros m rest ->. cbn [head lift rbind].
    destruct (Doc.rm_text m) as [text|]; [|reflexivity]. cbn [lift rbind].
    pose proof (starts_with_spec "Booking successfully placed" text) as Hs.
    destruct (starts_with "Booking successfully placed" text).
    + split; [reflexivity|]. intros Hn. exfalso.
      apply (Hn (drop (String.length "Booking successfully placed") text)).
      apply Hs. reflexivity.
    + split; [|reflexivity]. intros (r & ->). exfalso.
      assert (false = true) as Hx; [|discriminate].
      apply Hs. rewrite drop_sapp. reflexivity.
Qed.

(** X20. The cancellation replies. [airCancelPnr] returns [true] exactly when
    some response message is "Itinerary Cancelled", wherever it stands, and
    throws [CancelResponseNotFound] otherwise, also when the reply has no
    messages at all. [airCancelTicket] returns [true] exactly when the void
    result is of the type "Success", and throws [TicketCancelResultUnknown]
    with the reply otherwise. Neither returns [false]. *)
Theorem cancel_replies (obj : Reply) :
  (has_message obj "Itinerary Cancelled" -> airCancelPnr obj = Ok true) /\
  (~ has_message obj "Itinerary Cancelled" ->
   airCancelPnr obj = Throw CancelResponseNotFound) /\
  ((exists info, air_VoidResultInfo obj = Some info /\
                 ResultType info = Some "Success") ->
   airCancelTicket obj = Ok true) /\
  (~ (exists info, air_VoidResultInfo obj = Some info /\
                   ResultType info = Some "Success") ->
   airCancelTicket obj = Throw (TicketCancelResultUnknown obj)).
Proof.
  unfold airCancelPnr, airCancelTicket.
  pose proof (has_message_dec obj "Itinerary Cancelled") as Hm.
  split_and!.
  - intros Hh. apply Hm in Hh. rewrite Hh. reflexivity.
  - intros Hn. destruct (existsb _ _); [|reflexivity].
    exfalso. apply Hn, Hm. reflexivity.
  - intros (info & -> & Hr). rewrite (proj2 (is_text_spec _ _) Hr). reflexivity.
  - intros Hn. destruct (air_VoidResultInfo obj) as [info|]; [|reflexivity].
    destruct (is_text (ResultType info) "Success") eqn:E; [|reflexivity].
    exfalso. apply Hn. exists info. rewrite is_text_spec in E. auto.
Qed.

Lemma ticketParse_failure_witness :
  let obj := failed_reply "3979" "HOST: VALID FORM OF ID  FOID  REQUIRED" in
  ticketParse obj = Throw (TicketingFoidRequired obj).
Proof.
  intros obj.
  refine (proj1 (proj2 (ticketParse_failure obj _ eq_refl)) _).
  exists "HOST: VALID FORM OF ID  FOID  REQUIRED". split; [reflexivity|].
  apply atoms_anywhere_spec. vm_compute. reflexivity.
Defined.

Lemma ticketParse_issued_witness :
  ticketParse issued_reply = Ok true /\
  exists b, ticketParse issued_reply = Ok b /\
            (b = true <-> exists etrs, air_ETR issued_reply = Some etrs /\
                                       all_tickets_numbered etrs).
Proof.
  split; [vm_compute; reflexivity|].
  refine (proj2 (ticketParse_issued issued_reply eq_refl) _).
  apply has_message_dec. vm_compute. reflexivity.
Defined.

End RepliesFacts.

Module LowFaresFacts.
Import Js LowFares LowFaresSpec ResultFacts.

Section Validate.
Context {PricePoint PricingSolution AirSegment FareInfo FlightDetails Route : Type}.
Implicit Type obj : @LowFareSearchRsp PricePoint PricingSolution AirSegment FareInfo
                      FlightDetails Route.

Lemma searchLowFaresValidate_find obj :
  searchLowFaresValidate obj =
  if negb (has_prices obj)
  then Throw (ResponseDataMissing "AirPricePoint or AirPricingSolution")
  else match List.find (fun l => negb (snd l)) (root_lists obj) with
       | Some l => Throw (ResponseDataMissing (fst l))
       | None => Ok obj
       end.
Proof.
  unfold searchLowFaresValidate, check_list, has_prices, root_lists.
  destruct (is_plain_object (air_AirPricePointList obj));
    destruct (is_plain_object (air_AirPricingSolution obj));
    destruct (is_plain_object (air_AirSegmentList obj));
    destruct (is_plain_object (air_FareInfoList obj));
    destruct (is_plain_object (air_FlightDetailsList obj));
    destruct (is_plain_object (air_RouteList obj)); reflexivity.
Qed.

Lemma find_first_false (pre post : list (string * bool)) (name : string) :
  Forall (fun l => snd l = true) pre ->
  List.find (fun l => negb (snd l)) (pre ++ (name, false) :: post) = Some (name, false).
Proof.
  intros Hpre. induction Hpre as [|[n b] pre Hb _ IH]; [reflexivity|].
  simpl in *. rewrite Hb. exact IH.
Qed.

Lemma find_none_all (l : list (string * bool)) :
  List.find (fun l => negb (snd l)) l = None <-> Forall (fun l => snd l = true) l.
Proof.
  induction l as [|[n b] l IH]; simpl.
  - split; [constructor|reflexivity].
  - rewrite Forall_cons_iff. destruct b; simpl; [rewrite IH; tauto|].
    split; [discriminate|]. intros [Hb _]. discriminate.
Qed.

(** X21. [searchLowFaresValidate] returns exactly the documents that hold the
    price points or the pricing solutions as an object, and each of the
    four lists of segments, fare infos, flight details and routes as an
    object; it returns the document as it is. For the other documents the
    error names what is missing: the prices when neither is an object, and
    otherwise the first of the four lists, in that order, that is not an
    object. An array or a text in the place of an object counts as
    missing. *)
Theorem searchLowFaresValidate_spec obj :
  (forall r, searchLowFaresValidate obj = Ok r <->
     r = obj /\ has_prices obj = true /\
     Forall (fun l => snd l = true) (root_lists obj)) /\
  (has_prices obj = false ->
   searchLowFaresValidate obj
   = Throw (ResponseDataMissing "AirPricePoint or AirPricingSolution")) /\
  (has_prices obj = true ->
   forall pre name post,
     root_lists obj = pre ++ (name, false) :: post ->
     Forall (fun l => snd l = true) pre ->
     searchLowFaresValidate obj = Throw (ResponseDataMissing name)).
Proof.
  rewrite searchLowFaresValidate_find. split_and!.
  - intros r. destruct (has_prices obj); cbn [negb].
    + rewrite <- find_none_all.
      destruct (List.find _ (root_lists obj)).
      * split; [discriminate|]. intros (_ & _ & Hn). discriminate.
      * split; [intros [= <-]; auto|intros (-> & _); reflexivity].
    + split; [discriminate|]. intros (_ & Hp & _). discriminate.
  - intros ->. reflexivity.
  - intros -> pre name post -> Hpre. cbn [negb].
    rewrite (find_first_false pre post name Hpre). reflexivity.
Qed.

End Validate.

(** A reply whose flight details came as an array. *)
Lemma searchLowFaresValidate_array :
  searchLowFaresValidate
    {| air_AirPricePointList := Dict [("pp1", tt)];
       air_AirPricingSolution := (Missing : node unit);
       air_AirSegmentList := Dict [("seg1", tt)];
       air_FareInfoList := Dict [("fare1", tt)];
       air_FlightDetailsList := List [tt];
       air_RouteList := (Missing : node unit) |}
  = Throw (ResponseDataMissing "air:FlightDetailsList").
Proof. reflexivity. Qed.

End LowFaresFacts.
(** ** countHistogram on arrays with holes *)

Module HistogramEdgeFacts.
Import Js Histogram ResultFacts SortFacts.

Lemma rmap_get_Code_Ok (l : list value) :
  ~ In Undefined l -> exists codes, rmap get_Code l = Ok codes.
Proof.
  induction l as [|x l IH]; simpl; [eauto|].
  intros Hn. destruct IH as (codes & ->); [tauto|].
  destruct x as [|s|r [c|]]; simpl; eauto. tauto.
Qed.

Lemma rmap_get_Code_Throw (l : list value) :
  In Undefined l -> rmap get_Code l = Throw TypeError.
Proof.
  induction l as [|x l IH]; simpl; [tauto|].
  intros [->|Hin]; [reflexivity|].
  destruct x as [|s|r [c|]]; simpl; try reflexivity; rewrite (IH Hin); reflexivity.
Qed.

Lemma sort_by_repeat {A} (le : A -> A -> bool) (x : A) (n : nat) :
  le x x = true -> sort_by le (repeat x n) = repeat x n.
Proof.
  intros Hx. induction n as [|n IH]; [reflexivity|].
  simpl. rewrite IH. destruct n; simpl; [reflexivity|]. rewrite Hx. reflexivity.
Qed.

Lemma scan_repeat (x : value) (n k : nat) (a : gmap string nat) :
  a !! to_string x = Some k -> strict_eq x x = true ->
  scan (repeat x n) (Some x) a = <[to_string x := k + n]> a.
Proof.
  intros Ha Hx. revert k a Ha. induction n as [|n IH]; intros k a Ha; simpl.
  - rewrite Nat.add_0_r. symmetry. apply insert_id. exact Ha.
  - rewrite Hx, Ha. cbn [default].
    rewrite (IH (S k)) by apply lookup_insert_eq.
    rewrite insert_insert_eq. f_equal. lia.
Qed.

(** X22. The only error that [countHistogram] throws for an array is the
    [TypeError] of reading [Code] from [undefined]: it happens exactly when
    the first element is an object and some element is [undefined], and it
    leaves the caller's array as it was. An array of objects none of which
    has a [Code] is counted under the key "undefined". *)
Theorem countHistogram_TypeError_iff (l : list value) :
  (fst (countHistogram (Array l)) = Throw TypeError <->
   is_plain_object (head l) = true /\ In Undefined l) /\
  (forall e, fst (countHistogram (Array l)) = Throw e ->
     e = TypeError /\ snd (countHistogram (Array l)) = Array l) /\
  (forall (r : nat) (refs : list nat),
     fst (countHistogram (Array (List.map (fun r => Object r None) (r :: refs))))
     = Ok {["undefined" := S (length refs)]}).
Proof.
  split_and!.
  - unfold countHistogram. destruct (is_plain_object (head l)).
    + split.
      * intros Ht. split; [reflexivity|].
        destruct (in_dec (fun a b : value => ltac:(decide equality; try apply string_dec;
                    try apply Nat.eq_dec; apply option_eq_dec)) Undefined l)
          as [Hin|Hn]; [exact Hin|].
        destruct (rmap_get_Code_Ok l Hn) as (codes & Hc). rewrite Hc in Ht. discriminate.
      * intros [_ Hin]. rewrite (rmap_get_Code_Throw l Hin). reflexivity.
    + split; [discriminate|]. intros [Hf _]. discriminate.
  - intros e. unfold countHistogram. destruct (is_plain_object (head l)); [|discriminate].
    destruct (rmap get_Code l) as [codes|e'] eqn:Hc; [discriminate|].
    cbn [fst snd]. intros [= <-]. split; [|reflexivity].
    assert (In Undefined l) as Hin.
    { destruct (in_dec (fun a b : value => ltac:(decide equality; try apply string_dec;
                  try apply Nat.eq_dec; apply option_eq_dec)) Undefined l)
        as [Hin|Hn]; [exact Hin|].
      destruct (rmap_get_Code_Ok l Hn) as (codes & Hc'). congruence. }
    rewrite (rmap_get_Code_Throw l Hin) in Hc. congruence.
  - intros r refs. unfold countHistogram. cbn [List.map head is_plain_object].
    assert (forall rs, rmap get_Code (List.map (fun r => Object r None) rs)
                       = Ok (repeat Undefined (length rs))) as Hr.
    { induction rs as [|x rs IH]; [reflexivity|]. simpl. rewrite IH. reflexivity. }
    change (Object r None :: List.map (fun r => Object r None) refs)
      with (List.map (fun r => Object r None) (r :: refs)).
    rewrite Hr. cbn [fst]. f_equal.
    rewrite sort_by_repeat by reflexivity. cbn [length repeat scan].
    rewrite (scan_repeat Undefined (length refs) 1) by (try apply lookup_insert_eq; reflexivity).
    rewrite insert_insert_eq. reflexivity.
Qed.

End HistogramEdgeFacts.
(** ** availability *)

Module AvailabilityFacts.
Import Js Availability AvailabilitySpec ResultFacts.

Lemma lift_avail_Some {A} (o : option A) (a : A) : lift o = Ok a -> o = Some a.
Proof. destruct o; [intros [= ->]; reflexivity|discriminate]. Qed.

Section Parser.
Context {AirSegment Segment Reference : Type}.
Variable air_AirAvailInfo : AirSegment -> option (list AirAvailInfo).
Variable Equipment : AirSegment -> option string.
Variable FlightTime : AirSegment -> option string.
Variable formatSegment : AirSegment -> Segment.
Variable provider : option string.
Variable cabins : option (list string).

Let entry_of (rsp : @AvailabilityRsp AirSegment Reference) :=
  segment_entry air_AirAvailInfo Equipment FlightTime formatSegment provider cabins rsp.
Let loop (rsp : @AvailabilityRsp AirSegment Reference) :=
  segments_loop air_AirAvailInfo Equipment FlightTime formatSegment provider cabins rsp.

Lemma segments_loop_keyed (rsp : @AvailabilityRsp AirSegment Reference)
    (connected : list (option Z))
    (refs : list string) :
  forall key results leg R L kresults kleg,
    loop rsp connected refs key results leg = Ok (R, L) ->
    List.map (List.map snd) kresults = results -> List.map snd kleg = leg ->
    Forall (closed_leg (fun k => is_connected connected k = true)) kresults ->
    Forall (connected_key (fun k => is_connected connected k = true)) kleg ->
    exists entries kR kL,
      rmap (entry_of rsp) refs = Ok entries /\
      List.map (List.map snd) kR = R /\ List.map snd kL = L /\
      Forall (closed_leg (fun k => is_connected connected k = true)) kR /\
      Forall (connected_key (fun k => is_connected connected k = true)) kL /\
      List.concat kR ++ kL = List.concat kresults ++ kleg ++ kept entries key.
Proof.
  subst entry_of loop.
  induction refs as [|segmentRef rest IH];
    intros key results leg R L kresults kleg Hloop Hres Hleg Hclosed Hopen.
  - injection Hloop as <- <-. exists [], kresults, kleg.
    rewrite app_nil_r. auto 10.
  - cbn [segments_loop rmap] in *.
    apply rbind_Ok in Hloop as (entry & Hentry & Hloop). rewrite Hentry. cbn [rbind].
    destruct entry as [s|].
    + destruct (is_connected connected key) eqn:Hc.
      * assert (List.map snd (kleg ++ [(key, s)]) = leg ++ [s]) as Hleg'
          by (rewrite List.map_app, Hleg; reflexivity).
        assert (Forall (connected_key (fun k => is_connected connected k = true))
                  (kleg ++ [(key, s)])) as Hopen'.
        { apply Forall_app. split; [exact Hopen|]. constructor; [exact Hc|constructor]. }
        destruct (IH (S key) results (leg ++ [s]) R L kresults (kleg ++ [(key, s)])
                    Hloop Hres Hleg' Hclosed Hopen')
          as (entries & kR & kL & He & HR & HL & HcR & HoL & Hcat).
        exists (Some s :: entries), kR, kL. rewrite He. cbn [rbind kept].
        split_and!; auto. rewrite Hcat, <- !app_assoc. reflexivity.
      * assert (List.map (List.map snd) (kresults ++ [kleg ++ [(key, s)]])
                = results ++ [leg ++ [s]]) as Hres'
          by (rewrite !List.map_app, Hres; cbn [List.map];
              rewrite List.map_app, Hleg; reflexivity).
        assert (Forall (closed_leg (fun k => is_connected connected k = true))
                  (kresults ++ [kleg ++ [(key, s)]])) as Hclosed'.
        { apply Forall_app. split; [exact Hclosed|]. constructor; [|constructor].
          exists kleg, (key, s). split; [reflexivity|]. split; [exact Hopen|].
          cbn [fst]. rewrite Hc. discriminate. }
        destruct (IH (S key) (results ++ [leg ++ [s]]) [] R L
                    (kresults ++ [kleg ++ [(key, s)]]) [] Hloop Hres' eq_refl Hclosed'
                    ltac:(constructor))
          as (entries & kR & kL & He & HR & HL & HcR & HoL & Hcat).
        exists (Some s :: entries), kR, kL. rewrite He. cbn [rbind kept].
        split_and!; auto. rewrite Hcat, concat_app. cbn [List.concat app].
        rewrite app_nil_r, <- !app_assoc. reflexivity.
    + destruct (IH (S key) results leg R L kresults kleg Hloop Hres Hleg Hclosed Hopen)
        as (entries & kR & kL & He & HR & HL & HcR & HoL & Hcat).
      exists (None :: entries), kR, kL. rewrite He. cbn [rbind kept]. auto 10.
Qed.

Lemma find_of_provider (infos : list AirAvailInfo) :
  match List.find (fun info => same (ProviderCode info) provider) infos with
  | Some info => of_provider provider infos info
  | None => Forall (fun i => ProviderCode i <> provider) infos
  end.
Proof.
  assert (forall a b, same a b = true <-> a = b) as Hsame.
  { intros [a|] [b|]; simpl; rewrite ?String.eqb_eq; split; congruence. }
  induction infos as [|i infos IH]; simpl; [constructor|].
  destruct (same (ProviderCode i) provider) eqn:Hi.
  - exists [], infos. split; [reflexivity|]. split; [apply Hsame; exact Hi|constructor].
  - assert (ProviderCode i <> provider) as Hne
      by (intros He; apply Hsame in He; congruence).
    destruct (List.find _ infos) as [info|].
    + destruct IH as (pre & post & -> & Hp & Hpre).
      exists (i :: pre), post. split; [reflexivity|]. split; [exact Hp|].
      constructor; assumption.
    + constructor; assumption.
Qed.

Lemma segment_entry_for (rsp : @AvailabilityRsp AirSegment Reference) (ref : string)
    (entry : option (@availableSegment Segment)) :
  entry_of rsp ref = Ok entry ->
  entry_for air_AirAvailInfo Equipment FlightTime formatSegment provider cabins
    rsp ref entry.
Proof.
  subst entry_of. unfold segment_entry, entry_for. intros Hb.
  apply rbind_Ok in Hb as (segmentList & Hl & Hb). apply lift_avail_Some in Hl.
  apply rbind_Ok in Hb as (segment & Hs & Hb). apply lift_avail_Some in Hs.
  exists segmentList, segment. split; [exact Hl|]. split; [exact Hs|].
  pose proof (find_of_provider (default [] (air_AirAvailInfo segment))) as Hfind.
  destruct (List.find _ (default [] (air_AirAvailInfo segment))) as [info|].
  - destruct (air_BookingCodeInfo info) as [codes|] eqn:Hcodes.
    + apply rbind_Ok in Hb as (cs & Hcs & [= <-]). exists info, codes. cbn. auto 10.
    + injection Hb as <-. right. eauto.
  - injection Hb as <-. left. exact Hfind.
Qed.

Lemma rmap_entries (rsp : @AvailabilityRsp AirSegment Reference) (refs : list string)
    (entries : list (option (@availableSegment Segment))) :
  rmap (entry_of rsp) refs = Ok entries ->
  Forall2 (entry_for air_AirAvailInfo Equipment FlightTime formatSegment provider
             cabins rsp) refs entries.
Proof.
  revert entries. induction refs as [|ref refs IH]; intros entries; simpl.
  - intros [= <-]. constructor.
  - intros Hb. apply rbind_Ok in Hb as (e & He & Hb).
    apply rbind_Ok in Hb as (es & Hes & [= <-]).
    constructor; [apply segment_entry_for; exact He|apply IH; exact Hes].
Qed.

Lemma is_connected_named (solution : AirItinerarySolution) (key : nat) :
  is_connected (connected_of solution) key = true <->
  named_by_connection solution key.
Proof.
  unfold is_connected, connected_of, named_by_connection.
  rewrite existsb_exists. split.
  - intros (s & Hin & Hs). destruct s as [z|]; [|discriminate].
    apply Z.eqb_eq in Hs. subst z.
    destruct (air_Connection solution) as [connections|]; [|destruct Hin].
    apply in_map_iff in Hin as (c & Hc & Hin). eauto.
  - intros (connections & c & -> & Hin & Hc).
    exists (Some (Z.of_nat key)). split; [|apply Z.eqb_refl].
    rewrite <- Hc. apply (in_map (fun s => parseInt10 (SegmentIndex s)) _ _ Hin).
Qed.

Lemma legs_shape_iff {A} (P Q : nat -> Prop) (keyed : list (list (nat * A))) :
  (forall k, P k <-> Q k) -> legs_shape P keyed -> legs_shape Q keyed.
Proof.
  intros HPQ (closed & rest & -> & Hclosed & Hrest).
  assert (forall l : list (nat * A), Forall (connected_key P) l ->
                                     Forall (connected_key Q) l) as Hkeys.
  { intros l Hl. eapply List.Forall_impl; [|exact Hl].
    intros e He. apply HPQ. exact He. }
  exists closed, rest. split; [reflexivity|]. split.
  - eapply List.Forall_impl; [|exact Hclosed].
    intros leg (body & last & -> & Hb & Hl). exists body, last.
    split; [reflexivity|]. split; [apply Hkeys; exact Hb|].
    intros Hq. apply Hl, HPQ. exact Hq.
  - destruct Hrest as [->|(leg & -> & Hne & Hl)]; [left; reflexivity|].
    right. exists leg. split; [reflexivity|]. split; [exact Hne|apply Hkeys; exact Hl].
Qed.

(** X23. The legs that [availability] returns are made of the segments that have
    availability from the provider, in the order of the segment references
    and each once: a reference gives a segment exactly when the first
    availability info of the segment it names that carries the provider
    code has booking code infos; any other reference is in no leg and
    closes none. A leg ends with each segment whose index is not named by a
    connection: in every leg all segments but the last are named by a
    connection of the itinerary solution, and the last segment of every
    leg, except possibly of the final leg, is not. No leg is empty. *)
Theorem availability_legs (rsp : @AvailabilityRsp AirSegment Reference)
    (r : @availabilityResult Segment Reference) :
  availability air_AirAvailInfo Equipment FlightTime formatSegment provider cabins rsp
  = Ok r ->
  exists solutions solution refs entries keyed,
    air_AirItinerarySolution rsp = Some solutions /\
    firstInObj solutions = Some solution /\
    air_AirSegmentRef solution = Some refs /\
    Forall2 (entry_for air_AirAvailInfo Equipment FlightTime formatSegment
               provider cabins rsp) refs entries /\
    List.map (List.map snd) keyed = legs r /\
    List.concat keyed = kept entries 0 /\
    legs_shape (named_by_connection solution) keyed /\
    Forall (fun leg => leg <> []) (legs r).
Proof.
  unfold availability. intros Hb.
  apply rbind_Ok in Hb as (solutions & Hsols & Hb).
  apply rbind_Ok in Hb as (solution & Hsol & Hb).
  apply rbind_Ok in Hb as (refs & Hrefs & Hb).
  apply rbind_Ok in Hb as ([R L] & Hloop & [= <-]).
  apply lift_avail_Some in Hsols, Hsol, Hrefs.
  destruct (segments_loop_keyed rsp (connected_of solution) refs 0 [] [] R L [] []
              Hloop eq_refl eq_refl ltac:(constructor) ltac:(constructor))
    as (entries & kR & kL & He & HR & HL & HcR & HoL & Hcat).
  apply rmap_entries in He.
  cbn [List.concat app] in Hcat. cbn [fst snd legs].
  assert (Forall (fun leg : list (nat * @availableSegment Segment) => leg <> []) kR)
    as HneR.
  { eapply List.Forall_impl; [|exact HcR].
    intros leg (body & last & -> & _). destruct body; discriminate. }
  assert (forall l : list (list (nat * @availableSegment Segment)),
            Forall (fun leg => leg <> []) l ->
            Forall (fun leg : list (@availableSegment Segment) => leg <> [])
              (List.map (List.map snd) l)) as Hmap.
  { intros l Hl. induction Hl as [|x l Hx _ IH]; [constructor|].
    constructor; [destruct x; [congruence|discriminate]|exact IH]. }
  exists solutions, solution, refs, entries.
  destruct kL as [|e kL]; cbn [List.map] in HL; subst L.
  - exists kR. rewrite app_nil_r in Hcat. split_and!; try reflexivity; try assumption.
    + apply (legs_shape_iff _ _ _ (is_connected_named solution)).
      exists kR, (@nil (list (nat * @availableSegment Segment))).
      rewrite app_nil_r. auto.
    + rewrite <- HR. apply Hmap. exact HneR.
  - exists (kR ++ [e :: kL]). split_and!; try reflexivity; try assumption.
    + rewrite List.map_app, HR. reflexivity.
    + rewrite concat_app. cbn [List.concat]. rewrite app_nil_r. exact Hcat.
    + apply (legs_shape_iff _ _ _ (is_connected_named solution)).
      exists kR, [e :: kL]. split_and!; auto. right. eexists. split; [reflexivity|].
      split; [discriminate|exact HoL].
    + rewrite <- HR. apply Forall_app. split; [apply Hmap; exact HneR|].
      constructor; [discriminate|constructor].
Qed.

End Parser.

(** The sample reply: [s0] and [s1] make the first leg, [s3] the second;
    [s2], which has no availability from the provider, is in neither. *)
Lemma availability_legs_witness :
  exists r,
    sample_availability_of sample_availability = Ok r /\
    List.map (List.map (fun s => List.map seats (availability_of s))) (legs r)
    = [[["9"; "4"]; ["7"]]; [["2"; EmptyString]]] /\
    exists solutions solution refs entries keyed,
      air_AirItinerarySolution sample_availability = Some solutions /\
      firstInObj solutions = Some solution /\
      air_AirSegmentRef solution = Some refs /\
      Forall2 (entry_for (fun s => Some s) (fun _ => None) (fun _ => None)
                 (fun s => s) (Some "1G") None sample_availability) refs entries /\
      List.map (List.map snd) keyed = legs r /\
      List.concat keyed = kept entries 0 /\
      legs_shape (named_by_connection solution) keyed /\
      Forall (fun leg => leg <> []) (legs r).
Proof.
  eexists. split; [vm_compute; reflexivity|]. split; [reflexivity|].
  apply (availability_legs (fun s => Some s) (fun _ => None) (fun _ => None)
           (fun s => s) (Some "1G") None sample_availability).
  vm_compute. reflexivity.
Defined.

End AvailabilityFacts.

(** ** airPrice *)

Module PricingFacts.
Import Js Pricing PricingSpec ResultFacts.

Lemma lift_price_Some {A} (o : option A) (a : A) : lift o = Ok a -> o = Some a.
Proof. destruct o; [intros [= ->]; reflexivity|discriminate]. Qed.

Lemma same_spec (a b : option string) : same a b = true <-> a = b.
Proof.
  destruct a as [x|], b as [y|]; simpl; try (split; [discriminate|congruence]).
  - rewrite String.eqb_eq. split; congruence.
  - tauto.
Qed.

Lemma rmap_Forall2 {E A B} (f : A -> result E B) (l : list A) (ys : list B) :
  rmap f l = Ok ys -> Forall2 (fun x y => f x = Ok y) l ys.
Proof.
  revert ys. induction l as [|x l IH]; intros ys; simpl.
  - intros [= <-]. constructor.
  - intros Hb. apply rbind_Ok in Hb as (y & Hy & Hb).
    apply rbind_Ok in Hb as (ys' & Hys & [= <-]). constructor; auto.
Qed.

(** *** Partition by a key *)

Section Partition.
Context {A : Type}.
Variable key : A -> option string.

Lemma existsb_same (g : option string) (gs : list (option string)) :
  existsb (same g) gs = true <-> In g gs.
Proof.
  rewrite existsb_exists. split.
  - intros (x & Hin & Hs). apply same_spec in Hs. subst x. exact Hin.
  - intros Hin. exists g. split; [exact Hin|]. apply same_spec. reflexivity.
Qed.

Lemma filter_split (g : option string) (gs : list (option string)) (l : list A) :
  ~ In g gs ->
  Permutation (List.filter (fun s => existsb (same (key s)) (g :: gs)) l)
    (List.filter (fun s => same (key s) g) l
     ++ List.filter (fun s => existsb (same (key s)) gs) l).
Proof.
  intros Hn. induction l as [|x l IH]; cbn [List.filter existsb]; [constructor|].
  destruct (same (key x) g) eqn:Hg; cbn [orb].
  - assert (existsb (same (key x)) gs = false) as ->.
    { destruct (existsb (same (key x)) gs) eqn:He; [|reflexivity].
      apply existsb_same in He. apply same_spec in Hg. congruence. }
    cbn [app]. apply perm_skip. exact IH.
  - destruct (existsb (same (key x)) gs).
    + eapply Permutation_trans; [apply perm_skip; exact IH|].
      apply Permutation_middle.
    + exact IH.
Qed.

Lemma partition_Permutation (gs : list (option string)) (l : list A) :
  NoDup gs ->
  Permutation (List.concat (List.map (fun g => List.filter (fun s => same (key s) g) l) gs))
    (List.filter (fun s => existsb (same (key s)) gs) l).
Proof.
  intros Hn. induction Hn as [|g gs Hg Hn IH]; cbn [List.map List.concat].
  - induction l as [|x l IHl]; [constructor|exact IHl].
  - eapply Permutation_trans; [apply Permutation_app_head; exact IH|].
    symmetry. apply filter_split. intros Hin. apply Hg. apply list_elem_of_In. exact Hin.
Qed.

Lemma filter_all (gs : list (option string)) (l : list A) :
  (forall x, In x l -> In (key x) gs) ->
  List.filter (fun s => existsb (same (key s)) gs) l = l.
Proof.
  induction l as [|x l IH]; intros Hall; cbn [List.filter]; [reflexivity|].
  rewrite (proj2 (existsb_same (key x) gs)) by (apply Hall; left; reflexivity).
  rewrite IH; [reflexivity|]. intros y Hy. apply Hall. right. exact Hy.
Qed.

End Partition.

Section Parser.
Context `{Format}.

Lemma collect_groups_spec (segs : list AirSegment) :
  NoDup (collect_groups segs) /\
  forall g, In g (collect_groups segs) <-> In g (List.map Group segs).
Proof.
  unfold collect_groups. induction segs as [|s segs [IHn IHi]] using rev_ind.
  - split; [constructor|]. intros g. reflexivity.
  - rewrite fold_left_app, List.map_app. cbn [fold_left List.map].
    destruct (existsb (same (Group s)) _) eqn:He.
    + split; [exact IHn|]. intros g. rewrite in_app_iff, <- IHi. cbn [In].
      apply existsb_same in He. split; [auto|]. intros [Hg|[<-|[]]]; auto.
    + split.
      * apply NoDup_app. split; [exact IHn|]. split; [|apply NoDup_singleton].
        intros x Hx Hs. apply list_elem_of_In in Hs. destruct Hs as [<-|[]].
        apply list_elem_of_In in Hx. apply (existsb_same (Group s)) in Hx. congruence.
      * intros g. rewrite !in_app_iff, <- IHi. reflexivity.
Qed.

Lemma collect_groups_order (segs : list AirSegment) :
  first_occurrences (List.map Group segs) (collect_groups segs).
Proof.
  destruct (collect_groups_spec segs) as [Hnd Hin].
  split; [exact Hnd|]. split; [exact Hin|]. clear Hnd Hin.
  unfold collect_groups. induction segs as [|s segs IH] using rev_ind.
  - intros i j g g' Hi. destruct i; discriminate.
  - rewrite fold_left_app, List.map_app. cbn [fold_left List.map].
    assert (forall i j g g',
              fold_left
                (fun previousValue currentValue =>
                   if existsb (same (Group currentValue)) previousValue
                   then previousValue else previousValue ++ [Group currentValue])
                segs [] !! i = Some g ->
              fold_left
                (fun previousValue currentValue =>
                   if existsb (same (Group currentValue)) previousValue
                   then previousValue else previousValue ++ [Group currentValue])
                segs [] !! j = Some g' -> i < j ->
              exists k, (List.map Group segs ++ [Group s]) !! k = Some g /\
                        forall k', k' <= k ->
                          (List.map Group segs ++ [Group s]) !! k' <> Some g') as Hold.
    { intros i j g g' Hi Hj Hij.
      destruct (IH i j g g' Hi Hj Hij) as (k & Hk & Hbefore).
      pose proof (lookup_lt_Some _ _ _ Hk) as Hlt.
      exists k. split; [rewrite lookup_app_l by exact Hlt; exact Hk|].
      intros k' Hk'. rewrite lookup_app_l by lia. apply Hbefore. exact Hk'. }
    destruct (existsb (same (Group s)) _) eqn:He; [exact Hold|].
    intros i j g g' Hi Hj Hij.
    pose proof (lookup_lt_Some _ _ _ Hj) as Hjlt. rewrite length_app in Hjlt.
    cbn [length] in Hjlt.
    destruct (Nat.eq_dec j (length (collect_groups segs))) as [->|Hne].
    + unfold collect_groups in Hj. rewrite lookup_app_r in Hj by lia.
      rewrite Nat.sub_diag in Hj. injection Hj as <-.
      unfold collect_groups in Hij. rewrite lookup_app_l in Hi by exact Hij.
      assert (In g (List.map Group segs)) as Hg.
      { apply (proj2 (collect_groups_spec segs)). apply list_elem_of_In.
        eapply list_elem_of_lookup_2. exact Hi. }
      apply list_elem_of_In, list_elem_of_lookup_1 in Hg as (k & Hk).
      pose proof (lookup_lt_Some _ _ _ Hk) as Hlt.
      exists k. split; [rewrite lookup_app_l by exact Hlt; exact Hk|].
      intros k' Hk' Hs. rewrite lookup_app_l in Hs by lia.
      assert (In (Group s) (collect_groups segs)) as Hin.
      { apply (proj2 (collect_groups_spec segs)). apply list_elem_of_In.
        eapply list_elem_of_lookup_2. exact Hs. }
      apply (existsb_same (Group s)) in Hin. unfold collect_groups in Hin. congruence.
    + unfold collect_groups in Hne, Hjlt.
      rewrite lookup_app_l in Hj by lia. rewrite lookup_app_l in Hi by lia.
      exact (Hold i j g g' Hi Hj Hij).
Qed.

Lemma build_trip_of (thisFare : AirPricingInfo) (leg : option string)
    (seg : AirSegment) (t : trip) :
  build_trip thisFare leg seg = Ok t -> trip_of seg t.
Proof.
  unfold build_trip, trip_of. intros Hb.
  apply rbind_Ok in Hb as (details & Hd & Hb). apply lift_price_Some in Hd.
  apply rbind_Ok in Hb as (infos & _ & Hb).
  apply rbind_Ok in Hb as (bookingInfo & _ & Hb).
  apply rbind_Ok in Hb as (fares & _ & Hb).
  apply rbind_Ok in Hb as (allowances & _ & Hb).
  apply rbind_Ok in Hb as (allowanceInfos & _ & Hb).
  apply rbind_Ok in Hb as (fareInfo & _ & [= <-]).
  exists details. auto.
Qed.

Lemma build_direction_of (thisFare : AirPricingInfo) (segs : list AirSegment)
    (g : option string) (ds : list direction) :
  build_direction thisFare segs g = Ok ds -> direction_of segs g ds /\ g <> None.
Proof.
  unfold build_direction, direction_of. intros Hb.
  apply rbind_Ok in Hb as (trips & Htrips & Hb).
  apply rbind_Ok in Hb as (first & Hfirst & Hb). apply lift_price_Some in Hfirst.
  apply rbind_Ok in Hb as (final & Hfinal & Hb). apply lift_price_Some in Hfinal.
  apply rbind_Ok in Hb as (leg & Hleg & [= <-]). apply lift_price_Some in Hleg.
  split; [|congruence].
  eexists. exists first, final. split; [reflexivity|]. cbn.
  split_and!; auto.
  apply rmap_Forall2 in Htrips. eapply Forall2_impl; [exact Htrips|].
  intros seg t Ht. apply (build_trip_of _ _ _ _ Ht).
Qed.

(** X24. The directions that [airPrice] returns partition the segments of the
    itinerary by their group: there is one direction per group, each group
    once, in the order in which the groups first occur among the
    segments; the trips of a direction are
    those of the segments of its group, in the order of the itinerary, so
    every segment is in one direction and in one only. Every segment has a
    group (a segment without one makes [airPrice] throw). Each direction
    stands in an array of its own, runs from the start of its first trip to
    the end of its last one, and has no duration. The returned baggage list
    has one entry per segment. *)
Theorem airPrice_directions (obj : AirPriceRsp) (r : price) :
  airPrice obj = Ok r ->
  exists itinerary airSegments groups,
    air_AirItinerary obj = Some itinerary /\
    air_AirSegment itinerary = Some airSegments /\
    first_occurrences (List.map Group (obj_values airSegments)) groups /\
    ~ In None groups /\
    Permutation
      (List.concat (List.map (segments_of_group (obj_values airSegments)) groups))
      (obj_values airSegments) /\
    Forall2 (direction_of (obj_values airSegments)) groups (directions r) /\
    length (baggageInfos r) = length (obj_values airSegments).
Proof.
  unfold airPrice. intros Hb.
  apply rbind_Ok in Hb as (priceResult & _ & Hb).
  apply rbind_Ok in Hb as (pricingSolutions & _ & Hb).
  apply rbind_Ok in Hb as (pricingSolution & _ & Hb).
  apply rbind_Ok in Hb as (pricingInfos & _ & Hb).
  apply rbind_Ok in Hb as (thisFare & _ & Hb).
  destruct (negb (truthy (PlatingCarrier thisFare))); [discriminate|].
  apply rbind_Ok in Hb as (itinerary & Hit & Hb). apply lift_price_Some in Hit.
  apply rbind_Ok in Hb as (airSegments & Hseg & Hb). apply lift_price_Some in Hseg.
  apply rbind_Ok in Hb as (dirs & Hdirs & [= <-]). cbn [directions baggageInfos].
  set (segs := obj_values airSegments) in *.
  destruct (collect_groups_spec segs) as [Hnd Hin].
  assert (Forall2 (fun g ds => direction_of segs g ds /\ g <> None)
            (collect_groups segs) dirs) as Hf.
  { apply rmap_Forall2 in Hdirs. eapply Forall2_impl; [exact Hdirs|].
    intros g ds Hd. apply (build_direction_of _ _ _ _ Hd). }
  assert (Permutation
            (List.concat (List.map (segments_of_group segs) (collect_groups segs))) segs)
    as Hperm.
  { unfold segments_of_group.
    eapply Permutation_trans; [apply (partition_Permutation Group _ segs Hnd)|].
    rewrite filter_all; [reflexivity|].
    intros x Hx. apply Hin. apply in_map. exact Hx. }
  exists itinerary, airSegments, (collect_groups segs).
  split_and!; auto.
  - apply collect_groups_order.
  - intros Hnone. clear -Hf Hnone. induction Hf as [|g ds gs dss [_ Hg] _ IH]; [destruct Hnone|].
    destruct Hnone as [->|Hn]; [congruence|auto].
  - eapply Forall2_impl; [exact Hf|]. intros g ds [Hd _]. exact Hd.
  - fold segs. rewrite <- (Permutation_length Hperm).
    clear -Hf. induction Hf as [|g ds gs dss [Hd _] _ IH]; [reflexivity|].
    destruct Hd as (d & first & final & -> & Htrips & _).
    cbn [List.concat List.map app]. rewrite !length_app, IH, length_map.
    f_equal. symmetry. apply (Forall2_length _ _ _ Htrips).
Qed.

End Parser.
(** The sample itinerary: the two segments of the group 0 make the first
    direction, from KBP to LHR; the segment of the group 1 makes the second
    one. *)
Lemma airPrice_directions_witness :
  exists r,
    @airPrice sample_data sample_format sample_price_rsp = Ok r /\
    List.map (List.map (fun d => (from d, to d, length (segments d)))) (directions r)
    = [[(Some "KBP", Some "LHR", 2)]; [(Some "LHR", Some "KBP", 1)]] /\
    baggageInfos r = [Some "1PC"; Some "1PC"; Some "2PC"] /\
    exists itinerary airSegments groups,
      air_AirItinerary sample_price_rsp = Some itinerary /\
      air_AirSegment itinerary = Some airSegments /\
      first_occurrences (List.map Group (obj_values airSegments)) groups /\
      ~ In None groups /\
      Permutation
        (List.concat (List.map (segments_of_group (obj_values airSegments)) groups))
        (obj_values airSegments) /\
      Forall2 (@direction_of sample_data sample_format (obj_values airSegments))
        groups (directions r) /\
      length (baggageInfos r) = length (obj_values airSegments).
Proof.
  eexists. split; [vm_compute; reflexivity|]. split; [reflexivity|].
  split; [reflexivity|].
  apply (@airPrice_directions sample_data sample_format sample_price_rsp).
  vm_compute. reflexivity.
Defined.

End PricingFacts.

(** ** Unknown travelers *)

Module TravelersFacts.
Import Js Bookings ResultFacts ThrowSpec ThrowFacts BookingsSpec TravelersSpec.

Lemma rbind_Throw {E A B} (r : result E A) (k : A -> result E B) (e : E) :
  rbind r k = Throw e -> r = Throw e \/ exists a, r = Ok a /\ k a = Throw e.
Proof. destruct r as [a|e']; simpl; [eauto|intros [= <-]; auto]. Qed.

Section Facts.
Context `{Utils} `{Format}.

Lemma type_error_lift {A} (o : option A) : throws_only type_error (lift o).
Proof.
  destruct o; [apply throws_only_Ok|apply throws_only_Throw; reflexivity].
Qed.

Ltac only_type_error :=
  repeat first
    [ apply throws_only_Ok
    | apply type_error_lift
    | apply throws_only_Throw; reflexivity
    | apply throws_only_bind; [|intros ? ?]
    | apply throws_only_rmap; intros ? ?
    | match goal with
      | |- throws_only _ (match ?x with _ => _ end) => destruct x
      end ].

Lemma split_remarks_type_error (rs : list GeneralRemark) (acc : list string) :
  throws_only type_error (split_remarks rs acc).
Proof.
  revert acc. induction rs as [|r rs IH]; intros acc; simpl; only_type_error; apply IH.
Qed.

Lemma push_emails_type_error (es : list Email) (acc : list email) :
  throws_only type_error (push_emails es acc).
Proof.
  revert acc. induction es as [|e es IH]; intros acc; simpl; only_type_error; apply IH.
Qed.

Lemma build_pricingInfos_type_error (b : AirReservation) (tickets : list ticket)
    (keys : list string) (c : gmap string fareQuoteCommon) :
  throws_only type_error (build_pricingInfos b tickets keys c).
Proof.
  revert c. induction keys as [|k keys IH]; intros c; simpl; only_type_error;
    try (unfold build_pricingInfo; only_type_error); apply IH.
Qed.

Lemma build_passengers_unknown (travelers : option (jsobj Traveler))
    (refs : list string) (emails : list email) :
  build_passengers travelers refs emails = Throw TravelersListError ->
  exists ts ref, travelers = Some ts /\ In ref refs /\ obj_get ref ts = None.
Proof.
  revert emails. induction refs as [|r refs IH]; intros emails; simpl; [discriminate|].
  destruct travelers as [ts|]; [|discriminate]. cbn [lift rbind].
  destruct (obj_get r ts) as [traveler|] eqn:Hr; [|intros _; exists ts, r; auto].
  intros Hb. apply rbind_Throw in Hb as [Hb|(emails' & _ & Hb)].
  - exfalso. destruct (traveler_Email traveler); [|discriminate].
    pose proof (push_emails_type_error _ _ _ Hb) as Ht. discriminate.
  - apply rbind_Throw in Hb as [Hb|(rs & _ & Hb)]; [|discriminate].
    destruct (IH _ Hb) as (ts' & ref & [= <-] & Hin & Hg). exists ts, ref. auto.
Qed.

Lemma build_booking_unknown (record : UniversalRecord)
    (reservationInfo : option (jsobj ProviderReservationInfo))
    (remarks : gmap string (list GeneralRemark)) (messages : list Message)
    (ar : AirReservation) :
  build_booking record (common_BookingTraveler record) reservationInfo remarks
    messages ar = Throw TravelersListError ->
  unknown_traveler record ar.
Proof.
  unfold build_booking, unknown_traveler. intros Hb.
  apply rbind_Throw in Hb as [Hb|(resInfo & _ & Hb)].
  { pose proof (type_error_lift _ _ Hb). discriminate. }
  destruct (obj_get (prop_key (ar_ProviderReservationInfoRef ar)) resInfo)
    as [providerInfo|]; [|discriminate].
  cbn [rbind] in Hb.
  apply rbind_Throw in Hb as [Hb|(splits & _ & Hb)].
  { exfalso. destruct (universal_ProviderReservationDetails providerInfo) as [d|];
      [|discriminate].
    destruct (same_ref (DivideDetails d) (Some "true")); [|discriminate].
    pose proof (split_remarks_type_error _ _ _ Hb). discriminate. }
  apply rbind_Throw in Hb as [Hb|(refs & Hrefs & Hb)].
  { pose proof (type_error_lift _ _ Hb). discriminate. }
  apply BookingsFacts.lift_Ok in Hrefs.
  apply rbind_Throw in Hb as [Hb|(pe & _ & Hb)].
  { destruct (build_passengers_unknown _ _ _ Hb) as (ts & ref & Hts & Hin & Hg).
    exists refs, ts, ref. auto. }
  exfalso.
  destruct (setIndexesForSegments _ _) as [indexedSegments indexedServiceSegments].
  apply rbind_Throw in Hb as [Hb|(serviceSegments & _ & Hb)].
  { assert (throws_only type_error
              (build_serviceSegments
                 (match passive_PassiveReservation record with
                  | Some l =>
                      List.find
                        (fun res => same_ref (pr_ProviderReservationInfoRef res)
                                      (pri_Key providerInfo)) l
                  | None => None
                  end) indexedServiceSegments)) as Ht
      by (unfold build_serviceSegments; only_type_error).
    pose proof (Ht _ Hb). discriminate. }
  apply rbind_Throw in Hb as [Hb|(tickets & _ & Hb)].
  { assert (throws_only type_error (build_tickets ar)) as Ht
      by (unfold build_tickets; only_type_error).
    pose proof (Ht _ Hb). discriminate. }
  apply rbind_Throw in Hb as [Hb|(pc & _ & Hb)]; [|discriminate].
  destruct (air_AirPricingInfo ar); [|discriminate].
  pose proof (build_pricingInfos_type_error _ _ _ _ _ Hb). discriminate.
Qed.

(** X25. [extractBookings] throws [TravelersListError] only for a record with an
    air reservation that refers to a traveler the record does not hold:
    the error reports an unknown traveler reference and nothing else. *)
Theorem extractBookings_TravelersListError (obj : Document) :
  extractBookings obj = Throw TravelersListError ->
  exists record ar,
    universal_UniversalRecord obj = Some record /\
    In ar (reservations obj) /\ unknown_traveler record ar.
Proof.
  unfold extractBookings, reservations. intros Hb.
  apply rbind_Throw in Hb as [Hb|(_ & _ & Hb)].
  { apply BookingChecksFacts.check_messages_Throw in Hb as [Hb|Hb]; discriminate. }
  destruct (air_AirSegmentSellFailureInfo obj); [discriminate|].
  apply rbind_Throw in Hb as [Hb|(record & Hrec & Hb)].
  { pose proof (type_error_lift _ _ Hb). discriminate. }
  apply BookingsFacts.lift_Ok in Hrec. rewrite Hrec. exists record.
  destruct (negb _ && negb _); [discriminate|].
  assert (forall resInfo,
            rmap (build_booking_without_air record (common_BookingTraveler record)
                    (default [] (common_ResponseMessage obj))) (obj_values resInfo)
            <> Throw TravelersListError) as Hwithout.
  { intros resInfo Hr.
    assert (throws_only type_error
              (rmap (build_booking_without_air record (common_BookingTraveler record)
                       (default [] (common_ResponseMessage obj))) (obj_values resInfo)))
      as Ht.
    { apply throws_only_rmap. intros p _. unfold build_booking_without_air.
      only_type_error. }
    pose proof (Ht _ Hr). discriminate. }
  destruct (air_AirReservation record) as [[|ar0 ars]|]; cbn [negb default] in *.
  - exfalso. apply rbind_Throw in Hb as [Hb|(resInfo & _ & Hb)].
    + pose proof (type_error_lift _ _ Hb). discriminate.
    + apply (Hwithout resInfo Hb).
  - assert (exists ar, In ar (ar0 :: ars) /\
              build_booking record (common_BookingTraveler record)
                (universal_ProviderReservationInfo record)
                (group_remarks (common_GeneralRemark record))
                (default [] (common_ResponseMessage obj)) ar
              = Throw TravelersListError) as (ar & Hin & Har).
    { revert Hb. generalize (ar0 :: ars) as l. induction l as [|a l IH]; simpl;
        [discriminate|].
      intros Hb. apply rbind_Throw in Hb as [Hb|(b & _ & Hb)]; [eauto|].
      apply rbind_Throw in Hb as [Hb|(bs & _ & Hb)]; [|discriminate].
      destruct (IH Hb) as (ar & Hin & Har). eauto. }
    exists ar. split; [reflexivity|]. split; [exact Hin|].
    apply (build_booking_unknown _ _ _ _ _ Har).
  - exfalso. apply rbind_Throw in Hb as [Hb|(resInfo & _ & Hb)].
    + pose proof (type_error_lift _ _ Hb). discriminate.
    + apply (Hwithout resInfo Hb).
Qed.

End Facts.

Lemma extractBookings_TravelersListError_witness :
  @extractBookings ErrorsSpec.ascii_utils sample_format unknown_traveler_document
  = Throw TravelersListError /\
  exists record ar,
    universal_UniversalRecord unknown_traveler_document = Some record /\
    In ar (reservations unknown_traveler_document) /\ unknown_traveler record ar.
Proof.
  split; [vm_compute; reflexivity|].
  apply (@extractBookings_TravelersListError ErrorsSpec.ascii_utils sample_format
           unknown_traveler_document).
  vm_compute. reflexivity.
Defined.

End TravelersFacts.

(** ** The booking codes of a segment *)

Module BookingCodeFacts.
Import Js Availability AvailabilitySpec ResultFacts.

Lemma booking_code_Ok (x : BookingCodeInfo) (item : string) (c : bookingCode) :
  booking_code x item = Ok c ->
  cabin c = CabinClass x /\
  exists c0 c1 rest,
    item = String c0 (String c1 rest) /\
    bookingClass c = Some (String c0 EmptyString) /\
    seats c = if Re.is_space c1 then EmptyString else String c1 EmptyString.
Proof.
  destruct item as [|c0 [|c1 rest]]; simpl; try discriminate.
  intros [= <-]. simpl. eauto 10.
Qed.

Section Cabins.
Variable cabins : option (list string).

(** X26. The booking codes of a segment. Each comes from one item of the
    booking counts of a booking code info that passes the cabin filter: its
    booking class is the first character of the item, its seats are the
    second character (nothing when that is a blank), its cabin is the one
    of the info. With a non-empty list of wanted cabins every code returned
    is of one of them; an info without booking counts, or an item of
    fewer than two characters, in a wanted cabin makes the computation
    throw. *)
Theorem cabinsAvailability_codes (infos : list BookingCodeInfo)
    (codes : list bookingCode) :
  cabinsAvailability cabins infos = Ok codes ->
  Forall (fun c =>
            exists x counts item c0 c1 rest,
              In x infos /\ cabin_wanted cabins x = true /\
              BookingCounts x = Some counts /\ In item (split_on "|"%char counts) /\
              item = String c0 (String c1 rest) /\
              bookingClass c = Some (String c0 EmptyString) /\
              seats c = (if Re.is_space c1 then EmptyString else String c1 EmptyString) /\
              cabin c = CabinClass x) codes /\
  (forall w ws, cabins = Some (w :: ws) ->
     Forall (fun c => exists v, cabin c = Some v /\ In v (w :: ws)) codes) /\
  (forall x, In x infos -> cabin_wanted cabins x = true ->
     exists counts, BookingCounts x = Some counts /\
       Forall (fun item => 2 <= String.length item) (split_on "|"%char counts)).
Proof.
  unfold cabinsAvailability. intros Hb.
  apply rbind_Ok in Hb as (chunks & Hchunks & [= <-]).
  assert (Forall (fun c =>
            exists x counts item c0 c1 rest,
              In x infos /\ cabin_wanted cabins x = true /\
              BookingCounts x = Some counts /\ In item (split_on "|"%char counts) /\
              item = String c0 (String c1 rest) /\
              bookingClass c = Some (String c0 EmptyString) /\
              seats c = (if Re.is_space c1 then EmptyString else String c1 EmptyString) /\
              cabin c = CabinClass x) (List.concat chunks)) as Hall.
  { apply List.Forall_forall. intros c Hc.
    apply in_concat in Hc as (chunk & Hchunk & Hc).
    destruct (rmap_In _ _ _ Hchunks chunk Hchunk) as (x & Hx & Hf).
    apply filter_In in Hx as [Hx Hw].
    apply rbind_Ok in Hf as (counts & Hcounts & Hf).
    destruct (BookingCounts x) as [cs|] eqn:Hbc; [injection Hcounts as ->|discriminate].
    destruct (rmap_In _ _ _ Hf c Hc) as (item & Hitem & Hcode).
    destruct (booking_code_Ok _ _ _ Hcode) as (Hcab & c0 & c1 & rest & Hi & Hcl & Hs).
    exists x, counts, item, c0, c1, rest. auto 10. }
  split_and!.
  - exact Hall.
  - intros w ws Hcab. eapply List.Forall_impl; [|exact Hall].
    intros c (x & counts & item & c0 & c1 & rest & _ & Hw & _ & _ & _ & _ & _ & Hc).
    unfold cabin_wanted in Hw. rewrite Hcab in Hw.
    apply existsb_exists in Hw as (v & Hv & Hs).
    exists v. split; [|exact Hv]. rewrite Hc.
    destruct (CabinClass x) as [y|]; simpl in Hs; [|discriminate].
    apply String.eqb_eq in Hs. congruence.
  - intros x Hx Hw.
    assert (In x (List.filter (cabin_wanted cabins) infos)) as Hin
      by (apply filter_In; auto).
    clear -Hchunks Hin. revert chunks Hchunks.
    induction (List.filter (cabin_wanted cabins) infos) as [|y l IH]; [destruct Hin|].
    intros chunks Hb. simpl in Hb.
    apply rbind_Ok in Hb as (chunk & Hchunk & Hb).
    apply rbind_Ok in Hb as (chunks' & Hchunks' & _).
    destruct Hin as [->|Hin]; [|apply (IH Hin _ Hchunks')].
    apply rbind_Ok in Hchunk as (counts & Hcounts & Hf).
    destruct (BookingCounts x) as [cs|]; [injection Hcounts as ->|discriminate].
    exists counts. split; [reflexivity|].
    clear -Hf. revert chunk Hf.
    induction (split_on "|"%char counts) as [|item items IH]; [constructor|].
    intros chunk Hb. simpl in Hb.
    apply rbind_Ok in Hb as (c & Hc & Hb).
    apply rbind_Ok in Hb as (cs & Hcs & _).
    constructor; [|apply (IH _ Hcs)].
    destruct (booking_code_Ok _ _ _ Hc) as (_ & c0 & c1 & rest & -> & _). simpl. lia.
Qed.

End Cabins.

Lemma cabinsAvailability_codes_witness :
  let infos := [{| CabinClass := Some "Economy"; BookingCounts := Some "Y9|B " |};
                {| CabinClass := Some "Business"; BookingCounts := None |}] in
  exists codes,
    cabinsAvailability (Some ["Economy"]) infos = Ok codes /\
    List.map (fun c => (bookingClass c, cabin c, seats c)) codes
    = [(Some "Y", Some "Economy", "9"); (Some "B", Some "Economy", EmptyString)] /\
    Forall (fun c => exists v, cabin c = Some v /\ In v ["Economy"]) codes.
Proof.
  intros infos. eexists. split; [vm_compute; reflexivity|]. split; [reflexivity|].
  refine (proj1 (proj2 (cabinsAvailability_codes (Some ["Economy"]) infos _ _))
            "Economy" [] eq_refl).
  vm_compute. reflexivity.
Defined.

End BookingCodeFacts.

(** ** The errors of ticket retrieval *)

Module TicketErrorsFacts.
Import Js Doc Errors Tickets ErrorsSpec TicketsSpec TicketErrorsSpec.
Import ResultFacts ThrowSpec ThrowFacts.

Section Parser.
Context `{Utils}.
Variable formFareBasisCode : option AirPricingInfo -> Coupon -> option string.

Lemma type_error_only_lift {A} (o : option A) : throws_only type_error_only (lift o).
Proof.
  destruct o; [apply throws_only_Ok|apply throws_only_Throw; reflexivity].
Qed.

Ltac type_errors :=
  repeat first
    [ apply throws_only_Ok
    | apply type_error_only_lift
    | apply throws_only_Throw; reflexivity
    | apply throws_only_bind; [|intros ? ?]
    | apply throws_only_rmap; intros ? ?
    | match goal with
      | |- throws_only _ (match ?x with _ => _ end) => destruct x
      end ].

Lemma processUAPIError_not_controlled (rsp : Response) :
  (forall d, processUAPIError rsp <> DuplicateTicketFound d) /\
  (forall d, processUAPIError rsp <> TicketInfoIncompleteETR d).
Proof.
  unfold processUAPIError.
  destruct (getUAPIErrorMessage rsp) as [[|c m]|]; try (split; discriminate).
  destruct (noAgreementPattern _); [split; discriminate|].
  destruct (unableToRetreivePattern _); [split; discriminate|].
  destruct (ticketRetrieveErrorPattern _); [split; discriminate|].
  destruct (accessedByAnotherTransactionPattern _); split; discriminate.
Qed.

Lemma getTicketFromEtr_throws (etr : ETR) (obj : Response) (allow : bool) (e : error) :
  getTicketFromEtr formFareBasisCode etr obj allow = Throw e ->
  (allow = false /\ truthy (ProviderLocatorCode etr) = false /\
   e = TicketInfoIncompleteETR (OneETR etr)) \/ e = TypeError.
Proof.
  unfold getTicketFromEtr.
  destruct (negb allow && negb (truthy (ProviderLocatorCode etr))) eqn:Hc.
  - intros [= <-]. left. apply andb_prop in Hc as [Ha Ht].
    apply negb_true_iff in Ha, Ht. auto.
  - intros He. right. revert e He.
    match goal with
    | |- forall e, ?r = Throw e -> _ => change (throws_only type_error_only r)
    end.
    unfold buildPassengers, allCoupons, returnedTicket, returnedCoupon.
    type_errors.
Qed.

(** X27. [getTicketFromEtr] throws [TicketInfoIncomplete] exactly when retrieval
    without a provider locator code is not allowed and the ETR has none (an
    empty one counts as none), and then the error carries the ETR. *)
Theorem getTicketFromEtr_errors (etr : ETR) (obj : Response) (allow : bool)
    (d : ETRNode) :
  getTicketFromEtr formFareBasisCode etr obj allow
  = Throw (TicketInfoIncompleteETR d) <->
  allow = false /\
  (ProviderLocatorCode etr = None \/ ProviderLocatorCode etr = Some EmptyString) /\
  d = OneETR etr.
Proof.
  rewrite <- ErrorsFacts.truthy_false. split.
  - intros He.
    destruct (getTicketFromEtr_throws _ _ _ _ He) as [(Ha & Ht & [= <-])|Hx];
      [auto|discriminate].
  - intros (-> & Ht & ->). unfold getTicketFromEtr. rewrite Ht. reflexivity.
Qed.

(** X28. [airGetTicket] throws [DuplicateTicketFound] exactly for a document
    whose document failure has the code 3273, and then with the document
    itself. *)
Theorem airGetTicket_duplicate_iff (obj : Response) (allow : bool) (d : Response) :
  airGetTicket formFareBasisCode obj allow = Throw (DuplicateTicketFound d) <->
  d = obj /\ exists failure, air_DocumentFailureInfo obj = Some failure /\
                             dfi_Code failure = Some "3273".
Proof.
  pose proof (processUAPIError_not_controlled obj) as [Hdup _].
  unfold airGetTicket. split.
  - destruct (air_DocumentFailureInfo obj) as [failure|].
    { destruct (code_is (dfi_Code failure) "3273") eqn:Hc.
      - intros [= <-]. apply ErrorsFacts.code_is_In in Hc. eauto.
      - intros [= He]. destruct (Hdup _ He). }
    destruct (has_error_message (getResponseMessages obj)).
    { intros [= He]. destruct (Hdup _ He). }
    destruct (air_ETR obj) as [[etr|etrs]|].
    + intros Hb. exfalso.
      destruct (getTicketFromEtr formFareBasisCode etr obj allow) as [t|e] eqn:Ht;
        [discriminate|].
      injection Hb as ->.
      destruct (getTicketFromEtr_throws _ _ _ _ Ht) as [(_ & _ & Hx)|Hx]; discriminate.
    + intros Hb. exfalso.
      destruct (firstInObj etrs) as [firstEtr|]; [|discriminate]. cbn [lift rbind] in Hb.
      destruct (truthy (ProviderLocatorCode firstEtr)); [|destruct (negb allow); discriminate].
      destruct (rmap _ (obj_values etrs)) as [ts|e] eqn:Hr; [discriminate|].
      injection Hb as ->.
      assert (throws_only (fun e => forall x, e <> DuplicateTicketFound x)
                (rmap (fun innerEtr => getTicketFromEtr formFareBasisCode innerEtr obj allow)
                   (obj_values etrs))) as Ht.
      { apply throws_only_rmap. intros etr _ e He x ->.
        destruct (getTicketFromEtr_throws _ _ _ _ He) as [(_ & _ & Hx)|Hx]; discriminate. }
      apply (Ht _ Hr d). reflexivity.
    + intros [= He]. destruct (Hdup _ He).
  - intros (-> & failure & -> & Hc). unfold code_is. rewrite Hc. reflexivity.
Qed.

End Parser.
End TicketErrorsFacts.

(** ** The histogram and the order of the array *)

Module HistogramOrderFacts.
Import Js Histogram HistogramSpec HistogramFacts ResultFacts SortFacts.

Lemma countHistogram_codes (codes : list string) :
  fst (countHistogram (Array (List.map Str codes)))
  = Ok (scan (sort_by default_le (List.map Str codes)) None ∅).
Proof. unfold countHistogram. destruct codes; reflexivity. Qed.

Lemma countHistogram_objects (objs : list (nat * string)) :
  fst (countHistogram
         (Array (List.map (fun rc => Object (fst rc) (Some (snd rc))) objs)))
  = Ok (scan (sort_by default_le (List.map Str (List.map snd objs))) None ∅).
Proof.
  unfold countHistogram. destruct objs as [|[r c] objs]; [reflexivity|].
  cbn [List.map head is_plain_object fst snd].
  change (Object r (Some c) :: List.map (fun rc => Object (fst rc) (Some (snd rc))) objs)
    with (List.map (fun rc => Object (fst rc) (Some (snd rc))) ((r, c) :: objs)).
  rewrite rmap_get_Code. reflexivity.
Qed.

(** X29. The histogram does not depend on the order of the array: two arrays of
    codes, or of objects carrying codes, that hold the same elements in a
    different order give the same counts. *)
Theorem countHistogram_order_irrelevant :
  (forall codes codes' : list string,
     Permutation codes codes' ->
     fst (countHistogram (Array (List.map Str codes)))
     = fst (countHistogram (Array (List.map Str codes')))) /\
  (forall objs objs' : list (nat * string),
     Permutation objs objs' ->
     fst (countHistogram
            (Array (List.map (fun rc => Object (fst rc) (Some (snd rc))) objs)))
     = fst (countHistogram
              (Array (List.map (fun rc => Object (fst rc) (Some (snd rc))) objs')))).
Proof.
  assert (forall codes codes' : list string,
            Permutation codes codes' ->
            scan (sort_by default_le (List.map Str codes)) None ∅
            = scan (sort_by default_le (List.map Str codes')) None ∅) as Hscan.
  { intros codes codes' Hp. apply map_eq. intros k.
    rewrite !scan_codes, (occurrences_Permutation k _ _ Hp). reflexivity. }
  split.
  - intros codes codes' Hp. rewrite !countHistogram_codes, (Hscan _ _ Hp). reflexivity.
  - intros objs objs' Hp. rewrite !countHistogram_objects.
    rewrite (Hscan _ _ (Permutation_map snd Hp)). reflexivity.
Qed.

End HistogramOrderFacts.

(** ** The stopover flags of the returned coupons *)

Module StopoverFacts.
Import Js Doc Errors Tickets ErrorsSpec TicketsSpec ResultFacts JsFacts.
Import TicketsFacts TicketRecordFacts.

Lemma rmap_Forall2_flip {E A B} (f : A -> result E B) (l : list A) (ys : list B) :
  rmap f l = Ok ys -> Forall2 (fun y x => f x = Ok y) ys l.
Proof.
  revert ys. induction l as [|x l IH]; intros ys; simpl.
  - intros [= <-]. constructor.
  - intros Hb. apply rbind_Ok in Hb as (y & Hy & Hb).
    apply rbind_Ok in Hb as (ys' & Hys & [= <-]). constructor; auto.
Qed.

Lemma findIndex_NoDup {A} (key : A -> string) (l : list A) (i : nat) (x : A) :
  NoDup (List.map key l) -> l !! i = Some x ->
  findIndex (fun y => String.eqb (key y) (key x)) l = Some i.
Proof.
  revert i. induction l as [|y l IH]; intros i Hn Hi; [destruct i; discriminate|].
  simpl in Hn. apply NoDup_cons in Hn as [Hy Hn]. destruct i as [|i]; simpl in *.
  - injection Hi as ->. rewrite String.eqb_refl. reflexivity.
  - destruct (String.eqb_spec (key y) (key x)) as [He|Hne].
    + exfalso. apply Hy. rewrite He. apply list_elem_of_In, in_map.
      apply list_elem_of_In. eapply list_elem_of_lookup_2. exact Hi.
    + rewrite (IH i Hn Hi). reflexivity.
Qed.

Section Parser.
Context `{Utils}.
Variable formFareBasisCode : option AirPricingInfo -> Coupon -> option string.

Lemma allCoupons_flat (api : option AirPricingInfo) (raw : list Ticket)
    (all : list coupon) :
  allCoupons formFareBasisCode api raw = Ok all ->
  Forall2 (fun ac kc => key ac = fst kc /\ stopover ac = stopover_flag (snd kc))
    all (flat_coupons raw).
Proof.
  unfold allCoupons, flat_coupons. intros Hb.
  apply rbind_Ok in Hb as (chunks & Hc & [= <-]).
  revert chunks Hc. induction raw as [|T raw IH]; intros chunks; simpl.
  - intros [= <-]. constructor.
  - intros Hb. apply rbind_Ok in Hb as (chunk & Hchunk & Hb).
    apply rbind_Ok in Hb as (chunks' & Hchunks' & [= <-]).
    apply rbind_Ok in Hchunk as (cs & Hcs & [= <-]).
    destruct (air_Coupon T) as [cs'|]; [injection Hcs as ->|discriminate].
    cbn [concat]. apply Forall2_app; [|apply IH; exact Hchunks'].
    change (default [] (Some cs)) with cs.
    induction (obj_entries cs) as [|[k c] l IHl]; simpl; constructor; auto.
Qed.

Lemma returned_flat (api : option AirPricingInfo) (all : list coupon)
    (raw : list Ticket) (ts : list ticket) :
  rmap (returnedTicket api all) raw = Ok ts ->
  Forall2 (fun c kc => returnedCoupon api all (fst kc) = Ok c)
    (List.concat (List.map coupons ts)) (flat_coupons raw).
Proof.
  unfold flat_coupons.
  revert ts. induction raw as [|T raw IH]; intros ts; simpl.
  - intros [= <-]. constructor.
  - intros Hb. apply rbind_Ok in Hb as (t & Ht & Hb).
    apply rbind_Ok in Hb as (ts' & Hts' & [= <-]).
    cbn [List.map concat]. apply Forall2_app; [|apply IH; exact Hts'].
    unfold returnedTicket in Ht.
    apply rbind_Ok in Ht as (cs & Hcs & Ht).
    apply rbind_Ok in Ht as (cps & Hcps & [= <-]). cbn [coupons].
    destruct (air_Coupon T) as [cs'|]; [injection Hcs as ->|discriminate].
    change (default [] (Some cs)) with cs.
    apply rmap_Forall2_flip in Hcps. unfold obj_keys in Hcps.
    revert cps Hcps. induction (obj_entries cs) as [|kc l IHl]; intros cps Hcps;
      inversion Hcps; subst; constructor; auto.
Qed.

Lemma stopover_flag_true (c : Coupon) :
  stopover_flag c = true <-> stopover_code_true c.
Proof.
  unfold stopover_flag, stopover_code_true.
  destruct (StopoverCode c) as [s|]; [|split; discriminate].
  rewrite String.eqb_eq. split; congruence.
Qed.

(** C10, as the code has it. When no coupon key occurs twice in the ETR,
    the returned coupons, ticket after ticket, are laid out like the coupons
    of the document, and the stopover flag of each is not the one of its own
    stopover code: it tells whether the stopover code of the next coupon of
    the document says [true], and it is [true] for the last coupon. *)
Theorem coupon_stopover_is_next (etr : ETR) (obj : Response) (allow : bool)
    (r : ticketData) (ticketObj : jsobj Ticket) :
  getTicketFromEtr formFareBasisCode etr obj allow = Ok r ->
  air_Ticket etr = Some ticketObj ->
  NoDup (List.map fst (flat_coupons (obj_values ticketObj))) ->
  flags_of_next (flat_coupons (obj_values ticketObj))
    (List.concat (List.map coupons (tickets r))).
Proof.
  intros Hr Hto Hnd.
  destruct (getTicketFromEtr_Ok _ _ _ _ _ Hr)
    as (ticketObj' & all & ft & Hto' & Hall & Hts & _).
  rewrite Hto in Hto'. injection Hto' as <-.
  set (api := match air_AirPricingInfo etr with
              | Some o => firstInObj o
              | None => None
              end) in *.
  set (flat := flat_coupons (obj_values ticketObj)) in *.
  pose proof (allCoupons_flat _ _ _ Hall) as Hflat. fold flat in Hflat.
  pose proof (returned_flat _ _ _ _ Hts) as Hret. fold flat in Hret.
  assert (List.map key all = List.map fst flat) as Hkeys.
  { clearbody flat. clear -Hflat. induction Hflat as [|ac kc all flat [Hk _] _ IH];
      simpl; congruence. }
  split; [exact (Forall2_length _ _ _ Hret)|].
  intros i c Hc.
  destruct (Forall2_lookup_l _ _ _ _ _ Hret Hc) as ([k own] & Hi & Hrc).
  cbn [fst] in Hrc.
  destruct (Forall2_lookup_r _ _ _ _ _ Hflat Hi) as (ac & Hac & Hk & _).
  cbn [fst] in Hk.
  assert (findIndex (fun y => String.eqb (key y) k) all = Some i) as Hf.
  { rewrite <- Hk. apply findIndex_NoDup; [rewrite Hkeys; exact Hnd|exact Hac]. }
  unfold returnedCoupon in Hrc. rewrite Hf in Hrc. cbn [lift rbind] in Hrc.
  rewrite Hac in Hrc. cbn [lift rbind] in Hrc. injection Hrc as <-.
  cbn [key stopover with_stopover]. rewrite Hk. split; [eauto|].
  destruct (flat !! (i + 1)) as [[k' next]|] eqn:Hn.
  - destruct (Forall2_lookup_r _ _ _ _ _ Hflat Hn) as (n & Hn' & _ & Hs).
    rewrite Hn', Hs. apply stopover_flag_true.
  - assert (all !! (i + 1) = None) as ->; [|reflexivity].
    apply lookup_ge_None. rewrite (Forall2_length _ _ _ Hflat).
    apply lookup_ge_None. exact Hn.
Qed.

End Parser.

(** The coupons returned for [sample_etr]: the flags [true], [false],
    [false] of the stopover codes come back as [false], [false], [true]. *)
Lemma coupon_stopover_is_next_witness :
  exists r,
    getTicketFromEtr (fun _ _ => None) sample_etr empty_response false = Ok r /\
    List.map (fun t => List.map stopover (coupons t)) (tickets r)
    = [[false; false; true]] /\
    flags_of_next
      [("cpn1", sample_coupon "1" "KBP" "AMS" "true");
       ("cpn2", sample_coupon "2" "AMS" "LHR" "false");
       ("cpn3", sample_coupon "3" "LHR" "KBP" "false")]
      (List.concat (List.map coupons (tickets r))).
Proof.
  eexists. split; [vm_compute; reflexivity|]. split; [reflexivity|].
  refine (coupon_stopover_is_next (fun _ _ => None) sample_etr empty_response false
            _ _ ltac:(vm_compute; reflexivity) eq_refl _).
  apply (bool_decide_unpack _). vm_compute. exact I.
Defined.

(** C10 as stated fails. Each coupon is looked up by its key in the list of
    all coupons, so with a key that two tickets share the coupon found for
    the second ticket is the one of the first: the last coupon of
    [shared_key_etr] comes back with the flag of its own stopover code,
    [false], not with [true]. *)
Lemma last_coupon_stopover_of_shared_key :
  exists r,
    getTicketFromEtr (fun _ _ => None) shared_key_etr empty_response false = Ok r /\
    List.map (fun t => List.map stopover (coupons t)) (tickets r)
    = [[false]; [false]] /\
    stopover <$> last (List.concat (List.map coupons (tickets r))) = Some false.
Proof. eexists. split; [vm_compute; reflexivity|]. split; reflexivity. Qed.

End StopoverFacts.
(** ** The pricing solution as XML: what the call does to its argument *)

Module SolutionXmlFacts.
Import Js SolutionXml SolutionXmlSpec ResultFacts JsFacts SortFacts.

Section Facts.
Context `{Env}.










End Facts.


End SolutionXmlFacts.
